(** * wavlib: a shallow embedding of [wavlib.h] and its verification

    The development follows the header file top-down:

    - machine integers, bytes and the object representation of integers
      (little-endian, two's complement, as on the hosts the library is
      written for);
    - the part of [std::ifstream] that [WavFile::read] uses;
    - [WavFile] with [read] and [save];
    - [WavData<T>] with its converting constructor and [toWavFile];
    - IEEE-754 binary64 ([double]) on top of [SpecFloat], then [resample],
      [convertSample] and [reencode].

    Undefined behaviour of the C++ program (division by zero, an access
    outside a buffer, a floating-to-integer conversion whose value does not
    fit) is made explicit in the result type [outcome]. *)

From Stdlib Require Import String.
From Stdlib Require Import ZArith List Lia Bool.
From Stdlib Require Import Reals Lra.
From Stdlib Require Import Strings.Byte.
From Stdlib Require Import Floats.SpecFloat.
Import ListNotations.
Local Open Scope Z_scope.

(** ** Results of running a piece of the program *)

Inductive undefined : Set :=
| DivideByZero     (* integer division whose divisor is 0 *)
| OutOfBounds      (* read or write outside a vector's storage *)
| CastOutOfRange.  (* double to integer conversion, value not representable *)

Inductive outcome (A : Type) : Type :=
| Done (a : A)
| Undefined (u : undefined).

Arguments Done {A} a.
Arguments Undefined {A} u.

Definition bind {A B : Type} (m : outcome A) (k : A -> outcome B) : outcome B :=
  match m with
  | Done a => k a
  | Undefined u => Undefined u
  end.

Notation "x <- m ;; k" := (bind m (fun x => k))
  (at level 61, m at next level, right associativity).

(** What the library prints on [std::cerr]; one constructor per message. *)
Inductive message : Set :=
| CouldntOpenFile            (* "Couldn't open file: ..."           *)
| ChunkIDMustBeRIFF          (* "ChunkID must be 'RIFF'"            *)
| FormatMustBeWAVE           (* "Format must be 'WAVE'"             *)
| CouldntFindFmt             (* "Couldn't find 'fmt ' subchunk."    *)
| CouldntFindData            (* "Couldn't find 'data' subchunk."    *)
| ErrorOpeningOutputFile     (* "Error opening output file: ..."    *)
| BitDepthMismatch (file_bits type_bits : Z).
                             (* "Bit depth mismatch: file has ..."  *)

(** ** Fixed-width integers *)

Definition u16 (x : Z) : Z := x mod 2 ^ 16.
Definition u32 (x : Z) : Z := x mod 2 ^ 32.

(** [for (uint32_t i = 0; i < n; i++) body]: [count] iterations starting
    at index [i]. *)
Fixpoint for_loop {S : Type} (i : Z) (count : nat)
    (body : Z -> S -> outcome S) (s : S) : outcome S :=
  match count with
  | O => Done s
  | Datatypes.S k => s' <- body i s ;; for_loop (i + 1) k body s'
  end.

(** ** Bytes and object representations *)

Definition byte_val (b : byte) : Z := Z.of_N (Byte.to_N b).

Definition byte_of (z : Z) : byte :=
  match Byte.of_N (Z.to_N (z mod 256)) with
  | Some b => b
  | None => x00
  end.

(** The [n] bytes of an integer object holding [v], lowest byte first.
    Flooring division makes this the two's complement representation when
    [v] is negative. *)
Fixpoint le_encode (n : nat) (v : Z) : list byte :=
  match n with
  | O => []
  | S k => byte_of v :: le_encode k (v / 256)
  end.

(** The unsigned value of an object representation. *)
Fixpoint le_decode (bs : list byte) : Z :=
  match bs with
  | [] => 0
  | b :: t => byte_val b + 256 * le_decode t
  end.

Definition zeros (n : nat) : list byte := repeat x00 n.

(** Writing [src] over the start of the buffer [dst]. *)
Definition overlay (src dst : list byte) : list byte :=
  src ++ skipn (length src) dst.

(** [std::vector<T>::resize]: keeps what fits, value-initialises the rest
    ([d] is the value-initialised element). *)
Definition resize {A : Type} (d : A) (v : list A) (n : nat) : list A :=
  firstn n v ++ repeat d (n - length v).

(** [v[i]] as an rvalue and [v[i] = x] on a [std::vector]. *)
Definition vec_get {A : Type} (v : list A) (i : Z) : outcome A :=
  match nth_error v (Z.to_nat i) with
  | Some x => Done x
  | None => Undefined OutOfBounds
  end.

Definition vec_set {A : Type} (v : list A) (i : Z) (x : A) : outcome (list A) :=
  if (Z.to_nat i <? length v)%nat
  then Done (firstn (Z.to_nat i) v ++ x :: skipn (S (Z.to_nat i)) v)
  else Undefined OutOfBounds.

(** [std::memcpy] out of, and into, the storage of a byte vector at offset
    [off]. *)
Definition mem_read (buf : list byte) (off : Z) (n : nat) : outcome (list byte) :=
  if (Z.to_nat off + n <=? length buf)%nat
  then Done (firstn n (skipn (Z.to_nat off) buf))
  else Undefined OutOfBounds.

Definition mem_write (buf : list byte) (off : Z) (src : list byte)
  : outcome (list byte) :=
  if (Z.to_nat off + length src <=? length buf)%nat
  then Done (firstn (Z.to_nat off) buf ++ src
             ++ skipn (Z.to_nat off + length src) buf)
  else Undefined OutOfBounds.

(** [std::strncmp (a, b, n) == 0] on NUL-terminated buffers given with
    their terminator. *)
Fixpoint strncmp_eq (a b : list byte) (n : nat) {struct n} : bool :=
  match n with
  | O => true
  | S k =>
      match a, b with
      | x :: a', y :: b' =>
          if Byte.eqb x y
          then (if Byte.eqb x x00 then true else strncmp_eq a' b' k)
          else false
      | _, _ => false
      end
  end.

Definition c_str (s : string) : list byte := list_byte_of_string s ++ [x00].

(** ** The input stream

    [std::ifstream] opened in binary mode, reduced to what [read] uses.
    [rest] holds the bytes from the current position on.  The only flag kept
    is [failbit]: [istream::read] sets [eofbit] and [failbit] together, nothing
    in [read] clears [failbit], and every operation used here first checks
    [good ()] (after [seekg] has cleared [eofbit]).  A relative [seekg] past
    the end leaves the position there; the next [read] then gets nothing,
    which is what an empty [rest] gives. *)
Record ifstream : Type := { rest : list byte; failbit : bool }.

(** [file.read (buf, n)]: the bytes stored into [buf] (its [gcount ()] is
    their number) and the stream afterwards. *)
Definition stream_read (n : nat) (f : ifstream) : list byte * ifstream :=
  if failbit f then ([], f)
  else
    let got := firstn n (rest f) in
    (got, {| rest := skipn n (rest f); failbit := (length got <? n)%nat |}).

(** [file.seekg (off, std::ios::cur)] with [off >= 0]. *)
Definition seekg (off : nat) (f : ifstream) : ifstream :=
  if failbit f then f
  else {| rest := skipn off (rest f); failbit := false |}.

(** [file.read (reinterpret_cast<char *> (&x), sizeof (x))] for an integer
    object [x] of [width] bytes currently holding [old]. *)
Definition read_object (width : nat) (old : Z) (f : ifstream) : Z * ifstream :=
  let (got, f') := stream_read width f in
  (le_decode (overlay got (le_encode width old)), f').

(** ** [struct WavFile] *)

Module WavFile.

Record t : Type := {
  chunk_size : Z;
  num_channels : Z;
  sample_rate : Z;
  block_align : Z;
  bits_per_sample : Z;
  data_size : Z;
  num_samples : Z;
  raw_data : list byte
}.

(** A default-constructed [WavFile]. *)
Definition default : t :=
  {| chunk_size := 0; num_channels := 0; sample_rate := 0; block_align := 0;
     bits_per_sample := 0; data_size := 0; num_samples := 0; raw_data := [] |}.

Definition with_chunk_size (w : t) (v : Z) : t :=
  {| chunk_size := v; num_channels := num_channels w;
     sample_rate := sample_rate w; block_align := block_align w;
     bits_per_sample := bits_per_sample w; data_size := data_size w;
     num_samples := num_samples w; raw_data := raw_data w |}.

Definition with_num_samples (w : t) (v : Z) : t :=
  {| chunk_size := chunk_size w; num_channels := num_channels w;
     sample_rate := sample_rate w; block_align := block_align w;
     bits_per_sample := bits_per_sample w; data_size := data_size w;
     num_samples := v; raw_data := raw_data w |}.

(** *** [WavFile::read] *)

(** The variables live across the sub-chunk loop. *)
Record scan : Type := {
  file : ifstream;
  self : t;
  foundFmt : bool;
  foundData : bool
}.

(** The body of the ["fmt "] branch. *)
Definition read_fmt (subchunk_size : Z) (f : ifstream) (w : t) : ifstream * t :=
  let '(_, f) := read_object 2 0 f in                     (* audioFormat *)
  let '(nc, f) := read_object 2 (num_channels w) f in
  let '(sr, f) := read_object 4 (sample_rate w) f in
  let f := seekg 4 f in                                   (* skip ByteRate *)
  let '(ba, f) := read_object 2 (block_align w) f in
  let '(bps, f) := read_object 2 (bits_per_sample w) f in
  let f := if 16 <? subchunk_size
           then seekg (Z.to_nat (u32 (subchunk_size - 16))) f else f in
  (f, {| chunk_size := chunk_size w; num_channels := nc; sample_rate := sr;
         block_align := ba; bits_per_sample := bps; data_size := data_size w;
         num_samples := num_samples w; raw_data := raw_data w |}).

(** The body of the ["data"] branch. *)
Definition read_data (subchunk_size : Z) (f : ifstream) (w : t) : ifstream * t :=
  let buf := resize x00 (raw_data w) (Z.to_nat subchunk_size) in
  let '(got, f) := stream_read (Z.to_nat subchunk_size) f in
  (f, {| chunk_size := chunk_size w; num_channels := num_channels w;
         sample_rate := sample_rate w; block_align := block_align w;
         bits_per_sample := bits_per_sample w; data_size := subchunk_size;
         num_samples := num_samples w; raw_data := overlay got buf |}).

(** The [while] loop.  Every iteration that does not leave the loop has read
    a four-byte tag, so [fuel] above the number of remaining bytes is never
    used up ([read_subchunks_enough_fuel] below); [None] is "out of fuel". *)
Fixpoint read_subchunks (fuel : nat) (st : scan) : option scan :=
  if negb (failbit (file st)) && (negb (foundFmt st) || negb (foundData st))
  then
    let '(got, f) := stream_read 4 (file st) in
    let subchunkID := overlay got (zeros 5) in
    if (length got <? 4)%nat
    then Some {| file := f; self := self st;
                 foundFmt := foundFmt st; foundData := foundData st |}
    else
      match fuel with
      | O => None
      | S fuel' =>
          let '(subchunk_size, f) := read_object 4 0 f in
          if strncmp_eq subchunkID (c_str "fmt ") 4
          then
            let '(f, w) := read_fmt subchunk_size f (self st) in
            read_subchunks fuel'
              {| file := f; self := w; foundFmt := true;
                 foundData := foundData st |}
          else if strncmp_eq subchunkID (c_str "data") 4
          then
            let '(f, w) := read_data subchunk_size f (self st) in
            read_subchunks fuel'
              {| file := f; self := w; foundFmt := foundFmt st;
                 foundData := true |}
          else
            read_subchunks fuel'
              {| file := seekg (Z.to_nat subchunk_size) f; self := self st;
                 foundFmt := foundFmt st; foundData := foundData st |}
      end
  else Some st.

(** What a call of [read] leaves behind: the value returned, what was
    printed, and the object it was called on. *)
Record read_result : Type := {
  returned : bool;
  cerr : list message;
  this : t
}.

Definition fail_with (m : message) (w : t) : outcome read_result :=
  Done {| returned := false; cerr := [m]; this := w |}.

(** What follows the loop: the two checks and the division. *)
Definition after_subchunks (st : scan) : outcome read_result :=
  let w := self st in
  if negb (foundFmt st) then fail_with CouldntFindFmt w
  else if negb (foundData st) then fail_with CouldntFindData w
  else if block_align w =? 0 then Undefined DivideByZero
  else Done {| returned := true; cerr := [];
               this := with_num_samples w (data_size w / block_align w) |}.

(** [w.read (filePath)], where [contents] is what is stored under
    [filePath] ([None] when the file cannot be opened).  The outer [option]
    is the fuel of the loop; [read_total] shows it is always [Some]. *)
Definition read (w : t) (contents : option (list byte))
  : option (outcome read_result) :=
  match contents with
  | None => Some (fail_with CouldntOpenFile w)
  | Some bytes =>
      let f := {| rest := bytes; failbit := false |} in
      let '(got, f) := stream_read 4 f in
      let chunkID := overlay got (zeros 5) in
      if negb (strncmp_eq chunkID (c_str "RIFF") 4)
      then Some (fail_with ChunkIDMustBeRIFF w)
      else
        let '(cs, f) := read_object 4 (chunk_size w) f in
        let w := with_chunk_size w cs in
        let '(got, f) := stream_read 4 f in
        let format := overlay got (zeros 5) in
        if negb (strncmp_eq format (c_str "WAVE") 4)
        then Some (fail_with FormatMustBeWAVE w)
        else
          option_map after_subchunks
            (read_subchunks (S (length (rest f)))
               {| file := f; self := w; foundFmt := false; foundData := false |})
  end.

(** *** [WavFile::save] *)

Record save_result : Type := {
  save_returned : bool;
  save_cerr : list message;
  written : list byte   (* the contents of the output file *)
}.

(** [w.save (filePath)]; [can_open] tells whether the output file can be
    opened.  The last [write] takes [data_size] bytes from the storage of
    [raw_data]. *)
Definition save (w : t) (can_open : bool) : outcome save_result :=
  if negb can_open
  then Done {| save_returned := false; save_cerr := [ErrorOpeningOutputFile];
               written := [] |}
  else
    let subchunk1Size := 16 in
    let audioFormat := 1 in
    let bytesPerSample := u16 (bits_per_sample w / 8) in
    let localBlockAlign := u16 (num_channels w * bytesPerSample) in
    let byteRate := u32 (sample_rate w * localBlockAlign) in
    payload <- mem_read (raw_data w) 0 (Z.to_nat (data_size w)) ;;
    Done {| save_returned := true; save_cerr := [];
            written :=
              list_byte_of_string "RIFF"
              ++ le_encode 4 (chunk_size w)
              ++ list_byte_of_string "WAVE"
              ++ list_byte_of_string "fmt "
              ++ le_encode 4 subchunk1Size
              ++ le_encode 2 audioFormat
              ++ le_encode 2 (num_channels w)
              ++ le_encode 4 (sample_rate w)
              ++ le_encode 4 byteRate
              ++ le_encode 2 localBlockAlign
              ++ le_encode 2 (bits_per_sample w)
              ++ list_byte_of_string "data"
              ++ le_encode 4 (data_size w)
              ++ payload |}.

End WavFile.

(** ** Sample types

    The fixed-width integer types of [<cstdint>] that [T], [From] and [To]
    range over. *)
Inductive sample_type : Set :=
| int8_t | int16_t | int32_t | int64_t
| uint8_t | uint16_t | uint32_t | uint64_t.

Definition sizeof (T : sample_type) : nat :=
  match T with
  | int8_t | uint8_t => 1
  | int16_t | uint16_t => 2
  | int32_t | uint32_t => 4
  | int64_t | uint64_t => 8
  end%nat.

Definition is_signed (T : sample_type) : bool :=
  match T with
  | int8_t | int16_t | int32_t | int64_t => true
  | _ => false
  end.

Definition bit_width (T : sample_type) : Z := Z.of_nat (sizeof T) * 8.

(** [std::numeric_limits<T>::min ()] and [max ()]. *)
Definition numeric_min (T : sample_type) : Z :=
  if is_signed T then - 2 ^ (bit_width T - 1) else 0.

Definition numeric_max (T : sample_type) : Z :=
  if is_signed T then 2 ^ (bit_width T - 1) - 1 else 2 ^ bit_width T - 1.

(** The value of a [T] object whose bytes are [bs], and the bytes of a [T]
    object holding [v]. *)
Definition from_object (T : sample_type) (bs : list byte) : Z :=
  let u := le_decode bs in
  if is_signed T && (2 ^ (bit_width T - 1) <=? u) then u - 2 ^ bit_width T else u.

Definition to_object (T : sample_type) (v : Z) : list byte :=
  le_encode (sizeof T) v.

(** ** [struct WavData<T>] *)

Module WavData.

Record t : Type := {
  sample_rate : Z;
  num_channels : Z;
  bits_per_sample : Z;
  num_samples : Z;
  channel1 : list Z;
  channel2 : list Z
}.

Definition with_channels (d : t) (c1 c2 : list Z) : t :=
  {| sample_rate := sample_rate d; num_channels := num_channels d;
     bits_per_sample := bits_per_sample d; num_samples := num_samples d;
     channel1 := c1; channel2 := c2 |}.

(** A constructor prints and leaves an object. *)
Record constructed : Type := {
  cerr : list message;
  object : t
}.

(** The body of the extraction loop, on the pair of channels. *)
Definition extract (T : sample_type) (wf : WavFile.t) (i : Z)
    (ch : list Z * list Z) : outcome (list Z * list Z) :=
  let blockAlign := u32 (WavFile.block_align wf) in
  let samplePtr := u32 (i * blockAlign) in
  left <- mem_read (WavFile.raw_data wf) samplePtr (sizeof T) ;;
  c1 <- vec_set (fst ch) i (from_object T left) ;;
  if WavFile.num_channels wf =? 2
  then
    right <- mem_read (WavFile.raw_data wf)
               (samplePtr + Z.of_nat (sizeof T)) (sizeof T) ;;
    c2 <- vec_set (snd ch) i (from_object T right) ;;
    Done (c1, c2)
  else Done (c1, snd ch).

(** [WavData<T>::WavData (const WavFile &wf)]. *)
Definition WavData (T : sample_type) (wf : WavFile.t) : outcome constructed :=
  let d := {| sample_rate := WavFile.sample_rate wf;
              num_channels := WavFile.num_channels wf;
              bits_per_sample := WavFile.bits_per_sample wf;
              num_samples := WavFile.num_samples wf;
              channel1 := []; channel2 := [] |} in
  if negb (bits_per_sample d =? bit_width T)
  then Done {| cerr := [BitDepthMismatch (bits_per_sample d) (bit_width T)];
               object := d |}
  else
    let n := Z.to_nat (num_samples d) in
    let c1 := resize 0 (channel1 d) n in
    let c2 := if num_channels d =? 2 then resize 0 (channel2 d) n
              else channel2 d in
    ch <- for_loop 0 n (extract T wf) (c1, c2) ;;
    Done {| cerr := []; object := with_channels d (fst ch) (snd ch) |}.

(** The body of the interleaving loop, on the bytes of [wf.raw_data]. *)
Definition interleave (T : sample_type) (d : t) (block_align : Z) (i : Z)
    (raw : list byte) : outcome (list byte) :=
  let dest := u32 (i * block_align) in
  s1 <- vec_get (channel1 d) i ;;
  raw <- mem_write raw dest (to_object T s1) ;;
  if num_channels d =? 2
  then
    s2 <- vec_get (channel2 d) i ;;
    mem_write raw (dest + Z.of_nat (sizeof T)) (to_object T s2)
  else Done raw.

(** [WavData<T>::toWavFile ()]. *)
Definition toWavFile (T : sample_type) (d : t) : outcome WavFile.t :=
  let block_align := u16 (num_channels d * (bits_per_sample d / 8)) in
  let data_size := u32 (num_samples d * block_align) in
  let raw0 := resize x00 [] (Z.to_nat data_size) in
  raw <- for_loop 0 (Z.to_nat (num_samples d))
           (interleave T d block_align) raw0 ;;
  Done {| WavFile.chunk_size := u32 (36 + data_size);
          WavFile.num_channels := num_channels d;
          WavFile.sample_rate := sample_rate d;
          WavFile.block_align := block_align;
          WavFile.bits_per_sample := bits_per_sample d;
          WavFile.data_size := data_size;
          WavFile.num_samples := num_samples d;
          WavFile.raw_data := raw |}.

(** [WavData<T>::save (filePath)]. *)
Definition save (T : sample_type) (d : t) (can_open : bool)
  : outcome WavFile.save_result :=
  wf <- toWavFile T d ;; WavFile.save wf can_open.

End WavData.

(** ** [double]

    IEEE-754 binary64 as specified by [SpecFloat] (precision 53, exponent
    bound 1024, round to nearest even), which is what the arithmetic of the
    C++ program computes on the usual hosts. *)

Module double.

Definition prec : Z := 53.
Definition emax : Z := 1024.

Definition t : Set := spec_float.

Definition zero : t := S754_zero false.   (* the literal [0.0] *)
Definition one : t := SFone prec emax.    (* the literal [1.0] *)

Definition add : t -> t -> t := SFadd prec emax.
Definition sub : t -> t -> t := SFsub prec emax.
Definition mul : t -> t -> t := SFmul prec emax.
Definition div : t -> t -> t := SFdiv prec emax.

(** [static_cast<double> (z)] for an integer [z]. *)
Definition of_Z (z : Z) : t := binary_normalize prec emax z 0 false.

(** An integer with the sign of a double: [-0.0] when the magnitude
    vanishes under a negative sign. *)
Definition of_sign_mag (s : bool) (mag : Z) : t :=
  if mag =? 0 then S754_zero s
  else binary_normalize prec emax (if s then - mag else mag) 0 false.

(** [std::floor]. *)
Definition floor (x : t) : t :=
  match x with
  | S754_finite s m e =>
      if 0 <=? e then x
      else
        let q := Z.pos m / 2 ^ (- e) in
        let r := Z.pos m mod 2 ^ (- e) in
        if s then of_sign_mag true (if r =? 0 then q else q + 1)
        else of_sign_mag false q
  | _ => x
  end.

(** [std::round]: to the nearest integer, halfway cases away from zero. *)
Definition round (x : t) : t :=
  match x with
  | S754_finite s m e =>
      if 0 <=? e then x
      else
        let q := Z.pos m / 2 ^ (- e) in
        let r := Z.pos m mod 2 ^ (- e) in
        of_sign_mag s (if 2 ^ (- e) <=? 2 * r then q + 1 else q)
  | _ => x
  end.

(** The integer a finite double is truncated to. *)
Definition trunc (x : t) : option Z :=
  match x with
  | S754_zero _ => Some 0
  | S754_finite s m e =>
      let mag := if 0 <=? e then Z.pos m * 2 ^ e else Z.pos m / 2 ^ (- e) in
      Some (if s then - mag else mag)
  | _ => None
  end.

(** [static_cast<T> (x)]: truncation; undefined unless the truncated value
    is a value of [T]. *)
Definition cast_to (T : sample_type) (x : t) : outcome Z :=
  match trunc x with
  | Some v =>
      if (numeric_min T <=? v) && (v <=? numeric_max T) then Done v
      else Undefined CastOutOfRange
  | None => Undefined CastOutOfRange
  end.

(** The real number a finite double stands for, powers of two, and the
    relative error of one rounding as the proofs below bound it. *)
Definition bpow (e : Z) : R := powerRZ 2 e.

Definition value (x : t) : R :=
  match x with
  | S754_finite s m e => ((if s then -1 else 1) * IZR (Z.pos m) * bpow e)%R
  | _ => 0%R
  end.

Definition ulp_rel : R := bpow (-52).

End double.

(** A zero, or a normal double with its exponent in a range; the proofs on
    sums and products below keep track of this. *)
Definition finite_in (lo hi : Z) (x : double.t) : Prop :=
  match x with
  | S754_zero _ => True
  | S754_finite _ m e => Z.pos (digits2_pos m) = 53 /\ lo <= e <= hi
  | _ => False
  end.

(** ** [resample] *)

(** One linearly interpolated output sample of a channel. *)
Definition interpolate (T : sample_type) (channel : list Z)
    (index0 index1 : Z) (frac : double.t) : outcome Z :=
  s0 <- vec_get channel index0 ;;
  s1 <- vec_get channel index1 ;;
  let interp :=
    double.add (double.mul (double.sub double.one frac) (double.of_Z s0))
               (double.mul frac (double.of_Z s1)) in
  double.cast_to T (double.round interp).

Definition source_index (ratio : double.t) (i : Z) : double.t :=
  double.div (double.of_Z i) ratio.

Definition resample_index0 (ratio : double.t) (i : Z) : outcome Z :=
  double.cast_to uint32_t (double.floor (source_index ratio i)).

Definition resample_index1 (input : WavData.t) (index0 : Z) : Z :=
  if u32 (index0 + 1) <? WavData.num_samples input
  then u32 (index0 + 1) else index0.

(** The body of the loop of [resample], on the channels of [output]. *)
Definition resample_body (T : sample_type) (input : WavData.t)
    (ratio : double.t) (i : Z) (ch : list Z * list Z)
  : outcome (list Z * list Z) :=
  let src_index := source_index ratio i in
  index0 <- resample_index0 ratio i ;;
  let index1 := resample_index1 input index0 in
  let frac := double.sub src_index (double.of_Z index0) in
  v1 <- interpolate T (WavData.channel1 input) index0 index1 frac ;;
  c1 <- vec_set (fst ch) i v1 ;;
  if WavData.num_channels input =? 2
  then
    v2 <- interpolate T (WavData.channel2 input) index0 index1 frac ;;
    c2 <- vec_set (snd ch) i v2 ;;
    Done (c1, c2)
  else Done (c1, snd ch).

Definition resample_ratio (input : WavData.t) (new_sample_rate : Z) : double.t :=
  double.div (double.of_Z new_sample_rate)
             (double.of_Z (WavData.sample_rate input)).

Definition resample_newNumSamples (input : WavData.t) (new_sample_rate : Z)
  : outcome Z :=
  double.cast_to uint32_t
    (double.mul (double.of_Z (WavData.num_samples input))
                (resample_ratio input new_sample_rate)).

(** [resample<T> (input, new_sample_rate)]. *)
Definition resample (T : sample_type) (input : WavData.t) (new_sample_rate : Z)
  : outcome WavData.t :=
  let ratio := resample_ratio input new_sample_rate in
  newNumSamples <- resample_newNumSamples input new_sample_rate ;;
  let n := Z.to_nat newNumSamples in
  let c1 := resize 0 (WavData.channel1 input) n in
  let c2 := if WavData.num_channels input =? 2
            then resize 0 (WavData.channel2 input) n
            else WavData.channel2 input in
  ch <- for_loop 0 n (resample_body T input ratio) (c1, c2) ;;
  Done {| WavData.sample_rate := new_sample_rate;
          WavData.num_channels := WavData.num_channels input;
          WavData.bits_per_sample := WavData.bits_per_sample input;
          WavData.num_samples := newNumSamples;
          WavData.channel1 := fst ch;
          WavData.channel2 := snd ch |}.

(** ** [convertSample] and [reencode] *)

Definition range_min (T : sample_type) : double.t :=
  if is_signed T then double.of_Z (numeric_min T) else double.zero.

Definition range_max (T : sample_type) : double.t :=
  double.of_Z (numeric_max T).

(** [convertSample<From, To> (sample)]. *)
Definition convertSample (From To : sample_type) (sample : Z) : outcome Z :=
  let fSample := double.of_Z sample in
  let fromMin := range_min From in
  let fromMax := range_max From in
  let toMin := range_min To in
  let toMax := range_max To in
  let normalized :=
    double.div (double.sub fSample fromMin) (double.sub fromMax fromMin) in
  let result :=
    double.add (double.mul normalized (double.sub toMax toMin)) toMin in
  double.cast_to To (double.round result).

(** The body of the loop of [reencode]. *)
Definition reencode_body (From To : sample_type) (input : WavData.t) (i : Z)
    (ch : list Z * list Z) : outcome (list Z * list Z) :=
  s1 <- vec_get (WavData.channel1 input) i ;;
  v1 <- convertSample From To s1 ;;
  c1 <- vec_set (fst ch) i v1 ;;
  if WavData.num_channels input =? 2
  then
    s2 <- vec_get (WavData.channel2 input) i ;;
    v2 <- convertSample From To s2 ;;
    c2 <- vec_set (snd ch) i v2 ;;
    Done (c1, c2)
  else Done (c1, snd ch).

(** [reencode<From, To> (input)]. *)
Definition reencode (From To : sample_type) (input : WavData.t)
  : outcome WavData.t :=
  let n := Z.to_nat (WavData.num_samples input) in
  let c1 := resize 0 [] n in
  let c2 := if WavData.num_channels input =? 2 then resize 0 [] n else [] in
  ch <- for_loop 0 n (reencode_body From To input) (c1, c2) ;;
  Done {| WavData.sample_rate := WavData.sample_rate input;
          WavData.num_channels := WavData.num_channels input;
          WavData.bits_per_sample := u16 (bit_width To);
          WavData.num_samples := WavData.num_samples input;
          WavData.channel1 := fst ch;
          WavData.channel2 := snd ch |}.

(** The sample [convertSample] returns, for stating what [reencode]
    stores; [0] stands for a conversion that is undefined. *)
Definition converted (From To : sample_type) (v : Z) : Z :=
  match convertSample From To v with
  | Done r => r
  | Undefined _ => 0
  end.

(** The image of a sample under the affine map of [convertSample], from
    the range of [From] onto the range of [To], as a real number. *)
Definition rescaled (From To : sample_type) (v : Z) : R :=
  (IZR (numeric_min To)
   + IZR (v - numeric_min From) * IZR (numeric_max To - numeric_min To)
     / IZR (numeric_max From - numeric_min From))%R.

(** ** Well-formed [WavData<T>] objects

    The members are in the range of their types, each channel in use holds
    [num_samples] samples, and the samples are values of [T]. *)

Definition in_range (T : sample_type) (v : Z) : Prop :=
  numeric_min T <= v <= numeric_max T.

Definition typed (T : sample_type) (x : WavData.t) : Prop :=
  0 <= WavData.sample_rate x < 2 ^ 32
  /\ 0 <= WavData.num_samples x < 2 ^ 32
  /\ length (WavData.channel1 x) = Z.to_nat (WavData.num_samples x)
  /\ (WavData.num_channels x = 2 ->
      length (WavData.channel2 x) = Z.to_nat (WavData.num_samples x))
  /\ Forall (in_range T) (WavData.channel1 x)
  /\ Forall (in_range T) (WavData.channel2 x).

(** The channels a run of [resample] works on: [n] samples, all values of
    [T]; [channel2] is touched only when stereo. *)
Definition resampling (T : sample_type) (x : WavData.t) (n : nat)
    (ch : list Z * list Z) : Prop :=
  length (fst ch) = n /\ Forall (in_range T) (fst ch)
  /\ (WavData.num_channels x = 2 ->
      length (snd ch) = n /\ Forall (in_range T) (snd ch))
  /\ (WavData.num_channels x <> 2 -> snd ch = WavData.channel2 x).

(** ** [main] of [test.cpp]

    The program reads one fixed path and writes another; [input] is what
    is stored under the first ([None] when it cannot be opened) and
    [can_open] tells whether the second can be opened for writing.  What it
    prints on [std::cout] and [std::cerr] is kept in program order, one
    constructor per line. *)
Inductive line : Set :=
| Cerr (m : message)           (* a line the library printed             *)
| ErrorReadingWav              (* "Error reading WAV file."              *)
| FileInfo (channels rate bits samples : Z)
                               (* "Channels: ..., Sample Rate: ..., ..." *)
| SavedSuccessfully            (* "WAV file saved successfully."         *)
| FailedToSave                 (* "Failed to save WAV file."             *)
| ResampledRate (rate : Z)     (* "Resampled sample rate: ..."           *)
| ReencodedDepth (bits : Z).   (* "Re-encoded bit depth: ... bits."      *)

Record main_result : Type := {
  exit_code : Z;
  printed : list line;
  output_file : option (list byte)
}.

Definition main_after_read (r : WavFile.read_result) (can_open : bool)
  : outcome main_result :=
  if negb (WavFile.returned r)
  then Done {| exit_code := 1;
               printed := map Cerr (WavFile.cerr r) ++ [ErrorReadingWav];
               output_file := None |}
  else
    let wf := WavFile.this r in
    c <- WavData.WavData int32_t wf ;;
    let data := WavData.object c in
    generatedWav <- WavData.toWavFile int32_t data ;;
    s <- WavFile.save generatedWav can_open ;;
    resampledData <- resample int32_t data 22050 ;;
    reencodedData <- reencode int32_t int16_t data ;;
    Done {| exit_code := 0;
            printed :=
              map Cerr (WavFile.cerr r)
              ++ [FileInfo (WavFile.num_channels wf) (WavFile.sample_rate wf)
                    (WavFile.bits_per_sample wf) (WavFile.num_samples wf)]
              ++ map Cerr (WavData.cerr c)
              ++ (if WavFile.save_returned s then [SavedSuccessfully]
                  else map Cerr (WavFile.save_cerr s) ++ [FailedToSave])
              ++ [ResampledRate (WavData.sample_rate resampledData);
                  ReencodedDepth (WavData.bits_per_sample reencodedData)];
            output_file :=
              if WavFile.save_returned s then Some (WavFile.written s)
              else None |}.

Definition main (input : option (list byte)) (can_open : bool)
  : option (outcome main_result) :=
  match WavFile.read WavFile.default input with
  | None => None
  | Some (Undefined u) => Some (Undefined u)
  | Some (Done r) => Some (main_after_read r can_open)
  end.

(** ** The layout of the files [read] is given

    Sub-chunks as the comment at the head of [wavlib.h] lays them out: a
    four-byte tag, the length of the body in four bytes, the body.  These
    definitions describe inputs; [read] itself only sees bytes. *)

Inductive chunk : Type :=
| FmtChunk (audioFormat numChannels sampleRate byteRate blockAlign
            bitsPerSample : Z) (extension : list byte)
| DataChunk (body : list byte)
| OtherChunk (tag body : list byte).

Definition chunk_bytes (c : chunk) : list byte :=
  match c with
  | FmtChunk af nc sr br ba bps ext =>
      list_byte_of_string "fmt " ++ le_encode 4 (16 + Z.of_nat (length ext))
      ++ le_encode 2 af ++ le_encode 2 nc ++ le_encode 4 sr ++ le_encode 4 br
      ++ le_encode 2 ba ++ le_encode 2 bps ++ ext
  | DataChunk body =>
      list_byte_of_string "data" ++ le_encode 4 (Z.of_nat (length body)) ++ body
  | OtherChunk tag body =>
      tag ++ le_encode 4 (Z.of_nat (length body)) ++ body
  end.

Definition chunks_bytes (cs : list chunk) : list byte :=
  flat_map chunk_bytes cs.

Fixpoint bytes_eqb (a b : list byte) : bool :=
  match a, b with
  | [], [] => true
  | x :: a', y :: b' => Byte.eqb x y && bytes_eqb a' b'
  | _, _ => false
  end.

(** The length of a body fits the 32-bit length field, and a chunk that is
    neither ["fmt "] nor ["data"] has a four-byte tag other than these. *)
Definition chunk_ok (c : chunk) : bool :=
  match c with
  | FmtChunk _ _ _ _ _ _ ext => 16 + Z.of_nat (length ext) <? 2 ^ 32
  | DataChunk body => Z.of_nat (length body) <? 2 ^ 32
  | OtherChunk tag body =>
      (length tag =? 4)%nat
      && negb (bytes_eqb tag (list_byte_of_string "fmt "))
      && negb (bytes_eqb tag (list_byte_of_string "data"))
      && (Z.of_nat (length body) <? 2 ^ 32)
  end.

Definition is_fmt (c : chunk) : bool :=
  match c with FmtChunk _ _ _ _ _ _ _ => true | _ => false end.

Definition is_data (c : chunk) : bool :=
  match c with DataChunk _ => true | _ => false end.

(** The [block_align] a chunk declares, if it is a ["fmt "] chunk. *)
Definition declared_block_align (c : chunk) : option Z :=
  match c with
  | FmtChunk _ _ _ _ ba _ _ => Some (u16 ba)
  | _ => None
  end.

(** What one well-formed sub-chunk does to the container, and what a
    sequence of them does to the container and the two flags of the loop;
    [read_subchunks_walk] below proves that the loop of [read] computes
    this. *)
Definition absorb (c : chunk) (w : WavFile.t) : WavFile.t :=
  match c with
  | FmtChunk _ nc sr _ ba bps _ =>
      {| WavFile.chunk_size := WavFile.chunk_size w;
         WavFile.num_channels := u16 nc;
         WavFile.sample_rate := u32 sr;
         WavFile.block_align := u16 ba;
         WavFile.bits_per_sample := u16 bps;
         WavFile.data_size := WavFile.data_size w;
         WavFile.num_samples := WavFile.num_samples w;
         WavFile.raw_data := WavFile.raw_data w |}
  | DataChunk body =>
      {| WavFile.chunk_size := WavFile.chunk_size w;
         WavFile.num_channels := WavFile.num_channels w;
         WavFile.sample_rate := WavFile.sample_rate w;
         WavFile.block_align := WavFile.block_align w;
         WavFile.bits_per_sample := WavFile.bits_per_sample w;
         WavFile.data_size := Z.of_nat (length body);
         WavFile.num_samples := WavFile.num_samples w;
         WavFile.raw_data := body |}
  | OtherChunk _ _ => w
  end.

Fixpoint walk (cs : list chunk) (w : WavFile.t) (foundFmt foundData : bool)
  : WavFile.t * bool * bool :=
  match cs with
  | [] => (w, foundFmt, foundData)
  | c :: cs' =>
      if foundFmt && foundData then (w, foundFmt, foundData)
      else walk cs' (absorb c w) (foundFmt || is_fmt c) (foundData || is_data c)
  end.

Definition is_other (c : chunk) : bool :=
  match c with OtherChunk _ _ => true | _ => false end.

(** Whether a chunk, if it is a ["fmt "] chunk, declares a [block_align]
    of zero, and whether it declares one that is not zero. *)
Definition zero_block_align (c : chunk) : bool :=
  match declared_block_align c with
  | Some ba => ba =? 0
  | None => true
  end.

Definition nonzero_block_align (c : chunk) : bool :=
  match declared_block_align c with
  | Some ba => negb (ba =? 0)
  | None => true
  end.

(** The value of the [T] object at byte offset [off] of a payload; the
    constructor of [WavData<T>] is shown below to fill the channels with
    these values. *)
Definition sample_at (T : sample_type) (raw : list byte) (off : nat) : Z :=
  from_object T (firstn (sizeof T) (skipn off raw)).

(** The number of channels the constructor and [toWavFile] handle. *)
Definition channels_used (num_channels : Z) : nat :=
  if num_channels =? 2 then 2%nat else 1%nat.

(** The members a sub-chunk loop has set are in the range of their types,
    and [raw_data] holds [data_size] bytes. *)
Definition scanned (st : WavFile.scan) : Prop :=
  let w := WavFile.self st in
  (WavFile.foundFmt st = true ->
   0 <= WavFile.num_channels w < 2 ^ 16 /\ 0 <= WavFile.sample_rate w < 2 ^ 32
   /\ 0 <= WavFile.block_align w < 2 ^ 16
   /\ 0 <= WavFile.bits_per_sample w < 2 ^ 16)
  /\ (WavFile.foundData st = true ->
      0 <= WavFile.data_size w < 2 ^ 32
      /\ Z.of_nat (length (WavFile.raw_data w)) = WavFile.data_size w).

(** ** Inputs used in the examples below *)

Definition riff_header (chunk_size : Z) : list byte :=
  list_byte_of_string "RIFF" ++ le_encode 4 chunk_size
  ++ list_byte_of_string "WAVE".

(** Mono, 8000 Hz, 16 bits, and the four samples 0, 1000, -1000, 32767. *)
Definition fmt_mono16 : list byte :=
  list_byte_of_string "fmt " ++ le_encode 4 16 ++ le_encode 2 1
  ++ le_encode 2 1 ++ le_encode 4 8000 ++ le_encode 4 16000
  ++ le_encode 2 2 ++ le_encode 2 16.

Definition four_samples : list byte :=
  le_encode 2 0 ++ le_encode 2 1000 ++ le_encode 2 (-1000) ++ le_encode 2 32767.

Definition data_four_samples : list byte :=
  list_byte_of_string "data" ++ le_encode 4 8 ++ four_samples.

(** A file with a [LIST] sub-chunk of four bytes between ["fmt "] and
    ["data"]: 56 bytes follow the first eight. *)
Definition file_with_list_chunk : list byte :=
  riff_header 56 ++ fmt_mono16
  ++ (list_byte_of_string "LIST" ++ le_encode 4 4 ++ list_byte_of_string "INFO")
  ++ data_four_samples.

(** The container [read] makes of the canonical file with the four samples. *)
Definition mono16_container : WavFile.t :=
  {| WavFile.chunk_size := 44; WavFile.num_channels := 1;
     WavFile.sample_rate := 8000; WavFile.block_align := 2;
     WavFile.bits_per_sample := 16; WavFile.data_size := 8;
     WavFile.num_samples := 4; WavFile.raw_data := four_samples |}.

(** The same header and ["fmt "] chunk, then a ["data"] chunk that declares
    eight bytes of which the file holds two. *)
Definition file_with_truncated_data : list byte :=
  riff_header 44 ++ fmt_mono16
  ++ list_byte_of_string "data" ++ le_encode 4 8 ++ le_encode 2 7.

Definition fmt_chunk_mono16 : chunk := FmtChunk 1 1 8000 16000 2 16 [].

Definition fmt_chunk_zero_align : chunk := FmtChunk 1 1 8000 16000 0 16 [].

Definition list_chunk : chunk :=
  OtherChunk (list_byte_of_string "LIST") (list_byte_of_string "INFO").

(** Two channels of 16 bits with a stored block alignment of 3, and a
    payload of ten bytes: [read] would give [num_samples = 10 / 3 = 3]. *)
Definition odd_align_container : WavFile.t :=
  {| WavFile.chunk_size := 46; WavFile.num_channels := 2;
     WavFile.sample_rate := 8000; WavFile.block_align := 3;
     WavFile.bits_per_sample := 16; WavFile.data_size := 10;
     WavFile.num_samples := 3;
     WavFile.raw_data := four_samples ++ le_encode 2 5 |}.

(** The same with nine bytes of payload, which is three frames of three
    bytes exactly. *)
Definition short_align_container : WavFile.t :=
  {| WavFile.chunk_size := 45; WavFile.num_channels := 2;
     WavFile.sample_rate := 8000; WavFile.block_align := 3;
     WavFile.bits_per_sample := 16; WavFile.data_size := 9;
     WavFile.num_samples := 3;
     WavFile.raw_data := four_samples ++ le_encode 1 5 |}.

(** Channel sets: four 16-bit mono samples at 8000 Hz, and one 64-bit
    sample, [2 ^ 53 + 1], which is not the value of any double. *)
Definition mono16_channels : WavData.t :=
  {| WavData.sample_rate := 8000; WavData.num_channels := 1;
     WavData.bits_per_sample := 16; WavData.num_samples := 4;
     WavData.channel1 := [0; 1000; -1000; 32767];
     WavData.channel2 := [] |}.

Definition wide_channels : WavData.t :=
  {| WavData.sample_rate := 8000; WavData.num_channels := 1;
     WavData.bits_per_sample := 64; WavData.num_samples := 1;
     WavData.channel1 := [9007199254740993];
     WavData.channel2 := [] |}.

(** Three stereo frames of 16 bits at 44100 Hz. *)
Definition stereo16_channels : WavData.t :=
  {| WavData.sample_rate := 44100; WavData.num_channels := 2;
     WavData.bits_per_sample := 16; WavData.num_samples := 3;
     WavData.channel1 := [-32768; 0; 32767];
     WavData.channel2 := [1; -1; 256] |}.

(** The container of these three frames: four bytes a frame. *)
Definition stereo16_container : WavFile.t :=
  {| WavFile.chunk_size := 48; WavFile.num_channels := 2;
     WavFile.sample_rate := 44100; WavFile.block_align := 4;
     WavFile.bits_per_sample := 16; WavFile.data_size := 12;
     WavFile.num_samples := 3;
     WavFile.raw_data :=
       le_encode 2 (-32768) ++ le_encode 2 1 ++ le_encode 2 0
       ++ le_encode 2 (-1) ++ le_encode 2 32767 ++ le_encode 2 256 |}.

(** A channel set whose [sample_rate] was never set. *)
Definition silent_channels : WavData.t :=
  {| WavData.sample_rate := 0; WavData.num_channels := 1;
     WavData.bits_per_sample := 16; WavData.num_samples := 2;
     WavData.channel1 := [0; 0]; WavData.channel2 := [] |}.

(** A canonical file of two mono samples of 32 bits at 44100 Hz, and the
    container [read] makes of it. *)
Definition mono32_file : list byte :=
  riff_header 44
  ++ (list_byte_of_string "fmt " ++ le_encode 4 16 ++ le_encode 2 1
      ++ le_encode 2 1 ++ le_encode 4 44100 ++ le_encode 4 176400
      ++ le_encode 2 4 ++ le_encode 2 32)
  ++ (list_byte_of_string "data" ++ le_encode 4 8
      ++ le_encode 4 (-5) ++ le_encode 4 100000).

Definition mono32_container : WavFile.t :=
  {| WavFile.chunk_size := 44; WavFile.num_channels := 1;
     WavFile.sample_rate := 44100; WavFile.block_align := 4;
     WavFile.bits_per_sample := 32; WavFile.data_size := 8;
     WavFile.num_samples := 2;
     WavFile.raw_data := le_encode 4 (-5) ++ le_encode 4 100000 |}.

(** * Theorems *)

(** ** Bytes and object representations *)

Lemma byte_val_range (b : byte) : 0 <= byte_val b < 256.
Proof.
  unfold byte_val. pose proof (Byte.to_N_bounded b) as H.
  apply N2Z.inj_le in H. change (Z.of_N 255) with 255 in H.
  pose proof (N2Z.is_nonneg (Byte.to_N b)). lia.
Qed.

Lemma byte_of_val (b : byte) : byte_of (byte_val b) = b.
Proof.
  unfold byte_of. rewrite Z.mod_small by apply byte_val_range.
  unfold byte_val. rewrite N2Z.id, Byte.of_to_N. reflexivity.
Qed.

Lemma byte_val_of (z : Z) : byte_val (byte_of z) = z mod 256.
Proof.
  unfold byte_of, byte_val.
  pose proof (Z.mod_pos_bound z 256 ltac:(lia)) as Hr.
  pose proof (Byte.to_of_N_option_map (Z.to_N (z mod 256))) as H.
  destruct (Byte.of_N (Z.to_N (z mod 256))) as [b|]; simpl in H.
  - destruct (N.leb_spec (Z.to_N (z mod 256)) 255) as [_|_]; [|discriminate].
    injection H as ->. apply Z2N.id. lia.
  - destruct (N.leb_spec (Z.to_N (z mod 256)) 255) as [_|Hlt]; [discriminate|].
    lia.
Qed.

Lemma length_le_encode (n : nat) (v : Z) : length (le_encode n v) = n.
Proof. revert v; induction n; intro v; simpl; [reflexivity | now rewrite IHn]. Qed.

Lemma le_decode_range (bs : list byte) :
  0 <= le_decode bs < 2 ^ (8 * Z.of_nat (length bs)).
Proof.
  induction bs as [|b t IH]; [simpl; lia|].
  cbn [le_decode length]. pose proof (byte_val_range b).
  replace (8 * Z.of_nat (S (length t))) with (8 + 8 * Z.of_nat (length t)) by lia.
  rewrite Z.pow_add_r by lia. change (2 ^ 8) with 256. lia.
Qed.

Lemma le_decode_encode (n : nat) (v : Z) :
  le_decode (le_encode n v) = v mod 2 ^ (8 * Z.of_nat n).
Proof.
  revert v; induction n as [|n IH]; intro v.
  - simpl. now rewrite Z.mod_1_r.
  - cbn [le_encode le_decode]. rewrite IH, byte_val_of.
    replace (8 * Z.of_nat (S n)) with (8 + 8 * Z.of_nat n) by lia.
    rewrite Z.pow_add_r by lia. change (2 ^ 8) with 256.
    rewrite Z.rem_mul_r by lia. reflexivity.
Qed.

Lemma le_encode_decode (bs : list byte) :
  le_encode (length bs) (le_decode bs) = bs.
Proof.
  induction bs as [|b t IH]; [reflexivity|].
  cbn [length le_encode le_decode]. pose proof (byte_val_range b) as Hb.
  f_equal.
  - rewrite <- (byte_of_val b) at 2. unfold byte_of.
    replace ((byte_val b + 256 * le_decode t) mod 256) with (byte_val b mod 256);
      [reflexivity|].
    rewrite (Z.mul_comm 256), Z.mod_add by lia. reflexivity.
  - replace ((byte_val b + 256 * le_decode t) / 256) with (le_decode t); [exact IH|].
    rewrite (Z.mul_comm 256), Z.div_add by lia.
    rewrite (Z.div_small (byte_val b)) by lia. lia.
Qed.

Lemma le_encode_mod (n : nat) (v : Z) :
  le_encode n (v mod 2 ^ (8 * Z.of_nat n)) = le_encode n v.
Proof.
  rewrite <- le_decode_encode.
  rewrite <- (length_le_encode n v) at 1. apply le_encode_decode.
Qed.

Lemma bit_width_pos (T : sample_type) : 8 <= bit_width T <= 64.
Proof. destruct T; unfold bit_width; simpl; lia. Qed.

(** Copying the bytes of a frame into a [T] object and back gives the
    bytes again. *)
Lemma to_object_from_object (T : sample_type) (bs : list byte) :
  length bs = sizeof T -> to_object T (from_object T bs) = bs.
Proof.
  intro Hlen. unfold to_object.
  transitivity (le_encode (sizeof T) (le_decode bs));
    [|rewrite <- Hlen; apply le_encode_decode].
  unfold from_object.
  destruct (is_signed T && (2 ^ (bit_width T - 1) <=? le_decode bs)); [|reflexivity].
  rewrite <- le_encode_mod. rewrite <- (le_encode_mod _ (le_decode bs)).
  f_equal. unfold bit_width.
  replace (Z.of_nat (sizeof T) * 8) with (8 * Z.of_nat (sizeof T)) by lia.
  set (w := 2 ^ (8 * Z.of_nat (sizeof T))).
  replace (le_decode bs) with (le_decode bs - w + 1 * w) at 2 by lia.
  apply eq_sym, Z.mod_add. subst w. apply Z.pow_nonzero; lia.
Qed.

(** ** The converting constructor on a bit depth that is not [T]'s *)

(** C3, as amended: when [wf.bits_per_sample] differs from the width of
    [T], the constructor prints the bit-depth message and returns normally;
    the object it leaves has the four header fields of [wf] (among them
    [num_samples]) and two empty channels, and no sample is extracted. *)
Theorem WavData_bit_depth_mismatch (T : sample_type) (wf : WavFile.t) :
  WavFile.bits_per_sample wf <> bit_width T ->
  WavData.WavData T wf =
  Done {| WavData.cerr :=
            [BitDepthMismatch (WavFile.bits_per_sample wf) (bit_width T)];
          WavData.object :=
            {| WavData.sample_rate := WavFile.sample_rate wf;
               WavData.num_channels := WavFile.num_channels wf;
               WavData.bits_per_sample := WavFile.bits_per_sample wf;
               WavData.num_samples := WavFile.num_samples wf;
               WavData.channel1 := [];
               WavData.channel2 := [] |} |}.
Proof.
  intro Hne. unfold WavData.WavData. cbn [WavData.bits_per_sample].
  destruct (Z.eqb_spec (WavFile.bits_per_sample wf) (bit_width T)) as [E|_];
    [contradiction|reflexivity].
Qed.

Lemma WavData_bit_depth_mismatch_witness :
  WavData.WavData int32_t mono16_container =
  Done {| WavData.cerr := [BitDepthMismatch 16 32];
          WavData.object :=
            {| WavData.sample_rate := 8000; WavData.num_channels := 1;
               WavData.bits_per_sample := 16; WavData.num_samples := 4;
               WavData.channel1 := []; WavData.channel2 := [] |} |}.
Proof.
  apply (WavData_bit_depth_mismatch int32_t mono16_container).
  vm_compute. discriminate.
Defined.

(** C3 as stated does not hold: a 16-bit container viewed as [int32_t]
    samples is not refused.  The constructor completes, the object says it
    has four samples per channel while [channel1] is empty, and handing it
    to [toWavFile] reads outside [channel1]. *)
Lemma WavData_bit_depth_mismatch_not_refused :
  WavFile.bits_per_sample mono16_container <> bit_width int32_t /\
  exists r,
    WavData.WavData int32_t mono16_container = Done r /\
    WavData.cerr r = [BitDepthMismatch 16 32] /\
    WavData.num_samples (WavData.object r) = 4 /\
    WavData.channel1 (WavData.object r) = [] /\
    WavData.toWavFile int32_t (WavData.object r) = Undefined OutOfBounds.
Proof.
  split; [vm_compute; discriminate|].
  eexists. split; [vm_compute; reflexivity|].
  repeat split; vm_compute; reflexivity.
Qed.

(** ** [WavFile::save] *)

(** The layout [save] writes, for a container whose [raw_data] holds
    [data_size] bytes at least. *)
Lemma save_written (w : WavFile.t) :
  (Z.to_nat (WavFile.data_size w) <= length (WavFile.raw_data w))%nat ->
  exists r,
    WavFile.save w true = Done r /\
    WavFile.save_returned r = true /\
    WavFile.written r =
      list_byte_of_string "RIFF" ++ le_encode 4 (WavFile.chunk_size w)
      ++ list_byte_of_string "WAVEfmt " ++ le_encode 4 16 ++ le_encode 2 1
      ++ le_encode 2 (WavFile.num_channels w)
      ++ le_encode 4 (WavFile.sample_rate w)
      ++ le_encode 4
           (u32 (WavFile.sample_rate w
                 * u16 (WavFile.num_channels w
                        * u16 (WavFile.bits_per_sample w / 8))))
      ++ le_encode 2
           (u16 (WavFile.num_channels w * u16 (WavFile.bits_per_sample w / 8)))
      ++ le_encode 2 (WavFile.bits_per_sample w)
      ++ list_byte_of_string "data" ++ le_encode 4 (WavFile.data_size w)
      ++ firstn (Z.to_nat (WavFile.data_size w)) (WavFile.raw_data w).
Proof.
  intro Hlen. unfold WavFile.save, mem_read. cbn [negb].
  change (Z.to_nat 0) with 0%nat. cbn [Nat.add skipn].
  destruct (Nat.leb_spec (Z.to_nat (WavFile.data_size w))
              (length (WavFile.raw_data w))) as [_|Hgt]; [|lia].
  eexists. split; [reflexivity|]. split; reflexivity.
Qed.

(** The four bytes at offset 4 of the output are the stored [chunk_size],
    whatever [data_size] is. *)
Lemma save_chunk_size_field (w : WavFile.t) (r : WavFile.save_result) :
  WavFile.save w true = Done r ->
  le_decode (firstn 4 (skipn 4 (WavFile.written r)))
  = WavFile.chunk_size w mod 2 ^ 32.
Proof.
  unfold WavFile.save. cbn [negb].
  destruct (mem_read _ _ _) as [payload|u]; cbn [bind]; [|discriminate].
  intro H. injection H as <-. cbn [WavFile.written].
  change (list_byte_of_string "RIFF") with ["R"; "I"; "F"; "F"]%byte.
  cbn [app skipn le_encode firstn]. apply (le_decode_encode 4).
Qed.

(** C1 on a container that [read] produced: [file_with_list_chunk] is a
    valid file whose first eight bytes are followed by 56 more, so [read]
    stores [chunk_size = 56]; its payload is 8 bytes.  [save] writes the
    canonical layout of [44 + 8] bytes, with the block alignment and byte
    rate recomputed, but the field at offset 4 still says 56 and not
    [36 + data_size = 44]. *)
Theorem save_writes_stale_chunk_size :
  exists r s,
    WavFile.read WavFile.default (Some file_with_list_chunk) = Some (Done r) /\
    WavFile.returned r = true /\
    WavFile.data_size (WavFile.this r) = 8 /\
    WavFile.save (WavFile.this r) true = Done s /\
    Z.of_nat (length (WavFile.written s)) = 44 + WavFile.data_size (WavFile.this r) /\
    le_decode (firstn 4 (skipn 4 (WavFile.written s))) = 56 /\
    36 + WavFile.data_size (WavFile.this r) = 44.
Proof.
  eexists. eexists.
  split; [vm_compute; reflexivity|].
  split; [reflexivity|]. split; [reflexivity|].
  split; [vm_compute; reflexivity|].
  repeat split; vm_compute; reflexivity.
Qed.

(** ** The input stream *)

Lemma firstn_exact {A : Type} (a b : list A) (n : nat) :
  length a = n -> firstn n (a ++ b) = a.
Proof.
  intros <-. rewrite firstn_app, Nat.sub_diag, firstn_O, app_nil_r.
  apply firstn_all.
Qed.

Lemma skipn_exact {A : Type} (a b : list A) (n : nat) :
  length a = n -> skipn n (a ++ b) = b.
Proof.
  intros <-. rewrite skipn_app, Nat.sub_diag, skipn_all. reflexivity.
Qed.

Lemma stream_read_exact (n : nat) (f : ifstream) (a b : list byte) :
  failbit f = false -> rest f = a ++ b -> length a = n ->
  stream_read n f = (a, {| rest := b; failbit := false |}).
Proof.
  intros Hf Hr Hn. unfold stream_read. rewrite Hf, Hr.
  rewrite firstn_exact, skipn_exact by exact Hn.
  rewrite Hn, Nat.ltb_irrefl. reflexivity.
Qed.

Lemma seekg_exact (n : nat) (f : ifstream) (a b : list byte) :
  failbit f = false -> rest f = a ++ b -> length a = n ->
  seekg n f = {| rest := b; failbit := false |}.
Proof.
  intros Hf Hr Hn. unfold seekg. rewrite Hf, Hr, skipn_exact by exact Hn.
  reflexivity.
Qed.

Lemma overlay_full (src dst : list byte) :
  length src = length dst -> overlay src dst = src.
Proof.
  intro H. unfold overlay. rewrite H, skipn_all. apply app_nil_r.
Qed.

Lemma read_object_exact (n : nat) (old v : Z) (f : ifstream) (b : list byte) :
  failbit f = false -> rest f = le_encode n v ++ b ->
  read_object n old f
  = (v mod 2 ^ (8 * Z.of_nat n), {| rest := b; failbit := false |}).
Proof.
  intros Hf Hr. unfold read_object.
  rewrite (stream_read_exact n f (le_encode n v) b Hf Hr (length_le_encode n v)).
  rewrite overlay_full by now rewrite !length_le_encode.
  now rewrite le_decode_encode.
Qed.

(** A stream that has failed stays as it is. *)
Lemma stream_read_failed (n : nat) (f : ifstream) :
  failbit f = true -> stream_read n f = ([], f).
Proof. intro H. unfold stream_read. now rewrite H. Qed.

Lemma stream_read_length (n : nat) (f : ifstream) :
  (length (fst (stream_read n f)) + length (rest (snd (stream_read n f)))
   <= length (rest f))%nat.
Proof.
  unfold stream_read. destruct (failbit f); cbn [fst snd rest length]; [lia|].
  rewrite length_skipn, length_firstn. lia.
Qed.

Lemma seekg_length (n : nat) (f : ifstream) :
  (length (rest (seekg n f)) <= length (rest f))%nat.
Proof.
  unfold seekg. destruct (failbit f); cbn [rest]; [lia|].
  rewrite length_skipn. lia.
Qed.

Lemma read_object_length (n : nat) (old : Z) (f : ifstream) :
  (length (rest (snd (read_object n old f))) <= length (rest f))%nat.
Proof.
  unfold read_object. pose proof (stream_read_length n f) as H.
  destruct (stream_read n f) as [got f']. cbn [fst snd] in *. lia.
Qed.

(** ** [strncmp] against a tag *)

Lemma bytes_eqb_eq (a b : list byte) : bytes_eqb a b = true <-> a = b.
Proof.
  revert b; induction a as [|x a IH]; intros [|y b]; cbn [bytes_eqb];
    try (split; [discriminate|discriminate]); [tauto|].
  rewrite andb_true_iff, IH. split.
  - intros [H ->]. now rewrite (Byte.byte_dec_bl _ _ H).
  - intro H. injection H as -> ->. split; [apply Byte.byte_dec_lb|]; reflexivity.
Qed.

Lemma strncmp_eq_spec (n : nat) : forall a b ra rb : list byte,
  length a = n -> length b = n -> Forall (fun y => y <> x00) b ->
  strncmp_eq (a ++ ra) (b ++ rb) n = bytes_eqb a b.
Proof.
  induction n as [|n IH]; intros [|x a] [|y b] ra rb Ha Hb Hnz;
    try discriminate; [reflexivity|].
  cbn [app strncmp_eq bytes_eqb]. inversion Hnz as [|? ? Hy Hnz']; subst.
  destruct (Byte.eqb x y) eqn:Exy; [|reflexivity].
  apply Byte.byte_dec_bl in Exy. subst y.
  destruct (Byte.eqb x x00) eqn:Ex0.
  - apply Byte.byte_dec_bl in Ex0. contradiction.
  - cbn [andb]. apply IH; [now injection Ha | now injection Hb | assumption].
Qed.

Lemma overlay_tag (tag : list byte) :
  length tag = 4%nat -> overlay tag (zeros 5) = tag ++ [x00].
Proof. intro H. unfold overlay. rewrite H. reflexivity. Qed.

Lemma tag_is_fmt (tag : list byte) :
  length tag = 4%nat ->
  strncmp_eq (overlay tag (zeros 5)) (c_str "fmt ") 4
  = bytes_eqb tag (list_byte_of_string "fmt ").
Proof.
  intro H. rewrite overlay_tag by exact H.
  apply strncmp_eq_spec; [exact H|reflexivity|].
  repeat constructor; discriminate.
Qed.

Lemma tag_is_data (tag : list byte) :
  length tag = 4%nat ->
  strncmp_eq (overlay tag (zeros 5)) (c_str "data") 4
  = bytes_eqb tag (list_byte_of_string "data").
Proof.
  intro H. rewrite overlay_tag by exact H.
  apply strncmp_eq_spec; [exact H|reflexivity|].
  repeat constructor; discriminate.
Qed.

(** ** The sub-chunk loop of [read] *)

Lemma read_fmt_length (size : Z) (f : ifstream) (w : WavFile.t) :
  (length (rest (fst (WavFile.read_fmt size f w))) <= length (rest f))%nat.
Proof.
  unfold WavFile.read_fmt.
  pose proof (read_object_length 2 0 f) as H1.
  destruct (read_object 2 0 f) as [af f1]. cbn [snd] in H1.
  pose proof (read_object_length 2 (WavFile.num_channels w) f1) as H2.
  destruct (read_object 2 (WavFile.num_channels w) f1) as [nc f2]. cbn [snd] in H2.
  pose proof (read_object_length 4 (WavFile.sample_rate w) f2) as H3.
  destruct (read_object 4 (WavFile.sample_rate w) f2) as [sr f3]. cbn [snd] in H3.
  pose proof (seekg_length 4 f3) as H4.
  pose proof (read_object_length 2 (WavFile.block_align w) (seekg 4 f3)) as H5.
  destruct (read_object 2 (WavFile.block_align w) (seekg 4 f3)) as [ba f5].
  cbn [snd] in H5.
  pose proof (read_object_length 2 (WavFile.bits_per_sample w) f5) as H6.
  destruct (read_object 2 (WavFile.bits_per_sample w) f5) as [bps f6].
  cbn [snd] in H6. cbn [fst].
  destruct (16 <? size); [|lia].
  pose proof (seekg_length (Z.to_nat (u32 (size - 16))) f6). lia.
Qed.

Lemma read_data_length (size : Z) (f : ifstream) (w : WavFile.t) :
  (length (rest (fst (WavFile.read_data size f w))) <= length (rest f))%nat.
Proof.
  unfold WavFile.read_data.
  pose proof (stream_read_length (Z.to_nat size) f) as H.
  destruct (stream_read (Z.to_nat size) f) as [got f1]. cbn [fst snd] in *. lia.
Qed.

(** The loop ends: fuel above the number of bytes left is never used up. *)
Lemma read_subchunks_enough_fuel (fuel : nat) : forall st : WavFile.scan,
  (length (rest (WavFile.file st)) < fuel)%nat ->
  exists st', WavFile.read_subchunks fuel st = Some st'.
Proof.
  induction fuel as [|fuel IH]; intros st Hfuel; [lia|].
  cbn [WavFile.read_subchunks].
  destruct (negb (failbit (WavFile.file st))
            && (negb (WavFile.foundFmt st) || negb (WavFile.foundData st)));
    [|eexists; reflexivity].
  pose proof (stream_read_length 4 (WavFile.file st)) as H4.
  destruct (stream_read 4 (WavFile.file st)) as [got f1]. cbn [fst snd] in H4.
  destruct (Nat.ltb_spec (length got) 4) as [_|Hgot]; [eexists; reflexivity|].
  pose proof (read_object_length 4 0 f1) as Hs.
  destruct (read_object 4 0 f1) as [size f2]. cbn [snd] in Hs.
  destruct (strncmp_eq _ (c_str "fmt ") 4).
  - pose proof (read_fmt_length size f2 (WavFile.self st)) as Hf.
    destruct (WavFile.read_fmt size f2 (WavFile.self st)) as [f3 w3].
    cbn [fst] in Hf. apply IH. cbn [WavFile.file]. lia.
  - destruct (strncmp_eq _ (c_str "data") 4).
    + pose proof (read_data_length size f2 (WavFile.self st)) as Hd.
      destruct (WavFile.read_data size f2 (WavFile.self st)) as [f3 w3].
      cbn [fst] in Hd. apply IH. cbn [WavFile.file]. lia.
    + apply IH. cbn [WavFile.file].
      pose proof (seekg_length (Z.to_nat size) f2). lia.
Qed.

(** [read] is total: it always comes to one of its results. *)
Theorem read_total (w : WavFile.t) (contents : option (list byte)) :
  exists r, WavFile.read w contents = Some r.
Proof.
  unfold WavFile.read. destruct contents as [bytes|]; [|eexists; reflexivity].
  destruct (stream_read 4 _) as [got f1].
  destruct (negb (strncmp_eq _ (c_str "RIFF") 4)); [eexists; reflexivity|].
  destruct (read_object 4 _ f1) as [cs f2].
  destruct (stream_read 4 f2) as [got' f3].
  destruct (negb (strncmp_eq _ (c_str "WAVE") 4)); [eexists; reflexivity|].
  destruct (read_subchunks_enough_fuel (S (length (rest f3)))
              {| WavFile.file := f3; WavFile.self := WavFile.with_chunk_size w cs;
                 WavFile.foundFmt := false; WavFile.foundData := false |}
              (Nat.lt_succ_diag_r _)) as [st ->].
  eexists; reflexivity.
Qed.

Lemma length_resize {A : Type} (d : A) (v : list A) (n : nat) :
  length (resize d v n) = n.
Proof.
  unfold resize. rewrite length_app, length_firstn, repeat_length. lia.
Qed.

Lemma read_fmt_exact (af nc sr br ba bps : Z) (ext tl : list byte)
    (f : ifstream) (w : WavFile.t) :
  failbit f = false ->
  rest f = le_encode 2 af ++ le_encode 2 nc ++ le_encode 4 sr ++ le_encode 4 br
           ++ le_encode 2 ba ++ le_encode 2 bps ++ ext ++ tl ->
  16 + Z.of_nat (length ext) < 2 ^ 32 ->
  WavFile.read_fmt (16 + Z.of_nat (length ext)) f w
  = ({| rest := tl; failbit := false |}, absorb (FmtChunk af nc sr br ba bps ext) w).
Proof.
  intros Hf Hr Hsize. unfold WavFile.read_fmt.
  rewrite (read_object_exact 2 0 af f _ Hf Hr).
  erewrite (read_object_exact 2 _ nc) by reflexivity.
  erewrite (read_object_exact 4 _ sr) by reflexivity.
  erewrite (seekg_exact 4 _ (le_encode 4 br)) by reflexivity.
  erewrite (read_object_exact 2 _ ba) by reflexivity.
  erewrite (read_object_exact 2 _ bps) by reflexivity.
  cbn [absorb]. f_equal.
  destruct (Z.ltb_spec 16 (16 + Z.of_nat (length ext))) as [Hlt|Hge].
  - apply (seekg_exact _ _ ext tl); [reflexivity|reflexivity|].
    unfold u32. rewrite Z.mod_small by lia. lia.
  - assert (ext = []) as -> by (destruct ext; [reflexivity|cbn [length] in Hge; lia]).
    reflexivity.
Qed.

Lemma read_data_exact (body tl : list byte) (f : ifstream) (w : WavFile.t) :
  failbit f = false -> rest f = body ++ tl ->
  WavFile.read_data (Z.of_nat (length body)) f w
  = ({| rest := tl; failbit := false |}, absorb (DataChunk body) w).
Proof.
  intros Hf Hr. unfold WavFile.read_data. rewrite Nat2Z.id.
  rewrite (stream_read_exact _ f body tl Hf Hr eq_refl).
  cbn [absorb]. rewrite overlay_full by now rewrite length_resize.
  reflexivity.
Qed.

(** One turn of the loop on a well-formed sub-chunk. *)
Lemma read_subchunks_step (c : chunk) (tl : list byte) (fuel : nat)
    (f : ifstream) (w : WavFile.t) (ff fd : bool) :
  chunk_ok c = true -> failbit f = false -> rest f = chunk_bytes c ++ tl ->
  ff && fd = false ->
  WavFile.read_subchunks (S fuel)
    {| WavFile.file := f; WavFile.self := w;
       WavFile.foundFmt := ff; WavFile.foundData := fd |}
  = WavFile.read_subchunks fuel
      {| WavFile.file := {| rest := tl; failbit := false |};
         WavFile.self := absorb c w;
         WavFile.foundFmt := ff || is_fmt c;
         WavFile.foundData := fd || is_data c |}.
Proof.
  intros Hok Hf Hr Hboth.
  cbn [WavFile.read_subchunks WavFile.file WavFile.self WavFile.foundFmt
       WavFile.foundData].
  rewrite Hf. cbn [negb andb].
  replace (negb ff || negb fd) with true
    by (destruct ff, fd; try reflexivity; discriminate).
  destruct c as [af nc sr br ba bps ext|body|tag body]; cbn [chunk_bytes] in Hr;
    cbn [chunk_ok] in Hok; rewrite <- ?app_assoc in Hr.
  - apply Z.ltb_lt in Hok.
    rewrite (stream_read_exact 4 f _ _ Hf Hr eq_refl).
    change (length (list_byte_of_string "fmt ") <? 4)%nat with false. cbv iota.
    erewrite (read_object_exact 4 0) by reflexivity.
    rewrite tag_is_fmt by reflexivity.
    change (bytes_eqb (list_byte_of_string "fmt ") (list_byte_of_string "fmt "))
      with true. cbv iota.
    change (8 * Z.of_nat 4) with 32. rewrite Z.mod_small by lia.
    erewrite (read_fmt_exact af nc sr br ba bps ext tl) by (reflexivity || exact Hok).
    cbn [is_fmt is_data]. rewrite ?orb_true_r, ?orb_false_r; reflexivity.
  - apply Z.ltb_lt in Hok.
    rewrite (stream_read_exact 4 f _ _ Hf Hr eq_refl).
    change (length (list_byte_of_string "data") <? 4)%nat with false. cbv iota.
    erewrite (read_object_exact 4 0) by reflexivity.
    rewrite tag_is_fmt, tag_is_data by reflexivity.
    change (bytes_eqb (list_byte_of_string "data") (list_byte_of_string "fmt "))
      with false.
    change (bytes_eqb (list_byte_of_string "data") (list_byte_of_string "data"))
      with true. cbv iota.
    change (8 * Z.of_nat 4) with 32. rewrite Z.mod_small by lia.
    erewrite (read_data_exact body tl) by reflexivity.
    cbn [is_fmt is_data]. rewrite ?orb_true_r, ?orb_false_r; reflexivity.
  - apply andb_prop in Hok as [Hok Hsize]. apply andb_prop in Hok as [Hok Hdata].
    apply andb_prop in Hok as [Hlen Hfmt]. apply Nat.eqb_eq in Hlen.
    apply Z.ltb_lt in Hsize. apply negb_true_iff in Hfmt, Hdata.
    rewrite (stream_read_exact 4 f _ _ Hf Hr Hlen).
    rewrite Hlen. change (4 <? 4)%nat with false. cbv iota.
    erewrite (read_object_exact 4 0) by reflexivity.
    rewrite tag_is_fmt, tag_is_data, Hfmt, Hdata by exact Hlen. cbv iota.
    change (8 * Z.of_nat 4) with 32. rewrite Z.mod_small by lia.
    rewrite Nat2Z.id.
    erewrite (seekg_exact _ _ body tl) by reflexivity.
    cbn [is_fmt is_data absorb]. rewrite ?orb_true_r, ?orb_false_r; reflexivity.
Qed.

Lemma chunk_bytes_nonempty (c : chunk) :
  chunk_ok c = true -> (0 < length (chunk_bytes c))%nat.
Proof.
  destruct c as [af nc sr br ba bps ext|body|tag body]; cbn [chunk_bytes chunk_ok];
    intro H; rewrite length_app.
  - change (length (list_byte_of_string "fmt ")) with 4%nat. lia.
  - change (length (list_byte_of_string "data")) with 4%nat. lia.
  - apply andb_prop in H as [H _]. apply andb_prop in H as [H _].
    apply andb_prop in H as [H _]. apply Nat.eqb_eq in H. lia.
Qed.

(** The loop of [read] on a sequence of well-formed sub-chunks computes
    [walk]: it goes on from the bytes after them, unless both sub-chunks
    were found on the way. *)
Lemma read_subchunks_walk (cs : list chunk) :
  forall (tail : list byte) (fuel : nat) (f : ifstream) (w : WavFile.t)
         (ff fd : bool),
  forallb chunk_ok cs = true -> failbit f = false ->
  rest f = chunks_bytes cs ++ tail -> (length (rest f) < fuel)%nat ->
  exists f' fuel',
    WavFile.read_subchunks fuel
      {| WavFile.file := f; WavFile.self := w;
         WavFile.foundFmt := ff; WavFile.foundData := fd |}
    = WavFile.read_subchunks fuel'
        {| WavFile.file := f';
           WavFile.self := fst (fst (walk cs w ff fd));
           WavFile.foundFmt := snd (fst (walk cs w ff fd));
           WavFile.foundData := snd (walk cs w ff fd) |}
    /\ failbit f' = false
    /\ (snd (fst (walk cs w ff fd)) && snd (walk cs w ff fd) = false ->
        rest f' = tail /\ (length tail < fuel')%nat).
Proof.
  induction cs as [|c cs IH]; intros tail fuel f w ff fd Hok Hf Hr Hfuel.
  - exists f, fuel. cbn [walk fst snd]. repeat split; [exact Hf| |];
      cbn [chunks_bytes flat_map app] in Hr; [exact Hr|now rewrite <- Hr].
  - cbn [walk]. destruct (ff && fd) eqn:B.
    + exists f, fuel. cbn [fst snd]. repeat split; try exact Hf;
        rewrite B in *; discriminate.
    + cbn [forallb] in Hok. apply andb_prop in Hok as [Hc Hcs].
      cbn [chunks_bytes flat_map] in Hr. rewrite <- app_assoc in Hr.
      fold (chunks_bytes cs) in Hr.
      pose proof (chunk_bytes_nonempty c Hc) as Hpos.
      destruct fuel as [|fuel]; [lia|].
      rewrite (read_subchunks_step c _ fuel f w ff fd Hc Hf Hr B).
      apply IH; [exact Hcs|reflexivity|reflexivity|].
      cbn [rest]. rewrite Hr, length_app in Hfuel. lia.
Qed.

(** Fewer than four bytes left: the tag cannot be read and the loop is
    left. *)
Lemma read_subchunks_short_tail (fuel : nat) (f : ifstream) (w : WavFile.t)
    (ff fd : bool) :
  (length (rest f) < 4)%nat ->
  exists f',
    WavFile.read_subchunks fuel
      {| WavFile.file := f; WavFile.self := w;
         WavFile.foundFmt := ff; WavFile.foundData := fd |}
    = Some {| WavFile.file := f'; WavFile.self := w;
              WavFile.foundFmt := ff; WavFile.foundData := fd |}.
Proof.
  intro Hshort.
  destruct fuel; cbn [WavFile.read_subchunks WavFile.file WavFile.self
                      WavFile.foundFmt WavFile.foundData];
    (destruct (negb (failbit f) && (negb ff || negb fd)); [|eexists; reflexivity]);
    pose proof (stream_read_length 4 f) as H;
    (destruct (stream_read 4 f) as [got f1]); cbn [fst snd] in H;
    (destruct (Nat.ltb_spec (length got) 4) as [_|Hge]; [eexists; reflexivity|lia]).
Qed.

(** Once both sub-chunks are found the loop is left at once. *)
Lemma read_subchunks_found (fuel : nat) (f : ifstream) (w : WavFile.t) :
  WavFile.read_subchunks fuel
    {| WavFile.file := f; WavFile.self := w;
       WavFile.foundFmt := true; WavFile.foundData := true |}
  = Some {| WavFile.file := f; WavFile.self := w;
            WavFile.foundFmt := true; WavFile.foundData := true |}.
Proof.
  destruct fuel; cbn [WavFile.read_subchunks WavFile.foundFmt WavFile.foundData
                      negb orb andb]; rewrite andb_false_r; reflexivity.
Qed.

(** [read] after a valid RIFF/WAVE header goes into the loop. *)
Lemma read_header (w : WavFile.t) (size : Z) (body : list byte) :
  WavFile.read w (Some (riff_header size ++ body))
  = option_map WavFile.after_subchunks
      (WavFile.read_subchunks (S (length body))
         {| WavFile.file := {| rest := body; failbit := false |};
            WavFile.self := WavFile.with_chunk_size w (size mod 2 ^ 32);
            WavFile.foundFmt := false; WavFile.foundData := false |}).
Proof.
  unfold WavFile.read, riff_header. rewrite <- !app_assoc.
  erewrite (stream_read_exact 4 _ (list_byte_of_string "RIFF")) by reflexivity.
  change (strncmp_eq (overlay (list_byte_of_string "RIFF") (zeros 5))
            (c_str "RIFF") 4) with true. cbn [negb].
  erewrite (read_object_exact 4 _ size) by reflexivity.
  erewrite (stream_read_exact 4 _ (list_byte_of_string "WAVE")) by reflexivity.
  change (strncmp_eq (overlay (list_byte_of_string "WAVE") (zeros 5))
            (c_str "WAVE") 4) with true. cbn [negb rest].
  reflexivity.
Qed.

(** [read] on a RIFF/WAVE file made of well-formed sub-chunks: the result
    is read off [walk], provided both sub-chunks are among them or fewer
    than four bytes follow them. *)
Lemma read_chunks (w : WavFile.t) (size : Z) (cs : list chunk) (tail : list byte) :
  forallb chunk_ok cs = true ->
  let w0 := WavFile.with_chunk_size w (size mod 2 ^ 32) in
  let w' := fst (fst (walk cs w0 false false)) in
  let ff := snd (fst (walk cs w0 false false)) in
  let fd := snd (walk cs w0 false false) in
  ff && fd = true \/ (length tail < 4)%nat ->
  exists f',
    WavFile.read w (Some (riff_header size ++ chunks_bytes cs ++ tail))
    = Some (WavFile.after_subchunks
              {| WavFile.file := f'; WavFile.self := w';
                 WavFile.foundFmt := ff; WavFile.foundData := fd |}).
Proof.
  intros Hok w0 w' ff fd Hend. rewrite read_header. fold w0.
  destruct (read_subchunks_walk cs tail (S (length (chunks_bytes cs ++ tail)))
              {| rest := chunks_bytes cs ++ tail; failbit := false |}
              w0 false false Hok eq_refl eq_refl (Nat.lt_succ_diag_r _))
    as (f' & fuel' & -> & Hf' & Htail).
  fold w' ff fd in Htail |- *.
  destruct (ff && fd) eqn:B.
  - apply andb_prop in B as [-> ->]. rewrite read_subchunks_found.
    exists f'. reflexivity.
  - destruct Hend as [?|Hshort]; [discriminate|].
    destruct (Htail eq_refl) as [Hrest _].
    destruct (read_subchunks_short_tail fuel' f' w' ff fd) as [f'' ->];
      [now rewrite Hrest|].
    exists f''. reflexivity.
Qed.

(** ** What [walk] yields *)

Lemma walk_foundFmt (cs : list chunk) : forall w ff fd,
  snd (fst (walk cs w ff fd)) = ff || existsb is_fmt cs.
Proof.
  induction cs as [|c cs IH]; intros w ff fd; cbn [walk existsb].
  - now rewrite orb_false_r.
  - destruct (ff && fd) eqn:B.
    + apply andb_prop in B as [-> _]. reflexivity.
    + rewrite IH. now rewrite orb_assoc.
Qed.

Lemma walk_foundData (cs : list chunk) : forall w ff fd,
  snd (walk cs w ff fd) = fd || existsb is_data cs.
Proof.
  induction cs as [|c cs IH]; intros w ff fd; cbn [walk existsb].
  - now rewrite orb_false_r.
  - destruct (ff && fd) eqn:B.
    + apply andb_prop in B as [_ ->]. reflexivity.
    + rewrite IH. now rewrite orb_assoc.
Qed.

(** A property of every declared [block_align] is one of the
    [block_align] stored when a ["fmt "] chunk was found. *)
Lemma walk_block_align (P : Z -> Prop) (cs : list chunk) : forall w ff fd,
  (forall c ba, In c cs -> declared_block_align c = Some ba -> P ba) ->
  (ff = true -> P (WavFile.block_align w)) ->
  snd (fst (walk cs w ff fd)) = true ->
  P (WavFile.block_align (fst (fst (walk cs w ff fd)))).
Proof.
  induction cs as [|c cs IH]; intros w ff fd Hcs Hw; cbn [walk].
  - exact Hw.
  - destruct (ff && fd); [exact Hw|].
    apply IH.
    + intros c' ba Hin. apply Hcs. now right.
    + destruct c as [af nc sr br ba bps ext|body|tag body]; cbn [is_fmt absorb].
      * intros _. cbn [WavFile.block_align]. apply (Hcs _ _ (or_introl eq_refl)).
        reflexivity.
      * now rewrite orb_false_r.
      * now rewrite orb_false_r.
Qed.

(** Without a ["data"] chunk the payload fields are left alone. *)
Lemma walk_no_data (cs : list chunk) : forall w ff fd,
  existsb is_data cs = false ->
  WavFile.data_size (fst (fst (walk cs w ff fd))) = WavFile.data_size w /\
  WavFile.raw_data (fst (fst (walk cs w ff fd))) = WavFile.raw_data w.
Proof.
  induction cs as [|c cs IH]; intros w ff fd Hnd; cbn [walk].
  - split; reflexivity.
  - destruct (ff && fd); [split; reflexivity|].
    cbn [existsb] in Hnd. apply orb_false_elim in Hnd as [Hc Hcs].
    destruct (IH (absorb c w) (ff || is_fmt c) (fd || is_data c) Hcs) as [-> ->].
    destruct c; try discriminate; split; reflexivity.
Qed.

Lemma zero_block_align_forall (cs : list chunk) :
  forallb zero_block_align cs = true ->
  forall c ba, In c cs -> declared_block_align c = Some ba -> ba = 0.
Proof.
  intros H c ba Hin Hd. rewrite forallb_forall in H. specialize (H c Hin).
  unfold zero_block_align in H. rewrite Hd in H. now apply Z.eqb_eq.
Qed.

Lemma nonzero_block_align_forall (cs : list chunk) :
  forallb nonzero_block_align cs = true ->
  forall c ba, In c cs -> declared_block_align c = Some ba -> ba <> 0.
Proof.
  intros H c ba Hin Hd. rewrite forallb_forall in H. specialize (H c Hin).
  unfold nonzero_block_align in H. rewrite Hd in H.
  apply negb_true_iff in H. now apply Z.eqb_neq.
Qed.

(** ** [read] without a ["data"] chunk, and in any order of the chunks *)

(** C8, as amended.  For a file with a valid RIFF/WAVE header followed by
    well-formed sub-chunks:
    - if none of them is a ["data"] chunk (and fewer than four bytes
      follow), [read] returns [false]; the message is the one for the
      missing ["data"] chunk when a ["fmt "] chunk was found and the one for
      the missing ["fmt "] chunk when none was;
    - if a ["fmt "] and a ["data"] chunk are among them, in whatever order,
      and no ["fmt "] chunk declares a block alignment of zero, [read]
      returns [true]. *)
Theorem read_missing_data_or_any_order
    (w : WavFile.t) (size : Z) (cs : list chunk) (tail : list byte) :
  forallb chunk_ok cs = true ->
  (existsb is_data cs = false -> (length tail < 4)%nat ->
   exists w',
     WavFile.read w (Some (riff_header size ++ chunks_bytes cs ++ tail))
     = Some (Done {| WavFile.returned := false;
                     WavFile.cerr := [if existsb is_fmt cs then CouldntFindData
                                      else CouldntFindFmt];
                     WavFile.this := w' |}))
  /\
  (existsb is_fmt cs = true -> existsb is_data cs = true ->
   forallb nonzero_block_align cs = true ->
   exists w',
     WavFile.read w (Some (riff_header size ++ chunks_bytes cs ++ tail))
     = Some (Done {| WavFile.returned := true; WavFile.cerr := [];
                     WavFile.this := w' |})).
Proof.
  intro Hok. split.
  - intros Hnd Hshort.
    destruct (read_chunks w size cs tail Hok (or_intror Hshort)) as [f' ->].
    unfold WavFile.after_subchunks.
    cbn [WavFile.foundFmt WavFile.foundData WavFile.self].
    rewrite walk_foundFmt, walk_foundData, Hnd. cbn [orb negb].
    destruct (existsb is_fmt cs); cbn [negb]; eexists; reflexivity.
  - intros Hfmt Hdata Hnz.
    assert (Hboth : snd (fst (walk cs (WavFile.with_chunk_size w (size mod 2 ^ 32))
                                 false false))
                    && snd (walk cs (WavFile.with_chunk_size w (size mod 2 ^ 32))
                              false false) = true)
      by (rewrite walk_foundFmt, walk_foundData, Hfmt, Hdata; reflexivity).
    destruct (read_chunks w size cs tail Hok (or_introl Hboth)) as [f' ->].
    unfold WavFile.after_subchunks.
    cbn [WavFile.foundFmt WavFile.foundData WavFile.self].
    rewrite walk_foundFmt, walk_foundData, Hfmt, Hdata. cbn [orb negb].
    pose proof (walk_block_align (fun ba => ba <> 0) cs
                  (WavFile.with_chunk_size w (size mod 2 ^ 32)) false false
                  (nonzero_block_align_forall cs Hnz)
                  ltac:(discriminate)) as Hba.
    rewrite walk_foundFmt, Hfmt in Hba. specialize (Hba eq_refl).
    apply Z.eqb_neq in Hba. rewrite Hba. eexists; reflexivity.
Qed.

(** The theorem at a file with one ["fmt "] chunk only, and at a file whose
    ["data"] chunk comes before its ["fmt "] chunk. *)
Lemma read_missing_data_or_any_order_witness :
  (exists w',
     WavFile.read WavFile.default
       (Some (riff_header 28 ++ chunks_bytes [fmt_chunk_mono16] ++ []))
     = Some (Done {| WavFile.returned := false;
                     WavFile.cerr := [CouldntFindData];
                     WavFile.this := w' |}))
  /\
  (exists w',
     WavFile.read WavFile.default
       (Some (riff_header 44
              ++ chunks_bytes [DataChunk four_samples; fmt_chunk_mono16] ++ []))
     = Some (Done {| WavFile.returned := true; WavFile.cerr := [];
                     WavFile.this := w' |})).
Proof.
  split.
  - apply (read_missing_data_or_any_order WavFile.default 28
             [fmt_chunk_mono16] [] eq_refl); [reflexivity|simpl; lia].
  - apply (read_missing_data_or_any_order WavFile.default 44
             [DataChunk four_samples; fmt_chunk_mono16] [] eq_refl);
      reflexivity.
Defined.

(** C8 as stated does not hold: a file that is a valid RIFF/WAVE header and
    nothing else has no ["data"] chunk, and what [read] reports is the
    missing ["fmt "] chunk. *)
Lemma read_reports_fmt_first :
  WavFile.read WavFile.default (Some (riff_header 4))
  = Some (Done {| WavFile.returned := false;
                  WavFile.cerr := [CouldntFindFmt];
                  WavFile.this := WavFile.with_chunk_size WavFile.default 4 |})
  /\ [CouldntFindFmt] <> [CouldntFindData].
Proof. split; [vm_compute; reflexivity|discriminate]. Qed.

(** ** The division by [block_align] *)

(** C9.  A file with a valid header and well-formed sub-chunks, among them
    a ["fmt "] and a ["data"] chunk, in which every ["fmt "] chunk declares
    a block alignment of zero: [read] comes to the division
    [data_size / block_align] with [block_align = 0]; it does not return
    [false]. *)
Theorem read_divides_by_zero_block_align
    (w : WavFile.t) (size : Z) (cs : list chunk) (tail : list byte) :
  forallb chunk_ok cs = true ->
  existsb is_fmt cs = true -> existsb is_data cs = true ->
  forallb zero_block_align cs = true ->
  WavFile.read w (Some (riff_header size ++ chunks_bytes cs ++ tail))
  = Some (Undefined DivideByZero).
Proof.
  intros Hok Hfmt Hdata Hz.
  assert (Hboth : snd (fst (walk cs (WavFile.with_chunk_size w (size mod 2 ^ 32))
                               false false))
                  && snd (walk cs (WavFile.with_chunk_size w (size mod 2 ^ 32))
                            false false) = true)
    by (rewrite walk_foundFmt, walk_foundData, Hfmt, Hdata; reflexivity).
  destruct (read_chunks w size cs tail Hok (or_introl Hboth)) as [f' ->].
  unfold WavFile.after_subchunks.
  cbn [WavFile.foundFmt WavFile.foundData WavFile.self].
  rewrite walk_foundFmt, walk_foundData, Hfmt, Hdata. cbn [orb negb].
  pose proof (walk_block_align (fun ba => ba = 0) cs
                (WavFile.with_chunk_size w (size mod 2 ^ 32)) false false
                (zero_block_align_forall cs Hz) ltac:(discriminate)) as Hba.
  rewrite walk_foundFmt, Hfmt in Hba. rewrite (Hba eq_refl). reflexivity.
Qed.

Lemma read_divides_by_zero_block_align_witness :
  WavFile.read WavFile.default
    (Some (riff_header 44
           ++ chunks_bytes [fmt_chunk_zero_align; list_chunk;
                            DataChunk four_samples] ++ []))
  = Some (Undefined DivideByZero).
Proof.
  apply (read_divides_by_zero_block_align WavFile.default 44
           [fmt_chunk_zero_align; list_chunk; DataChunk four_samples] []);
    reflexivity.
Defined.

(** ** A ["data"] chunk that declares more bytes than the file holds *)

Lemma skipn_repeat {A : Type} (a : A) (k n : nat) :
  skipn k (repeat a n) = repeat a (n - k).
Proof.
  revert n; induction k as [|k IH]; intros [|n]; cbn [skipn repeat Nat.sub];
    try reflexivity. apply IH.
Qed.

Lemma stream_read_short (n : nat) (f : ifstream) :
  failbit f = false -> (length (rest f) < n)%nat ->
  stream_read n f = (rest f, {| rest := []; failbit := true |}).
Proof.
  intros Hf Hlt. unfold stream_read. rewrite Hf.
  rewrite firstn_all2, skipn_all2 by lia.
  destruct (Nat.ltb_spec (length (rest f)) n); [reflexivity|lia].
Qed.

(** The turn of the loop on such a chunk: the buffer is resized to the
    declared length, the bytes there are go to its start, the stream fails,
    and the loop is left with [foundData] set. *)
Lemma read_subchunks_truncated_data (fuel : nat) (w : WavFile.t) (ff : bool)
    (size : Z) (body : list byte) :
  Z.of_nat (length body) < size < 2 ^ 32 ->
  WavFile.read_subchunks (S fuel)
    {| WavFile.file :=
         {| rest := list_byte_of_string "data" ++ le_encode 4 size ++ body;
            failbit := false |};
       WavFile.self := w; WavFile.foundFmt := ff; WavFile.foundData := false |}
  = Some
      {| WavFile.file := {| rest := []; failbit := true |};
         WavFile.self :=
           {| WavFile.chunk_size := WavFile.chunk_size w;
              WavFile.num_channels := WavFile.num_channels w;
              WavFile.sample_rate := WavFile.sample_rate w;
              WavFile.block_align := WavFile.block_align w;
              WavFile.bits_per_sample := WavFile.bits_per_sample w;
              WavFile.data_size := size;
              WavFile.num_samples := WavFile.num_samples w;
              WavFile.raw_data :=
                overlay body (resize x00 (WavFile.raw_data w) (Z.to_nat size)) |};
         WavFile.foundFmt := ff; WavFile.foundData := true |}.
Proof.
  intro Hsize.
  cbn [WavFile.read_subchunks WavFile.file WavFile.self WavFile.foundFmt
       WavFile.foundData failbit negb andb orb].
  rewrite orb_true_r.
  erewrite (stream_read_exact 4 _ (list_byte_of_string "data")) by reflexivity.
  change (length (list_byte_of_string "data") <? 4)%nat with false. cbv iota.
  erewrite (read_object_exact 4 0 size) by reflexivity.
  rewrite tag_is_fmt, tag_is_data by reflexivity.
  change (bytes_eqb (list_byte_of_string "data") (list_byte_of_string "fmt "))
    with false.
  change (bytes_eqb (list_byte_of_string "data") (list_byte_of_string "data"))
    with true. cbv iota.
  change (8 * Z.of_nat 4) with 32. rewrite Z.mod_small by lia.
  unfold WavFile.read_data.
  rewrite stream_read_short by (cbn [failbit rest]; (reflexivity || lia)).
  cbn [rest].
  destruct fuel; cbn [WavFile.read_subchunks WavFile.file failbit negb andb];
    reflexivity.
Qed.

(** C2, as amended.  [read] has no check for a stream that ends inside a
    chunk.  For a fresh [WavFile] and a file whose sub-chunks before the
    ["data"] chunk are well formed, when that chunk declares [size] bytes
    and fewer follow:
    - if a ["fmt "] chunk came before (none declaring a block alignment of
      zero), [read] returns [true], with [data_size = size] and [raw_data]
      the bytes that were there followed by zero bytes up to [size];
    - if no ["fmt "] chunk came before, [read] returns [false], reporting
      the missing ["fmt "] chunk. *)
Theorem read_truncated_data_chunk
    (riff_size : Z) (cs : list chunk) (size : Z) (body : list byte) :
  forallb chunk_ok cs = true -> existsb is_data cs = false ->
  Z.of_nat (length body) < size < 2 ^ 32 ->
  let stream :=
    riff_header riff_size ++ chunks_bytes cs
    ++ (list_byte_of_string "data" ++ le_encode 4 size ++ body) in
  (existsb is_fmt cs = true -> forallb nonzero_block_align cs = true ->
   exists r,
     WavFile.read WavFile.default (Some stream) = Some (Done r) /\
     WavFile.returned r = true /\ WavFile.cerr r = [] /\
     WavFile.data_size (WavFile.this r) = size /\
     WavFile.raw_data (WavFile.this r)
     = body ++ zeros (Z.to_nat size - length body))
  /\
  (existsb is_fmt cs = false ->
   exists w',
     WavFile.read WavFile.default (Some stream)
     = Some (Done {| WavFile.returned := false;
                     WavFile.cerr := [CouldntFindFmt];
                     WavFile.this := w' |})).
Proof.
  intros Hok Hnd Hsize stream. subst stream. rewrite read_header.
  set (w0 := WavFile.with_chunk_size WavFile.default (riff_size mod 2 ^ 32)).
  set (tail := list_byte_of_string "data" ++ le_encode 4 size ++ body).
  destruct (read_subchunks_walk cs tail (S (length (chunks_bytes cs ++ tail)))
              {| rest := chunks_bytes cs ++ tail; failbit := false |}
              w0 false false Hok eq_refl eq_refl (Nat.lt_succ_diag_r _))
    as (f' & fuel' & -> & Hf' & Htail).
  pose proof (walk_no_data cs w0 false false Hnd) as [Hds Hraw].
  pose proof (walk_block_align (fun ba => ba <> 0) cs w0 false false) as Hba.
  rewrite walk_foundFmt, walk_foundData, Hnd in *. cbn [orb] in *.
  rewrite andb_false_r in Htail. destruct (Htail eq_refl) as [Hrest Hfuel].
  destruct f' as [r' b']. cbn [rest failbit] in Hrest, Hf'. subst r' b'.
  destruct fuel' as [|fuel']; [lia|].
  subst tail. rewrite (read_subchunks_truncated_data _ _ _ size body Hsize).
  cbn [option_map]. unfold WavFile.after_subchunks.
  cbn [WavFile.foundFmt WavFile.foundData WavFile.self WavFile.block_align negb].
  split.
  - intros Hfmt Hnz. rewrite Hfmt in *. cbn [negb].
    specialize (Hba (nonzero_block_align_forall cs Hnz) ltac:(discriminate) eq_refl).
    apply Z.eqb_neq in Hba. rewrite Hba.
    eexists. split; [reflexivity|]. cbn [WavFile.returned WavFile.cerr
      WavFile.this WavFile.with_num_samples WavFile.data_size WavFile.raw_data].
    repeat split. rewrite Hraw. unfold w0. cbn [WavFile.with_chunk_size
      WavFile.raw_data WavFile.default].
    unfold overlay, resize, zeros. rewrite firstn_nil. cbn [app length].
    rewrite Nat.sub_0_r. now rewrite skipn_repeat.
  - intros Hfmt. rewrite Hfmt. cbn [negb]. eexists; reflexivity.
Qed.

Lemma read_truncated_data_chunk_witness :
  (exists r,
     WavFile.read WavFile.default
       (Some (riff_header 44 ++ chunks_bytes [fmt_chunk_mono16]
              ++ (list_byte_of_string "data" ++ le_encode 4 8 ++ le_encode 2 7)))
     = Some (Done r) /\
     WavFile.returned r = true /\ WavFile.cerr r = [] /\
     WavFile.data_size (WavFile.this r) = 8 /\
     WavFile.raw_data (WavFile.this r)
     = le_encode 2 7 ++ zeros (Z.to_nat 8 - length (le_encode 2 7)))
  /\
  (exists w',
     WavFile.read WavFile.default
       (Some (riff_header 20 ++ chunks_bytes [list_chunk]
              ++ (list_byte_of_string "data" ++ le_encode 4 8 ++ le_encode 2 7)))
     = Some (Done {| WavFile.returned := false;
                     WavFile.cerr := [CouldntFindFmt];
                     WavFile.this := w' |})).
Proof.
  split.
  - apply (read_truncated_data_chunk 44 [fmt_chunk_mono16] 8 (le_encode 2 7));
      try reflexivity. simpl; lia.
  - apply (read_truncated_data_chunk 20 [list_chunk] 8 (le_encode 2 7));
      try reflexivity. simpl; lia.
Defined.

(** C2 as stated does not hold: [file_with_truncated_data] declares a
    ["data"] chunk of eight bytes and ends after two of them; [read] returns
    [true], and the container has eight bytes of [raw_data], the last six of
    them zero, and four samples. *)
Lemma read_pads_truncated_data :
  WavFile.read WavFile.default (Some file_with_truncated_data)
  = Some (Done {| WavFile.returned := true; WavFile.cerr := [];
                  WavFile.this :=
                    {| WavFile.chunk_size := 44; WavFile.num_channels := 1;
                       WavFile.sample_rate := 8000; WavFile.block_align := 2;
                       WavFile.bits_per_sample := 16; WavFile.data_size := 8;
                       WavFile.num_samples := 4;
                       WavFile.raw_data := le_encode 2 7 ++ zeros 6 |} |}).
Proof. vm_compute. reflexivity. Qed.

(** ** Loops that fill vectors *)

Lemma for_loop_S {S : Type} (i : Z) (count : nat)
    (body : Z -> S -> outcome S) (s : S) :
  for_loop i (Datatypes.S count) body s
  = (s' <- body i s ;; for_loop (i + 1) count body s').
Proof. reflexivity. Qed.

Lemma vec_set_in_range {A : Type} (v : list A) (j : nat) (x : A) :
  (j < length v)%nat ->
  vec_set v (Z.of_nat j) x = Done (firstn j v ++ x :: skipn (S j) v).
Proof.
  intro H. unfold vec_set. rewrite Nat2Z.id.
  destruct (Nat.ltb_spec j (length v)); [reflexivity|lia].
Qed.

Lemma vec_get_in_range {A : Type} (v : list A) (j : nat) (d : A) :
  (j < length v)%nat -> vec_get v (Z.of_nat j) = Done (nth j v d).
Proof.
  intro H. unfold vec_get. rewrite Nat2Z.id.
  now rewrite (nth_error_nth' v d H).
Qed.

Lemma length_set {A : Type} (v : list A) (j : nat) (x : A) :
  (j < length v)%nat -> length (firstn j v ++ x :: skipn (S j) v) = length v.
Proof.
  intro H. rewrite length_app, length_firstn. cbn [length].
  rewrite length_skipn. lia.
Qed.

Lemma firstn_set {A : Type} (v : list A) (j : nat) (x : A) :
  (j < length v)%nat ->
  firstn (S j) (firstn j v ++ x :: skipn (S j) v) = firstn j v ++ [x].
Proof.
  intro H. rewrite firstn_app, length_firstn.
  replace (S j - Nat.min j (length v))%nat with 1%nat by lia.
  rewrite firstn_all2 by (rewrite length_firstn; lia). reflexivity.
Qed.

(** A loop whose turn [j] stores [a1 j] at index [j] of the first vector
    and, for two channels, [a2 j] at index [j] of the second, leaves the
    vectors [a1 0, a1 1, ...] and [a2 0, a2 1, ...]. *)
Lemma for_loop_channels
    (body : Z -> list Z * list Z -> outcome (list Z * list Z))
    (stereo : bool) (a1 a2 : nat -> Z) (n : nat) :
  (forall j c1 c2, (j < n)%nat ->
     body (Z.of_nat j) (c1, c2)
     = (x1 <- vec_set c1 (Z.of_nat j) (a1 j) ;;
        if stereo
        then x2 <- vec_set c2 (Z.of_nat j) (a2 j) ;; Done (x1, x2)
        else Done (x1, c2))) ->
  forall c1 c2, length c1 = n -> (stereo = true -> length c2 = n) ->
  for_loop 0 n body (c1, c2)
  = Done (map a1 (seq 0 n), if stereo then map a2 (seq 0 n) else c2).
Proof.
  intro Hbody.
  assert (Hgen : forall k j c1 c2, (j + k = n)%nat -> length c1 = n ->
            (stereo = true -> length c2 = n) ->
            for_loop (Z.of_nat j) k body (c1, c2)
            = Done (firstn j c1 ++ map a1 (seq j k),
                    if stereo then firstn j c2 ++ map a2 (seq j k) else c2)).
  { induction k as [|k IH]; intros j c1 c2 Hjk H1 H2.
    - cbn [for_loop seq map]. rewrite !app_nil_r.
      rewrite (firstn_all2 c1) by lia.
      destruct stereo; [|reflexivity].
      rewrite (firstn_all2 c2) by (rewrite H2 by reflexivity; lia). reflexivity.
    - rewrite for_loop_S, Hbody by lia.
      rewrite vec_set_in_range by lia.
      destruct stereo.
      + specialize (H2 eq_refl).
        rewrite vec_set_in_range by lia. cbn [bind].
        replace (Z.of_nat j + 1) with (Z.of_nat (S j)) by lia.
        rewrite IH; [|lia|rewrite length_set; lia|intros _; rewrite length_set; lia].
        rewrite !firstn_set by lia. cbn [seq map].
        now rewrite <- !app_assoc.
      + cbn [bind]. replace (Z.of_nat j + 1) with (Z.of_nat (S j)) by lia.
        rewrite IH; [|lia|rewrite length_set; lia|discriminate].
        rewrite firstn_set by lia. cbn [seq map]. now rewrite <- app_assoc. }
  intros c1 c2 H1 H2. pose proof (Hgen n 0%nat c1 c2 eq_refl H1 H2) as E.
  cbn [Z.of_nat firstn app] in E. exact E.
Qed.

(** A loop whose turn [j] writes [frame j], of [ba] bytes, at offset
    [j * ba] of a buffer of [n * ba] bytes leaves the frames in a row. *)
Lemma for_loop_frames (body : Z -> list byte -> outcome (list byte))
    (frame : nat -> list byte) (ba n : nat) :
  (forall j, length (frame j) = ba) ->
  (forall j raw, (j < n)%nat -> length raw = (n * ba)%nat ->
     body (Z.of_nat j) raw
     = Done (firstn (j * ba) raw ++ frame j ++ skipn (j * ba + ba) raw)) ->
  forall raw, length raw = (n * ba)%nat ->
  for_loop 0 n body raw = Done (concat (map frame (seq 0 n))).
Proof.
  intros Hframe Hbody.
  assert (Hgen : forall k j raw, (j + k = n)%nat -> length raw = (n * ba)%nat ->
            for_loop (Z.of_nat j) k body raw
            = Done (firstn (j * ba) raw ++ concat (map frame (seq j k)))).
  { induction k as [|k IH]; intros j raw Hjk Hlen.
    - cbn [for_loop seq map concat]. rewrite app_nil_r.
      rewrite firstn_all2 by nia. reflexivity.
    - rewrite for_loop_S, Hbody by (lia || assumption). cbn [bind].
      replace (Z.of_nat j + 1) with (Z.of_nat (S j)) by lia.
      assert (Hj : (j * ba + ba <= length raw)%nat) by nia.
      rewrite IH; [|lia|].
      + cbn [seq map concat]. f_equal.
        replace (S j * ba)%nat with (j * ba + ba)%nat by lia.
        rewrite app_assoc, firstn_app.
        rewrite length_app, length_firstn, Hframe.
        replace (j * ba + ba - (Nat.min (j * ba) (length raw) + ba))%nat
          with 0%nat by lia.
        rewrite firstn_O, app_nil_r.
        rewrite firstn_all2 by (rewrite length_app, length_firstn, Hframe; lia).
        now rewrite <- app_assoc.
      + rewrite !length_app, length_firstn, length_skipn, Hframe. lia. }
  intros raw Hlen. exact (Hgen n 0%nat raw eq_refl Hlen).
Qed.

(** Cutting a buffer of [n * ba] bytes into [n] frames and joining them. *)
Lemma concat_frames (raw : list byte) (ba n : nat) :
  length raw = (n * ba)%nat ->
  concat (map (fun j => firstn ba (skipn (j * ba) raw)) (seq 0 n)) = raw.
Proof.
  intro Hlen.
  assert (Hgen : forall k, (k <= n)%nat ->
            concat (map (fun j => firstn ba (skipn (j * ba) raw)) (seq 0 k))
            = firstn (k * ba) raw).
  { induction k as [|k IH]; intro Hk; [reflexivity|].
    rewrite seq_S, map_app, concat_app, IH by lia. cbn [map concat Nat.add].
    rewrite app_nil_r.
    rewrite <- (firstn_skipn (k * ba) (firstn (S k * ba) raw)).
    rewrite firstn_firstn, skipn_firstn_comm.
    replace (Nat.min (k * ba) (S k * ba)) with (k * ba)%nat by lia.
    replace (S k * ba - k * ba)%nat with ba by lia. reflexivity. }
  rewrite Hgen by lia. apply firstn_all2. lia.
Qed.

(** ** The converting constructor of [WavData<T>] *)

Lemma mem_read_in_range (buf : list byte) (off n : nat) :
  (off + n <= length buf)%nat ->
  mem_read buf (Z.of_nat off) n = Done (firstn n (skipn off buf)).
Proof.
  intro H. unfold mem_read. rewrite Nat2Z.id.
  destruct (Nat.leb_spec (off + n) (length buf)); [reflexivity|lia].
Qed.

Lemma mem_read_out_of_range (buf : list byte) (off n : nat) :
  (length buf < off + n)%nat ->
  mem_read buf (Z.of_nat off) n = Undefined OutOfBounds.
Proof.
  intro H. unfold mem_read. rewrite Nat2Z.id.
  destruct (Nat.leb_spec (off + n) (length buf)); [lia|reflexivity].
Qed.

Lemma mem_write_in_range (buf : list byte) (off : nat) (src : list byte) :
  (off + length src <= length buf)%nat ->
  mem_write buf (Z.of_nat off) src
  = Done (firstn off buf ++ src ++ skipn (off + length src) buf).
Proof.
  intro H. unfold mem_write. rewrite Nat2Z.id.
  destruct (Nat.leb_spec (off + length src) (length buf)); [reflexivity|lia].
Qed.

Lemma u32_small (x : Z) : 0 <= x < 2 ^ 32 -> u32 x = x.
Proof. intro H. unfold u32. now apply Z.mod_small. Qed.

Lemma u16_small (x : Z) : 0 <= x < 2 ^ 16 -> u16 x = x.
Proof. intro H. unfold u16. now apply Z.mod_small. Qed.

(** One turn of the extraction loop whose reads are inside the payload. *)
Lemma extract_in_bounds (T : sample_type) (wf : WavFile.t) (j : nat)
    (c1 c2 : list Z) :
  0 <= WavFile.block_align wf ->
  let ba := Z.to_nat (WavFile.block_align wf) in
  Z.of_nat (j * ba) < 2 ^ 32 ->
  (j * ba + channels_used (WavFile.num_channels wf) * sizeof T
   <= length (WavFile.raw_data wf))%nat ->
  WavData.extract T wf (Z.of_nat j) (c1, c2)
  = (x1 <- vec_set c1 (Z.of_nat j) (sample_at T (WavFile.raw_data wf) (j * ba)) ;;
     if WavFile.num_channels wf =? 2
     then x2 <- vec_set c2 (Z.of_nat j)
                  (sample_at T (WavFile.raw_data wf) (j * ba + sizeof T)) ;;
          Done (x1, x2)
     else Done (x1, c2)).
Proof.
  intros Hba ba Hwrap Hlen. unfold WavData.extract. cbn [fst snd].
  assert (Hoff : u32 (Z.of_nat j * u32 (WavFile.block_align wf))
                 = Z.of_nat (j * ba)).
  { destruct j as [|j'].
    - reflexivity.
    - assert (Z.of_nat ba < 2 ^ 32) by nia.
      rewrite (u32_small (WavFile.block_align wf)) by (subst ba; lia).
      rewrite <- (Z2Nat.id (WavFile.block_align wf)) at 1 by exact Hba.
      fold ba. rewrite <- Nat2Z.inj_mul. apply u32_small. lia. }
  rewrite Hoff. unfold channels_used in Hlen.
  destruct (WavFile.num_channels wf =? 2).
  - rewrite mem_read_in_range by lia. cbn [bind]. unfold sample_at.
    destruct (vec_set c1 _ _); cbn [bind]; [|reflexivity].
    rewrite <- Nat2Z.inj_add. rewrite mem_read_in_range by lia. reflexivity.
  - rewrite mem_read_in_range by lia. reflexivity.
Qed.

(** The constructor on a container whose frames lie inside [raw_data]:
    no read leaves the payload, and the channels hold the sample of each
    frame. *)
Lemma WavData_in_bounds (T : sample_type) (wf : WavFile.t) :
  WavFile.bits_per_sample wf = bit_width T ->
  0 <= WavFile.num_samples wf -> 0 <= WavFile.block_align wf ->
  Z.of_nat (channels_used (WavFile.num_channels wf) * sizeof T)
    <= WavFile.block_align wf ->
  WavFile.num_samples wf * WavFile.block_align wf
    <= Z.of_nat (length (WavFile.raw_data wf)) ->
  Z.of_nat (length (WavFile.raw_data wf)) < 2 ^ 32 ->
  let n := Z.to_nat (WavFile.num_samples wf) in
  let ba := Z.to_nat (WavFile.block_align wf) in
  WavData.WavData T wf
  = Done {| WavData.cerr := [];
            WavData.object :=
              {| WavData.sample_rate := WavFile.sample_rate wf;
                 WavData.num_channels := WavFile.num_channels wf;
                 WavData.bits_per_sample := WavFile.bits_per_sample wf;
                 WavData.num_samples := WavFile.num_samples wf;
                 WavData.channel1 :=
                   map (fun j => sample_at T (WavFile.raw_data wf) (j * ba))
                       (seq 0 n);
                 WavData.channel2 :=
                   if WavFile.num_channels wf =? 2
                   then map (fun j => sample_at T (WavFile.raw_data wf)
                                        (j * ba + sizeof T)) (seq 0 n)
                   else [] |} |}.
Proof.
  intros Hbits Hn Hba Hframe Hlen H32 n ba. unfold WavData.WavData.
  cbn [WavData.bits_per_sample WavData.num_samples WavData.num_channels
       WavData.channel1 WavData.channel2].
  rewrite Hbits, Z.eqb_refl. cbn [negb]. fold n.
  rewrite (for_loop_channels (WavData.extract T wf)
             (WavFile.num_channels wf =? 2)
             (fun j => sample_at T (WavFile.raw_data wf) (j * ba))
             (fun j => sample_at T (WavFile.raw_data wf) (j * ba + sizeof T)) n).
  - cbn [bind fst snd WavData.with_channels WavData.sample_rate
         WavData.num_channels WavData.bits_per_sample WavData.num_samples].
    destruct (WavFile.num_channels wf =? 2); reflexivity.
  - intros j c1 c2 Hj.
    assert (Hjn : Z.of_nat (S j) <= WavFile.num_samples wf) by (subst n; lia).
    assert (Hmul : Z.of_nat (S j * ba) <= Z.of_nat (length (WavFile.raw_data wf))).
    { rewrite Nat2Z.inj_mul. subst ba. rewrite Z2Nat.id by exact Hba. nia. }
    apply extract_in_bounds; [exact Hba|fold ba; lia|fold ba].
    apply Nat2Z.inj_le. rewrite Nat2Z.inj_add.
    assert (Z.of_nat ba = WavFile.block_align wf) by (subst ba; lia).
    lia.
  - apply length_resize.
  - intros ->. apply length_resize.
Qed.

(** ** [toWavFile] *)

Lemma nth_map_seq {A : Type} (f : nat -> A) (n j : nat) (d : A) :
  (j < n)%nat -> nth j (map f (seq 0 n)) d = f j.
Proof.
  intro H. rewrite (nth_indep _ d (f 0%nat)) by now rewrite length_map, length_seq.
  rewrite map_nth, seq_nth by exact H. reflexivity.
Qed.

Lemma length_to_object (T : sample_type) (v : Z) :
  length (to_object T v) = sizeof T.
Proof. apply length_le_encode. Qed.

Lemma channels_used_cases (nc : Z) :
  nc = 1 \/ nc = 2 -> Z.of_nat (channels_used nc) = nc.
Proof. intros [-> | ->]; reflexivity. Qed.

Lemma skipn_past {A : Type} (a b : list A) (n : nat) :
  skipn (length a + n) (a ++ b) = skipn n b.
Proof.
  rewrite skipn_app, skipn_all2 by lia.
  cbn [app]. f_equal. lia.
Qed.

(** Two writes one after the other are one write of both. *)
Lemma write_twice (raw o1 o2 : list byte) (a : nat) :
  (a + length o1 <= length raw)%nat ->
  let raw' := firstn a raw ++ o1 ++ skipn (a + length o1) raw in
  firstn (a + length o1) raw' ++ o2 ++ skipn (a + length o1 + length o2) raw'
  = firstn a raw ++ (o1 ++ o2) ++ skipn (a + (length o1 + length o2)) raw.
Proof.
  intros Hlen raw'. subst raw'.
  assert (Hpre : length (firstn a raw ++ o1) = (a + length o1)%nat)
    by (rewrite length_app, length_firstn; lia).
  rewrite (app_assoc (firstn a raw) o1).
  rewrite firstn_exact by exact Hpre.
  replace (a + length o1 + length o2)%nat
    with (length (firstn a raw ++ o1) + length o2)%nat by lia.
  rewrite skipn_past, skipn_skipn.
  rewrite <- !app_assoc. do 4 f_equal. lia.
Qed.

(** The bytes [toWavFile] writes for frame [j]. *)
Lemma interleave_in_bounds (T : sample_type) (d : WavData.t) (ba j : nat)
    (raw : list byte) :
  ba = (channels_used (WavData.num_channels d) * sizeof T)%nat ->
  Z.of_nat (j * ba) < 2 ^ 32 ->
  (j * ba + ba <= length raw)%nat ->
  (j < length (WavData.channel1 d))%nat ->
  (WavData.num_channels d = 2 -> (j < length (WavData.channel2 d))%nat) ->
  WavData.interleave T d (Z.of_nat ba) (Z.of_nat j) raw
  = Done (firstn (j * ba) raw
          ++ (to_object T (nth j (WavData.channel1 d) 0)
              ++ (if WavData.num_channels d =? 2
                  then to_object T (nth j (WavData.channel2 d) 0) else []))
          ++ skipn (j * ba + ba) raw).
Proof.
  intros Hba Hwrap Hlen H1 H2. unfold WavData.interleave.
  rewrite <- Nat2Z.inj_mul, u32_small by lia.
  rewrite (vec_get_in_range _ j 0 H1). cbn [bind].
  unfold channels_used in Hba.
  set (o1 := to_object T (nth j (WavData.channel1 d) 0)).
  assert (Ho1 : length o1 = sizeof T) by apply length_to_object.
  revert Hba.
  destruct (Z.eqb_spec (WavData.num_channels d) 2) as [E|_]; intro Hba.
  - rewrite mem_write_in_range by lia. cbn [bind].
    rewrite (vec_get_in_range _ j 0 (H2 E)). cbn [bind].
    set (o2 := to_object T (nth j (WavData.channel2 d) 0)).
    assert (Ho2 : length o2 = sizeof T) by apply length_to_object.
    rewrite <- Nat2Z.inj_add, <- Ho1.
    rewrite mem_write_in_range
      by (rewrite !length_app, length_firstn, length_skipn; lia).
    f_equal. rewrite write_twice by lia. do 3 f_equal.
    rewrite Ho1, Ho2. clear - Hba. lia.
  - rewrite mem_write_in_range by lia. cbn [bind].
    rewrite app_nil_r, Ho1. do 4 f_equal. clear - Hba. lia.
Qed.

(** [toWavFile] on an object whose channels hold [num_samples] samples, for
    one or two channels of a bit depth that is [T]'s. *)
Lemma toWavFile_frames (T : sample_type) (d : WavData.t) :
  WavData.num_channels d = 1 \/ WavData.num_channels d = 2 ->
  WavData.bits_per_sample d = bit_width T ->
  0 <= WavData.num_samples d ->
  let n := Z.to_nat (WavData.num_samples d) in
  let ba := (channels_used (WavData.num_channels d) * sizeof T)%nat in
  Z.of_nat (n * ba) < 2 ^ 32 ->
  length (WavData.channel1 d) = n ->
  (WavData.num_channels d = 2 -> length (WavData.channel2 d) = n) ->
  WavData.toWavFile T d
  = Done {| WavFile.chunk_size := u32 (36 + Z.of_nat (n * ba));
            WavFile.num_channels := WavData.num_channels d;
            WavFile.sample_rate := WavData.sample_rate d;
            WavFile.block_align := Z.of_nat ba;
            WavFile.bits_per_sample := WavData.bits_per_sample d;
            WavFile.data_size := Z.of_nat (n * ba);
            WavFile.num_samples := WavData.num_samples d;
            WavFile.raw_data :=
              concat (map (fun j =>
                             to_object T (nth j (WavData.channel1 d) 0)
                             ++ (if WavData.num_channels d =? 2
                                 then to_object T (nth j (WavData.channel2 d) 0)
                                 else []))
                          (seq 0 n)) |}.
Proof.
  intros Hnc Hbits Hn n ba H32 H1 H2. unfold WavData.toWavFile.
  assert (Hba : u16 (WavData.num_channels d * (WavData.bits_per_sample d / 8))
                = Z.of_nat ba).
  { rewrite Hbits. unfold bit_width. rewrite Z.div_mul by lia.
    subst ba. rewrite Nat2Z.inj_mul, channels_used_cases by exact Hnc.
    apply u16_small. destruct Hnc as [-> | ->]; destruct T; simpl; lia. }
  rewrite Hba.
  assert (Hds : u32 (WavData.num_samples d * Z.of_nat ba) = Z.of_nat (n * ba)).
  { rewrite Nat2Z.inj_mul. subst n. rewrite Z2Nat.id by exact Hn.
    apply u32_small. split; [nia|]. rewrite <- (Z2Nat.id _ Hn), <- Nat2Z.inj_mul.
    exact H32. }
  rewrite Hds, Nat2Z.id. fold n.
  rewrite (for_loop_frames (WavData.interleave T d (Z.of_nat ba))
             (fun j => to_object T (nth j (WavData.channel1 d) 0)
                       ++ (if WavData.num_channels d =? 2
                           then to_object T (nth j (WavData.channel2 d) 0)
                           else [])) ba n).
  - reflexivity.
  - intro j. rewrite length_app, length_to_object. subst ba.
    unfold channels_used.
    destruct (WavData.num_channels d =? 2);
      [rewrite length_to_object|cbn [length]]; lia.
  - intros j raw Hj Hlen. apply interleave_in_bounds; try reflexivity.
    + assert (j * ba <= n * ba)%nat by nia. lia.
    + assert (S j * ba <= n * ba)%nat by (apply Nat.mul_le_mono_r; lia). lia.
    + lia.
    + intro E. rewrite (H2 E). exact Hj.
  - apply length_resize.
Qed.

(** ** Splitting and joining again *)

Lemma firstn_add {A : Type} (a b : nat) : forall l : list A,
  firstn (a + b) l = firstn a l ++ firstn b (skipn a l).
Proof.
  induction a as [|a IH]; intros [|x l]; cbn [Nat.add firstn skipn app];
    try reflexivity.
  - now rewrite firstn_nil.
  - now rewrite IH.
Qed.

(** C4.  A container with one or two channels, the bit depth of [T], the
    canonical block alignment [num_channels * sizeof (T)], a payload of
    [data_size = num_samples * block_align] bytes: the constructor of
    [WavData<T>] followed by [toWavFile] gives a container with the same
    [raw_data], [block_align] and [data_size]. *)
Theorem toWavFile_WavData_inverse (T : sample_type) (c : WavFile.t) :
  WavFile.num_channels c = 1 \/ WavFile.num_channels c = 2 ->
  WavFile.bits_per_sample c = bit_width T ->
  WavFile.block_align c = WavFile.num_channels c * Z.of_nat (sizeof T) ->
  0 <= WavFile.num_samples c ->
  WavFile.data_size c = WavFile.num_samples c * WavFile.block_align c ->
  WavFile.data_size c < 2 ^ 32 ->
  Z.of_nat (length (WavFile.raw_data c)) = WavFile.data_size c ->
  exists r c',
    WavData.WavData T c = Done r /\ WavData.cerr r = [] /\
    WavData.toWavFile T (WavData.object r) = Done c' /\
    WavFile.raw_data c' = WavFile.raw_data c /\
    WavFile.block_align c' = WavFile.block_align c /\
    WavFile.data_size c' = WavFile.data_size c.
Proof.
  intros Hnc Hbits Hba Hn Hds H32 Hlen.
  set (n := Z.to_nat (WavFile.num_samples c)).
  set (ba := (channels_used (WavFile.num_channels c) * sizeof T)%nat).
  assert (Hba' : WavFile.block_align c = Z.of_nat ba)
    by (subst ba; rewrite Nat2Z.inj_mul, channels_used_cases by exact Hnc;
        exact Hba).
  assert (Hnba : Z.of_nat (n * ba) = WavFile.data_size c)
    by (rewrite Nat2Z.inj_mul; subst n; rewrite Z2Nat.id by exact Hn;
        rewrite Hds, Hba'; reflexivity).
  rewrite (WavData_in_bounds T c Hbits Hn) by (fold ba; lia).
  eexists. eexists. split; [reflexivity|]. split; [reflexivity|].
  cbn [WavData.object]. fold n. rewrite Hba', Nat2Z.id.
  rewrite toWavFile_frames; cbn [WavData.num_channels WavData.bits_per_sample
    WavData.num_samples WavData.channel1 WavData.channel2]; fold n ba;
    try assumption; try lia.
  - split; [reflexivity|]. cbn [WavFile.raw_data WavFile.block_align
      WavFile.data_size]. split; [|split; [reflexivity|exact Hnba]].
    transitivity (concat (map (fun j => firstn ba (skipn (j * ba)
                                                     (WavFile.raw_data c)))
                              (seq 0 n)));
      [|apply concat_frames; lia].
    f_equal. apply map_ext_in. intros j Hj. apply in_seq in Hj.
    rewrite nth_map_seq by lia. unfold sample_at.
    assert (Hfit : (j * ba + ba <= length (WavFile.raw_data c))%nat)
      by (assert (S j * ba <= n * ba)%nat by (apply Nat.mul_le_mono_r; lia); lia).
    rewrite to_object_from_object
      by (rewrite length_firstn, length_skipn; subst ba; unfold channels_used in *;
          destruct (WavFile.num_channels c =? 2); lia).
    subst ba. unfold channels_used in *.
    destruct (WavFile.num_channels c =? 2).
    + rewrite nth_map_seq by lia. unfold sample_at.
      rewrite to_object_from_object
        by (rewrite length_firstn, length_skipn; lia).
      replace (j * (2 * sizeof T) + sizeof T)%nat
        with (sizeof T + j * (2 * sizeof T))%nat by lia.
      rewrite <- skipn_skipn, <- firstn_add. f_equal. lia.
    + rewrite app_nil_r. f_equal. lia.
  - now rewrite length_map, length_seq.
  - intros ->. cbn [Z.eqb Pos.eqb]. now rewrite length_map, length_seq.
Qed.

Lemma toWavFile_WavData_inverse_witness :
  exists r c',
    WavData.WavData int16_t mono16_container = Done r /\ WavData.cerr r = [] /\
    WavData.toWavFile int16_t (WavData.object r) = Done c' /\
    WavFile.raw_data c' = WavFile.raw_data mono16_container /\
    WavFile.block_align c' = WavFile.block_align mono16_container /\
    WavFile.data_size c' = WavFile.data_size mono16_container.
Proof.
  apply (toWavFile_WavData_inverse int16_t mono16_container);
    [left; reflexivity|reflexivity|reflexivity|simpl; lia|reflexivity
    |reflexivity|reflexivity].
Defined.

(** ** The reads of the constructor and the payload *)

Lemma extract_fails_out_of_bounds (T : sample_type) (wf : WavFile.t) (i : Z)
    (ch : list Z * list Z) (u : undefined) :
  WavData.extract T wf i ch = Undefined u -> u = OutOfBounds.
Proof.
  unfold WavData.extract, mem_read, vec_set.
  repeat match goal with
         | |- context [if ?b then _ else _] => destruct b; cbn [bind]
         end;
    intro H; try discriminate; now injection H.
Qed.

(** A loop that can only fail with [OutOfBounds], and does so in its last
    turn whatever the state, fails with [OutOfBounds]. *)
Lemma for_loop_fails_at_last {S : Type} (body : Z -> S -> outcome S) (k : nat) :
  forall (j : nat) (s : S),
  (forall i s' u, body i s' = Undefined u -> u = OutOfBounds) ->
  (forall s', body (Z.of_nat (j + k)) s' = Undefined OutOfBounds) ->
  for_loop (Z.of_nat j) (Datatypes.S k) body s = Undefined OutOfBounds.
Proof.
  induction k as [|k IH]; intros j s Hu Hlast.
  - rewrite for_loop_S. rewrite Nat.add_0_r in Hlast. now rewrite Hlast.
  - rewrite for_loop_S. destruct (body (Z.of_nat j) s) as [s'|u] eqn:E.
    + cbn [bind]. replace (Z.of_nat j + 1) with (Z.of_nat (Datatypes.S j)) by lia.
      apply IH; [exact Hu|].
      intro s''. replace (Datatypes.S j + k)%nat with (j + Datatypes.S k)%nat by lia.
      apply Hlast.
    + cbn [bind]. now rewrite (Hu _ _ _ E).
Qed.

(** C10, as amended.  The constructor checks no offset.
    - Its reads stay inside [raw_data] when the bit depth is [T]'s, there
      is at least one channel, [block_align >= num_channels * sizeof (T)]
      and the payload, of [data_size] bytes, has
      [data_size >= num_samples * block_align].
    - With one or two channels, the bit depth of [T], at least one frame
      and a payload of exactly [num_samples * block_align] bytes, a stored
      [block_align] smaller than [num_channels * sizeof (T)] puts the end
      of the last frame's read past the end of [raw_data], and the
      constructor reads outside the payload. *)
Theorem WavData_reads_and_block_align (T : sample_type) (wf : WavFile.t) :
  WavFile.bits_per_sample wf = bit_width T ->
  0 <= WavFile.num_samples wf ->
  Z.of_nat (length (WavFile.raw_data wf)) = WavFile.data_size wf ->
  WavFile.data_size wf < 2 ^ 32 ->
  (1 <= WavFile.num_channels wf ->
   WavFile.num_channels wf * Z.of_nat (sizeof T) <= WavFile.block_align wf ->
   WavFile.num_samples wf * WavFile.block_align wf <= WavFile.data_size wf ->
   exists r, WavData.WavData T wf = Done r /\ WavData.cerr r = [])
  /\
  (WavFile.num_channels wf = 1 \/ WavFile.num_channels wf = 2 ->
   1 <= WavFile.num_samples wf ->
   0 <= WavFile.block_align wf < WavFile.num_channels wf * Z.of_nat (sizeof T) ->
   WavFile.data_size wf = WavFile.num_samples wf * WavFile.block_align wf ->
   (WavFile.num_samples wf - 1) * WavFile.block_align wf
     + WavFile.num_channels wf * Z.of_nat (sizeof T)
     > Z.of_nat (length (WavFile.raw_data wf))
   /\ WavData.WavData T wf = Undefined OutOfBounds).
Proof.
  intros Hbits Hn Hlen H32. split.
  - intros Hnc Hba Hds.
    assert (Hused : Z.of_nat (channels_used (WavFile.num_channels wf))
                    <= WavFile.num_channels wf)
      by (unfold channels_used;
          destruct (Z.eqb_spec (WavFile.num_channels wf) 2); lia).
    rewrite (WavData_in_bounds T wf Hbits Hn); try lia.
    + eexists. split; reflexivity.
    + rewrite Nat2Z.inj_mul. nia.
  - intros Hnc Hn1 Hba Hds. split; [nia|].
    unfold WavData.WavData.
    cbn [WavData.bits_per_sample WavData.num_samples WavData.num_channels
         WavData.channel1 WavData.channel2].
    rewrite Hbits, Z.eqb_refl. cbn [negb].
    set (n := Z.to_nat (WavFile.num_samples wf)).
    destruct n as [|k] eqn:En; [lia|].
    change 0 with (Z.of_nat 0).
    rewrite for_loop_fails_at_last; [reflexivity| |].
    + intros i s' u. apply extract_fails_out_of_bounds.
    + intros [c1 c2]. cbn [Nat.add].
      set (ba := Z.to_nat (WavFile.block_align wf)).
      assert (Hbaz : Z.of_nat ba = WavFile.block_align wf) by (subst ba; lia).
      assert (Hk : Z.of_nat k = WavFile.num_samples wf - 1) by lia.
      assert (Hsz : (1 <= sizeof T <= 8)%nat) by (destruct T; simpl; lia).
      assert (Hraw : length (WavFile.raw_data wf) = (Datatypes.S k * ba)%nat)
        by (apply Nat2Z.inj; rewrite Nat2Z.inj_mul, Hbaz; lia).
      unfold WavData.extract. cbn [fst snd].
      rewrite (u32_small (WavFile.block_align wf)) by lia.
      rewrite <- Hbaz, <- Nat2Z.inj_mul.
      rewrite u32_small by (split; [lia|]; rewrite Nat2Z.inj_mul; nia).
      destruct (Nat.le_gt_cases (k * ba + sizeof T)
                  (length (WavFile.raw_data wf))) as [Hfit|Hout].
      * rewrite mem_read_in_range by exact Hfit. cbn [bind].
        destruct (vec_set c1 _ _) as [c1'|u] eqn:E1; cbn [bind].
        -- destruct (Z.eqb_spec (WavFile.num_channels wf) 2) as [E|E].
           ++ rewrite <- Nat2Z.inj_add.
              rewrite mem_read_out_of_range; [reflexivity|].
              rewrite Hraw. rewrite E in Hba. lia.
           ++ exfalso. destruct Hnc as [H1|H2]; [|contradiction].
              rewrite H1 in Hba. lia.
        -- unfold vec_set in E1. destruct (_ <? _)%nat; [discriminate|].
           now injection E1 as <-.
      * now rewrite mem_read_out_of_range by exact Hout.
Qed.

Lemma WavData_reads_and_block_align_witness :
  (exists r, WavData.WavData int16_t mono16_container = Done r
             /\ WavData.cerr r = [])
  /\
  ((WavFile.num_samples short_align_container - 1)
     * WavFile.block_align short_align_container
     + WavFile.num_channels short_align_container * Z.of_nat (sizeof int16_t)
     > Z.of_nat (length (WavFile.raw_data short_align_container))
   /\ WavData.WavData int16_t short_align_container = Undefined OutOfBounds).
Proof.
  split.
  - apply (WavData_reads_and_block_align int16_t mono16_container);
      try reflexivity; simpl; lia.
  - apply (WavData_reads_and_block_align int16_t short_align_container);
      try reflexivity; try (right; reflexivity); simpl; lia.
Defined.

(** C10 as stated does not hold: [odd_align_container] has two channels of
    16 bits and a stored [block_align] of 3, smaller than
    [num_channels * sizeof (int16_t) = 4]; its payload has ten bytes, its
    three frames are read at offsets 0, 3 and 6, and the last read ends at
    the tenth byte.  No read leaves [raw_data]. *)
Lemma WavData_small_block_align_in_bounds :
  WavFile.block_align odd_align_container
    < WavFile.num_channels odd_align_container * Z.of_nat (sizeof int16_t)
  /\ WavFile.num_samples odd_align_container
     = WavFile.data_size odd_align_container
       / WavFile.block_align odd_align_container
  /\ Z.of_nat (length (WavFile.raw_data odd_align_container))
     = WavFile.data_size odd_align_container
  /\ exists r, WavData.WavData int16_t odd_align_container = Done r
               /\ WavData.cerr r = [].
Proof.
  repeat split; try (vm_compute; reflexivity).
  eexists. split; vm_compute; reflexivity.
Qed.

(** * Floating point *)

(** ** Binary digits and shifts *)

Lemma digits2_pos_bounds (p : positive) :
  2 ^ (Z.pos (digits2_pos p) - 1) <= Z.pos p < 2 ^ Z.pos (digits2_pos p).
Proof.
  induction p as [p IH|p IH|]; cbn [digits2_pos]; [| |simpl; lia];
    rewrite Pos2Z.inj_succ;
    replace (Z.succ (Z.pos (digits2_pos p)) - 1)
      with (Z.succ (Z.pos (digits2_pos p) - 1)) by lia;
    rewrite !Z.pow_succ_r by lia; lia.
Qed.

Lemma digits2_pos_unique (p : positive) (d : Z) :
  2 ^ (d - 1) <= Z.pos p < 2 ^ d -> Z.pos (digits2_pos p) = d.
Proof.
  intros [Hlo Hhi]. pose proof (digits2_pos_bounds p) as [Hlo' Hhi'].
  assert (0 < d).
  { destruct (Z.lt_ge_cases 0 d) as [|Hd]; [assumption|].
    destruct (Z.eq_dec d 0) as [->|]; [simpl in Hhi; lia|].
    rewrite Z.pow_neg_r in Hhi by lia. lia. }
  destruct (Z.lt_trichotomy (Z.pos (digits2_pos p)) d) as [Hlt|[Heq|Hgt]];
    [|exact Heq|].
  - assert (2 ^ Z.pos (digits2_pos p) <= 2 ^ (d - 1))
      by (apply Z.pow_le_mono_r; lia). lia.
  - assert (2 ^ d <= 2 ^ (Z.pos (digits2_pos p) - 1))
      by (apply Z.pow_le_mono_r; lia). lia.
Qed.

Lemma iter_pos_nat {A : Type} (f : A -> A) (p : positive) : forall x : A,
  iter_pos f p x = Nat.iter (Pos.to_nat p) f x.
Proof.
  induction p as [p IH|p IH|]; intro x; cbn [iter_pos].
  - rewrite !IH, Pos2Nat.inj_xI. rewrite <- Nat.iter_succ_r, <- Nat.iter_add.
    f_equal. lia.
  - rewrite !IH, Pos2Nat.inj_xO, <- Nat.iter_add. f_equal. lia.
  - reflexivity.
Qed.

Lemma shr_1_m (mrs : shr_record) :
  0 <= shr_m mrs -> shr_m (shr_1 mrs) = shr_m mrs / 2.
Proof.
  destruct mrs as [m r s]. cbn [shr_m]. intro Hm.
  destruct m as [|p|p]; [reflexivity| |lia].
  destruct p as [p|p|]; cbn [shr_1 shr_m].
  - apply Z.div_unique with 1; lia.
  - apply Z.div_unique with 0; lia.
  - reflexivity.
Qed.

Lemma shr_iter_m (k : nat) (mrs : shr_record) :
  0 <= shr_m mrs ->
  shr_m (Nat.iter k shr_1 mrs) = shr_m mrs / 2 ^ Z.of_nat k.
Proof.
  intro Hm. induction k as [|k IH].
  - cbn [Nat.iter]. now rewrite Z.div_1_r.
  - rewrite Nat.iter_succ. rewrite shr_1_m by (rewrite IH; apply Z.div_pos; lia).
    rewrite IH, Z.div_div by lia. f_equal.
    rewrite Nat2Z.inj_succ, Z.pow_succ_r by lia. lia.
Qed.

Lemma shr_1_even (q : Z) :
  0 <= q ->
  shr_1 {| shr_m := 2 * q; shr_r := false; shr_s := false |}
  = {| shr_m := q; shr_r := false; shr_s := false |}.
Proof. intro Hq. destruct q as [|p|p]; [reflexivity|reflexivity|lia]. Qed.

Lemma shr_iter_exact (k : nat) : forall q : Z,
  0 <= q ->
  Nat.iter k shr_1 {| shr_m := q * 2 ^ Z.of_nat k; shr_r := false; shr_s := false |}
  = {| shr_m := q; shr_r := false; shr_s := false |}.
Proof.
  induction k as [|k IH]; intros q Hq.
  - cbn [Nat.iter]. now rewrite Z.mul_1_r.
  - rewrite Nat.iter_succ_r, Nat2Z.inj_succ, Z.pow_succ_r by lia.
    replace (q * (2 * 2 ^ Z.of_nat k)) with (2 * (q * 2 ^ Z.of_nat k)) by lia.
    rewrite shr_1_even by (apply Z.mul_nonneg_nonneg; lia). now apply IH.
Qed.

Lemma shr_spec (mrs : shr_record) (e n : Z) :
  0 <= n -> shr mrs e n = (Nat.iter (Z.to_nat n) shr_1 mrs, e + n).
Proof.
  intro Hn. destruct n as [|p|p]; [|cbn [shr]|lia].
  - cbn [shr Z.to_nat Nat.iter]. now rewrite Z.add_0_r.
  - now rewrite iter_pos_nat.
Qed.

Lemma fexp_normal (x : Z) : -1021 <= x -> fexp 53 1024 x = x - 53.
Proof. intro H. unfold fexp, emin. lia. Qed.

Lemma shr_fexp_spec (m : positive) (e : Z) (l : location) (k : Z) :
  Z.pos (digits2_pos m) = 53 + k -> 0 <= k -> -1074 <= e + k ->
  shr_fexp 53 1024 (Z.pos m) e l
  = (Nat.iter (Z.to_nat k) shr_1 (shr_record_of_loc (Z.pos m) l), e + k).
Proof.
  intros Hd Hk He. unfold shr_fexp. cbn [Zdigits2]. rewrite Hd.
  rewrite fexp_normal by lia.
  replace (53 + k + e - 53 - e) with k by lia. now apply shr_spec.
Qed.

Lemma shr_m_of_loc (m : Z) (l : location) : shr_m (shr_record_of_loc m l) = m.
Proof. destruct l as [|[| |]]; reflexivity. Qed.

Lemma round_nearest_even_cases (m : Z) (l : location) :
  round_nearest_even m l = m \/ round_nearest_even m l = m + 1.
Proof.
  destruct l as [|[| |]]; cbn [round_nearest_even]; auto.
  destruct (Z.even m); auto.
Qed.

(** The second half of [binary_round_aux]: a mantissa of 53 bits, or
    [2 ^ 53] after a carry, is made canonical. *)
Lemma round_finish (s : bool) (v e : Z) :
  2 ^ 52 <= v <= 2 ^ 53 -> -1074 <= e -> e < 971 ->
  exists m' e',
    (let '(mrs'', e'') := shr_fexp 53 1024 v e loc_Exact in
     match shr_m mrs'' with
     | Z0 => S754_zero s
     | Z.pos m => if e'' <=? 1024 - 53 then S754_finite s m e''
                  else S754_infinity s
     | Z.neg _ => S754_nan
     end) = S754_finite s m' e'
    /\ Z.pos (digits2_pos m') = 53 /\ e <= e'
    /\ Z.pos m' * 2 ^ (e' - e) = v
    /\ (v < 2 ^ 53 -> Z.pos m' = v /\ e' = e).
Proof.
  intros Hv He1 He2. destruct v as [|p|p]; try lia.
  destruct (Z.eq_dec (Z.pos p) (2 ^ 53)) as [E|NE].
  - injection E as ->.
    rewrite (shr_fexp_spec _ e loc_Exact 1) by (reflexivity || lia).
    cbn [Z.to_nat Pos.to_nat Pos.iter_op Nat.iter nat_rect shr_record_of_loc
         shr_1 shr_m].
    destruct (Z.leb_spec (e + 1) (1024 - 53)) as [_|]; [|lia].
    exists (4503599627370496)%positive, (e + 1).
    repeat split; try reflexivity; try lia.
    replace (e + 1 - e) with 1 by lia. reflexivity.
  - assert (Hd : Z.pos (digits2_pos p) = 53 + 0)
      by (apply digits2_pos_unique; simpl; lia).
    rewrite (shr_fexp_spec _ e loc_Exact 0 Hd) by lia.
    cbn [Z.to_nat Nat.iter nat_rect shr_record_of_loc shr_m].
    rewrite Z.add_0_r.
    destruct (Z.leb_spec e (1024 - 53)) as [_|]; [|lia].
    exists p, e. rewrite Z.sub_diag. repeat split; lia.
Qed.

(** [binary_round_aux] on a mantissa of [53 + k] bits: the result is finite
    and canonical, its value is the mantissa without its [k] low bits, or
    that plus one, at the exponent raised by [k]; and it is the former when
    nothing is lost. *)
Lemma binary_round_aux_spec (s : bool) (m : positive) (e : Z) (l : location)
    (k : Z) :
  Z.pos (digits2_pos m) = 53 + k -> 0 <= k -> -1074 <= e + k -> e + k < 971 ->
  exists m' e',
    binary_round_aux 53 1024 s (Z.pos m) e l = S754_finite s m' e'
    /\ Z.pos (digits2_pos m') = 53 /\ e + k <= e'
    /\ (Z.pos m' * 2 ^ (e' - (e + k)) = Z.pos m / 2 ^ k
        \/ Z.pos m' * 2 ^ (e' - (e + k)) = Z.pos m / 2 ^ k + 1)
    /\ (l = loc_Exact -> Z.pos m mod 2 ^ k = 0 ->
        Z.pos m' = Z.pos m / 2 ^ k /\ e' = e + k).
Proof.
  intros Hd Hk He1 He2. unfold binary_round_aux.
  rewrite (shr_fexp_spec m e l k Hd Hk He1).
  set (mrs := Nat.iter (Z.to_nat k) shr_1 (shr_record_of_loc (Z.pos m) l)).
  set (q := Z.pos m / 2 ^ k).
  assert (Hq : shr_m mrs = q).
  { subst mrs q. rewrite shr_iter_m by (rewrite shr_m_of_loc; lia).
    now rewrite shr_m_of_loc, Z2Nat.id. }
  assert (Hqr : 2 ^ 52 <= q < 2 ^ 53).
  { pose proof (digits2_pos_bounds m) as Hb. rewrite Hd in Hb.
    replace (53 + k - 1) with (52 + k) in Hb by lia.
    rewrite !Z.pow_add_r in Hb by lia.
    assert (0 < 2 ^ k) by (apply Z.pow_pos_nonneg; lia).
    subst q. split.
    - apply Z.div_le_lower_bound; lia.
    - apply Z.div_lt_upper_bound; lia. }
  rewrite Hq.
  assert (Hexact : l = loc_Exact -> Z.pos m mod 2 ^ k = 0 ->
                   round_nearest_even q (loc_of_shr_record mrs) = q).
  { intros -> Hmod.
    assert (Hex : mrs = {| shr_m := q; shr_r := false; shr_s := false |}).
    { subst mrs. cbn [shr_record_of_loc].
      replace (Z.pos m) with (q * 2 ^ Z.of_nat (Z.to_nat k)).
      - apply shr_iter_exact. lia.
      - rewrite Z2Nat.id by exact Hk. subst q.
        pose proof (Z.div_mod (Z.pos m) (2 ^ k)) as Hdm.
        rewrite Hmod in Hdm. specialize (Hdm ltac:(apply Z.pow_nonzero; lia)).
        lia. }
    rewrite Hex. reflexivity. }
  destruct (round_nearest_even_cases q (loc_of_shr_record mrs)) as [Hr|Hr];
    rewrite Hr in *.
  - destruct (round_finish s q (e + k)) as (m' & e' & -> & Hd' & Hle & Hv & Hx);
      try lia.
    exists m', e'. split; [reflexivity|]. split; [exact Hd'|].
    split; [exact Hle|]. split; [now left|]. intros _ _. apply Hx. lia.
  - destruct (round_finish s (q + 1) (e + k)) as (m' & e' & -> & Hd' & Hle & Hv & Hx);
      try lia.
    exists m', e'. split; [reflexivity|]. split; [exact Hd'|].
    split; [exact Hle|]. split; [now right|].
    intros Hl Hmod. specialize (Hexact Hl Hmod). lia.
Qed.

(** ** Integers as doubles *)

Lemma pos_iter_xO (p n : positive) :
  Z.pos (Pos.iter xO p n) = Z.pos p * 2 ^ Z.pos n.
Proof.
  induction n as [|n IH] using Pos.peano_ind.
  - cbn [Pos.iter]. lia.
  - rewrite Pos.iter_succ, Pos2Z.inj_xO, IH, Pos2Z.inj_succ, Z.pow_succ_r by lia.
    lia.
Qed.

Lemma binary_round_aux_canonical (s : bool) (m : positive) (e : Z) :
  Z.pos (digits2_pos m) = 53 -> -1074 <= e < 971 ->
  binary_round_aux 53 1024 s (Z.pos m) e loc_Exact = S754_finite s m e.
Proof.
  intros Hd He.
  destruct (binary_round_aux_spec s m e loc_Exact 0)
    as (m' & e' & -> & _ & _ & _ & Hx); try lia.
  destruct (Hx eq_refl) as [Hm He'].
  - apply Z.mod_1_r.
  - rewrite Z.div_1_r in Hm. injection Hm as ->. f_equal. lia.
Qed.

(** A nonzero integer of magnitude below [2 ^ 53] is a canonical double,
    exactly. *)
Lemma binary_normalize_integer (p : positive) (s : bool) :
  Z.pos p < 2 ^ 53 ->
  exists m e,
    binary_round 53 1024 s p 0 = S754_finite s m e
    /\ Z.pos (digits2_pos m) = 53 /\ -52 <= e <= 0
    /\ Z.pos m = Z.pos p * 2 ^ (- e).
Proof.
  intro Hp. unfold binary_round.
  pose proof (digits2_pos_bounds p) as Hb.
  set (d := Z.pos (digits2_pos p)) in *.
  assert (Hd : 1 <= d <= 53).
  { split; [subst d; lia|].
    destruct (Z.le_gt_cases d 53) as [|Hgt]; [assumption|].
    assert (2 ^ 53 <= 2 ^ (d - 1)) by (apply Z.pow_le_mono_r; lia). lia. }
  rewrite Z.add_0_r, fexp_normal by lia. unfold shl_align.
  rewrite Z.sub_0_r.
  destruct (d - 53) as [|q|q] eqn:Eq; [| lia |].
  - rewrite binary_round_aux_canonical by lia.
    exists p, 0. repeat split; (lia || (fold d; lia)).
  - assert (Hm : Z.pos (Pos.iter xO p q) = Z.pos p * 2 ^ Z.pos q)
      by apply pos_iter_xO.
    assert (Hq : Z.pos q = 53 - d) by lia.
    assert (Hdm : Z.pos (digits2_pos (Pos.iter xO p q)) = 53).
    { apply digits2_pos_unique. rewrite Hm, Hq.
      assert (E1 : 2 ^ (53 - 1) = 2 ^ (d - 1) * 2 ^ (53 - d))
        by (rewrite <- Z.pow_add_r by lia; f_equal; lia).
      assert (E2 : 2 ^ 53 = 2 ^ d * 2 ^ (53 - d))
        by (rewrite <- Z.pow_add_r by lia; f_equal; lia).
      rewrite E1, E2.
      assert (0 < 2 ^ (53 - d)) by (apply Z.pow_pos_nonneg; lia). nia. }
    rewrite binary_round_aux_canonical by (assumption || lia).
    exists (Pos.iter xO p q), (Z.neg q).
    split; [reflexivity|]. split; [exact Hdm|]. split; [lia|].
    rewrite Hm. reflexivity.
Qed.

(** The sign, mantissa and exponent of [static_cast<double> (z)]. *)
Lemma of_Z_finite (z : Z) :
  z <> 0 -> Z.abs z < 2 ^ 53 ->
  exists m e,
    double.of_Z z = S754_finite (z <? 0) m e
    /\ Z.pos (digits2_pos m) = 53 /\ -52 <= e <= 0
    /\ Z.pos m = Z.abs z * 2 ^ (- e).
Proof.
  intros Hz Hlt. unfold double.of_Z, binary_normalize, double.prec, double.emax.
  destruct z as [|p|p]; [contradiction| |];
    apply binary_normalize_integer; exact Hlt.
Qed.

Lemma of_Z_zero : double.of_Z 0 = S754_zero false.
Proof. reflexivity. Qed.

(** ** Exact operations *)

Lemma trunc_of_Z (z : Z) : Z.abs z < 2 ^ 53 -> double.trunc (double.of_Z z) = Some z.
Proof.
  intro Hlt. destruct (Z.eq_dec z 0) as [->|Hz]; [reflexivity|].
  destruct (of_Z_finite z Hz Hlt) as (m & e & -> & _ & He & Hm).
  unfold double.trunc. rewrite Hm.
  destruct (Z.leb_spec 0 e) as [H0|H0].
  - assert (e = 0) as -> by lia. cbn [Z.opp Z.pow]. rewrite !Z.mul_1_r.
    destruct (Z.ltb_spec z 0); f_equal; lia.
  - rewrite Z.div_mul by (apply Z.pow_nonzero; lia).
    destruct (Z.ltb_spec z 0); f_equal; lia.
Qed.

Lemma cast_to_of_Z (T : sample_type) (z : Z) :
  numeric_min T <= z <= numeric_max T ->
  Z.abs z < 2 ^ 53 ->
  double.cast_to T (double.of_Z z) = Done z.
Proof.
  intros Hr Hlt. unfold double.cast_to. rewrite trunc_of_Z by exact Hlt.
  destruct (Z.leb_spec (numeric_min T) z); [|lia].
  destruct (Z.leb_spec z (numeric_max T)); [reflexivity|lia].
Qed.

Lemma of_sign_mag_of_Z (z : Z) :
  double.of_sign_mag (z <? 0) (Z.abs z) = double.of_Z z.
Proof.
  unfold double.of_sign_mag, double.of_Z. destruct z as [|p|p]; reflexivity.
Qed.

Lemma floor_of_Z (z : Z) : Z.abs z < 2 ^ 53 ->
  double.floor (double.of_Z z) = double.of_Z z.
Proof.
  intro Hlt. destruct (Z.eq_dec z 0) as [->|Hz]; [reflexivity|].
  destruct (of_Z_finite z Hz Hlt) as (m & e & E & _ & He & Hm).
  rewrite E. unfold double.floor.
  destruct (Z.leb_spec 0 e) as [H0|H0]; [reflexivity|].
  rewrite Hm, Z.div_mul, Z.mod_mul by (apply Z.pow_nonzero; lia).
  cbn [Z.eqb]. rewrite <- E.
  destruct (z <? 0) eqn:Es; rewrite <- Es; apply of_sign_mag_of_Z.
Qed.

Lemma round_of_Z (z : Z) : Z.abs z < 2 ^ 53 ->
  double.round (double.of_Z z) = double.of_Z z.
Proof.
  intro Hlt. destruct (Z.eq_dec z 0) as [->|Hz]; [reflexivity|].
  destruct (of_Z_finite z Hz Hlt) as (m & e & E & _ & He & Hm).
  rewrite E. unfold double.round.
  destruct (Z.leb_spec 0 e) as [H0|H0]; [reflexivity|].
  rewrite Hm, Z.div_mul, Z.mod_mul by (apply Z.pow_nonzero; lia).
  assert (0 < 2 ^ (- e)) by (apply Z.pow_pos_nonneg; lia).
  destruct (Z.leb_spec (2 ^ (- e)) (2 * 0)); [lia|].
  rewrite <- E. apply of_sign_mag_of_Z.
Qed.

Lemma one_eq : double.one = S754_finite false 4503599627370496 (-52).
Proof. reflexivity. Qed.

Lemma canonical_bounds (m : positive) :
  Z.pos (digits2_pos m) = 53 -> 2 ^ 52 <= Z.pos m < 2 ^ 53.
Proof. intro H. pose proof (digits2_pos_bounds m) as Hb. now rewrite H in Hb. Qed.

Lemma digits_scaled (m : positive) (v k : Z) :
  Z.pos (digits2_pos m) = 53 + k -> 0 <= k -> v = Z.pos m / 2 ^ k ->
  2 ^ 52 <= v < 2 ^ 53.
Proof.
  intros Hd Hk ->. pose proof (digits2_pos_bounds m) as Hb. rewrite Hd in Hb.
  replace (53 + k - 1) with (52 + k) in Hb by lia.
  rewrite !Z.pow_add_r in Hb by lia.
  assert (0 < 2 ^ k) by (apply Z.pow_pos_nonneg; lia).
  split; [apply Z.div_le_lower_bound|apply Z.div_lt_upper_bound]; lia.
Qed.

Lemma mul_one_r (s : bool) (m : positive) (e : Z) :
  Z.pos (digits2_pos m) = 53 -> -1074 <= e < 971 ->
  double.mul (S754_finite s m e) double.one = S754_finite s m e.
Proof.
  intros Hd He. rewrite one_eq. unfold double.mul, SFmul, double.prec, double.emax.
  rewrite xorb_false_r.
  pose proof (canonical_bounds m Hd) as Hb.
  assert (Hd' : Z.pos (digits2_pos (m * 4503599627370496)) = 53 + 52).
  { apply digits2_pos_unique. rewrite Pos2Z.inj_mul.
    change (Z.pos 4503599627370496) with (2 ^ 52).
    change (2 ^ (53 + 52 - 1)) with (2 ^ 52 * 2 ^ 52).
    change (2 ^ (53 + 52)) with (2 ^ 53 * 2 ^ 52). lia. }
  destruct (binary_round_aux_spec s (m * 4503599627370496) (e + -52) loc_Exact 52 Hd')
    as (m' & e' & -> & _ & _ & _ & Hx); try lia.
  rewrite Pos2Z.inj_mul in Hx. change (Z.pos 4503599627370496) with (2 ^ 52) in Hx.
  destruct (Hx eq_refl) as [Hm He']; [apply Z.mod_mul; lia|].
  rewrite Z.div_mul in Hm by lia. injection Hm as ->. f_equal. lia.
Qed.

Lemma mul_one_l (s : bool) (m : positive) (e : Z) :
  Z.pos (digits2_pos m) = 53 -> -1074 <= e < 971 ->
  double.mul double.one (S754_finite s m e) = S754_finite s m e.
Proof.
  intros Hd He. rewrite <- (mul_one_r s m e Hd He) at 2. rewrite one_eq.
  unfold double.mul, SFmul. rewrite xorb_false_r. cbn [xorb].
  now rewrite Pos.mul_comm, Z.add_comm.
Qed.

Lemma new_location_zero (n : Z) : new_location n 0 = loc_Exact.
Proof.
  unfold new_location, new_location_even, new_location_odd.
  destruct (Z.even n); reflexivity.
Qed.

(** The quotient, exponent and location [SFdiv] hands to the rounding, for
    two canonical mantissas. *)
Lemma SFdiv_core_canonical (m1 m2 : positive) (e1 e2 : Z) :
  Z.pos (digits2_pos m1) = 53 -> Z.pos (digits2_pos m2) = 53 ->
  -1021 <= e1 - e2 ->
  SFdiv_core_binary 53 1024 (Z.pos m1) e1 (Z.pos m2) e2
  = (Z.pos m1 * 2 ^ 53 / Z.pos m2, e1 - e2 - 53,
     new_location (Z.pos m2) ((Z.pos m1 * 2 ^ 53) mod Z.pos m2)).
Proof.
  intros H1 H2 He. unfold SFdiv_core_binary. cbn [Zdigits2]. rewrite H1, H2.
  replace (53 + e1 - (53 + e2)) with (e1 - e2) by lia.
  rewrite fexp_normal by lia.
  rewrite Z.min_l by lia.
  replace (e1 - e2 - (e1 - e2 - 53)) with 53 by lia.
  rewrite Z.shiftl_mul_pow2 by lia.
  unfold Z.div, Z.modulo.
  destruct (Z.div_eucl (Z.pos m1 * 2 ^ 53) (Z.pos m2)); reflexivity.
Qed.

Lemma div_one (s : bool) (m : positive) (e : Z) :
  Z.pos (digits2_pos m) = 53 -> -1073 <= e < 971 ->
  double.div (S754_finite s m e) double.one = S754_finite s m e.
Proof.
  intros Hd He. rewrite one_eq. unfold double.div, SFdiv, double.prec, double.emax.
  rewrite SFdiv_core_canonical by (reflexivity || assumption || lia).
  rewrite xorb_false_r.
  pose proof (canonical_bounds m Hd) as Hb.
  change (Z.pos 4503599627370496) with (2 ^ 52).
  replace (Z.pos m * 2 ^ 53) with (Z.pos m * 2 * 2 ^ 52)
    by (change (2 ^ 53) with (2 * 2 ^ 52); lia).
  rewrite Z.div_mul, Z.mod_mul, new_location_zero by lia.
  replace (Z.pos m * 2) with (Z.pos (m * 2)) by lia.
  assert (Hd' : Z.pos (digits2_pos (m * 2)) = 53 + 1)
    by (apply digits2_pos_unique; simpl (2 ^ _); lia).
  destruct (binary_round_aux_spec s (m * 2) (e - -52 - 53) loc_Exact 1 Hd')
    as (m' & e' & -> & _ & _ & _ & Hx); try lia.
  rewrite Pos2Z.inj_mul in Hx.
  destruct (Hx eq_refl) as [Hm He']; [apply Z.mod_mul; lia|].
  change (2 ^ 1) with 2 in Hm. rewrite Z.div_mul in Hm by lia.
  injection Hm as ->. f_equal. lia.
Qed.

Lemma div_self (s : bool) (m : positive) (e : Z) :
  Z.pos (digits2_pos m) = 53 ->
  double.div (S754_finite s m e) (S754_finite s m e) = double.one.
Proof.
  intro Hd. unfold double.div, SFdiv, double.prec, double.emax.
  rewrite SFdiv_core_canonical by (assumption || lia).
  rewrite xorb_nilpotent.
  rewrite (Z.mul_comm (Z.pos m)), Z.div_mul, Z.mod_mul, new_location_zero by lia.
  rewrite Z.sub_diag. reflexivity.
Qed.

Lemma sub_self (s : bool) (m : positive) (e : Z) :
  double.sub (S754_finite s m e) (S754_finite s m e) = double.zero.
Proof.
  unfold double.sub, SFsub. rewrite Z.min_id. unfold shl_align.
  rewrite Z.sub_diag. cbn [fst]. reflexivity.
Qed.

(** ** [resample] at the rate of its input *)

Lemma of_Z_cases (z : Z) : Z.abs z < 2 ^ 53 ->
  double.of_Z z = S754_zero false
  \/ exists s m e, double.of_Z z = S754_finite s m e
                   /\ Z.pos (digits2_pos m) = 53 /\ -52 <= e <= 0.
Proof.
  intro Hlt. destruct (Z.eq_dec z 0) as [->|Hz]; [now left|right].
  destruct (of_Z_finite z Hz Hlt) as (m & e & E & Hd & He & _).
  exists (z <? 0), m, e. auto.
Qed.

Lemma div_of_Z_one (z : Z) : Z.abs z < 2 ^ 53 ->
  double.div (double.of_Z z) double.one = double.of_Z z.
Proof.
  intro Hlt. destruct (of_Z_cases z Hlt) as [->|(s & m & e & -> & Hd & He)].
  - reflexivity.
  - apply div_one; [exact Hd|lia].
Qed.

Lemma mul_of_Z_one (z : Z) : Z.abs z < 2 ^ 53 ->
  double.mul (double.of_Z z) double.one = double.of_Z z.
Proof.
  intro Hlt. destruct (of_Z_cases z Hlt) as [->|(s & m & e & -> & Hd & He)].
  - reflexivity.
  - apply mul_one_r; [exact Hd|lia].
Qed.

Lemma div_of_Z_self (z : Z) : z <> 0 -> Z.abs z < 2 ^ 53 ->
  double.div (double.of_Z z) (double.of_Z z) = double.one.
Proof.
  intros Hz Hlt. destruct (of_Z_finite z Hz Hlt) as (m & e & -> & Hd & _).
  now apply div_self.
Qed.

Lemma sub_of_Z_self (z : Z) : Z.abs z < 2 ^ 53 ->
  double.sub (double.of_Z z) (double.of_Z z) = double.zero.
Proof.
  intro Hlt. destruct (of_Z_cases z Hlt) as [->|(s & m & e & -> & _)].
  - reflexivity.
  - apply sub_self.
Qed.

(** The interpolation with [frac = 0.0] is the first sample. *)
Lemma interp_frac_zero (s0 s1 : Z) :
  Z.abs s0 < 2 ^ 53 -> Z.abs s1 < 2 ^ 53 ->
  double.add
    (double.mul (double.sub double.one double.zero) (double.of_Z s0))
    (double.mul double.zero (double.of_Z s1))
  = double.of_Z s0.
Proof.
  intros H0 H1. change (double.sub double.one double.zero) with double.one.
  destruct (of_Z_cases s1 H1) as [->|(t & m1 & e1 & -> & _)];
    destruct (of_Z_cases s0 H0) as [->|(s & m & e & -> & Hd & He)];
    try rewrite mul_one_l by (assumption || lia);
    try reflexivity; destruct t; reflexivity.
Qed.

Lemma in_range_small (T : sample_type) (v : Z) :
  bit_width T <= 32 -> in_range T v -> Z.abs v < 2 ^ 53.
Proof.
  unfold in_range, numeric_min, numeric_max.
  destruct T; cbn; intros Hw Hv; lia.
Qed.

Lemma map_nth_seq {A : Type} (l : list A) (d : A) :
  map (fun j => nth j l d) (seq 0 (length l)) = l.
Proof.
  induction l as [|a l IH]; [reflexivity|].
  cbn [length seq map nth]. f_equal.
  rewrite <- seq_shift, map_map. exact IH.
Qed.

Lemma interpolate_frac_zero (T : sample_type) (channel : list Z) (j j1 : nat) :
  bit_width T <= 32 -> Forall (in_range T) channel ->
  (j < length channel)%nat -> (j1 < length channel)%nat ->
  interpolate T channel (Z.of_nat j) (Z.of_nat j1) double.zero
  = Done (nth j channel 0).
Proof.
  intros Hw Hall Hj Hj1. unfold interpolate.
  rewrite (vec_get_in_range _ j 0 Hj), (vec_get_in_range _ j1 0 Hj1).
  cbn [bind]. rewrite Forall_forall in Hall.
  assert (H0 : in_range T (nth j channel 0)) by (apply Hall, nth_In, Hj).
  assert (H1 : in_range T (nth j1 channel 0)) by (apply Hall, nth_In, Hj1).
  rewrite interp_frac_zero by (eapply in_range_small; eassumption).
  rewrite round_of_Z by (eapply in_range_small; eassumption).
  apply cast_to_of_Z; [exact H0|eapply in_range_small; eassumption].
Qed.

Lemma resample_index1_range (x : WavData.t) (j : nat) :
  0 <= WavData.num_samples x < 2 ^ 32 ->
  (j < Z.to_nat (WavData.num_samples x))%nat ->
  exists j1, resample_index1 x (Z.of_nat j) = Z.of_nat j1
             /\ (j1 < Z.to_nat (WavData.num_samples x))%nat
             /\ (j <= j1)%nat.
Proof.
  intros Hn Hj. unfold resample_index1.
  rewrite u32_small by lia.
  destruct (Z.ltb_spec (Z.of_nat j + 1) (WavData.num_samples x)).
  - exists (S j). split; [|split]; lia.
  - exists j. split; [|split]; lia.
Qed.

Lemma resample_body_same_rate (T : sample_type) (x : WavData.t) (j : nat)
    (c1 c2 : list Z) :
  bit_width T <= 32 -> typed T x ->
  (j < Z.to_nat (WavData.num_samples x))%nat ->
  resample_body T x double.one (Z.of_nat j) (c1, c2)
  = (x1 <- vec_set c1 (Z.of_nat j) (nth j (WavData.channel1 x) 0) ;;
     if WavData.num_channels x =? 2
     then x2 <- vec_set c2 (Z.of_nat j) (nth j (WavData.channel2 x) 0) ;;
          Done (x1, x2)
     else Done (x1, c2)).
Proof.
  intros Hw (Hrate & Hn & Hl1 & Hl2 & Hr1 & Hr2) Hj.
  assert (Hsmall : Z.abs (Z.of_nat j) < 2 ^ 53) by lia.
  unfold resample_body, resample_index0, source_index.
  rewrite div_of_Z_one, floor_of_Z by exact Hsmall.
  rewrite cast_to_of_Z by (unfold numeric_min, numeric_max; simpl; lia).
  cbn [bind fst snd]. rewrite sub_of_Z_self by exact Hsmall.
  destruct (resample_index1_range x j Hn Hj) as (j1 & -> & Hj1 & _).
  rewrite interpolate_frac_zero by (assumption || lia). cbn [bind].
  destruct (vec_set c1 _ _); cbn [bind]; [|reflexivity].
  destruct (Z.eqb_spec (WavData.num_channels x) 2) as [E|_]; [|reflexivity].
  rewrite interpolate_frac_zero by (assumption || rewrite (Hl2 E); lia).
  reflexivity.
Qed.

(** C5.  For a sample type of at most 32 bits (the widths the format has:
    [BitsPerSample] is 8, 16, 24 or 32) and a well-formed [x] with a sample
    rate that is not zero, [resample (x, x.sample_rate)] returns an object
    with the [num_samples] and the channels of [x]. *)
Theorem resample_same_rate (T : sample_type) (x : WavData.t) :
  bit_width T <= 32 -> typed T x -> WavData.sample_rate x <> 0 ->
  exists y,
    resample T x (WavData.sample_rate x) = Done y
    /\ WavData.num_samples y = WavData.num_samples x
    /\ WavData.channel1 y = WavData.channel1 x
    /\ WavData.channel2 y = WavData.channel2 x.
Proof.
  intros Hw Hx Hrate. pose proof Hx as (Hr & Hn & Hl1 & Hl2 & Hr1 & Hr2).
  unfold resample, resample_newNumSamples, resample_ratio.
  rewrite div_of_Z_self by lia.
  rewrite mul_of_Z_one by lia.
  rewrite cast_to_of_Z by (unfold numeric_min, numeric_max; simpl; lia).
  cbn [bind].
  rewrite (for_loop_channels (resample_body T x double.one)
             (WavData.num_channels x =? 2)
             (fun j => nth j (WavData.channel1 x) 0)
             (fun j => nth j (WavData.channel2 x) 0)).
  - cbn [bind fst snd]. eexists. split; [reflexivity|].
    cbn [WavData.num_samples WavData.channel1 WavData.channel2].
    split; [reflexivity|]. rewrite <- Hl1. split; [apply map_nth_seq|].
    destruct (Z.eqb_spec (WavData.num_channels x) 2) as [E|_]; [|reflexivity].
    rewrite Hl1, <- (Hl2 E). apply map_nth_seq.
  - intros j c1 c2 Hj. now apply resample_body_same_rate.
  - apply length_resize.
  - intros E. rewrite E. apply length_resize.
Qed.

Lemma typed_mono16_channels : typed int16_t mono16_channels.
Proof.
  repeat split; try reflexivity; try discriminate;
    repeat constructor; discriminate.
Qed.

Lemma resample_same_rate_witness :
  exists y,
    resample int16_t mono16_channels (WavData.sample_rate mono16_channels)
    = Done y
    /\ WavData.num_samples y = WavData.num_samples mono16_channels
    /\ WavData.channel1 y = WavData.channel1 mono16_channels
    /\ WavData.channel2 y = WavData.channel2 mono16_channels.
Proof.
  apply (resample_same_rate int16_t mono16_channels);
    [cbv; discriminate|exact typed_mono16_channels|discriminate].
Defined.

(** The bound on the width matters: a 64-bit sample that is not the value
    of a double comes back changed, because the interpolation goes through
    [double] although [frac] is zero. *)
Lemma resample_same_rate_rounds_int64 :
  typed int64_t wide_channels
  /\ WavData.sample_rate wide_channels <> 0
  /\ exists y,
       resample int64_t wide_channels (WavData.sample_rate wide_channels)
       = Done y
       /\ WavData.num_samples y = WavData.num_samples wide_channels
       /\ WavData.channel1 wide_channels = [9007199254740993]
       /\ WavData.channel1 y = [9007199254740992].
Proof.
  split; [|split; [discriminate|]].
  - repeat split; try reflexivity; try discriminate;
      repeat constructor; discriminate.
  - eexists. split; [vm_compute; reflexivity|]. repeat split.
Qed.

(** ** Values of doubles and the error of one rounding *)

Lemma bpow_pos (e : Z) : (0 < double.bpow e)%R.
Proof. apply powerRZ_lt. lra. Qed.

Lemma bpow_add (a b : Z) : (double.bpow (a + b) = double.bpow a * double.bpow b)%R.
Proof. apply powerRZ_add. lra. Qed.

Lemma bpow_IZR (k : Z) : 0 <= k -> double.bpow k = IZR (2 ^ k).
Proof.
  intro Hk. unfold double.bpow. destruct k as [|p|p]; [reflexivity| |lia].
  rewrite <- Z.pow_pos_fold. symmetry. apply (Zpower_pos_powerRZ 2 p).
Qed.

Lemma IZR_scaled (m e k : Z) :
  0 <= k -> (IZR (m * 2 ^ k) * double.bpow e = IZR m * double.bpow (e + k))%R.
Proof.
  intro Hk. rewrite mult_IZR, <- bpow_IZR by exact Hk.
  rewrite bpow_add. lra.
Qed.

(** The relative error of the rounding in [binary_round_aux]. *)
Lemma binary_round_aux_bounds (s : bool) (m : positive) (e : Z) (l : location)
    (k : Z) :
  Z.pos (digits2_pos m) = 53 + k -> 0 <= k -> -1074 <= e + k -> e + k < 971 ->
  exists m' e',
    binary_round_aux 53 1024 s (Z.pos m) e l = S754_finite s m' e'
    /\ Z.pos (digits2_pos m') = 53 /\ e + k <= e' <= e + k + 1
    /\ (IZR (Z.pos m) * double.bpow e * (1 - double.ulp_rel) <= IZR (Z.pos m') * double.bpow e'
        <= IZR (Z.pos m) * double.bpow e * (1 + double.ulp_rel))%R.
Proof.
  intros Hd Hk He1 He2.
  destruct (binary_round_aux_spec s m e l k Hd Hk He1 He2)
    as (m' & e' & E & Hd' & Hle & Hv & _).
  exists m', e'. split; [exact E|]. split; [exact Hd'|].
  pose proof (canonical_bounds m' Hd') as Hm'.
  pose proof (digits_scaled m _ k Hd Hk eq_refl) as Hq.
  set (q := Z.pos m / 2 ^ k) in *.
  assert (Hpow : 0 < 2 ^ k) by (apply Z.pow_pos_nonneg; lia).
  assert (Hdm : q * 2 ^ k <= Z.pos m < (q + 1) * 2 ^ k).
  { pose proof (Z.div_mod (Z.pos m) (2 ^ k) ltac:(lia)) as H1.
    pose proof (Z.mod_pos_bound (Z.pos m) (2 ^ k) Hpow) as H2.
    fold q in H1. nia. }
  assert (He' : e' <= e + k + 1).
  { destruct (Z.le_gt_cases e' (e + k + 1)) as [|Hgt]; [assumption|exfalso].
    assert (2 ^ 2 <= 2 ^ (e' - (e + k))) by (apply Z.pow_le_mono_r; lia).
    change (2 ^ 2) with 4 in *. destruct Hv as [Hv|Hv]; nia. }
  split; [lia|].
  (* everything at the exponent [e + k] *)
  assert (Hres : (IZR (Z.pos m') * double.bpow e'
                  = IZR (Z.pos m' * 2 ^ (e' - (e + k))) * double.bpow (e + k))%R).
  { rewrite IZR_scaled by lia. f_equal. f_equal. lia. }
  assert (Hx : (IZR (q * 2 ^ k) * double.bpow e <= IZR (Z.pos m) * double.bpow e
                < IZR ((q + 1) * 2 ^ k) * double.bpow e)%R).
  { pose proof (bpow_pos e). destruct Hdm as [H1 H2].
    apply IZR_le in H1. apply IZR_lt in H2. split; nra. }
  rewrite !IZR_scaled in Hx by exact Hk. rewrite Hres.
  assert (Hu : (double.bpow (e + k) <= IZR (Z.pos m) * double.bpow e * double.ulp_rel)%R).
  { unfold double.ulp_rel.
    assert (H52 : (IZR (2 ^ 52) * double.bpow (e + k) <= IZR (Z.pos m) * double.bpow e)%R).
    { destruct Hq as [Hq _]. apply IZR_le in Hq.
      pose proof (bpow_pos (e + k)). nra. }
    assert (Hinv : (double.bpow (-52) * IZR (2 ^ 52) = 1)%R).
    { rewrite <- bpow_IZR, <- bpow_add by lia. reflexivity. }
    pose proof (bpow_pos (-52)). nra. }
  rewrite plus_IZR in Hx. pose proof (bpow_pos (e + k)).
  destruct Hv as [-> | ->]; [|rewrite plus_IZR]; split; nra.
Qed.

Lemma value_of_Z (z : Z) : Z.abs z < 2 ^ 53 -> double.value (double.of_Z z) = IZR z.
Proof.
  intro Hlt. destruct (Z.eq_dec z 0) as [->|Hz]; [reflexivity|].
  destruct (of_Z_finite z Hz Hlt) as (m & e & -> & _ & He & Hm).
  cbn [double.value]. rewrite Hm, Rmult_assoc.
  rewrite IZR_scaled by lia. replace (e + - e) with 0 by lia.
  change (double.bpow 0) with 1%R.
  destruct (Z.ltb_spec z 0).
  - rewrite Z.abs_neq by lia. rewrite opp_IZR. lra.
  - rewrite Z.abs_eq by lia. lra.
Qed.

(** The product of two positive canonical doubles. *)
Lemma mul_bounds (mx my : positive) (ex ey : Z) :
  Z.pos (digits2_pos mx) = 53 -> Z.pos (digits2_pos my) = 53 ->
  -1126 <= ex + ey -> ex + ey < 917 ->
  exists m' e',
    double.mul (S754_finite false mx ex) (S754_finite false my ey)
    = S754_finite false m' e'
    /\ Z.pos (digits2_pos m') = 53
    /\ ex + ey + 52 <= e' <= ex + ey + 54
    /\ (double.value (S754_finite false mx ex) * double.value (S754_finite false my ey)
          * (1 - double.ulp_rel)
        <= double.value (S754_finite false m' e')
        <= double.value (S754_finite false mx ex) * double.value (S754_finite false my ey)
           * (1 + double.ulp_rel))%R.
Proof.
  intros Hx Hy He1 He2.
  pose proof (canonical_bounds mx Hx) as Bx.
  pose proof (canonical_bounds my Hy) as By.
  unfold double.mul, SFmul, double.prec, double.emax. cbn [xorb].
  assert (Hprod : 2 ^ 104 <= Z.pos (mx * my) < 2 ^ 106).
  { rewrite Pos2Z.inj_mul. change (2 ^ 104) with (2 ^ 52 * 2 ^ 52).
    change (2 ^ 106) with (2 ^ 53 * 2 ^ 53). nia. }
  assert (Hk : exists k, Z.pos (digits2_pos (mx * my)) = 53 + k /\ 52 <= k <= 53).
  { destruct (Z.lt_ge_cases (Z.pos (mx * my)) (2 ^ 105)).
    - exists 52. split; [|lia]. apply digits2_pos_unique.
      change (53 + 52 - 1) with 104. change (53 + 52) with 105. lia.
    - exists 53. split; [|lia]. apply digits2_pos_unique.
      change (53 + 53 - 1) with 105. change (53 + 53) with 106. lia. }
  destruct Hk as (k & Hd & Hk).
  destruct (binary_round_aux_bounds false (mx * my) (ex + ey) loc_Exact k Hd)
    as (m' & e' & -> & Hd' & He' & Hv); try lia.
  exists m', e'. split; [reflexivity|]. split; [exact Hd'|]. split; [lia|].
  cbn [double.value]. rewrite Pos2Z.inj_mul, mult_IZR, bpow_add in Hv. lra.
Qed.

(** The quotient of two positive canonical doubles, from above. *)
Lemma div_bounds (mx my : positive) (ex ey : Z) :
  Z.pos (digits2_pos mx) = 53 -> Z.pos (digits2_pos my) = 53 ->
  -1021 <= ex - ey -> ex - ey < 1020 ->
  exists m' e',
    double.div (S754_finite false mx ex) (S754_finite false my ey)
    = S754_finite false m' e'
    /\ Z.pos (digits2_pos m') = 53
    /\ ex - ey - 53 <= e' <= ex - ey - 51
    /\ (double.value (S754_finite false m' e') * double.value (S754_finite false my ey)
        <= double.value (S754_finite false mx ex) * (1 + double.ulp_rel))%R.
Proof.
  intros Hx Hy He1 He2.
  pose proof (canonical_bounds mx Hx) as Bx.
  pose proof (canonical_bounds my Hy) as By.
  unfold double.div, SFdiv, double.prec, double.emax. cbn [xorb].
  rewrite SFdiv_core_canonical by assumption.
  set (q := Z.pos mx * 2 ^ 53 / Z.pos my).
  assert (Hdm : q * Z.pos my <= Z.pos mx * 2 ^ 53 < (q + 1) * Z.pos my).
  { pose proof (Z.div_mod (Z.pos mx * 2 ^ 53) (Z.pos my) ltac:(lia)) as H1.
    pose proof (Z.mod_pos_bound (Z.pos mx * 2 ^ 53) (Z.pos my) ltac:(lia)) as H2.
    fold q in H1. nia. }
  assert (Hq : 2 ^ 52 <= q < 2 ^ 54).
  { change (2 ^ 53) with (2 * 2 ^ 52) in *. change (2 ^ 54) with (4 * 2 ^ 52).
    split; nia. }
  destruct q as [|pq|pq] eqn:Eq; try lia.
  assert (Hk : exists k, Z.pos (digits2_pos pq) = 53 + k /\ 0 <= k <= 1).
  { destruct (Z.lt_ge_cases (Z.pos pq) (2 ^ 53)).
    - exists 0. split; [|lia]. apply digits2_pos_unique.
      change (53 + 0 - 1) with 52. change (53 + 0) with 53. lia.
    - exists 1. split; [|lia]. apply digits2_pos_unique.
      change (53 + 1 - 1) with 53. change (53 + 1) with 54. lia. }
  destruct Hk as (k & Hd & Hk).
  destruct (binary_round_aux_bounds false pq (ex - ey - 53)
              (new_location (Z.pos my) ((Z.pos mx * 2 ^ 53) mod Z.pos my)) k Hd)
    as (m' & e' & -> & Hd' & He' & Hv); try lia.
  exists m', e'. split; [reflexivity|]. split; [exact Hd'|]. split; [lia|].
  cbn [double.value].
  (* [q * double.bpow (ex - ey - 53) * double.value y <= double.value x] *)
  assert (Hquot : (IZR (Z.pos pq) * double.bpow (ex - ey - 53)
                   * (IZR (Z.pos my) * double.bpow ey)
                   <= IZR (Z.pos mx) * double.bpow ex)%R).
  { destruct Hdm as [H1 _]. apply IZR_le in H1.
    rewrite !mult_IZR, <- bpow_IZR in H1 by lia.
    replace ex with ((ex - ey - 53) + ey + 53) at 2 by lia.
    rewrite !bpow_add.
    pose proof (bpow_pos (ex - ey - 53)). pose proof (bpow_pos ey).
    assert (0 < double.bpow (ex - ey - 53) * double.bpow ey)%R by nra. nra. }
  assert (Hy0 : (0 < IZR (Z.pos my) * double.bpow ey)%R).
  { pose proof (bpow_pos ey). assert (0 < IZR (Z.pos my))%R by (apply IZR_lt; lia).
    nra. }
  assert (Hu0 : (0 < 1 + double.ulp_rel)%R) by (pose proof (bpow_pos (-52)); unfold double.ulp_rel; lra).
  destruct Hv as [_ Hv]. nra.
Qed.

Lemma ulp_rel_eq : double.ulp_rel = (/ 4503599627370496)%R.
Proof.
  unfold double.ulp_rel. change (-52) with (- (52)). unfold double.bpow at 1.
  rewrite powerRZ_neg'. fold (double.bpow 52).
  rewrite (bpow_IZR 52 ltac:(lia)). reflexivity.
Qed.

Lemma value_pos (m : positive) (e : Z) : (0 < double.value (S754_finite false m e))%R.
Proof.
  cbn [double.value]. pose proof (bpow_pos e).
  assert (0 < IZR (Z.pos m))%R by (apply IZR_lt; lia). nra.
Qed.

(** The integer part of a positive canonical double, as [uint32_t]. *)
Lemma cast_floor_below (m : positive) (e n : Z) :
  Z.pos (digits2_pos m) = 53 -> n <= 2 ^ 32 ->
  (double.value (S754_finite false m e) < IZR n)%R ->
  exists q, double.cast_to uint32_t (double.floor (S754_finite false m e)) = Done q
            /\ 0 <= q < n.
Proof.
  intros Hd Hn Hv. pose proof (canonical_bounds m Hd) as Bm.
  cbn [double.value] in Hv. rewrite Rmult_1_l in Hv.
  destruct (Z.leb_spec 0 e) as [He|He].
  - exfalso. rewrite bpow_IZR, <- mult_IZR in Hv by exact He.
    apply lt_IZR in Hv.
    assert (0 < 2 ^ e) by (apply Z.pow_pos_nonneg; lia).
    change (2 ^ 32) with 4294967296 in Hn.
    change (2 ^ 52) with 4503599627370496 in Bm. nia.
  - unfold double.floor. destruct (Z.leb_spec 0 e) as [|_]; [lia|].
    set (q := Z.pos m / 2 ^ (- e)).
    assert (Hpow : 0 < 2 ^ (- e)) by (apply Z.pow_pos_nonneg; lia).
    assert (Hq : 0 <= q /\ q * 2 ^ (- e) <= Z.pos m).
    { subst q. split; [apply Z.div_pos; lia|].
      rewrite Z.mul_comm. apply Z.mul_div_le. exact Hpow. }
    destruct Hq as [Hq0 Hqm].
    assert (Hqn : q < n).
    { apply lt_IZR. apply IZR_le in Hqm.
      rewrite mult_IZR, <- bpow_IZR in Hqm by lia.
      pose proof (bpow_pos e). pose proof (bpow_pos (- e)).
      assert (Hinv : (double.bpow (- e) * double.bpow e = 1)%R)
        by (rewrite <- bpow_add; replace (- e + e) with 0 by lia; reflexivity).
      assert (Hmul : (IZR q * double.bpow (- e) * double.bpow e <= IZR (Z.pos m) * double.bpow e)%R)
        by (apply Rmult_le_compat_r; lra).
      rewrite Rmult_assoc, Hinv in Hmul. lra. }
    assert (Hfl : double.of_sign_mag false q = double.of_Z q).
    { rewrite <- (Z.abs_eq q) at 1 by exact Hq0.
      replace false with (q <? 0) by (apply Z.ltb_ge; exact Hq0).
      apply of_sign_mag_of_Z. }
    rewrite Hfl. exists q. split; [|lia].
    apply cast_to_of_Z; [unfold numeric_min, numeric_max; simpl; lia|].
    change (2 ^ 32) with 4294967296 in Hn. simpl (2 ^ 53). lia.
Qed.

(** A positive canonical double that casts to [uint32_t]. *)
Lemma cast_to_bounds (m : positive) (e z : Z) :
  double.cast_to uint32_t (S754_finite false m e) = Done z ->
  0 <= z < 2 ^ 32
  /\ (IZR z <= double.value (S754_finite false m e) < IZR z + 1)%R.
Proof.
  unfold double.cast_to, double.trunc.
  set (mag := if 0 <=? e then Z.pos m * 2 ^ e else Z.pos m / 2 ^ (- e)).
  destruct (Z.leb_spec (numeric_min uint32_t) mag) as [H1|]; [|discriminate].
  destruct (Z.leb_spec mag (numeric_max uint32_t)) as [H2|]; [|discriminate].
  cbn [andb]. intro H. injection H as <-.
  split; [unfold numeric_min, numeric_max in *; simpl in *; lia|].
  cbn [double.value]. rewrite Rmult_1_l. subst mag.
  destruct (Z.leb_spec 0 e) as [He|He].
  - rewrite bpow_IZR, <- mult_IZR by exact He. lra.
  - assert (Hpow : 0 < 2 ^ (- e)) by (apply Z.pow_pos_nonneg; lia).
    set (q := Z.pos m / 2 ^ (- e)).
    assert (Hdm : q * 2 ^ (- e) <= Z.pos m < (q + 1) * 2 ^ (- e)).
    { pose proof (Z.div_mod (Z.pos m) (2 ^ (- e)) ltac:(lia)) as Hd1.
      pose proof (Z.mod_pos_bound (Z.pos m) (2 ^ (- e)) Hpow) as Hd2.
      fold q in Hd1. nia. }
    destruct Hdm as [Hlo Hhi]. apply IZR_le in Hlo. apply IZR_lt in Hhi.
    rewrite mult_IZR, <- bpow_IZR in Hlo, Hhi by lia. rewrite plus_IZR in Hhi.
    pose proof (bpow_pos e). pose proof (bpow_pos (- e)).
    assert (Hinv : (double.bpow (- e) * double.bpow e = 1)%R)
      by (rewrite <- bpow_add; replace (- e + e) with 0 by lia; reflexivity).
    assert (Hlo' : (IZR q * double.bpow (- e) * double.bpow e <= IZR (Z.pos m) * double.bpow e)%R)
      by (apply Rmult_le_compat_r; lra).
    assert (Hhi' : (IZR (Z.pos m) * double.bpow e < (IZR q + 1) * double.bpow (- e) * double.bpow e)%R)
      by (apply Rmult_lt_compat_r; lra).
    rewrite Rmult_assoc, Hinv in Hlo', Hhi'. lra.
Qed.

Lemma of_Z_positive (z : Z) :
  1 <= z < 2 ^ 32 ->
  exists m e, double.of_Z z = S754_finite false m e
              /\ Z.pos (digits2_pos m) = 53 /\ -52 <= e <= 0
              /\ double.value (S754_finite false m e) = IZR z.
Proof.
  intro Hz. assert (Hlt : Z.abs z < 2 ^ 53) by (simpl (2 ^ _) in *; lia).
  destruct (of_Z_finite z ltac:(lia) Hlt) as (m & e & E & Hd & He & Hm).
  replace (z <? 0) with false in E by (symmetry; apply Z.ltb_ge; lia).
  exists m, e. repeat split; try assumption; try lia.
  rewrite <- E. now apply value_of_Z.
Qed.

(** ** The source indices of [resample] *)

(** The source index of every output sample is inside the input. *)
Lemma resample_index0_in_bounds (x : WavData.t) (new_sample_rate : Z)
    (newNumSamples i : Z) :
  1 <= WavData.sample_rate x < 2 ^ 32 ->
  1 <= WavData.num_samples x < 2 ^ 32 ->
  0 <= new_sample_rate < 2 ^ 32 ->
  resample_newNumSamples x new_sample_rate = Done newNumSamples ->
  0 <= i < newNumSamples ->
  exists index0,
    resample_index0 (resample_ratio x new_sample_rate) i = Done index0
    /\ 0 <= index0 <= WavData.num_samples x - 1.
Proof.
  intros Hr Hn Hnew Hnum Hi.
  unfold resample_newNumSamples, resample_ratio, resample_index0, source_index in *.
  destruct (of_Z_positive _ Hr) as (mr & er & Er & Hdr & Her & _).
  destruct (of_Z_positive _ Hn) as (mn & en & En & Hdn & Hen & Vn).
  rewrite Er, En in Hnum. rewrite Er.
  destruct (Z.eq_dec new_sample_rate 0) as [->|Hnz].
  { (* a target rate of zero: no output sample *)
    exfalso. change (double.of_Z 0) with (S754_zero false) in Hnum.
    unfold double.div, double.mul in Hnum. cbn [SFdiv SFmul xorb] in Hnum.
    change (double.cast_to uint32_t (S754_zero false)) with (@Done Z 0) in Hnum.
    injection Hnum as <-. lia. }
  destruct (of_Z_positive new_sample_rate ltac:(lia))
    as (mw & ew & Ew & Hdw & Hew & _).
  rewrite Ew in Hnum. rewrite Ew.
  destruct (div_bounds mw mr ew er Hdw Hdr ltac:(lia) ltac:(lia))
    as (mq & eq & Eq & Hdq & Heq & _).
  rewrite Eq in Hnum. rewrite Eq.
  destruct (mul_bounds mn mq en eq Hdn Hdq ltac:(lia) ltac:(lia))
    as (mp & ep & Ep & Hdp & Hep & Hvp).
  rewrite Ep in Hnum. rewrite Vn in Hvp.
  destruct (cast_to_bounds mp ep newNumSamples Hnum) as [Hnn Hvn].
  destruct (Z.eq_dec i 0) as [->|Hi0].
  { exists 0. split; [reflexivity|lia]. }
  destruct (of_Z_positive i ltac:(lia)) as (mi & ei & -> & Hdi & Hei & Vi).
  destruct (div_bounds mi mq ei eq Hdi Hdq ltac:(lia) ltac:(lia))
    as (ms & es & -> & Hds & Hes & Hvs).
  rewrite Vi in Hvs.
  destruct (cast_floor_below ms es (WavData.num_samples x) Hds ltac:(lia))
    as (q & -> & Hq).
  - (* the quotient is below [num_samples] *)
    pose proof (value_pos mq eq) as Hrho.
    set (rho := double.value (S754_finite false mq eq)) in *.
    set (VS := double.value (S754_finite false ms es)) in *.
    set (VP := double.value (S754_finite false mp ep)) in *.
    set (N := IZR (WavData.num_samples x)) in *.
    assert (HiP : (IZR i + 1 <= VP)%R).
    { assert (IZR i + 1 <= IZR newNumSamples)%R
        by (rewrite <- plus_IZR; apply IZR_le; lia). lra. }
    assert (HP32 : (VP < 4294967296)%R).
    { assert (IZR newNumSamples + 1 <= 4294967296)%R
        by (rewrite <- plus_IZR; apply IZR_le; simpl (2 ^ 32) in Hnn; lia). lra. }
    rewrite ulp_rel_eq in *.
    destruct (Rlt_le_dec VS N) as [Hlt|Hge]; [exact Hlt|exfalso].
    assert (HA : (N * rho <= VS * rho)%R) by (apply Rmult_le_compat_r; lra).
    lra.
  - exists q. split; [reflexivity|lia].
Qed.

(** A loop whose body keeps an invariant, and under it fails only in other
    ways than [u0], does not fail with [u0]. *)
Lemma for_loop_never {St : Type} (Inv : St -> Prop) (u0 : undefined)
    (body : Z -> St -> outcome St) (count : nat) : forall (i : nat) (s : St),
  Inv s ->
  (forall (j : nat) (s : St), (i <= j < i + count)%nat -> Inv s ->
     match body (Z.of_nat j) s with
     | Done s' => Inv s'
     | Undefined u => u <> u0
     end) ->
  match for_loop (Z.of_nat i) count body s with
  | Done s' => Inv s'
  | Undefined u => u <> u0
  end.
Proof.
  induction count as [|k IH]; intros i s Hs Hbody; [exact Hs|].
  rewrite for_loop_S. pose proof (Hbody i s ltac:(lia) Hs) as H1.
  destruct (body (Z.of_nat i) s) as [s'|u]; cbn [bind]; [|exact H1].
  replace (Z.of_nat i + 1) with (Z.of_nat (S i)) by lia.
  apply IH; [exact H1|]. intros j s0 Hj. apply Hbody. lia.
Qed.

Lemma cast_to_undefined (T : sample_type) (x : double.t) :
  match double.cast_to T x with
  | Done _ => True
  | Undefined u => u <> OutOfBounds
  end.
Proof.
  unfold double.cast_to. destruct (double.trunc x) as [v|]; [|discriminate].
  destruct (_ && _); [exact I|discriminate].
Qed.

Lemma interpolate_in_bounds (T : sample_type) (c : list Z) (i0 i1 : Z)
    (frac : double.t) :
  0 <= i0 < Z.of_nat (length c) -> 0 <= i1 < Z.of_nat (length c) ->
  match interpolate T c i0 i1 frac with
  | Done _ => True
  | Undefined u => u <> OutOfBounds
  end.
Proof.
  intros H0 H1. unfold interpolate.
  rewrite <- (Z2Nat.id i0), <- (Z2Nat.id i1) by lia.
  rewrite !(vec_get_in_range c _ 0) by lia. cbn [bind].
  apply cast_to_undefined.
Qed.

(** No read or write of [resample] is outside its vector. *)
Lemma resample_not_out_of_bounds (T : sample_type) (x : WavData.t)
    (new_sample_rate : Z) :
  typed T x -> 1 <= WavData.num_samples x -> WavData.sample_rate x <> 0 ->
  0 <= new_sample_rate < 2 ^ 32 ->
  resample T x new_sample_rate <> Undefined OutOfBounds.
Proof.
  intros (Hr & Hn & Hl1 & Hl2 & _ & _) Hn1 Hr0 Hnew. unfold resample.
  destruct (resample_newNumSamples x new_sample_rate) as [n|u] eqn:En;
    cbn [bind].
  2:{ pose proof (cast_to_undefined uint32_t
                    (double.mul (double.of_Z (WavData.num_samples x))
                       (resample_ratio x new_sample_rate))) as Hc.
      unfold resample_newNumSamples in En. rewrite En in Hc. congruence. }
  set (Inv := fun ch : list Z * list Z =>
                length (fst ch) = Z.to_nat n
                /\ (WavData.num_channels x = 2 -> length (snd ch) = Z.to_nat n)).
  pose proof (for_loop_never Inv OutOfBounds
                (resample_body T x (resample_ratio x new_sample_rate))
                (Z.to_nat n) 0
                (resize 0 (WavData.channel1 x) (Z.to_nat n),
                 if WavData.num_channels x =? 2
                 then resize 0 (WavData.channel2 x) (Z.to_nat n)
                 else WavData.channel2 x)) as Hloop.
  cbn [Z.of_nat] in Hloop.
  destruct (for_loop 0 (Z.to_nat n) _ _) as [ch|u]; cbn [bind];
    [discriminate|].
  intro E. injection E as ->. apply Hloop; [| |reflexivity].
  - split; cbn [fst snd]; [apply length_resize|].
    intros ->. apply length_resize.
  - intros j [c1 c2] Hj [Hc1 Hc2]. cbn [fst snd] in Hc1, Hc2.
    unfold resample_body.
    destruct (resample_index0_in_bounds x new_sample_rate n (Z.of_nat j)
                ltac:(lia) ltac:(lia) Hnew En ltac:(lia))
      as (index0 & -> & H0).
    cbn [bind fst snd].
    assert (H1 : 0 <= resample_index1 x index0 <= WavData.num_samples x - 1).
    { unfold resample_index1. rewrite u32_small by lia.
      destruct (Z.ltb_spec (index0 + 1) (WavData.num_samples x)); lia. }
    pose proof (interpolate_in_bounds T (WavData.channel1 x) index0
                  (resample_index1 x index0)
                  (double.sub (source_index (resample_ratio x new_sample_rate)
                                 (Z.of_nat j)) (double.of_Z index0))
                  ltac:(lia) ltac:(lia)) as Hi1.
    destruct (interpolate T (WavData.channel1 x) _ _ _) as [v1|u1];
      cbn [bind]; [|exact Hi1].
    rewrite vec_set_in_range by lia. cbn [bind].
    destruct (Z.eqb_spec (WavData.num_channels x) 2) as [E2|_].
    + specialize (Hl2 E2). specialize (Hc2 E2).
      pose proof (interpolate_in_bounds T (WavData.channel2 x) index0
                    (resample_index1 x index0)
                    (double.sub (source_index (resample_ratio x new_sample_rate)
                                   (Z.of_nat j)) (double.of_Z index0))
                    ltac:(lia) ltac:(lia)) as Hi2.
      destruct (interpolate T (WavData.channel2 x) _ _ _) as [v2|u2];
        cbn [bind]; [|exact Hi2].
      rewrite vec_set_in_range by lia. cbn [bind].
      split; cbn [fst snd]; [|intros _]; rewrite length_set; lia.
    + split; cbn [fst snd]; [rewrite length_set; lia|exact Hc2].
Qed.

(** The last turn from 8000 Hz to 16000 Hz on the four samples: [index1]
    is [index0], the last input index. *)
Lemma resample_last_turn_clamped :
  resample_newNumSamples mono16_channels 16000 = Done 8
  /\ resample_index0 (resample_ratio mono16_channels 16000) 7 = Done 3
  /\ resample_index1 mono16_channels 3 = 3.
Proof. repeat split. Qed.

(** ** Sums and differences *)

Lemma shl_align_spec (m : positive) (e e' : Z) :
  e' <= e ->
  exists m', shl_align m e e' = (m', e') /\ Z.pos m' = Z.pos m * 2 ^ (e - e').
Proof.
  intro H. unfold shl_align. destruct (e' - e) as [|q|q] eqn:E; try lia.
  - exists m. assert (e' = e) as -> by lia. rewrite Z.sub_diag.
    split; [reflexivity|simpl; lia].
  - exists (Pos.iter xO m q). split; [reflexivity|]. rewrite pos_iter_xO.
    f_equal. f_equal. lia.
Qed.

Lemma digits_shifted (p : positive) (k : Z) (m : positive) :
  0 <= k -> Z.pos m = Z.pos p * 2 ^ k ->
  Z.pos (digits2_pos m) = Z.pos (digits2_pos p) + k.
Proof.
  intros Hk Hm. apply digits2_pos_unique. rewrite Hm.
  pose proof (digits2_pos_bounds p) as Hb.
  set (d := Z.pos (digits2_pos p)) in *.
  assert (1 <= d) by (subst d; lia).
  replace (d + k - 1) with (d - 1 + k) by lia.
  rewrite !Z.pow_add_r by lia.
  assert (0 < 2 ^ k) by (apply Z.pow_pos_nonneg; lia). nia.
Qed.

(** Rounding a positive integer scaled by a power of two, in the range of
    the normal doubles. *)
Lemma binary_round_bounds (s : bool) (p : positive) (e : Z) :
  -1021 <= Z.pos (digits2_pos p) + e -> Z.pos (digits2_pos p) + e < 1024 ->
  exists m' e',
    binary_round 53 1024 s p e = S754_finite s m' e'
    /\ Z.pos (digits2_pos m') = 53
    /\ Z.pos (digits2_pos p) + e - 53 <= e' <= Z.pos (digits2_pos p) + e - 52
    /\ (IZR (Z.pos p) * double.bpow e * (1 - double.ulp_rel)
        <= IZR (Z.pos m') * double.bpow e'
        <= IZR (Z.pos p) * double.bpow e * (1 + double.ulp_rel))%R.
Proof.
  intros Hlo Hhi. unfold binary_round.
  set (d := Z.pos (digits2_pos p)) in *.
  rewrite fexp_normal by exact Hlo.
  assert (Hu : (0 < double.ulp_rel)%R) by apply bpow_pos.
  destruct (Z.le_gt_cases d 53) as [Hd|Hd].
  - destruct (shl_align_spec p e (d + e - 53) ltac:(lia)) as (m' & -> & Hm').
    assert (Hdm : Z.pos (digits2_pos m') = 53).
    { rewrite (digits_shifted p (e - (d + e - 53)) m') by (lia || exact Hm').
      fold d. lia. }
    rewrite binary_round_aux_canonical by (assumption || lia).
    exists m', (d + e - 53). split; [reflexivity|]. split; [exact Hdm|].
    split; [lia|].
    rewrite Hm', IZR_scaled by lia.
    replace (d + e - 53 + (e - (d + e - 53))) with e by lia.
    assert (0 < IZR (Z.pos p) * double.bpow e)%R.
    { apply Rmult_lt_0_compat; [apply IZR_lt; lia|apply bpow_pos]. }
    split; nra.
  - unfold shl_align.
    destruct (d + e - 53 - e) as [|q|q] eqn:E; try lia.
    destruct (binary_round_aux_bounds s p e loc_Exact (d - 53))
      as (m' & e' & -> & Hdm & He' & Hv); try (fold d; lia).
    exists m', e'. split; [reflexivity|]. split; [exact Hdm|].
    split; [lia|exact Hv].
Qed.

Lemma binary_normalize_bounds (S e D : Z) :
  -1022 <= e -> Z.abs S < 2 ^ D -> D + e < 1024 ->
  match S with
  | 0 => binary_normalize 53 1024 S e false = S754_zero false
  | _ =>
      exists m' e',
        binary_normalize 53 1024 S e false = S754_finite (S <? 0) m' e'
        /\ Z.pos (digits2_pos m') = 53
        /\ e - 52 <= e' <= D + e - 52
        /\ (IZR (Z.abs S) * double.bpow e * (1 - double.ulp_rel)
            <= IZR (Z.pos m') * double.bpow e'
            <= IZR (Z.abs S) * double.bpow e * (1 + double.ulp_rel))%R
  end.
Proof.
  intros He HS HD.
  assert (Hdig : forall p : positive, Z.pos p < 2 ^ D ->
                   1 <= Z.pos (digits2_pos p) <= D).
  { intros p Hp. pose proof (digits2_pos_bounds p) as Hb.
    split; [lia|].
    destruct (Z.le_gt_cases (Z.pos (digits2_pos p)) D) as [|Hgt]; [assumption|].
    assert (2 ^ D <= 2 ^ (Z.pos (digits2_pos p) - 1)).
    { destruct (Z.le_gt_cases 0 D).
      - apply Z.pow_le_mono_r; lia.
      - rewrite (Z.pow_neg_r 2 D) by lia. apply Z.pow_nonneg. lia. }
    lia. }
  destruct S as [|p|p]; [reflexivity| |];
    cbn [binary_normalize Z.abs Z.ltb Z.compare] in *;
    specialize (Hdig p HS).
  - destruct (binary_round_bounds false p e ltac:(lia) ltac:(lia))
      as (m' & e' & E & Hd & He' & Hv).
    exists m', e'. repeat split; (assumption || lia || apply Hv).
  - destruct (binary_round_bounds true p e ltac:(lia) ltac:(lia))
      as (m' & e' & E & Hd & He' & Hv).
    exists m', e'. repeat split; (assumption || lia || apply Hv).
Qed.

Lemma value_finite (s : bool) (m : positive) (e : Z) :
  double.value (S754_finite s m e)
  = (IZR (cond_Zopp s (Z.pos m)) * double.bpow e)%R.
Proof.
  cbn [double.value]. destruct s; cbn [cond_Zopp].
  - change (- Z.pos m) with (Z.neg m).
    replace (IZR (Z.neg m)) with (- IZR (Z.pos m))%R
      by (rewrite <- opp_IZR; reflexivity).
    set (a := IZR (Z.pos m)). set (b := double.bpow e). ring.
  - set (a := IZR (Z.pos m)). set (b := double.bpow e). ring.
Qed.

(** The sum of two doubles: zero when the exact sum vanishes, otherwise the
    double with the sign of the exact sum next to it. *)
Lemma add_bounds (sx sy : bool) (mx my : positive) (ex ey : Z) :
  Z.pos (digits2_pos mx) = 53 -> Z.pos (digits2_pos my) = 53 ->
  -900 <= ex <= 900 -> -900 <= ey <= 900 ->
  let V := (double.value (S754_finite sx mx ex)
            + double.value (S754_finite sy my ey))%R in
  (V = 0%R /\ double.add (S754_finite sx mx ex) (S754_finite sy my ey)
              = S754_zero false)
  \/ exists s m' e',
       double.add (S754_finite sx mx ex) (S754_finite sy my ey)
       = S754_finite s m' e'
       /\ Z.pos (digits2_pos m') = 53
       /\ Z.min ex ey - 52 <= e' <= Z.max ex ey + 2
       /\ (0 < (if s then - V else V))%R
       /\ ((if s then - V else V) * (1 - double.ulp_rel)
           <= IZR (Z.pos m') * double.bpow e'
           <= (if s then - V else V) * (1 + double.ulp_rel))%R.
Proof.
  intros Hdx Hdy Hex Hey V.
  unfold double.add, double.prec, double.emax, SFadd.
  set (ez := Z.min ex ey).
  destruct (shl_align_spec mx ex ez ltac:(lia)) as (ax & -> & Hax).
  destruct (shl_align_spec my ey ez ltac:(lia)) as (ay & -> & Hay).
  cbn [fst].
  set (S := cond_Zopp sx (Z.pos ax) + cond_Zopp sy (Z.pos ay)).
  assert (HV : (IZR S * double.bpow ez)%R = V).
  { subst V S. rewrite !value_finite, plus_IZR, Rmult_plus_distr_r.
    assert (Hc : forall s (a m : positive) (e : Z),
               ez <= e -> Z.pos a = Z.pos m * 2 ^ (e - ez) ->
               (IZR (cond_Zopp s (Z.pos a)) * double.bpow ez
                = IZR (cond_Zopp s (Z.pos m)) * double.bpow e)%R).
    { intros s a m e Hle Ha.
      replace (cond_Zopp s (Z.pos a)) with (cond_Zopp s (Z.pos m) * 2 ^ (e - ez))
        by (destruct s; cbn [cond_Zopp]; lia).
      rewrite IZR_scaled by lia. f_equal. f_equal. lia. }
    rewrite (Hc sx ax mx ex), (Hc sy ay my ey) by (lia || assumption).
    reflexivity. }
  pose proof (canonical_bounds mx Hdx) as Hbx.
  pose proof (canonical_bounds my Hdy) as Hby.
  assert (HS : Z.abs S < 2 ^ (54 + (Z.max ex ey - ez))).
  { assert (Hp : forall (a m : positive) (e : Z),
               ez <= e <= Z.max ex ey -> Z.pos m < 2 ^ 53 ->
               Z.pos a = Z.pos m * 2 ^ (e - ez) ->
               Z.pos a < 2 ^ (53 + (Z.max ex ey - ez))).
    { intros a m e He Hm ->. rewrite Z.pow_add_r by lia.
      assert (2 ^ (e - ez) <= 2 ^ (Z.max ex ey - ez))
        by (apply Z.pow_le_mono_r; lia).
      assert (0 < 2 ^ (e - ez)) by (apply Z.pow_pos_nonneg; lia).
      nia. }
    pose proof (Hp ax mx ex ltac:(lia) ltac:(lia) Hax).
    pose proof (Hp ay my ey ltac:(lia) ltac:(lia) Hay).
    replace (54 + (Z.max ex ey - ez)) with (53 + (Z.max ex ey - ez) + 1) by lia.
    rewrite (Z.pow_add_r _ _ 1), Z.pow_1_r by lia.
    subst S. destruct sx, sy; cbn [cond_Zopp]; lia. }
  pose proof (binary_normalize_bounds S ez (54 + (Z.max ex ey - ez))
                ltac:(lia) HS ltac:(lia)) as HN.
  pose proof (bpow_pos ez) as Hpz.
  destruct S as [|p|p] eqn:ES.
  - left. split; [rewrite <- HV; cbn; ring|exact HN].
  - right. destruct HN as (m' & e' & E & Hd & He' & Hv).
    exists false, m', e'. split; [exact E|]. split; [exact Hd|].
    split; [lia|]. cbn [Z.abs] in Hv. rewrite HV in Hv.
    split; [|exact Hv]. rewrite <- HV. apply Rmult_lt_0_compat; [|exact Hpz].
    apply IZR_lt. lia.
  - right. destruct HN as (m' & e' & E & Hd & He' & Hv).
    exists true, m', e'. split; [exact E|]. split; [exact Hd|].
    split; [lia|]. cbn [Z.abs] in Hv.
    assert (HW : (IZR (Z.pos p) * double.bpow ez = - V)%R).
    { rewrite <- HV, <- Pos2Z.opp_pos, opp_IZR. ring. }
    rewrite HW in Hv. split; [|exact Hv]. rewrite <- HW.
    apply Rmult_lt_0_compat; [|exact Hpz]. apply IZR_lt. lia.
Qed.

Lemma sub_as_add (sx sy : bool) (mx my : positive) (ex ey : Z) :
  double.sub (S754_finite sx mx ex) (S754_finite sy my ey)
  = double.add (S754_finite sx mx ex) (S754_finite (negb sy) my ey).
Proof.
  unfold double.sub, double.add, SFsub, SFadd. f_equal.
  destruct sy; cbn [cond_Zopp negb]; lia.
Qed.

(** ** Rounding to an integer and casting *)

Lemma between_halves (a z b : Z) :
  (IZR a - / 2 < IZR z < IZR b + / 2)%R -> a <= z <= b.
Proof.
  intros [H1 H2].
  assert (IZR (a - 1) < IZR z)%R by (rewrite minus_IZR; lra).
  assert (IZR z < IZR (b + 1))%R by (rewrite plus_IZR; lra).
  apply lt_IZR in H, H0. lia.
Qed.

Lemma cast_to_zero (T : sample_type) (s : bool) :
  double.cast_to T (S754_zero s) = Done 0.
Proof. destruct T; reflexivity. Qed.

(** [std::round] of a double within half a unit of the range of [T] casts
    to [T]. *)
Lemma cast_round_finite (T : sample_type) (s : bool) (m : positive) (e : Z) :
  bit_width T <= 32 ->
  (IZR (numeric_min T) - / 2 < double.value (S754_finite s m e)
   < IZR (numeric_max T) + / 2)%R ->
  exists z, double.cast_to T (double.round (S754_finite s m e)) = Done z.
Proof.
  intros Hw Hv. rewrite value_finite in Hv.
  assert (Hsmall : forall z, numeric_min T <= z <= numeric_max T ->
                     Z.abs z < 2 ^ 53)
    by (intros z Hz; apply (in_range_small T z Hw Hz)).
  unfold double.round. destruct (Z.leb_spec 0 e) as [He|He].
  - rewrite bpow_IZR, <- mult_IZR in Hv by exact He.
    apply between_halves in Hv.
    exists (cond_Zopp s (Z.pos m) * 2 ^ e).
    unfold double.cast_to, double.trunc.
    destruct (Z.leb_spec 0 e) as [_|]; [|lia].
    replace (if s then - (Z.pos m * 2 ^ e) else Z.pos m * 2 ^ e)
      with (cond_Zopp s (Z.pos m) * 2 ^ e)
      by (destruct s; cbn [cond_Zopp]; lia).
    destruct (Z.leb_spec (numeric_min T) (cond_Zopp s (Z.pos m) * 2 ^ e));
      [|lia].
    destruct (Z.leb_spec (cond_Zopp s (Z.pos m) * 2 ^ e) (numeric_max T));
      [reflexivity|lia].
  - set (D := 2 ^ (- e)). set (q := Z.pos m / D). set (r := Z.pos m mod D).
    set (k := if D <=? 2 * r then q + 1 else q).
    assert (HD : 0 < D) by (apply Z.pow_pos_nonneg; lia).
    assert (Hk : 0 <= k /\ 2 * Z.pos m - D <= 2 * k * D <= 2 * Z.pos m + D).
    { pose proof (Z.div_mod (Z.pos m) D ltac:(lia)) as Hd1.
      pose proof (Z.mod_pos_bound (Z.pos m) D HD) as Hd2.
      fold q r in Hd1, Hd2.
      assert (0 <= q) by (apply Z.div_pos; lia).
      subst k. destruct (Z.leb_spec D (2 * r)); split; nia. }
    destruct Hk as [Hk0 [Hk1 Hk2]].
    assert (Hz : numeric_min T <= cond_Zopp s k <= numeric_max T).
    { apply IZR_le in Hk1, Hk2.
      rewrite minus_IZR in Hk1. rewrite plus_IZR in Hk2.
      rewrite !mult_IZR in Hk1, Hk2.
      pose proof (bpow_pos e) as Hpe.
      assert (Hinv : (IZR D * double.bpow e = 1)%R).
      { subst D. rewrite <- bpow_IZR, <- bpow_add by lia.
        replace (- e + e) with 0 by lia. reflexivity. }
      set (V := (IZR (Z.pos m) * double.bpow e)%R).
      assert (Hn : (V - / 2 <= IZR k <= V + / 2)%R).
      { assert (H1 : ((2 * IZR (Z.pos m) - IZR D) * double.bpow e
                      <= 2 * IZR k * IZR D * double.bpow e)%R)
          by (apply Rmult_le_compat_r; lra).
        assert (H2 : (2 * IZR k * IZR D * double.bpow e
                      <= (2 * IZR (Z.pos m) + IZR D) * double.bpow e)%R)
          by (apply Rmult_le_compat_r; lra).
        assert (E1 : ((2 * IZR (Z.pos m) - IZR D) * double.bpow e
                      = 2 * V - IZR D * double.bpow e)%R) by (subst V; ring).
        assert (E2 : ((2 * IZR (Z.pos m) + IZR D) * double.bpow e
                      = 2 * V + IZR D * double.bpow e)%R) by (subst V; ring).
        assert (E3 : (2 * IZR k * IZR D * double.bpow e
                      = 2 * IZR k * (IZR D * double.bpow e))%R) by ring.
        rewrite E1, E3, Hinv in H1. rewrite E2, E3, Hinv in H2. lra. }
      assert (Hc : (IZR (numeric_min T) - 1 < IZR (cond_Zopp s k)
                    < IZR (numeric_max T) + 1)%R).
      { destruct s; cbn [cond_Zopp] in *.
        - rewrite opp_IZR.
          change (IZR (- Z.pos m)) with (IZR (Z.neg m)) in Hv.
          replace (IZR (Z.neg m)) with (- IZR (Z.pos m))%R in Hv
            by (rewrite <- opp_IZR; reflexivity).
          rewrite Ropp_mult_distr_l_reverse in Hv. fold V in Hv. lra.
        - fold V in Hv. lra. }
      rewrite <- minus_IZR, <- plus_IZR in Hc.
      destruct Hc as [Hc1 Hc2]. apply lt_IZR in Hc1, Hc2. lia. }
    unfold double.of_sign_mag. destruct (Z.eqb_spec k 0) as [|Hk].
    + exists 0. apply cast_to_zero.
    + exists (cond_Zopp s k).
      change (binary_normalize double.prec double.emax
                (if s then - k else k) 0 false)
        with (double.of_Z (cond_Zopp s k)).
      apply cast_to_of_Z; [exact Hz|apply Hsmall, Hz].
Qed.

(** ** [convertSample] between types of at most 32 bits *)

Lemma numeric_small (T : sample_type) :
  bit_width T <= 32 ->
  - 2 ^ 31 <= numeric_min T <= 0
  /\ 127 <= numeric_max T < 2 ^ 32
  /\ 255 <= numeric_max T - numeric_min T < 2 ^ 32
  /\ (is_signed T = true -> numeric_min T < 0).
Proof.
  unfold numeric_min, numeric_max, bit_width.
  destruct T; cbn; intros Hw; lia.
Qed.

(** [fSample - fromMin], for a sample above the minimum. *)
Lemma offset_bounds (From : sample_type) (v : Z) :
  bit_width From <= 32 -> v <> 0 ->
  numeric_min From < v <= numeric_max From ->
  exists m e,
    double.sub (double.of_Z v) (range_min From) = S754_finite false m e
    /\ Z.pos (digits2_pos m) = 53 /\ -104 <= e <= 2
    /\ (double.value (S754_finite false m e)
        <= IZR (v - numeric_min From) * (1 + double.ulp_rel))%R.
Proof.
  intros Hw Hv0 Hv. destruct (numeric_small From Hw) as (Hlo & Hhi & _ & Hneg).
  assert (Hu : (0 < double.ulp_rel)%R) by apply bpow_pos.
  change (2 ^ 31) with 2147483648 in Hlo. change (2 ^ 32) with 4294967296 in Hhi.
  destruct (of_Z_finite v Hv0 ltac:(simpl (2 ^ 53); lia))
    as (mv & ev & Ev & Hdv & Hev & Hmv).
  pose proof (value_of_Z v ltac:(simpl (2 ^ 53); lia)) as Vv. rewrite Ev in Vv.
  unfold range_min, numeric_min in *. destruct (is_signed From).
  - specialize (Hneg eq_refl).
    set (lo := - 2 ^ (bit_width From - 1)) in *.
    destruct (of_Z_finite lo ltac:(lia) ltac:(simpl (2 ^ 53); lia))
      as (ml & el & El & Hdl & Hel & Hml).
    pose proof (value_of_Z lo ltac:(simpl (2 ^ 53); lia)) as Vl.
    rewrite El in Vl. rewrite Ev, El, sub_as_add.
    replace (lo <? 0) with true in * by (symmetry; apply Z.ltb_lt; lia).
    cbn [negb].
    assert (Vn : double.value (S754_finite false ml el) = (- IZR lo)%R).
    { rewrite <- Vl. cbn [double.value]. ring. }
    destruct (add_bounds (v <? 0) false mv ml ev el Hdv Hdl
                ltac:(lia) ltac:(lia)) as [[HV _]|(s & m' & e' & E & Hd & He & Hp & Hb)].
    + exfalso. rewrite Vv, Vn in HV.
      assert (IZR lo < IZR v)%R by (apply IZR_lt; lia). lra.
    + rewrite Vv, Vn in Hp, Hb. rewrite E.
      assert (Hpos : (0 < IZR v + - IZR lo)%R).
      { assert (IZR lo < IZR v)%R by (apply IZR_lt; lia). lra. }
      destruct s; [lra|].
      exists m', e'. split; [reflexivity|]. split; [exact Hd|].
      split; [lia|]. cbn [double.value]. rewrite minus_IZR. lra.
  - rewrite Ev. replace (v <? 0) with false by (symmetry; apply Z.ltb_ge; lia).
    exists mv, ev. split; [reflexivity|]. split; [exact Hdv|]. split; [lia|].
    replace (v <? 0) with false in Vv by (symmetry; apply Z.ltb_ge; lia).
    rewrite Vv, Z.sub_0_r.
    assert (0 < IZR v)%R by (apply IZR_lt; lia). nra.
Qed.

(** The width of the range of a type, as [convertSample] computes it. *)
Lemma range_width (T : sample_type) :
  bit_width T <= 32 ->
  double.sub (range_max T) (range_min T)
  = double.of_Z (numeric_max T - numeric_min T).
Proof.
  intro Hw. apply Z.leb_le in Hw.
  destruct T; try discriminate Hw; vm_compute; reflexivity.
Qed.

(** The arithmetic of the bound: below the maximum of [From], the scaled
    sample stays more than half a unit below the maximum of [To], the
    roundings of the four operations included. *)
Lemma convert_arith (From To : sample_type) (U X N A : R) :
  is_signed From = is_signed To -> (sizeof From < sizeof To)%nat ->
  bit_width To <= 32 ->
  (U <= IZR (numeric_max From - numeric_min From) - 1)%R ->
  (0 < X <= U * (1 + double.ulp_rel))%R ->
  (0 < N)%R ->
  (N * IZR (numeric_max From - numeric_min From)
   <= X * (1 + double.ulp_rel))%R ->
  (0 < A <= N * IZR (numeric_max To - numeric_min To)
            * (1 + double.ulp_rel))%R ->
  ((A + IZR (numeric_min To)) * (1 + double.ulp_rel)
   < IZR (numeric_max To) + / 2)%R
  /\ (IZR (numeric_min To) - / 2
      < IZR (numeric_min To) * (1 + double.ulp_rel))%R.
Proof.
  intros Hs Hsz H32. apply Nat.ltb_lt in Hsz. apply Z.leb_le in H32.
  rewrite ulp_rel_eq.
  remember (numeric_max From - numeric_min From) as C eqn:EC.
  remember (numeric_max To - numeric_min To) as W eqn:EW.
  remember (numeric_min To) as LO eqn:ELO.
  remember (numeric_max To) as HI eqn:EHI.
  destruct From, To; try discriminate Hs; try discriminate Hsz;
    try discriminate H32; vm_compute in EC, EW, ELO, EHI; subst C W LO HI;
    intros HU HX HN HNC HA; split; lra.
Qed.

(** A sample strictly inside the range of [From] converts. *)
Lemma convertSample_interior (From To : sample_type) (v : Z) :
  is_signed From = is_signed To -> (sizeof From < sizeof To)%nat ->
  bit_width To <= 32 ->
  numeric_min From < v < numeric_max From -> v <> 0 ->
  exists z, convertSample From To v = Done z.
Proof.
  intros Hs Hsz H32 Hv Hv0.
  assert (HwF : bit_width From <= 32) by (unfold bit_width in *; lia).
  destruct (numeric_small From HwF) as (_ & _ & HC & _).
  destruct (numeric_small To H32) as (HLO & HHI & HR & HnegT).
  change (2 ^ 32) with 4294967296 in HC, HR.
  change (2 ^ 31) with 2147483648 in HLO.
  unfold convertSample. rewrite !range_width by assumption.
  destruct (offset_bounds From v HwF Hv0 ltac:(lia))
    as (m1 & e1 & -> & Hd1 & He1 & V1).
  destruct (of_Z_positive (numeric_max From - numeric_min From)
              ltac:(simpl (2 ^ 32); lia))
    as (mc & ec & -> & Hdc & Hec & Vc).
  destruct (div_bounds m1 mc e1 ec Hd1 Hdc ltac:(lia) ltac:(lia))
    as (mt & et & -> & Hdt & Het & Vt).
  destruct (of_Z_positive (numeric_max To - numeric_min To)
              ltac:(simpl (2 ^ 32); lia))
    as (mr & er & -> & Hdr & Her & Vr).
  destruct (mul_bounds mt mr et er Hdt Hdr ltac:(lia) ltac:(lia))
    as (ma & ea & -> & Hda & Hea & Va).
  rewrite Vc in Vt. rewrite Vr in Va.
  pose proof (value_pos m1 e1) as P1. pose proof (value_pos mt et) as Pt.
  pose proof (value_pos ma ea) as Pa.
  assert (HU : (IZR (v - numeric_min From)
                <= IZR (numeric_max From - numeric_min From) - 1)%R).
  { rewrite <- minus_IZR. apply IZR_le. lia. }
  destruct (convert_arith From To _ _ _ _ Hs Hsz H32 HU (conj P1 V1) Pt Vt
              (conj Pa (proj2 Va))) as [Hhi Hlo].
  assert (Hu : (0 < double.ulp_rel)%R) by apply bpow_pos.
  assert (Hu1 : (double.ulp_rel < 1)%R) by (rewrite ulp_rel_eq; lra).
  assert (HL0 : (IZR (numeric_min To) <= 0)%R) by (apply IZR_le; lia).
  assert (HH0 : (0 <= IZR (numeric_max To))%R) by (apply IZR_le; lia).
  set (A := double.value (S754_finite false ma ea)) in *.
  unfold range_min. destruct (is_signed To) eqn:EsT.
  - specialize (HnegT eq_refl).
    destruct (of_Z_finite (numeric_min To) ltac:(lia)
                ltac:(simpl (2 ^ 53); lia))
      as (ml & el & El & Hdl & Hel & _).
    pose proof (value_of_Z (numeric_min To) ltac:(simpl (2 ^ 53); lia)) as Vl.
    rewrite El in Vl. rewrite El.
    destruct (add_bounds false (numeric_min To <? 0) ma ml ea el Hda Hdl
                ltac:(lia) ltac:(lia))
      as [[_ ->]|(s & m' & e' & -> & Hd & He & Hp & Hb)].
    + exists 0. apply cast_to_zero.
    + apply cast_round_finite; [exact H32|].
      fold A in Hp, Hb. rewrite Vl in Hp, Hb.
      cbn [double.value]. rewrite Rmult_assoc.
      set (B := (IZR (Z.pos m') * double.bpow e')%R) in *.
      rewrite ulp_rel_eq in *. destruct s; split; lra.
  - apply cast_round_finite; [exact H32|]. fold A.
    assert (numeric_min To = 0) as E0
      by (unfold numeric_min; rewrite EsT; reflexivity).
    rewrite E0 in *. rewrite ulp_rel_eq in *. split; lra.
Qed.

Lemma convertSample_ends (From To : sample_type) :
  is_signed From = is_signed To -> (sizeof From < sizeof To)%nat ->
  bit_width To <= 32 ->
  convertSample From To (numeric_min From) = Done (numeric_min To)
  /\ convertSample From To (numeric_max From) = Done (numeric_max To).
Proof.
  intros Hs Hw H32. apply Nat.ltb_lt in Hw. apply Z.leb_le in H32.
  destruct From, To; try discriminate Hs; try discriminate Hw;
    try discriminate H32; split; vm_compute; reflexivity.
Qed.

Lemma convertSample_zero (From To : sample_type) :
  is_signed From = is_signed To -> (sizeof From < sizeof To)%nat ->
  bit_width To <= 32 ->
  exists z, convertSample From To 0 = Done z.
Proof.
  intros Hs Hw H32. apply Nat.ltb_lt in Hw. apply Z.leb_le in H32.
  destruct From, To; try discriminate Hs; try discriminate Hw;
    try discriminate H32; eexists; vm_compute; reflexivity.
Qed.

Lemma cast_to_in_range (T : sample_type) (x : double.t) (z : Z) :
  double.cast_to T x = Done z -> in_range T z.
Proof.
  unfold double.cast_to. destruct (double.trunc x) as [v|]; [|discriminate].
  destruct (Z.leb_spec (numeric_min T) v) as [H1|]; [|discriminate].
  destruct (Z.leb_spec v (numeric_max T)) as [H2|]; [|discriminate].
  cbn [andb]. intro E. injection E as <-. split; assumption.
Qed.

(** Every sample of [From] converts, to a value of [To]. *)
Lemma convertSample_total (From To : sample_type) (v : Z) :
  is_signed From = is_signed To -> (sizeof From < sizeof To)%nat ->
  bit_width To <= 32 -> in_range From v ->
  convertSample From To v = Done (converted From To v)
  /\ in_range To (converted From To v).
Proof.
  intros Hs Hw H32 Hv.
  assert (H : exists z, convertSample From To v = Done z).
  { destruct (convertSample_ends From To Hs Hw H32) as [Hmin Hmax].
    destruct (Z.eq_dec v (numeric_min From)) as [->|Hlo]; [eauto|].
    destruct (Z.eq_dec v (numeric_max From)) as [->|Hhi]; [eauto|].
    destruct (Z.eq_dec v 0) as [->|H0];
      [now apply convertSample_zero|].
    apply convertSample_interior; try assumption.
    unfold in_range in Hv. lia. }
  destruct H as [z E]. unfold converted. rewrite E.
  split; [reflexivity|]. exact (cast_to_in_range To _ z E).
Qed.

(** ** [reencode] *)

Lemma map_nth_seq_f {A B : Type} (f : A -> B) (l : list A) (d : A) :
  map (fun j => f (nth j l d)) (seq 0 (length l)) = map f l.
Proof.
  rewrite <- (map_map (fun j => nth j l d) f). f_equal.
  induction l as [|a l IH]; [reflexivity|].
  cbn [length seq map nth]. f_equal.
  rewrite <- seq_shift, map_map. exact IH.
Qed.

Lemma reencode_body_total (From To : sample_type) (x : WavData.t) (j : nat)
    (c1 c2 : list Z) :
  is_signed From = is_signed To -> (sizeof From < sizeof To)%nat ->
  bit_width To <= 32 -> typed From x ->
  (j < Z.to_nat (WavData.num_samples x))%nat ->
  reencode_body From To x (Z.of_nat j) (c1, c2)
  = (x1 <- vec_set c1 (Z.of_nat j)
             (converted From To (nth j (WavData.channel1 x) 0)) ;;
     if WavData.num_channels x =? 2
     then x2 <- vec_set c2 (Z.of_nat j)
                  (converted From To (nth j (WavData.channel2 x) 0)) ;;
          Done (x1, x2)
     else Done (x1, c2)).
Proof.
  intros Hs Hw H32 (Hrate & Hn & Hl1 & Hl2 & Hr1 & Hr2) Hj.
  unfold reencode_body. cbn [fst snd].
  rewrite (vec_get_in_range _ j 0) by lia. cbn [bind].
  rewrite Forall_forall in Hr1, Hr2.
  destruct (convertSample_total From To (nth j (WavData.channel1 x) 0) Hs Hw H32)
    as [-> _]; [apply Hr1, nth_In; lia|].
  cbn [bind]. destruct (vec_set c1 _ _); cbn [bind]; [|reflexivity].
  destruct (Z.eqb_spec (WavData.num_channels x) 2) as [E|_]; [|reflexivity].
  rewrite (vec_get_in_range _ j 0) by (rewrite (Hl2 E); lia). cbn [bind].
  destruct (convertSample_total From To (nth j (WavData.channel2 x) 0) Hs Hw H32)
    as [-> _]; [apply Hr2, nth_In; rewrite (Hl2 E); lia|].
  reflexivity.
Qed.

(** [reencode] converts every sample of the channels in use. *)
Lemma reencode_maps (From To : sample_type) (x : WavData.t) :
  is_signed From = is_signed To -> (sizeof From < sizeof To)%nat ->
  bit_width To <= 32 -> typed From x ->
  reencode From To x
  = Done {| WavData.sample_rate := WavData.sample_rate x;
            WavData.num_channels := WavData.num_channels x;
            WavData.bits_per_sample := bit_width To;
            WavData.num_samples := WavData.num_samples x;
            WavData.channel1 := map (converted From To) (WavData.channel1 x);
            WavData.channel2 :=
              if WavData.num_channels x =? 2
              then map (converted From To) (WavData.channel2 x) else [] |}.
Proof.
  intros Hs Hw H32 Hx. pose proof Hx as (Hrate & Hn & Hl1 & Hl2 & Hr1 & Hr2).
  unfold reencode.
  rewrite (for_loop_channels (reencode_body From To x)
             (WavData.num_channels x =? 2)
             (fun j => converted From To (nth j (WavData.channel1 x) 0))
             (fun j => converted From To (nth j (WavData.channel2 x) 0))).
  - cbn [bind fst snd]. f_equal. f_equal.
    + apply u16_small. destruct To; cbn in *; lia.
    + rewrite <- Hl1. apply map_nth_seq_f.
    + destruct (Z.eqb_spec (WavData.num_channels x) 2) as [E|_]; [|reflexivity].
      rewrite <- (Hl2 E). apply map_nth_seq_f.
  - intros j c1 c2 Hj. now apply reencode_body_total.
  - apply length_resize.
  - intros E. rewrite E. apply length_resize.
Qed.

(** C7, as amended.  For [From] and [To] both signed or both unsigned, [To]
    wider than [From] and of at most 32 bits: [convertSample]
    maps the minimum of [From] to the minimum of [To] and the maximum to the
    maximum; and [reencode], on a well-formed input, returns an object in
    which every place that held the minimum (maximum) of [From] holds the
    minimum (maximum) of [To]. *)
Theorem convertSample_range_ends (From To : sample_type) :
  is_signed From = is_signed To -> (sizeof From < sizeof To)%nat ->
  bit_width To <= 32 ->
  convertSample From To (numeric_min From) = Done (numeric_min To)
  /\ convertSample From To (numeric_max From) = Done (numeric_max To)
  /\ forall x, typed From x ->
       exists y,
         reencode From To x = Done y
         /\ forall i,
              (nth_error (WavData.channel1 x) i = Some (numeric_min From) ->
               nth_error (WavData.channel1 y) i = Some (numeric_min To))
              /\ (nth_error (WavData.channel1 x) i = Some (numeric_max From) ->
                  nth_error (WavData.channel1 y) i = Some (numeric_max To))
              /\ (WavData.num_channels x = 2 ->
                  nth_error (WavData.channel2 x) i = Some (numeric_min From) ->
                  nth_error (WavData.channel2 y) i = Some (numeric_min To))
              /\ (WavData.num_channels x = 2 ->
                  nth_error (WavData.channel2 x) i = Some (numeric_max From) ->
                  nth_error (WavData.channel2 y) i = Some (numeric_max To)).
Proof.
  intros Hs Hw H32.
  destruct (convertSample_ends From To Hs Hw H32) as [Hmin Hmax].
  split; [exact Hmin|]. split; [exact Hmax|].
  intros x Hx. rewrite (reencode_maps From To x Hs Hw H32 Hx).
  eexists. split; [reflexivity|].
  cbn [WavData.channel1 WavData.channel2].
  assert (Cmin : converted From To (numeric_min From) = numeric_min To)
    by (unfold converted; now rewrite Hmin).
  assert (Cmax : converted From To (numeric_max From) = numeric_max To)
    by (unfold converted; now rewrite Hmax).
  intro i. repeat split.
  - intro H. rewrite nth_error_map, H. cbn [option_map]. now rewrite Cmin.
  - intro H. rewrite nth_error_map, H. cbn [option_map]. now rewrite Cmax.
  - intros -> H. cbn [Z.eqb Pos.eqb]. rewrite nth_error_map, H.
    cbn [option_map]. now rewrite Cmin.
  - intros -> H. cbn [Z.eqb Pos.eqb]. rewrite nth_error_map, H.
    cbn [option_map]. now rewrite Cmax.
Qed.

Lemma convertSample_range_ends_witness :
  convertSample int16_t int32_t (numeric_min int16_t)
  = Done (numeric_min int32_t)
  /\ convertSample int16_t int32_t (numeric_max int16_t)
     = Done (numeric_max int32_t)
  /\ forall x, typed int16_t x ->
       exists y,
         reencode int16_t int32_t x = Done y
         /\ forall i,
              (nth_error (WavData.channel1 x) i = Some (numeric_min int16_t) ->
               nth_error (WavData.channel1 y) i = Some (numeric_min int32_t))
              /\ (nth_error (WavData.channel1 x) i
                  = Some (numeric_max int16_t) ->
                  nth_error (WavData.channel1 y) i
                  = Some (numeric_max int32_t))
              /\ (WavData.num_channels x = 2 ->
                  nth_error (WavData.channel2 x) i
                  = Some (numeric_min int16_t) ->
                  nth_error (WavData.channel2 y) i
                  = Some (numeric_min int32_t))
              /\ (WavData.num_channels x = 2 ->
                  nth_error (WavData.channel2 x) i
                  = Some (numeric_max int16_t) ->
                  nth_error (WavData.channel2 y) i
                  = Some (numeric_max int32_t)).
Proof.
  apply (convertSample_range_ends int16_t int32_t);
    [reflexivity|simpl; lia|cbv; discriminate].
Defined.

(** C7 as stated, for every pair of fixed-width integer types, does not
    hold: [int32_t] and [int64_t] are both signed and the second is wider,
    but the double nearest to [2 ^ 63 - 1] is [2 ^ 63], so the scaled
    maximum is [2 ^ 63], which is not a value of [int64_t], and the cast of
    the maximum is undefined instead of giving the maximum of [int64_t]. *)
Lemma convertSample_int64_max_undefined :
  is_signed int32_t = is_signed int64_t
  /\ (sizeof int32_t < sizeof int64_t)%nat
  /\ convertSample int32_t int64_t (numeric_max int32_t)
     = Undefined CastOutOfRange.
Proof.
  split; [reflexivity|]. split; [simpl; lia|]. vm_compute. reflexivity.
Qed.

(** * Further properties *)

(** ** What [read] leaves in the object *)

Lemma read_object_range (width : nat) (old : Z) (f : ifstream) :
  0 <= fst (read_object width old f) < 2 ^ (8 * Z.of_nat width).
Proof.
  unfold read_object. destruct (stream_read width f) as [got f'] eqn:E.
  cbn [fst].
  assert (Hl : (length got <= width)%nat).
  { unfold stream_read in E. destruct (failbit f).
    - injection E as <- _. cbn. lia.
    - injection E as <- _. rewrite length_firstn. lia. }
  pose proof (le_decode_range (overlay got (le_encode width old))) as H.
  replace (length (overlay got (le_encode width old))) with width in H.
  - exact H.
  - unfold overlay. rewrite length_app, length_skipn, length_le_encode. lia.
Qed.

Lemma read_fmt_range (size : Z) (f : ifstream) (w : WavFile.t) :
  let w' := snd (WavFile.read_fmt size f w) in
  (0 <= WavFile.num_channels w' < 2 ^ 16 /\ 0 <= WavFile.sample_rate w' < 2 ^ 32
   /\ 0 <= WavFile.block_align w' < 2 ^ 16
   /\ 0 <= WavFile.bits_per_sample w' < 2 ^ 16)
  /\ WavFile.data_size w' = WavFile.data_size w
  /\ WavFile.raw_data w' = WavFile.raw_data w
  /\ WavFile.chunk_size w' = WavFile.chunk_size w.
Proof.
  unfold WavFile.read_fmt.
  destruct (read_object 2 0 f) as [af f1].
  pose proof (read_object_range 2 (WavFile.num_channels w) f1) as Hnc.
  destruct (read_object 2 (WavFile.num_channels w) f1) as [nc f2].
  pose proof (read_object_range 4 (WavFile.sample_rate w) f2) as Hsr.
  destruct (read_object 4 (WavFile.sample_rate w) f2) as [sr f3].
  pose proof (read_object_range 2 (WavFile.block_align w) (seekg 4 f3)) as Hba.
  destruct (read_object 2 (WavFile.block_align w) (seekg 4 f3)) as [ba f4].
  pose proof (read_object_range 2 (WavFile.bits_per_sample w) f4) as Hbps.
  destruct (read_object 2 (WavFile.bits_per_sample w) f4) as [bps f5].
  cbn [fst snd WavFile.num_channels WavFile.sample_rate WavFile.block_align
       WavFile.bits_per_sample WavFile.data_size WavFile.raw_data
       WavFile.chunk_size] in *.
  repeat split; (assumption || lia || apply Hnc || apply Hsr || apply Hba
                 || apply Hbps).
Qed.

Lemma read_data_size (size : Z) (f : ifstream) (w : WavFile.t) :
  let w' := snd (WavFile.read_data size f w) in
  WavFile.data_size w' = size
  /\ length (WavFile.raw_data w') = Z.to_nat size
  /\ WavFile.num_channels w' = WavFile.num_channels w
  /\ WavFile.sample_rate w' = WavFile.sample_rate w
  /\ WavFile.block_align w' = WavFile.block_align w
  /\ WavFile.bits_per_sample w' = WavFile.bits_per_sample w
  /\ WavFile.chunk_size w' = WavFile.chunk_size w.
Proof.
  unfold WavFile.read_data.
  destruct (stream_read (Z.to_nat size) f) as [got f'] eqn:E.
  cbn [snd WavFile.data_size WavFile.raw_data WavFile.num_channels
       WavFile.sample_rate WavFile.block_align WavFile.bits_per_sample
       WavFile.chunk_size].
  repeat split.
  assert (Hl : (length got <= Z.to_nat size)%nat).
  { unfold stream_read in E. destruct (failbit f).
    - injection E as <- _. cbn. lia.
    - injection E as <- _. rewrite length_firstn. lia. }
  unfold overlay. rewrite length_app, length_skipn, length_resize. lia.
Qed.

Lemma read_subchunks_scanned (fuel : nat) : forall st st' : WavFile.scan,
  scanned st -> WavFile.read_subchunks fuel st = Some st' ->
  scanned st' /\ WavFile.chunk_size (WavFile.self st')
                 = WavFile.chunk_size (WavFile.self st).
Proof.
  induction fuel as [|fuel IH]; intros st st' Hst;
    cbn [WavFile.read_subchunks];
    destruct (negb (failbit (WavFile.file st))
              && (negb (WavFile.foundFmt st) || negb (WavFile.foundData st)));
    try (intro E; injection E as <-; split; [exact Hst|reflexivity]);
    destruct (stream_read 4 (WavFile.file st)) as [got f];
    destruct (length got <? 4)%nat;
    try (intro E; injection E as <-; split; [exact Hst|reflexivity]);
    try discriminate.
  pose proof (read_object_range 4 0 f) as Hsz.
  destruct (read_object 4 0 f) as [size f1]. cbn [fst] in Hsz.
  destruct Hst as [Hf Hd].
  destruct (strncmp_eq (overlay got (zeros 5)) (c_str "fmt ") 4).
  - pose proof (read_fmt_range size f1 (WavFile.self st))
      as (Hr & Hds & Hraw & Hcs).
    destruct (WavFile.read_fmt size f1 (WavFile.self st)) as [f2 w2].
    cbn [snd] in *. intro E. apply IH in E.
    + cbn [WavFile.self] in E. rewrite Hcs in E. exact E.
    + split; cbn [WavFile.self WavFile.foundFmt WavFile.foundData].
      * intros _. exact Hr.
      * intro H. rewrite Hds, Hraw. exact (Hd H).
  - destruct (strncmp_eq (overlay got (zeros 5)) (c_str "data") 4).
    + pose proof (read_data_size size f1 (WavFile.self st))
        as (Hds & Hl & Hnc & Hsr & Hba & Hbps & Hcs).
      destruct (WavFile.read_data size f1 (WavFile.self st)) as [f2 w2].
      cbn [snd] in *. intro E. apply IH in E.
      * cbn [WavFile.self] in E. rewrite Hcs in E. exact E.
      * split; cbn [WavFile.self WavFile.foundFmt WavFile.foundData].
        -- intro H. rewrite Hnc, Hsr, Hba, Hbps. exact (Hf H).
        -- intros _. rewrite Hds. change (8 * Z.of_nat 4) with 32 in Hsz.
           split; [exact Hsz|lia].
    + intro E. apply IH in E; [exact E|].
      split; cbn [WavFile.self WavFile.foundFmt WavFile.foundData];
        assumption.
Qed.

(** What a call of [read] that returned [true] left in the object. *)
Lemma read_true_object (w : WavFile.t) (contents : option (list byte))
    (r : WavFile.read_result) :
  WavFile.read w contents = Some (Done r) -> WavFile.returned r = true ->
  let w' := WavFile.this r in
  WavFile.cerr r = []
  /\ 0 <= WavFile.chunk_size w' < 2 ^ 32
  /\ 0 <= WavFile.num_channels w' < 2 ^ 16
  /\ 0 <= WavFile.sample_rate w' < 2 ^ 32
  /\ 1 <= WavFile.block_align w' < 2 ^ 16
  /\ 0 <= WavFile.bits_per_sample w' < 2 ^ 16
  /\ 0 <= WavFile.data_size w' < 2 ^ 32
  /\ Z.of_nat (length (WavFile.raw_data w')) = WavFile.data_size w'
  /\ WavFile.num_samples w' = WavFile.data_size w' / WavFile.block_align w'
  /\ 0 <= WavFile.num_samples w' * WavFile.block_align w'
     <= WavFile.data_size w'.
Proof.
  intros Ho Hret. unfold WavFile.read in Ho.
  destruct contents as [bytes|];
    [|injection Ho as <-; discriminate Hret].
  destruct (stream_read 4 {| rest := bytes; failbit := false |}) as [got f].
  destruct (negb (strncmp_eq (overlay got (zeros 5)) (c_str "RIFF") 4));
    [injection Ho as <-; discriminate Hret|].
  pose proof (read_object_range 4 (WavFile.chunk_size w) f) as Hcs.
  destruct (read_object 4 (WavFile.chunk_size w) f) as [cs f1].
  cbn [fst] in Hcs. change (8 * Z.of_nat 4) with 32 in Hcs.
  destruct (stream_read 4 f1) as [got2 f2].
  destruct (negb (strncmp_eq (overlay got2 (zeros 5)) (c_str "WAVE") 4));
    [injection Ho as <-; discriminate Hret|].
  destruct (WavFile.read_subchunks _ _) as [st|] eqn:Est; [|discriminate Ho].
  cbn [option_map] in Ho. injection Ho as Ho.
  apply read_subchunks_scanned in Est; [|split; discriminate].
  destruct Est as [[Hf Hd] Hc]. cbn [WavFile.self WavFile.chunk_size
    WavFile.with_chunk_size] in Hc.
  unfold WavFile.after_subchunks, WavFile.fail_with in Ho.
  destruct (WavFile.foundFmt st); cbn [negb] in Ho;
    [|injection Ho as <-; discriminate Hret].
  destruct (WavFile.foundData st); cbn [negb] in Ho;
    [|injection Ho as <-; discriminate Hret].
  destruct (Z.eqb_spec (WavFile.block_align (WavFile.self st)) 0) as [|Hba];
    [discriminate Ho|].
  injection Ho as <-.
  destruct (Hf eq_refl) as (Hnc & Hsr & Hb & Hbps).
  destruct (Hd eq_refl) as (Hds & Hl).
  cbn [WavFile.this WavFile.cerr WavFile.with_num_samples WavFile.chunk_size
       WavFile.num_channels WavFile.sample_rate WavFile.block_align
       WavFile.bits_per_sample WavFile.data_size WavFile.raw_data
       WavFile.num_samples].
  rewrite Hc.
  assert (Hdiv : 0 <= WavFile.data_size (WavFile.self st)
                      / WavFile.block_align (WavFile.self st)
                      * WavFile.block_align (WavFile.self st)
                 <= WavFile.data_size (WavFile.self st)).
  { pose proof (Z.mul_div_le (WavFile.data_size (WavFile.self st))
                  (WavFile.block_align (WavFile.self st)) ltac:(lia)).
    assert (0 <= WavFile.data_size (WavFile.self st)
                 / WavFile.block_align (WavFile.self st))
      by (apply Z.div_pos; lia).
    nia. }
  repeat split; (assumption || lia).
Qed.

(** The only undefined behaviour of [read] is the division by a
    [block_align] of zero. *)
Lemma read_undefined_is_division (w : WavFile.t)
    (contents : option (list byte)) (u : undefined) :
  WavFile.read w contents = Some (Undefined u) -> u = DivideByZero.
Proof.
  unfold WavFile.read. destruct contents as [bytes|]; [|discriminate].
  destruct (stream_read 4 {| rest := bytes; failbit := false |}) as [got f].
  destruct (negb (strncmp_eq (overlay got (zeros 5)) (c_str "RIFF") 4));
    [discriminate|].
  destruct (read_object 4 (WavFile.chunk_size w) f) as [cs f1].
  destruct (stream_read 4 f1) as [got2 f2].
  destruct (negb (strncmp_eq (overlay got2 (zeros 5)) (c_str "WAVE") 4));
    [discriminate|].
  destruct (WavFile.read_subchunks _ _) as [st|]; [|discriminate].
  cbn [option_map]. unfold WavFile.after_subchunks, WavFile.fail_with.
  destruct (negb (WavFile.foundFmt st)); [discriminate|].
  destruct (negb (WavFile.foundData st)); [discriminate|].
  destruct (WavFile.block_align (WavFile.self st) =? 0); [|discriminate].
  intro E. injection E as <-. reflexivity.
Qed.

(** X1.  The sub-chunk loop of [read] stops on every input: [read] either
    returns or reaches the division by a [block_align] of zero, its only
    undefined behaviour.  When it returns [true] it has printed nothing and
    left an object whose members are in the range of their types, whose
    [raw_data] holds [data_size] bytes, whose [block_align] is not zero and
    whose [num_samples] is [data_size / block_align], so that [num_samples]
    frames fit in [raw_data]. *)
Theorem read_success_object (w : WavFile.t) (contents : option (list byte)) :
  exists o,
    WavFile.read w contents = Some o
    /\ (forall u, o = Undefined u -> u = DivideByZero)
    /\ forall r, o = Done r -> WavFile.returned r = true ->
         let w' := WavFile.this r in
         WavFile.cerr r = []
         /\ 0 <= WavFile.chunk_size w' < 2 ^ 32
         /\ 0 <= WavFile.num_channels w' < 2 ^ 16
         /\ 0 <= WavFile.sample_rate w' < 2 ^ 32
         /\ 1 <= WavFile.block_align w' < 2 ^ 16
         /\ 0 <= WavFile.bits_per_sample w' < 2 ^ 16
         /\ 0 <= WavFile.data_size w' < 2 ^ 32
         /\ Z.of_nat (length (WavFile.raw_data w')) = WavFile.data_size w'
         /\ WavFile.num_samples w' = WavFile.data_size w' / WavFile.block_align w'
         /\ 0 <= WavFile.num_samples w' * WavFile.block_align w'
            <= WavFile.data_size w'.
Proof.
  destruct (read_total w contents) as [o Ho]. exists o. split; [exact Ho|].
  split.
  - intros u ->. exact (read_undefined_is_division w contents u Ho).
  - intros r -> Hret. exact (read_true_object w contents r Ho Hret).
Qed.

(** ** The header checks of [read] *)

Lemma strncmp_eq_short (n : nat) : forall a b ra rb : list byte,
  (length a < n)%nat -> length b = n -> Forall (fun y => y <> x00) b ->
  strncmp_eq (a ++ x00 :: ra) (b ++ rb) n = false.
Proof.
  induction n as [|n IH]; intros a [|y b] ra rb Ha Hb Hnz;
    try discriminate; [lia|].
  inversion Hnz as [|? ? Hy Hnz']; subst.
  destruct a as [|x a]; cbn [app strncmp_eq].
  - destruct (Byte.eqb x00 y) eqn:E; [|reflexivity].
    apply Byte.byte_dec_bl in E. congruence.
  - destruct (Byte.eqb x y) eqn:Exy; [|reflexivity].
    apply Byte.byte_dec_bl in Exy. subst y.
    destruct (Byte.eqb x x00) eqn:Ex0.
    + apply Byte.byte_dec_bl in Ex0. contradiction.
    + apply IH; [cbn [length] in Ha; lia|now injection Hb|assumption].
Qed.

(** A tag buffer filled by a read of at most four bytes compares equal to a
    four-letter tag exactly when the four bytes were read and are the
    tag. *)
Lemma tag_compare (got tag rb : list byte) :
  (length got <= 4)%nat -> length tag = 4%nat ->
  Forall (fun y => y <> x00) tag ->
  strncmp_eq (overlay got (zeros 5)) (tag ++ rb) 4 = bytes_eqb got tag.
Proof.
  intros Hg Ht Hnz.
  destruct (Nat.eq_dec (length got) 4) as [E|E].
  - rewrite overlay_tag by exact E. now apply strncmp_eq_spec.
  - unfold overlay, zeros. rewrite skipn_repeat.
    destruct (5 - length got)%nat as [|k] eqn:Ek; [lia|]. cbn [repeat].
    rewrite strncmp_eq_short by (lia || assumption).
    symmetry. destruct (bytes_eqb got tag) eqn:Eb; [|reflexivity].
    apply bytes_eqb_eq in Eb. subst got. lia.
Qed.

Lemma stream_read_good (n : nat) (bytes : list byte) :
  stream_read n {| rest := bytes; failbit := false |}
  = (firstn n bytes,
     {| rest := skipn n bytes;
        failbit := (length (firstn n bytes) <? n)%nat |}).
Proof. reflexivity. Qed.

Lemma read_object_good (width : nat) (old : Z) (bytes : list byte) :
  read_object width old {| rest := bytes; failbit := false |}
  = (le_decode (overlay (firstn width bytes) (le_encode width old)),
     {| rest := skipn width bytes;
        failbit := (length (firstn width bytes) <? width)%nat |}).
Proof. reflexivity. Qed.

(** X2.  The three ways [read] stops before the sub-chunks: a file that
    cannot be opened, a file whose first four bytes are not ["RIFF"] (an
    empty or shorter file included), both leaving the object as it was; and
    a file whose bytes 8 to 11 are not ["WAVE"], which leaves the object
    with [chunk_size] overwritten.  Each returns [false] with its own
    message. *)
Theorem read_header_checks (w : WavFile.t) :
  WavFile.read w None
  = Some (Done {| WavFile.returned := false;
                  WavFile.cerr := [CouldntOpenFile]; WavFile.this := w |})
  /\ (forall bytes : list byte,
        firstn 4 bytes <> list_byte_of_string "RIFF" ->
        WavFile.read w (Some bytes)
        = Some (Done {| WavFile.returned := false;
                        WavFile.cerr := [ChunkIDMustBeRIFF];
                        WavFile.this := w |}))
  /\ (forall bytes : list byte,
        firstn 4 bytes = list_byte_of_string "RIFF" ->
        firstn 4 (skipn 8 bytes) <> list_byte_of_string "WAVE" ->
        exists cs,
          0 <= cs < 2 ^ 32
          /\ WavFile.read w (Some bytes)
             = Some (Done {| WavFile.returned := false;
                             WavFile.cerr := [FormatMustBeWAVE];
                             WavFile.this := WavFile.with_chunk_size w cs |})).
Proof.
  split; [reflexivity|]. split.
  - intros bytes H. unfold WavFile.read, stream_read.
    cbn [failbit rest]. unfold c_str.
    rewrite tag_compare;
      [|rewrite length_firstn; lia|reflexivity|repeat constructor; discriminate].
    destruct (bytes_eqb _ _) eqn:E; [|reflexivity].
    apply bytes_eqb_eq in E. contradiction.
  - intros bytes H1 H2. unfold WavFile.read.
    rewrite stream_read_good. unfold c_str at 1.
    rewrite tag_compare;
      [|rewrite length_firstn; lia|reflexivity|repeat constructor; discriminate].
    rewrite H1.
    change (bytes_eqb (list_byte_of_string "RIFF") (list_byte_of_string "RIFF"))
      with true.
    cbv beta iota delta [negb].
    change (length (list_byte_of_string "RIFF") <? 4)%nat with false.
    pose proof (read_object_range 4 (WavFile.chunk_size w)
                  {| rest := skipn 4 bytes; failbit := false |}) as Hcs.
    rewrite read_object_good in Hcs |- *. cbn [fst] in Hcs.
    change (8 * Z.of_nat 4) with 32 in Hcs.
    eexists. split; [exact Hcs|].
    assert (Hnz : Forall (fun y => y <> x00) (list_byte_of_string "WAVE"))
      by (repeat constructor; discriminate).
    unfold c_str.
    destruct (length (firstn 4 (skipn 4 bytes)) <? 4)%nat eqn:El.
    + rewrite stream_read_failed by reflexivity.
      rewrite tag_compare by (assumption || reflexivity || (cbn; lia)).
      reflexivity.
    + rewrite stream_read_good, skipn_skipn.
      rewrite tag_compare
        by (assumption || reflexivity || (rewrite length_firstn; lia)).
      destruct (bytes_eqb _ _) eqn:E; [|reflexivity].
      apply bytes_eqb_eq in E. contradiction.
Qed.

(** ** Reading back what [save] wrote *)

(** What [read] makes of the bytes [save] wrote. *)
Lemma read_of_save (w w0 : WavFile.t) :
  0 <= WavFile.chunk_size w < 2 ^ 32 ->
  0 <= WavFile.num_channels w < 2 ^ 16 ->
  0 <= WavFile.sample_rate w < 2 ^ 32 ->
  0 <= WavFile.bits_per_sample w < 2 ^ 16 ->
  0 <= WavFile.data_size w < 2 ^ 32 ->
  Z.of_nat (length (WavFile.raw_data w)) = WavFile.data_size w ->
  u16 (WavFile.num_channels w * u16 (WavFile.bits_per_sample w / 8)) <> 0 ->
  exists s,
    WavFile.save w true = Done s
    /\ WavFile.save_returned s = true
    /\ WavFile.read w0 (Some (WavFile.written s))
       = Some (Done
           {| WavFile.returned := true; WavFile.cerr := [];
              WavFile.this :=
                {| WavFile.chunk_size := WavFile.chunk_size w;
                   WavFile.num_channels := WavFile.num_channels w;
                   WavFile.sample_rate := WavFile.sample_rate w;
                   WavFile.block_align :=
                     u16 (WavFile.num_channels w
                          * u16 (WavFile.bits_per_sample w / 8));
                   WavFile.bits_per_sample := WavFile.bits_per_sample w;
                   WavFile.data_size := WavFile.data_size w;
                   WavFile.num_samples :=
                     WavFile.data_size w
                     / u16 (WavFile.num_channels w
                            * u16 (WavFile.bits_per_sample w / 8));
                   WavFile.raw_data := WavFile.raw_data w |} |}).
Proof.
  intros Hcs Hnc Hsr Hbps Hds Hl Hba.
  destruct (save_written w ltac:(lia)) as (s & Es & Hret & Hw).
  exists s. split; [exact Es|]. split; [exact Hret|].
  set (ba := u16 (WavFile.num_channels w * u16 (WavFile.bits_per_sample w / 8)))
    in *.
  set (br := u32 (WavFile.sample_rate w * ba)) in *.
  assert (Hfull : firstn (Z.to_nat (WavFile.data_size w)) (WavFile.raw_data w)
                  = WavFile.raw_data w) by (apply firstn_all2; lia).
  assert (Hfile : WavFile.written s
                  = riff_header (WavFile.chunk_size w)
                    ++ chunks_bytes
                         [FmtChunk 1 (WavFile.num_channels w)
                            (WavFile.sample_rate w) br ba
                            (WavFile.bits_per_sample w) [];
                          DataChunk (WavFile.raw_data w)]
                    ++ []).
  { rewrite Hw, Hfull. unfold riff_header, chunks_bytes.
    cbn [flat_map chunk_bytes length Z.of_nat Z.add].
    rewrite Hl. change (list_byte_of_string "WAVEfmt ")
      with (list_byte_of_string "WAVE" ++ list_byte_of_string "fmt ").
    rewrite !app_nil_r, <- !app_assoc. reflexivity. }
  rewrite Hfile.
  destruct (read_chunks w0 (WavFile.chunk_size w)
              [FmtChunk 1 (WavFile.num_channels w) (WavFile.sample_rate w)
                 br ba (WavFile.bits_per_sample w) [];
               DataChunk (WavFile.raw_data w)] [])
    as (f' & ->).
  - cbn [forallb chunk_ok length Z.of_nat Z.add andb].
    rewrite Hl. destruct (Z.ltb_spec (WavFile.data_size w) (2 ^ 32)); [|lia].
    reflexivity.
  - left. reflexivity.
  - cbn [walk absorb is_fmt is_data andb orb fst snd].
    unfold WavFile.after_subchunks.
    cbn [WavFile.self WavFile.foundFmt WavFile.foundData negb
         WavFile.block_align WavFile.data_size WavFile.with_num_samples
         WavFile.chunk_size WavFile.num_channels WavFile.sample_rate
         WavFile.bits_per_sample WavFile.raw_data WavFile.with_chunk_size].
    assert (Eba : u16 ba = ba) by (subst ba; unfold u16; apply Z.mod_mod; lia).
    rewrite Eba, Hl, (u16_small (WavFile.num_channels w)),
      (u32_small (WavFile.sample_rate w)),
      (u16_small (WavFile.bits_per_sample w)), (Z.mod_small _ _ Hcs)
      by assumption.
    destruct (Z.eqb_spec ba 0); [contradiction|reflexivity].
Qed.

(** X3.  [read] inverts [save].  For a container whose members are in the
    range of their types, whose [raw_data] holds [data_size] bytes and for
    which the block alignment that [save] computes,
    [num_channels * (bits_per_sample / 8)], is not zero: [save] succeeds,
    and [read] (into any object) of the bytes it wrote succeeds and yields
    the members of the container, with [block_align] the one [save]
    computed and [num_samples] their quotient. *)
Theorem read_save_inverse (w w0 : WavFile.t) :
  0 <= WavFile.chunk_size w < 2 ^ 32 ->
  0 <= WavFile.num_channels w < 2 ^ 16 ->
  0 <= WavFile.sample_rate w < 2 ^ 32 ->
  0 <= WavFile.bits_per_sample w < 2 ^ 16 ->
  0 <= WavFile.data_size w < 2 ^ 32 ->
  Z.of_nat (length (WavFile.raw_data w)) = WavFile.data_size w ->
  u16 (WavFile.num_channels w * u16 (WavFile.bits_per_sample w / 8)) <> 0 ->
  exists s,
    WavFile.save w true = Done s
    /\ WavFile.save_returned s = true
    /\ WavFile.read w0 (Some (WavFile.written s))
       = Some (Done
           {| WavFile.returned := true; WavFile.cerr := [];
              WavFile.this :=
                {| WavFile.chunk_size := WavFile.chunk_size w;
                   WavFile.num_channels := WavFile.num_channels w;
                   WavFile.sample_rate := WavFile.sample_rate w;
                   WavFile.block_align :=
                     u16 (WavFile.num_channels w
                          * u16 (WavFile.bits_per_sample w / 8));
                   WavFile.bits_per_sample := WavFile.bits_per_sample w;
                   WavFile.data_size := WavFile.data_size w;
                   WavFile.num_samples :=
                     WavFile.data_size w
                     / u16 (WavFile.num_channels w
                            * u16 (WavFile.bits_per_sample w / 8));
                   WavFile.raw_data := WavFile.raw_data w |} |}).
Proof. exact (read_of_save w w0). Qed.

Lemma read_save_inverse_witness :
  exists s,
    WavFile.save mono16_container true = Done s
    /\ WavFile.save_returned s = true
    /\ WavFile.read WavFile.default (Some (WavFile.written s))
       = Some (Done
           {| WavFile.returned := true; WavFile.cerr := [];
              WavFile.this :=
                {| WavFile.chunk_size := WavFile.chunk_size mono16_container;
                   WavFile.num_channels :=
                     WavFile.num_channels mono16_container;
                   WavFile.sample_rate := WavFile.sample_rate mono16_container;
                   WavFile.block_align :=
                     u16 (WavFile.num_channels mono16_container
                          * u16 (WavFile.bits_per_sample mono16_container / 8));
                   WavFile.bits_per_sample :=
                     WavFile.bits_per_sample mono16_container;
                   WavFile.data_size := WavFile.data_size mono16_container;
                   WavFile.num_samples :=
                     WavFile.data_size mono16_container
                     / u16 (WavFile.num_channels mono16_container
                            * u16 (WavFile.bits_per_sample mono16_container
                                   / 8));
                   WavFile.raw_data := WavFile.raw_data mono16_container |} |}).
Proof.
  apply (read_save_inverse mono16_container WavFile.default);
    try (simpl; lia); try reflexivity. discriminate.
Defined.

(** ** Joining and splitting again *)

Lemma from_object_to_object (T : sample_type) (v : Z) :
  in_range T v -> from_object T (to_object T v) = v.
Proof.
  unfold in_range, from_object, to_object, numeric_min, numeric_max.
  rewrite le_decode_encode. fold (bit_width T).
  replace (8 * Z.of_nat (sizeof T)) with (bit_width T)
    by (unfold bit_width; lia).
  pose proof (bit_width_pos T) as Hw.
  assert (Hp : 2 ^ bit_width T = 2 * 2 ^ (bit_width T - 1)).
  { rewrite <- Z.pow_succ_r by lia. f_equal. lia. }
  assert (0 < 2 ^ (bit_width T - 1)) by (apply Z.pow_pos_nonneg; lia).
  destruct (is_signed T); cbn [andb]; intro Hv.
  - destruct (Z.lt_ge_cases v 0) as [Hneg|Hpos].
    + assert (E : v mod 2 ^ bit_width T = v + 2 ^ bit_width T).
      { symmetry. apply (Z.mod_unique _ _ (-1)); lia. }
      rewrite E. destruct (Z.leb_spec (2 ^ (bit_width T - 1))
                             (v + 2 ^ bit_width T)); lia.
    + rewrite Z.mod_small by lia.
      destruct (Z.leb_spec (2 ^ (bit_width T - 1)) v); lia.
  - apply Z.mod_small. lia.
Qed.

(** The [j]-th of [n] frames of [ba] bytes each starts at offset
    [j * ba] of their concatenation. *)
Lemma skipn_concat_frames (frame : nat -> list byte) (ba : nat) :
  (forall j, length (frame j) = ba) ->
  forall (n j s : nat), (j <= n)%nat ->
  skipn (j * ba) (concat (map frame (seq s n)))
  = concat (map frame (seq (s + j) (n - j))).
Proof.
  intros Hf n. induction n as [|n IH]; intros j s Hj.
  - assert (j = 0)%nat as -> by lia. reflexivity.
  - destruct j as [|j].
    + cbn [Nat.mul skipn]. now rewrite Nat.add_0_r, Nat.sub_0_r.
    + cbn [seq map concat]. cbn [Nat.mul].
      rewrite <- (Hf s) at 1. rewrite skipn_app, Nat.add_comm.
      rewrite skipn_all2 by (rewrite Hf; lia).
      replace (j * ba + length (frame s) - length (frame s))%nat
        with (j * ba)%nat by lia.
      rewrite (IH j (S s)) by lia. cbn [app].
      replace (S s + j)%nat with (s + S j)%nat by lia. reflexivity.
Qed.

Lemma frame_at (frame : nat -> list byte) (ba n j : nat) :
  (forall j, length (frame j) = ba) -> (j < n)%nat ->
  firstn ba (skipn (j * ba) (concat (map frame (seq 0 n)))) = frame j.
Proof.
  intros Hf Hj. rewrite (skipn_concat_frames frame ba Hf n j 0) by lia.
  destruct (n - j)%nat as [|k] eqn:E; [lia|].
  cbn [seq map concat Nat.add]. apply firstn_exact. apply Hf.
Qed.

Lemma length_concat_frames (frame : nat -> list byte) (ba : nat) :
  (forall j, length (frame j) = ba) ->
  forall n s : nat, length (concat (map frame (seq s n))) = (n * ba)%nat.
Proof.
  intros Hf n. induction n as [|n IH]; intro s; [reflexivity|].
  cbn [seq map concat]. rewrite length_app, Hf, IH. lia.
Qed.

(** What [toWavFile] builds from a well-formed channel set, and what the
    constructor makes of that container. *)
Lemma toWavFile_then_WavData (T : sample_type) (d : WavData.t) :
  typed T d ->
  WavData.num_channels d = 1 \/ WavData.num_channels d = 2 ->
  WavData.bits_per_sample d = bit_width T ->
  (WavData.num_channels d = 1 -> WavData.channel2 d = []) ->
  WavData.num_samples d * (WavData.num_channels d * Z.of_nat (sizeof T))
    < 2 ^ 32 ->
  exists c,
    WavData.toWavFile T d = Done c
    /\ WavFile.chunk_size c = u32 (36 + WavFile.data_size c)
    /\ WavFile.num_channels c = WavData.num_channels d
    /\ WavFile.sample_rate c = WavData.sample_rate d
    /\ WavFile.block_align c = WavData.num_channels d * Z.of_nat (sizeof T)
    /\ WavFile.bits_per_sample c = WavData.bits_per_sample d
    /\ WavFile.data_size c = WavData.num_samples d * WavFile.block_align c
    /\ WavFile.num_samples c = WavData.num_samples d
    /\ Z.of_nat (length (WavFile.raw_data c)) = WavFile.data_size c
    /\ WavData.WavData T c = Done {| WavData.cerr := []; WavData.object := d |}.
Proof.
  intros (Hsr & Hn & Hl1 & Hl2 & Hr1 & Hr2) Hnc Hbits Hmono H32.
  set (n := Z.to_nat (WavData.num_samples d)).
  set (ba := (channels_used (WavData.num_channels d) * sizeof T)%nat).
  assert (Hba : Z.of_nat ba = WavData.num_channels d * Z.of_nat (sizeof T))
    by (subst ba; rewrite Nat2Z.inj_mul, channels_used_cases by exact Hnc;
        reflexivity).
  assert (Hnba : Z.of_nat (n * ba)
                 = WavData.num_samples d * Z.of_nat ba)
    by (rewrite Nat2Z.inj_mul; subst n; rewrite Z2Nat.id by lia; reflexivity).
  set (frame := fun j : nat =>
                  to_object T (nth j (WavData.channel1 d) 0)
                  ++ (if WavData.num_channels d =? 2
                      then to_object T (nth j (WavData.channel2 d) 0)
                      else [])).
  assert (Hframe : forall j, length (frame j) = ba).
  { intro j. subst frame ba. cbv beta. unfold channels_used.
    rewrite length_app, length_to_object.
    destruct (WavData.num_channels d =? 2);
      [rewrite length_to_object|cbn [length]]; lia. }
  assert (H32' : Z.of_nat (n * ba) < 2 ^ 32) by (rewrite Hnba, Hba; exact H32).
  pose proof (toWavFile_frames T d Hnc Hbits ltac:(lia)) as Htw.
  cbv zeta in Htw. fold n ba frame in Htw.
  rewrite Htw by (assumption || lia). clear Htw.
  eexists. split; [reflexivity|].
  cbn [WavFile.chunk_size WavFile.num_channels WavFile.sample_rate
       WavFile.block_align WavFile.bits_per_sample WavFile.data_size
       WavFile.num_samples WavFile.raw_data].
  rewrite (length_concat_frames frame ba Hframe).
  repeat (split; [reflexivity || lia|]).
  rewrite WavData_in_bounds;
    cbn [WavFile.chunk_size WavFile.num_channels WavFile.sample_rate
         WavFile.block_align WavFile.bits_per_sample WavFile.data_size
         WavFile.num_samples WavFile.raw_data];
    rewrite ?(length_concat_frames frame ba Hframe), ?Nat2Z.id;
    try (assumption || lia || (fold ba; lia)).
  fold n. f_equal.
  assert (Hsz : (sizeof T <= ba)%nat)
    by (subst ba; unfold channels_used;
        destruct (WavData.num_channels d =? 2); lia).
  assert (Hin : forall (ch : list Z) (j : nat),
                  Forall (in_range T) ch -> (j < length ch)%nat ->
                  from_object T (to_object T (nth j ch 0)) = nth j ch 0).
  { intros ch j Hch Hj. apply from_object_to_object.
    rewrite Forall_forall in Hch. apply Hch, nth_In, Hj. }
  assert (E1 : map (fun j => sample_at T (concat (map frame (seq 0 n)))
                               (j * ba)) (seq 0 n)
               = WavData.channel1 d).
  { transitivity (map (fun j => nth j (WavData.channel1 d) 0) (seq 0 n));
      [|unfold n; rewrite <- Hl1; apply map_nth_seq].
    apply map_ext_in. intros j Hj. apply in_seq in Hj. unfold sample_at.
    replace (sizeof T) with (Nat.min (sizeof T) ba) at 1 by lia.
    rewrite <- firstn_firstn, (frame_at frame ba n j Hframe) by lia.
    unfold frame.
    rewrite firstn_exact by apply length_to_object.
    apply Hin; [exact Hr1|lia]. }
  rewrite E1.
  destruct Hnc as [Em|E2].
  - rewrite Em. cbn [Z.eqb Pos.eqb]. rewrite <- (Hmono Em), <- Em.
    destruct d; reflexivity.
  - specialize (Hl2 E2).
    assert (E3 : map (fun j => sample_at T (concat (map frame (seq 0 n)))
                                 (j * ba + sizeof T)) (seq 0 n)
                 = WavData.channel2 d).
    { transitivity (map (fun j => nth j (WavData.channel2 d) 0) (seq 0 n));
        [|unfold n; rewrite <- Hl2; apply map_nth_seq].
      apply map_ext_in. intros j Hj. apply in_seq in Hj.
      unfold sample_at.
      assert (Eba : ba = (sizeof T + sizeof T)%nat)
        by (unfold ba, channels_used; rewrite E2; cbn; lia).
      rewrite Nat.add_comm, <- skipn_skipn.
      replace (firstn (sizeof T) (skipn (sizeof T)
                 (skipn (j * ba) (concat (map frame (seq 0 n))))))
        with (skipn (sizeof T) (firstn ba
                (skipn (j * ba) (concat (map frame (seq 0 n))))))
        by (rewrite skipn_firstn_comm; f_equal; lia).
      rewrite (frame_at frame ba n j Hframe) by lia.
      unfold frame. rewrite E2. cbn [Z.eqb Pos.eqb].
      rewrite skipn_exact by apply length_to_object.
      apply Hin; [exact Hr2|lia]. }
    rewrite E3. rewrite E2. cbn [Z.eqb Pos.eqb]. rewrite <- E2.
    destruct d; reflexivity.
Qed.

(** X4.  [toWavFile] on a channel set with one or two channels, the bit
    depth of [T], channels of [num_samples] samples and a payload of
    [num_samples * num_channels * sizeof (T)] bytes that is below [2 ^ 32]
    (so that the [uint32_t] [data_size] does not wrap): the container it
    returns has [block_align = num_channels * sizeof (T)],
    [data_size = num_samples * block_align], [chunk_size = 36 + data_size]
    (as a [uint32_t]) and a [raw_data] of [data_size] bytes in which frame
    [j] starts at [j * block_align] and holds the object of [channel1[j]]
    followed, when stereo, by the object of [channel2[j]]. *)
Theorem toWavFile_layout (T : sample_type) (d : WavData.t) :
  WavData.num_channels d = 1 \/ WavData.num_channels d = 2 ->
  WavData.bits_per_sample d = bit_width T ->
  0 <= WavData.num_samples d ->
  length (WavData.channel1 d) = Z.to_nat (WavData.num_samples d) ->
  (WavData.num_channels d = 2 ->
   length (WavData.channel2 d) = Z.to_nat (WavData.num_samples d)) ->
  WavData.num_samples d * (WavData.num_channels d * Z.of_nat (sizeof T))
    < 2 ^ 32 ->
  exists c,
    WavData.toWavFile T d = Done c
    /\ WavFile.num_channels c = WavData.num_channels d
    /\ WavFile.sample_rate c = WavData.sample_rate d
    /\ WavFile.bits_per_sample c = WavData.bits_per_sample d
    /\ WavFile.num_samples c = WavData.num_samples d
    /\ WavFile.block_align c = WavData.num_channels d * Z.of_nat (sizeof T)
    /\ WavFile.data_size c = WavData.num_samples d * WavFile.block_align c
    /\ WavFile.chunk_size c = u32 (36 + WavFile.data_size c)
    /\ Z.of_nat (length (WavFile.raw_data c)) = WavFile.data_size c
    /\ forall j : nat, (j < Z.to_nat (WavData.num_samples d))%nat ->
         let frame := skipn (j * Z.to_nat (WavFile.block_align c))
                            (WavFile.raw_data c) in
         firstn (sizeof T) frame = to_object T (nth j (WavData.channel1 d) 0)
         /\ (WavData.num_channels d = 2 ->
             firstn (sizeof T) (skipn (sizeof T) frame)
             = to_object T (nth j (WavData.channel2 d) 0)).
Proof.
  intros Hnc Hbits Hn Hl1 Hl2 H32.
  set (n := Z.to_nat (WavData.num_samples d)).
  set (ba := (channels_used (WavData.num_channels d) * sizeof T)%nat).
  assert (Hba : Z.of_nat ba = WavData.num_channels d * Z.of_nat (sizeof T))
    by (subst ba; rewrite Nat2Z.inj_mul, channels_used_cases by exact Hnc;
        reflexivity).
  assert (Hnba : Z.of_nat (n * ba)
                 = WavData.num_samples d * Z.of_nat ba)
    by (rewrite Nat2Z.inj_mul; subst n; rewrite Z2Nat.id by lia; reflexivity).
  set (frame := fun j : nat =>
                  to_object T (nth j (WavData.channel1 d) 0)
                  ++ (if WavData.num_channels d =? 2
                      then to_object T (nth j (WavData.channel2 d) 0)
                      else [])).
  assert (Hframe : forall j, length (frame j) = ba).
  { intro j. unfold frame, ba, channels_used.
    rewrite length_app, length_to_object.
    destruct (WavData.num_channels d =? 2);
      [rewrite length_to_object|cbn [length]]; lia. }
  assert (H32' : Z.of_nat (n * ba) < 2 ^ 32) by (rewrite Hnba, Hba; exact H32).
  pose proof (toWavFile_frames T d Hnc Hbits Hn) as Htw.
  cbv zeta in Htw. fold n ba frame in Htw.
  rewrite Htw by (assumption || lia). clear Htw.
  eexists. split; [reflexivity|].
  cbn [WavFile.chunk_size WavFile.num_channels WavFile.sample_rate
       WavFile.block_align WavFile.bits_per_sample WavFile.data_size
       WavFile.num_samples WavFile.raw_data].
  rewrite (length_concat_frames frame ba Hframe), Nat2Z.id.
  repeat (split; [reflexivity || lia|]).
  intros j Hj. cbv zeta.
  assert (Hsz : (sizeof T <= ba)%nat)
    by (unfold ba, channels_used; destruct (WavData.num_channels d =? 2); lia).
  split.
  - replace (sizeof T) with (Nat.min (sizeof T) ba) at 1 by lia.
    rewrite <- firstn_firstn, (frame_at frame ba n j Hframe Hj).
    unfold frame. apply firstn_exact, length_to_object.
  - intro E2.
    assert (Eba : ba = (sizeof T + sizeof T)%nat)
      by (unfold ba, channels_used; rewrite E2; cbn; lia).
    replace (firstn (sizeof T) (skipn (sizeof T)
               (skipn (j * ba) (concat (map frame (seq 0 n))))))
      with (skipn (sizeof T) (firstn ba
              (skipn (j * ba) (concat (map frame (seq 0 n))))))
      by (rewrite skipn_firstn_comm; f_equal; lia).
    rewrite (frame_at frame ba n j Hframe Hj).
    unfold frame. rewrite E2. cbn [Z.eqb Pos.eqb].
    apply skipn_exact, length_to_object.
Qed.

Lemma typed_stereo16_channels : typed int16_t stereo16_channels.
Proof.
  repeat split; try reflexivity; try discriminate;
    repeat constructor; discriminate.
Qed.

Lemma toWavFile_layout_witness :
  exists c,
    WavData.toWavFile int16_t stereo16_channels = Done c
    /\ WavFile.num_channels c = WavData.num_channels stereo16_channels
    /\ WavFile.sample_rate c = WavData.sample_rate stereo16_channels
    /\ WavFile.bits_per_sample c = WavData.bits_per_sample stereo16_channels
    /\ WavFile.num_samples c = WavData.num_samples stereo16_channels
    /\ WavFile.block_align c
       = WavData.num_channels stereo16_channels * Z.of_nat (sizeof int16_t)
    /\ WavFile.data_size c
       = WavData.num_samples stereo16_channels * WavFile.block_align c
    /\ WavFile.chunk_size c = u32 (36 + WavFile.data_size c)
    /\ Z.of_nat (length (WavFile.raw_data c)) = WavFile.data_size c
    /\ forall j : nat,
         (j < Z.to_nat (WavData.num_samples stereo16_channels))%nat ->
         let frame := skipn (j * Z.to_nat (WavFile.block_align c))
                            (WavFile.raw_data c) in
         firstn (sizeof int16_t) frame
         = to_object int16_t (nth j (WavData.channel1 stereo16_channels) 0)
         /\ (WavData.num_channels stereo16_channels = 2 ->
             firstn (sizeof int16_t) (skipn (sizeof int16_t) frame)
             = to_object int16_t
                 (nth j (WavData.channel2 stereo16_channels) 0)).
Proof.
  apply (toWavFile_layout int16_t stereo16_channels);
    [right; reflexivity|reflexivity|simpl; lia|reflexivity|reflexivity
    |simpl; lia].
Defined.

(** X5.  The constructor inverts [toWavFile]: for a well-formed channel set
    with one or two channels, the bit depth of [T], when mono an empty
    [channel2], and a payload of [num_samples * num_channels * sizeof (T)]
    bytes that is below [2 ^ 32], [toWavFile] succeeds and [WavData<T>] of the container it
    returns prints nothing and is the channel set again. *)
Theorem WavData_toWavFile_inverse (T : sample_type) (d : WavData.t) :
  typed T d ->
  WavData.num_channels d = 1 \/ WavData.num_channels d = 2 ->
  WavData.bits_per_sample d = bit_width T ->
  (WavData.num_channels d = 1 -> WavData.channel2 d = []) ->
  WavData.num_samples d * (WavData.num_channels d * Z.of_nat (sizeof T))
    < 2 ^ 32 ->
  exists c,
    WavData.toWavFile T d = Done c
    /\ WavData.WavData T c = Done {| WavData.cerr := []; WavData.object := d |}.
Proof.
  intros Hd Hnc Hbits Hmono H32.
  destruct (toWavFile_then_WavData T d Hd Hnc Hbits Hmono H32)
    as (c & Ec & _ & _ & _ & _ & _ & _ & _ & _ & Ew).
  exists c. split; assumption.
Qed.

Lemma WavData_toWavFile_inverse_witness :
  exists c,
    WavData.toWavFile int16_t stereo16_channels = Done c
    /\ WavData.WavData int16_t c
       = Done {| WavData.cerr := []; WavData.object := stereo16_channels |}.
Proof.
  apply (WavData_toWavFile_inverse int16_t stereo16_channels);
    [exact typed_stereo16_channels|right; reflexivity|reflexivity
    |discriminate|simpl; lia].
Defined.

(** ** From a channel set to a file and back *)

Lemma save_then_read (T : sample_type) (d : WavData.t)
    (w0 : WavFile.t) :
  typed T d ->
  WavData.num_channels d = 1 \/ WavData.num_channels d = 2 ->
  WavData.bits_per_sample d = bit_width T ->
  (WavData.num_channels d = 1 -> WavData.channel2 d = []) ->
  WavData.num_samples d * (WavData.num_channels d * Z.of_nat (sizeof T))
    < 2 ^ 32 ->
  exists s r,
    WavData.save T d true = Done s
    /\ WavFile.save_returned s = true
    /\ Z.of_nat (length (WavFile.written s))
       = 44 + WavData.num_samples d
              * (WavData.num_channels d * Z.of_nat (sizeof T))
    /\ WavFile.read w0 (Some (WavFile.written s)) = Some (Done r)
    /\ WavFile.returned r = true /\ WavFile.cerr r = []
    /\ WavData.WavData T (WavFile.this r)
       = Done {| WavData.cerr := []; WavData.object := d |}.
Proof.
  intros Hd Hnc Hbits Hmono H32.
  destruct (toWavFile_then_WavData T d Hd Hnc Hbits Hmono H32)
    as (c & Ec & Hcs & Hcn & Hsr & Hba & Hbp & Hds & Hns & Hl & Ew).
  destruct Hd as (Hrate & Hn & _).
  pose proof (bit_width_pos T) as Hw.
  assert (Hsz : 1 <= Z.of_nat (sizeof T) <= 8) by (unfold bit_width in Hw; lia).
  assert (Hbytes : WavFile.bits_per_sample c / 8 = Z.of_nat (sizeof T)).
  { rewrite Hbp, Hbits. unfold bit_width. apply Z.div_mul. lia. }
  assert (Halign : u16 (WavFile.num_channels c
                        * u16 (WavFile.bits_per_sample c / 8))
                   = WavFile.block_align c).
  { rewrite Hbytes, (u16_small (Z.of_nat (sizeof T))) by (simpl; lia).
    rewrite Hcn, Hba. apply u16_small. simpl. lia. }
  assert (Hdsr : 0 <= WavFile.data_size c < 2 ^ 32)
    by (rewrite Hds, Hba; split; [apply Z.mul_nonneg_nonneg; lia|exact H32]).
  destruct (read_of_save c w0) as (s & Es & Hret & Er).
  - rewrite Hcs. unfold u32. apply Z.mod_pos_bound. lia.
  - rewrite Hcn. simpl. lia.
  - rewrite Hsr. exact Hrate.
  - rewrite Hbp, Hbits. simpl. lia.
  - exact Hdsr.
  - exact Hl.
  - rewrite Halign, Hba. lia.
  - exists s. eexists. unfold WavData.save. rewrite Ec. cbn [bind].
    split; [exact Es|]. split; [exact Hret|]. split.
    + destruct (save_written c ltac:(lia)) as (s' & Es' & _ & Hw').
      rewrite Es in Es'. injection Es' as <-. rewrite Hw'.
      rewrite !length_app, !length_le_encode, length_firstn.
      rewrite <- Hba, <- Hds.
      change (length (list_byte_of_string "RIFF")) with 4%nat.
      change (length (list_byte_of_string "WAVEfmt ")) with 8%nat.
      change (length (list_byte_of_string "data")) with 4%nat. lia.
    + split; [exact Er|]. split; [reflexivity|]. split; [reflexivity|].
      cbn [WavFile.this]. rewrite Halign.
      replace (WavFile.data_size c / WavFile.block_align c)
        with (WavFile.num_samples c)
        by (rewrite Hds, Hns; symmetry; apply Z.div_mul; rewrite Hba; lia).
      rewrite <- Ew. f_equal. destruct c; reflexivity.
Qed.

(** X6.  Saving a channel set and loading the file again gives the channel
    set back: for a well-formed channel set with one or two channels, the
    bit depth of [T], when mono an empty [channel2], and a payload of
    [num_samples * num_channels * sizeof (T)] bytes that is below [2 ^ 32],
    [WavData<T>::save] writes a file that [WavFile::read] accepts, and
    [WavData<T>] of the container read is the channel set. *)
Theorem save_read_WavData_inverse (T : sample_type) (d : WavData.t)
    (w0 : WavFile.t) :
  typed T d ->
  WavData.num_channels d = 1 \/ WavData.num_channels d = 2 ->
  WavData.bits_per_sample d = bit_width T ->
  (WavData.num_channels d = 1 -> WavData.channel2 d = []) ->
  WavData.num_samples d * (WavData.num_channels d * Z.of_nat (sizeof T))
    < 2 ^ 32 ->
  exists s r,
    WavData.save T d true = Done s
    /\ WavFile.save_returned s = true
    /\ Z.of_nat (length (WavFile.written s))
       = 44 + WavData.num_samples d
              * (WavData.num_channels d * Z.of_nat (sizeof T))
    /\ WavFile.read w0 (Some (WavFile.written s)) = Some (Done r)
    /\ WavFile.returned r = true /\ WavFile.cerr r = []
    /\ WavData.WavData T (WavFile.this r)
       = Done {| WavData.cerr := []; WavData.object := d |}.
Proof. exact (save_then_read T d w0). Qed.

Lemma save_read_WavData_inverse_witness :
  exists s r,
    WavData.save int16_t stereo16_channels true = Done s
    /\ WavFile.save_returned s = true
    /\ Z.of_nat (length (WavFile.written s))
       = 44 + WavData.num_samples stereo16_channels
              * (WavData.num_channels stereo16_channels
                 * Z.of_nat (sizeof int16_t))
    /\ WavFile.read WavFile.default (Some (WavFile.written s)) = Some (Done r)
    /\ WavFile.returned r = true /\ WavFile.cerr r = []
    /\ WavData.WavData int16_t (WavFile.this r)
       = Done {| WavData.cerr := []; WavData.object := stereo16_channels |}.
Proof.
  apply (save_read_WavData_inverse int16_t stereo16_channels WavFile.default);
    [exact typed_stereo16_channels|right; reflexivity|reflexivity
    |discriminate|simpl; lia].
Defined.

(** ** After a bit-depth mismatch *)

Lemma for_loop_first_fails {St : Type} (body : Z -> St -> outcome St)
    (count : nat) (s : St) (u : undefined) :
  (0 < count)%nat -> body 0 s = Undefined u ->
  for_loop 0 count body s = Undefined u.
Proof.
  intros Hc Hb. destruct count as [|k]; [lia|].
  rewrite for_loop_S, Hb. reflexivity.
Qed.

(** X7.  The object the constructor leaves after a bit-depth mismatch has
    [num_samples] copied from the container and empty channels, so when the
    container has a sample, [toWavFile], [WavData<T>::save] and [reencode]
    on that object all read [channel1[0]] of an empty vector. *)
Theorem WavData_mismatch_then_out_of_bounds (T To : sample_type)
    (wf : WavFile.t) (can_open : bool) :
  WavFile.bits_per_sample wf <> bit_width T ->
  1 <= WavFile.num_samples wf ->
  exists r,
    WavData.WavData T wf = Done r
    /\ WavData.cerr r
       = [BitDepthMismatch (WavFile.bits_per_sample wf) (bit_width T)]
    /\ WavData.toWavFile T (WavData.object r) = Undefined OutOfBounds
    /\ WavData.save T (WavData.object r) can_open = Undefined OutOfBounds
    /\ reencode T To (WavData.object r) = Undefined OutOfBounds.
Proof.
  intros Hbits Hn. unfold WavData.WavData.
  cbn [WavData.bits_per_sample].
  destruct (Z.eqb_spec (WavFile.bits_per_sample wf) (bit_width T)) as [|_];
    [contradiction|].
  cbn [negb]. eexists. split; [reflexivity|]. split; [reflexivity|].
  cbn [WavData.object].
  assert (Htw : WavData.toWavFile T
                  {| WavData.sample_rate := WavFile.sample_rate wf;
                     WavData.num_channels := WavFile.num_channels wf;
                     WavData.bits_per_sample := WavFile.bits_per_sample wf;
                     WavData.num_samples := WavFile.num_samples wf;
                     WavData.channel1 := []; WavData.channel2 := [] |}
                = Undefined OutOfBounds).
  { unfold WavData.toWavFile. cbn [WavData.num_samples].
    rewrite (for_loop_first_fails _ _ _ OutOfBounds); [reflexivity|lia|].
    reflexivity. }
  split; [exact Htw|]. split.
  - unfold WavData.save. rewrite Htw. reflexivity.
  - unfold reencode. cbn [WavData.num_samples].
    rewrite (for_loop_first_fails _ _ _ OutOfBounds); [reflexivity|lia|].
    reflexivity.
Qed.

Lemma WavData_mismatch_then_out_of_bounds_witness :
  exists r,
    WavData.WavData int32_t mono16_container = Done r
    /\ WavData.cerr r
       = [BitDepthMismatch (WavFile.bits_per_sample mono16_container)
            (bit_width int32_t)]
    /\ WavData.toWavFile int32_t (WavData.object r) = Undefined OutOfBounds
    /\ WavData.save int32_t (WavData.object r) true = Undefined OutOfBounds
    /\ reencode int32_t int16_t (WavData.object r) = Undefined OutOfBounds.
Proof.
  apply (WavData_mismatch_then_out_of_bounds int32_t int16_t mono16_container
           true); [discriminate|simpl; lia].
Defined.

(** ** [resample] at the edges *)

(** X8.  An input whose [sample_rate] is 0 makes [resample] undefined for
    every target rate: the ratio is infinite or not a number, and so is the
    length that is cast to [uint32_t]. *)
Theorem resample_zero_source_rate (T : sample_type) (x : WavData.t)
    (new_sample_rate : Z) :
  WavData.sample_rate x = 0 ->
  0 <= WavData.num_samples x < 2 ^ 32 ->
  0 <= new_sample_rate < 2 ^ 32 ->
  resample T x new_sample_rate = Undefined CastOutOfRange.
Proof.
  intros Hsr Hn Hnew. unfold resample, resample_newNumSamples, resample_ratio.
  rewrite Hsr. change (double.of_Z 0) with (S754_zero false).
  destruct (of_Z_cases new_sample_rate ltac:(simpl (2 ^ 53); lia))
    as [->|(s & m & e & -> & _)];
    destruct (of_Z_cases (WavData.num_samples x) ltac:(simpl (2 ^ 53); lia))
      as [->|(s' & m' & e' & -> & _)];
    reflexivity.
Qed.

Lemma resample_zero_source_rate_witness :
  resample int16_t silent_channels 8000 = Undefined CastOutOfRange.
Proof.
  apply (resample_zero_source_rate int16_t silent_channels 8000);
    [reflexivity|simpl; lia|simpl; lia].
Defined.

(** X9.  With a nonzero input rate, an input without samples or a target
    rate of 0 gives an output without samples: [num_samples] is 0, the
    channels in use are empty, the rate is the target rate. *)
Theorem resample_no_samples (T : sample_type) (x : WavData.t)
    (new_sample_rate : Z) :
  1 <= WavData.sample_rate x < 2 ^ 32 ->
  0 <= WavData.num_samples x < 2 ^ 32 ->
  0 <= new_sample_rate < 2 ^ 32 ->
  WavData.num_samples x = 0 \/ new_sample_rate = 0 ->
  resample T x new_sample_rate
  = Done {| WavData.sample_rate := new_sample_rate;
            WavData.num_channels := WavData.num_channels x;
            WavData.bits_per_sample := WavData.bits_per_sample x;
            WavData.num_samples := 0;
            WavData.channel1 := [];
            WavData.channel2 := if WavData.num_channels x =? 2 then []
                                else WavData.channel2 x |}.
Proof.
  intros Hsr Hn Hnew Hcase.
  assert (Hlen : resample_newNumSamples x new_sample_rate = Done 0).
  { unfold resample_newNumSamples, resample_ratio.
    destruct (of_Z_positive _ Hsr) as (mr & er & -> & Hdr & Her & _).
    destruct (Z.eq_dec new_sample_rate 0) as [->|Hnz].
    - change (double.of_Z 0) with (S754_zero false).
      destruct (of_Z_cases (WavData.num_samples x) ltac:(simpl (2 ^ 53); lia))
        as [->|(s' & m' & e' & -> & _)]; reflexivity.
    - destruct Hcase as [->|]; [|contradiction].
      destruct (of_Z_positive new_sample_rate ltac:(lia))
        as (mw & ew & -> & Hdw & Hew & _).
      destruct (div_bounds mw mr ew er Hdw Hdr ltac:(lia) ltac:(lia))
        as (mq & eq & -> & _).
      reflexivity. }
  unfold resample. rewrite Hlen. cbn [bind Z.to_nat for_loop fst snd].
  unfold resize. cbn [firstn repeat Nat.sub app]. reflexivity.
Qed.

Lemma resample_no_samples_witness :
  resample int16_t mono16_channels 0
  = Done {| WavData.sample_rate := 0;
            WavData.num_channels := WavData.num_channels mono16_channels;
            WavData.bits_per_sample :=
              WavData.bits_per_sample mono16_channels;
            WavData.num_samples := 0;
            WavData.channel1 := [];
            WavData.channel2 :=
              if WavData.num_channels mono16_channels =? 2 then []
              else WavData.channel2 mono16_channels |}.
Proof.
  apply (resample_no_samples int16_t mono16_channels 0);
    [simpl; lia|simpl; lia|simpl; lia|right; reflexivity].
Defined.

(** ** [convertSample] and [reencode] between any two types of at most 32
    bits *)

Lemma convert_arith_any (From To : sample_type) (U X N A : R) :
  bit_width From <= 32 -> bit_width To <= 32 ->
  (U <= IZR (numeric_max From - numeric_min From) - 1)%R ->
  (0 < X <= U * (1 + double.ulp_rel))%R ->
  (0 < N)%R ->
  (N * IZR (numeric_max From - numeric_min From)
   <= X * (1 + double.ulp_rel))%R ->
  (0 < A <= N * IZR (numeric_max To - numeric_min To)
            * (1 + double.ulp_rel))%R ->
  ((A + IZR (numeric_min To)) * (1 + double.ulp_rel)
   < IZR (numeric_max To) + / 2)%R
  /\ (IZR (numeric_min To) - / 2
      < IZR (numeric_min To) * (1 + double.ulp_rel))%R.
Proof.
  intros HF HT. apply Z.leb_le in HF, HT.
  rewrite ulp_rel_eq.
  remember (numeric_max From - numeric_min From) as C eqn:EC.
  remember (numeric_max To - numeric_min To) as W eqn:EW.
  remember (numeric_min To) as LO eqn:ELO.
  remember (numeric_max To) as HI eqn:EHI.
  destruct From; try discriminate HF;
    destruct To; try discriminate HT;
    vm_compute in EC, EW, ELO, EHI; subst C W LO HI;
    intros HU HX HN HNC HA; split; lra.
Qed.

Lemma convertSample_known_points (From To : sample_type) :
  bit_width From <= 32 -> bit_width To <= 32 ->
  convertSample From To (numeric_min From) = Done (numeric_min To)
  /\ convertSample From To (numeric_max From) = Done (numeric_max To)
  /\ exists z, convertSample From To 0 = Done z.
Proof.
  intros HF HT. apply Z.leb_le in HF, HT.
  destruct From; try discriminate HF;
    destruct To; try discriminate HT;
    (split; [vm_compute; reflexivity|split; [vm_compute; reflexivity|]]);
    eexists; vm_compute; reflexivity.
Qed.

(** A sample strictly inside the range of [From], and not 0, converts. *)
Lemma convertSample_interior_any (From To : sample_type) (v : Z) :
  bit_width From <= 32 -> bit_width To <= 32 ->
  numeric_min From < v < numeric_max From -> v <> 0 ->
  exists z, convertSample From To v = Done z.
Proof.
  intros HwF H32 Hv Hv0.
  destruct (numeric_small From HwF) as (_ & _ & HC & _).
  destruct (numeric_small To H32) as (HLO & HHI & HR & HnegT).
  change (2 ^ 32) with 4294967296 in HC, HR.
  change (2 ^ 31) with 2147483648 in HLO.
  unfold convertSample. rewrite !range_width by assumption.
  destruct (offset_bounds From v HwF Hv0 ltac:(lia))
    as (m1 & e1 & -> & Hd1 & He1 & V1).
  destruct (of_Z_positive (numeric_max From - numeric_min From)
              ltac:(simpl (2 ^ 32); lia))
    as (mc & ec & -> & Hdc & Hec & Vc).
  destruct (div_bounds m1 mc e1 ec Hd1 Hdc ltac:(lia) ltac:(lia))
    as (mt & et & -> & Hdt & Het & Vt).
  destruct (of_Z_positive (numeric_max To - numeric_min To)
              ltac:(simpl (2 ^ 32); lia))
    as (mr & er & -> & Hdr & Her & Vr).
  destruct (mul_bounds mt mr et er Hdt Hdr ltac:(lia) ltac:(lia))
    as (ma & ea & -> & Hda & Hea & Va).
  rewrite Vc in Vt. rewrite Vr in Va.
  pose proof (value_pos m1 e1) as P1. pose proof (value_pos mt et) as Pt.
  pose proof (value_pos ma ea) as Pa.
  assert (HU : (IZR (v - numeric_min From)
                <= IZR (numeric_max From - numeric_min From) - 1)%R).
  { rewrite <- minus_IZR. apply IZR_le. lia. }
  destruct (convert_arith_any From To _ _ _ _ HwF H32 HU (conj P1 V1) Pt Vt
              (conj Pa (proj2 Va))) as [Hhi Hlo].
  assert (Hu : (0 < double.ulp_rel)%R) by apply bpow_pos.
  assert (Hu1 : (double.ulp_rel < 1)%R) by (rewrite ulp_rel_eq; lra).
  assert (HL0 : (IZR (numeric_min To) <= 0)%R) by (apply IZR_le; lia).
  assert (HH0 : (0 <= IZR (numeric_max To))%R) by (apply IZR_le; lia).
  set (A := double.value (S754_finite false ma ea)) in *.
  unfold range_min. destruct (is_signed To) eqn:EsT.
  - specialize (HnegT eq_refl).
    destruct (of_Z_finite (numeric_min To) ltac:(lia)
                ltac:(simpl (2 ^ 53); lia))
      as (ml & el & El & Hdl & Hel & _).
    pose proof (value_of_Z (numeric_min To) ltac:(simpl (2 ^ 53); lia)) as Vl.
    rewrite El in Vl. rewrite El.
    destruct (add_bounds false (numeric_min To <? 0) ma ml ea el Hda Hdl
                ltac:(lia) ltac:(lia))
      as [[_ ->]|(s & m' & e' & -> & Hd & He & Hp & Hb)].
    + exists 0. apply cast_to_zero.
    + apply cast_round_finite; [exact H32|].
      fold A in Hp, Hb. rewrite Vl in Hp, Hb.
      cbn [double.value]. rewrite Rmult_assoc.
      set (B := (IZR (Z.pos m') * double.bpow e')%R) in *.
      rewrite ulp_rel_eq in *. destruct s; split; lra.
  - apply cast_round_finite; [exact H32|]. fold A.
    assert (numeric_min To = 0) as E0
      by (unfold numeric_min; rewrite EsT; reflexivity).
    rewrite E0 in *. rewrite ulp_rel_eq in *. split; lra.
Qed.

(** Every sample of [From] converts, to a value of [To]. *)
Lemma convertSample_total_any (From To : sample_type) (v : Z) :
  bit_width From <= 32 -> bit_width To <= 32 -> in_range From v ->
  convertSample From To v = Done (converted From To v)
  /\ in_range To (converted From To v).
Proof.
  intros HF HT Hv.
  assert (H : exists z, convertSample From To v = Done z).
  { destruct (convertSample_known_points From To HF HT) as (Hmin & Hmax & Hz).
    destruct (Z.eq_dec v (numeric_min From)) as [->|Hlo]; [eauto|].
    destruct (Z.eq_dec v (numeric_max From)) as [->|Hhi]; [eauto|].
    destruct (Z.eq_dec v 0) as [->|H0]; [exact Hz|].
    apply convertSample_interior_any; try assumption.
    unfold in_range in Hv. lia. }
  destruct H as [z E]. unfold converted. rewrite E.
  split; [reflexivity|]. exact (cast_to_in_range To _ z E).
Qed.

Lemma reencode_body_any (From To : sample_type) (x : WavData.t) (j : nat)
    (c1 c2 : list Z) :
  bit_width From <= 32 -> bit_width To <= 32 -> typed From x ->
  (j < Z.to_nat (WavData.num_samples x))%nat ->
  reencode_body From To x (Z.of_nat j) (c1, c2)
  = (x1 <- vec_set c1 (Z.of_nat j)
             (converted From To (nth j (WavData.channel1 x) 0)) ;;
     if WavData.num_channels x =? 2
     then x2 <- vec_set c2 (Z.of_nat j)
                  (converted From To (nth j (WavData.channel2 x) 0)) ;;
          Done (x1, x2)
     else Done (x1, c2)).
Proof.
  intros HF HT (Hrate & Hn & Hl1 & Hl2 & Hr1 & Hr2) Hj.
  unfold reencode_body. cbn [fst snd].
  rewrite (vec_get_in_range _ j 0) by lia. cbn [bind].
  rewrite Forall_forall in Hr1, Hr2.
  destruct (convertSample_total_any From To (nth j (WavData.channel1 x) 0)
              HF HT) as [-> _]; [apply Hr1, nth_In; lia|].
  cbn [bind]. destruct (vec_set c1 _ _); cbn [bind]; [|reflexivity].
  destruct (Z.eqb_spec (WavData.num_channels x) 2) as [E|_]; [|reflexivity].
  rewrite (vec_get_in_range _ j 0) by (rewrite (Hl2 E); lia). cbn [bind].
  destruct (convertSample_total_any From To (nth j (WavData.channel2 x) 0)
              HF HT) as [-> _]; [apply Hr2, nth_In; rewrite (Hl2 E); lia|].
  reflexivity.
Qed.

Lemma reencode_maps_any (From To : sample_type) (x : WavData.t) :
  bit_width From <= 32 -> bit_width To <= 32 -> typed From x ->
  reencode From To x
  = Done {| WavData.sample_rate := WavData.sample_rate x;
            WavData.num_channels := WavData.num_channels x;
            WavData.bits_per_sample := bit_width To;
            WavData.num_samples := WavData.num_samples x;
            WavData.channel1 := map (converted From To) (WavData.channel1 x);
            WavData.channel2 :=
              if WavData.num_channels x =? 2
              then map (converted From To) (WavData.channel2 x) else [] |}.
Proof.
  intros HF HT Hx. pose proof Hx as (Hrate & Hn & Hl1 & Hl2 & Hr1 & Hr2).
  unfold reencode.
  rewrite (for_loop_channels (reencode_body From To x)
             (WavData.num_channels x =? 2)
             (fun j => converted From To (nth j (WavData.channel1 x) 0))
             (fun j => converted From To (nth j (WavData.channel2 x) 0))).
  - cbn [bind fst snd]. f_equal. f_equal.
    + apply u16_small. pose proof (bit_width_pos To). simpl (2 ^ 16). lia.
    + rewrite <- Hl1. apply map_nth_seq_f.
    + destruct (Z.eqb_spec (WavData.num_channels x) 2) as [E|_]; [|reflexivity].
      rewrite <- (Hl2 E). apply map_nth_seq_f.
  - intros j c1 c2 Hj. now apply reencode_body_any.
  - apply length_resize.
  - intros E. rewrite E. apply length_resize.
Qed.

(** X10.  Between any two sample types of at most 32 bits, narrowing and
    changes of signedness included: [convertSample] is defined on every
    value of [From], yields a value of [To], and maps the minimum to the
    minimum and the maximum to the maximum; [reencode] of a well-formed
    channel set returns a well-formed channel set of [To] with the same
    rate, channels and number of samples, [bits_per_sample = 8 * sizeof (To)],
    and each sample converted in its place. *)
Theorem reencode_any_width (From To : sample_type) :
  bit_width From <= 32 -> bit_width To <= 32 ->
  (forall v, in_range From v ->
     exists z, convertSample From To v = Done z /\ in_range To z)
  /\ convertSample From To (numeric_min From) = Done (numeric_min To)
  /\ convertSample From To (numeric_max From) = Done (numeric_max To)
  /\ forall x, typed From x ->
       exists y,
         reencode From To x = Done y
         /\ typed To y
         /\ WavData.sample_rate y = WavData.sample_rate x
         /\ WavData.num_channels y = WavData.num_channels x
         /\ WavData.num_samples y = WavData.num_samples x
         /\ WavData.bits_per_sample y = bit_width To
         /\ (forall i v, nth_error (WavData.channel1 x) i = Some v ->
               exists z, convertSample From To v = Done z
                         /\ nth_error (WavData.channel1 y) i = Some z)
         /\ (WavData.num_channels x = 2 ->
             forall i v, nth_error (WavData.channel2 x) i = Some v ->
               exists z, convertSample From To v = Done z
                         /\ nth_error (WavData.channel2 y) i = Some z).
Proof.
  intros HF HT.
  destruct (convertSample_known_points From To HF HT) as (Hmin & Hmax & _).
  split.
  { intros v Hv. exists (converted From To v).
    now apply convertSample_total_any. }
  split; [exact Hmin|]. split; [exact Hmax|].
  intros x Hx. rewrite (reencode_maps_any From To x HF HT Hx).
  destruct Hx as (Hrate & Hn & Hl1 & Hl2 & Hr1 & Hr2).
  eexists. split; [reflexivity|].
  cbn [WavData.sample_rate WavData.num_channels WavData.num_samples
       WavData.bits_per_sample WavData.channel1 WavData.channel2].
  assert (Hmap : forall ch, Forall (in_range From) ch ->
                   Forall (in_range To) (map (converted From To) ch)).
  { intros ch Hch. apply Forall_map. revert Hch. apply Forall_impl.
    intros v Hv. now apply convertSample_total_any. }
  assert (Hnth : forall ch i v, Forall (in_range From) ch ->
                   nth_error ch i = Some v ->
                   exists z, convertSample From To v = Done z
                     /\ nth_error (map (converted From To) ch) i = Some z).
  { intros ch i v Hch Hi. exists (converted From To v). split.
    - apply convertSample_total_any; try assumption.
      rewrite Forall_forall in Hch. eapply Hch, nth_error_In, Hi.
    - rewrite nth_error_map, Hi. reflexivity. }
  split.
  { unfold typed. cbn [WavData.sample_rate WavData.num_channels
      WavData.num_samples WavData.channel1 WavData.channel2].
    repeat split; try lia.
    - now rewrite length_map.
    - intro E. rewrite E. cbn [Z.eqb Pos.eqb]. rewrite length_map. auto.
    - now apply Hmap.
    - destruct (WavData.num_channels x =? 2); [now apply Hmap|constructor]. }
  repeat (split; [reflexivity|]). split.
  - intros i v. now apply Hnth.
  - intros E i v. rewrite E. cbn [Z.eqb Pos.eqb]. now apply Hnth.
Qed.

Lemma reencode_any_width_witness :
  (forall v, in_range int32_t v ->
     exists z, convertSample int32_t int16_t v = Done z /\ in_range int16_t z)
  /\ convertSample int32_t int16_t (numeric_min int32_t)
     = Done (numeric_min int16_t)
  /\ convertSample int32_t int16_t (numeric_max int32_t)
     = Done (numeric_max int16_t)
  /\ forall x, typed int32_t x ->
       exists y,
         reencode int32_t int16_t x = Done y
         /\ typed int16_t y
         /\ WavData.sample_rate y = WavData.sample_rate x
         /\ WavData.num_channels y = WavData.num_channels x
         /\ WavData.num_samples y = WavData.num_samples x
         /\ WavData.bits_per_sample y = bit_width int16_t
         /\ (forall i v, nth_error (WavData.channel1 x) i = Some v ->
               exists z, convertSample int32_t int16_t v = Done z
                         /\ nth_error (WavData.channel1 y) i = Some z)
         /\ (WavData.num_channels x = 2 ->
             forall i v, nth_error (WavData.channel2 x) i = Some v ->
               exists z, convertSample int32_t int16_t v = Done z
                         /\ nth_error (WavData.channel2 y) i = Some z).
Proof.
  apply (reencode_any_width int32_t int16_t); cbv; discriminate.
Defined.


(** ** The channel set the constructor builds *)

Lemma from_object_in_range (T : sample_type) (bs : list byte) :
  length bs = sizeof T -> in_range T (from_object T bs).
Proof.
  intro Hl. unfold in_range, from_object, numeric_min, numeric_max.
  pose proof (le_decode_range bs) as Hr. rewrite Hl in Hr.
  replace (8 * Z.of_nat (sizeof T)) with (bit_width T) in Hr
    by (unfold bit_width; lia).
  pose proof (bit_width_pos T) as Hw.
  assert (Hp : 2 ^ bit_width T = 2 * 2 ^ (bit_width T - 1)).
  { rewrite <- Z.pow_succ_r by lia. f_equal. lia. }
  destruct (is_signed T); cbn [andb].
  - destruct (Z.leb_spec (2 ^ (bit_width T - 1)) (le_decode bs)); lia.
  - lia.
Qed.

Lemma sample_at_in_range (T : sample_type) (raw : list byte) (off : nat) :
  (off + sizeof T <= length raw)%nat -> in_range T (sample_at T raw off).
Proof.
  intro H. apply from_object_in_range.
  rewrite length_firstn, length_skipn. lia.
Qed.

(** The constructor on a container of the bit depth of [T] whose frames
    hold the channels and lie inside [raw_data]. *)
Lemma WavData_built (T : sample_type) (wf : WavFile.t) :
  WavFile.bits_per_sample wf = bit_width T ->
  0 <= WavFile.sample_rate wf < 2 ^ 32 ->
  0 <= WavFile.num_samples wf < 2 ^ 32 ->
  Z.of_nat (channels_used (WavFile.num_channels wf) * sizeof T)
    <= WavFile.block_align wf ->
  WavFile.num_samples wf * WavFile.block_align wf
    <= Z.of_nat (length (WavFile.raw_data wf)) ->
  Z.of_nat (length (WavFile.raw_data wf)) < 2 ^ 32 ->
  exists d,
    WavData.WavData T wf = Done {| WavData.cerr := []; WavData.object := d |}
    /\ typed T d
    /\ WavData.sample_rate d = WavFile.sample_rate wf
    /\ WavData.num_channels d = WavFile.num_channels wf
    /\ WavData.bits_per_sample d = WavFile.bits_per_sample wf
    /\ WavData.num_samples d = WavFile.num_samples wf
    /\ (forall j : nat, (j < Z.to_nat (WavFile.num_samples wf))%nat ->
          nth_error (WavData.channel1 d) j
          = Some (sample_at T (WavFile.raw_data wf)
                    (j * Z.to_nat (WavFile.block_align wf))))
    /\ (WavFile.num_channels wf = 2 ->
        forall j : nat, (j < Z.to_nat (WavFile.num_samples wf))%nat ->
          nth_error (WavData.channel2 d) j
          = Some (sample_at T (WavFile.raw_data wf)
                    (j * Z.to_nat (WavFile.block_align wf) + sizeof T)))
    /\ (WavFile.num_channels wf <> 2 -> WavData.channel2 d = []).
Proof.
  intros Hbits Hsr Hn Hba Hfit H32.
  set (n := Z.to_nat (WavFile.num_samples wf)).
  set (ba := Z.to_nat (WavFile.block_align wf)).
  assert (Hba0 : 0 <= WavFile.block_align wf) by lia.
  rewrite (WavData_in_bounds T wf Hbits ltac:(lia) Hba0 Hba Hfit H32).
  fold n ba. eexists. split; [reflexivity|].
  cbn [WavData.sample_rate WavData.num_channels WavData.bits_per_sample
       WavData.num_samples WavData.channel1 WavData.channel2].
  assert (Hoff : forall j, (j < n)%nat ->
                   (j * ba + channels_used (WavFile.num_channels wf) * sizeof T
                    <= length (WavFile.raw_data wf))%nat).
  { intros j Hj.
    assert (S j * ba <= n * ba)%nat by (apply Nat.mul_le_mono_r; lia).
    assert (Z.of_nat (n * ba) <= Z.of_nat (length (WavFile.raw_data wf)))
      by (rewrite Nat2Z.inj_mul; unfold n, ba; rewrite !Z2Nat.id by lia;
          exact Hfit).
    assert (channels_used (WavFile.num_channels wf) * sizeof T <= ba)%nat
      by (unfold ba; lia).
    lia. }
  assert (Hcu : (1 <= channels_used (WavFile.num_channels wf))%nat)
    by (unfold channels_used; destruct (WavFile.num_channels wf =? 2); lia).
  assert (Hnth : forall (f : nat -> Z) j, (j < n)%nat ->
                   nth_error (map f (seq 0 n)) j = Some (f j)).
  { intros f j Hj. rewrite nth_error_map, nth_error_seq.
    destruct (Nat.ltb_spec j n); [reflexivity|lia]. }
  split.
  { unfold typed. cbn [WavData.sample_rate WavData.num_channels
      WavData.num_samples WavData.channel1 WavData.channel2].
    split; [exact Hsr|]. split; [exact Hn|].
    split; [now rewrite length_map, length_seq|].
    split; [intros ->; cbn [Z.eqb Pos.eqb]; now rewrite length_map, length_seq|].
    split.
    - apply Forall_map, Forall_forall. intros j Hj. apply in_seq in Hj.
      apply sample_at_in_range. specialize (Hoff j ltac:(lia)). nia.
    - destruct (Z.eqb_spec (WavFile.num_channels wf) 2) as [E|E];
        [|constructor].
      apply Forall_map, Forall_forall. intros j Hj. apply in_seq in Hj.
      apply sample_at_in_range. specialize (Hoff j ltac:(lia)).
      unfold channels_used in Hoff. rewrite E in Hoff. cbn [Z.eqb Pos.eqb] in Hoff.
      lia. }
  repeat (split; [reflexivity|]). split; [|split].
  - intros j Hj.
    exact (Hnth (fun j => sample_at T (WavFile.raw_data wf) (j * ba)) j Hj).
  - intros -> j Hj. cbn [Z.eqb Pos.eqb].
    exact (Hnth (fun j => sample_at T (WavFile.raw_data wf)
                            (j * ba + sizeof T)) j Hj).
  - intro E. destruct (Z.eqb_spec (WavFile.num_channels wf) 2);
      [contradiction|reflexivity].
Qed.

(** X11.  The constructor on a container of the bit depth of [T] whose
    [block_align] is at least the size of the channels it extracts (two when
    [num_channels] is 2, else one) and whose [num_samples] frames lie inside
    [raw_data]: it prints nothing and builds a well-formed channel set with
    the metadata of the container, sample [j] of [channel1] being the [T]
    object at offset [j * block_align], sample [j] of [channel2] the one
    [sizeof (T)] bytes further when [num_channels] is 2; for any other
    [num_channels], [channel2] stays empty. *)
Theorem WavData_deinterleaves (T : sample_type) (wf : WavFile.t) :
  WavFile.bits_per_sample wf = bit_width T ->
  0 <= WavFile.sample_rate wf < 2 ^ 32 ->
  0 <= WavFile.num_samples wf < 2 ^ 32 ->
  Z.of_nat (channels_used (WavFile.num_channels wf) * sizeof T)
    <= WavFile.block_align wf ->
  WavFile.num_samples wf * WavFile.block_align wf
    <= Z.of_nat (length (WavFile.raw_data wf)) ->
  Z.of_nat (length (WavFile.raw_data wf)) < 2 ^ 32 ->
  exists d,
    WavData.WavData T wf = Done {| WavData.cerr := []; WavData.object := d |}
    /\ typed T d
    /\ WavData.sample_rate d = WavFile.sample_rate wf
    /\ WavData.num_channels d = WavFile.num_channels wf
    /\ WavData.bits_per_sample d = WavFile.bits_per_sample wf
    /\ WavData.num_samples d = WavFile.num_samples wf
    /\ (forall j : nat, (j < Z.to_nat (WavFile.num_samples wf))%nat ->
          nth_error (WavData.channel1 d) j
          = Some (sample_at T (WavFile.raw_data wf)
                    (j * Z.to_nat (WavFile.block_align wf))))
    /\ (WavFile.num_channels wf = 2 ->
        forall j : nat, (j < Z.to_nat (WavFile.num_samples wf))%nat ->
          nth_error (WavData.channel2 d) j
          = Some (sample_at T (WavFile.raw_data wf)
                    (j * Z.to_nat (WavFile.block_align wf) + sizeof T)))
    /\ (WavFile.num_channels wf <> 2 -> WavData.channel2 d = []).
Proof. exact (WavData_built T wf). Qed.

Lemma WavData_deinterleaves_witness :
  exists d,
    WavData.WavData int16_t stereo16_container
    = Done {| WavData.cerr := []; WavData.object := d |}
    /\ typed int16_t d
    /\ WavData.sample_rate d = WavFile.sample_rate stereo16_container
    /\ WavData.num_channels d = WavFile.num_channels stereo16_container
    /\ WavData.bits_per_sample d = WavFile.bits_per_sample stereo16_container
    /\ WavData.num_samples d = WavFile.num_samples stereo16_container
    /\ (forall j : nat,
          (j < Z.to_nat (WavFile.num_samples stereo16_container))%nat ->
          nth_error (WavData.channel1 d) j
          = Some (sample_at int16_t (WavFile.raw_data stereo16_container)
                    (j * Z.to_nat (WavFile.block_align stereo16_container))))
    /\ (WavFile.num_channels stereo16_container = 2 ->
        forall j : nat,
          (j < Z.to_nat (WavFile.num_samples stereo16_container))%nat ->
          nth_error (WavData.channel2 d) j
          = Some (sample_at int16_t (WavFile.raw_data stereo16_container)
                    (j * Z.to_nat (WavFile.block_align stereo16_container)
                     + sizeof int16_t)))
    /\ (WavFile.num_channels stereo16_container <> 2 ->
        WavData.channel2 d = []).
Proof.
  apply (WavData_deinterleaves int16_t stereo16_container);
    [reflexivity|simpl; lia|simpl; lia|simpl; lia|simpl; lia|simpl; lia].
Defined.

(** X12.  Splitting what was read is safe when the depth and the block
    alignment fit: after a [read] that returned [true], if the container's
    [bits_per_sample] is the width of [T] and its [block_align] is at least
    the size of the channels the constructor extracts, [WavData<T>] of the
    container makes no access outside [raw_data], prints nothing and builds
    a well-formed channel set of [data_size / block_align] samples. *)
Theorem read_then_WavData (T : sample_type) (w : WavFile.t)
    (contents : option (list byte)) (r : WavFile.read_result) :
  WavFile.read w contents = Some (Done r) ->
  WavFile.returned r = true ->
  WavFile.bits_per_sample (WavFile.this r) = bit_width T ->
  Z.of_nat (channels_used (WavFile.num_channels (WavFile.this r)) * sizeof T)
    <= WavFile.block_align (WavFile.this r) ->
  exists d,
    WavData.WavData T (WavFile.this r)
    = Done {| WavData.cerr := []; WavData.object := d |}
    /\ typed T d
    /\ WavData.sample_rate d = WavFile.sample_rate (WavFile.this r)
    /\ WavData.num_channels d = WavFile.num_channels (WavFile.this r)
    /\ WavData.num_samples d
       = WavFile.data_size (WavFile.this r)
         / WavFile.block_align (WavFile.this r).
Proof.
  intros Hread Hret Hbits Hba.
  destruct (read_true_object w contents r Hread Hret)
    as (_ & _ & _ & Hsr & Hb & _ & Hds & Hl & Hns & Hfit).
  assert (Hn : 0 <= WavFile.num_samples (WavFile.this r) < 2 ^ 32).
  { rewrite Hns. split; [apply Z.div_pos; lia|].
    apply Z.div_lt_upper_bound; nia. }
  destruct (WavData_built T (WavFile.this r) Hbits Hsr Hn Hba)
    as (d & Ed & Ht & Esr & Enc & _ & Ens & _); try lia.
  exists d. split; [exact Ed|]. split; [exact Ht|]. split; [exact Esr|].
  split; [exact Enc|]. rewrite Ens. exact Hns.
Qed.

Lemma read_then_WavData_witness :
  exists d,
    WavData.WavData int16_t
      (WavFile.this {| WavFile.returned := true; WavFile.cerr := [];
                       WavFile.this :=
                         WavFile.with_chunk_size mono16_container 56 |})
    = Done {| WavData.cerr := []; WavData.object := d |}
    /\ typed int16_t d
    /\ WavData.sample_rate d
       = WavFile.sample_rate
           (WavFile.this {| WavFile.returned := true; WavFile.cerr := [];
                            WavFile.this :=
                              WavFile.with_chunk_size mono16_container 56 |})
    /\ WavData.num_channels d
       = WavFile.num_channels
           (WavFile.this {| WavFile.returned := true; WavFile.cerr := [];
                            WavFile.this :=
                              WavFile.with_chunk_size mono16_container 56 |})
    /\ WavData.num_samples d
       = WavFile.data_size
           (WavFile.this {| WavFile.returned := true; WavFile.cerr := [];
                            WavFile.this :=
                              WavFile.with_chunk_size mono16_container 56 |})
         / WavFile.block_align
             (WavFile.this {| WavFile.returned := true; WavFile.cerr := [];
                              WavFile.this :=
                                WavFile.with_chunk_size mono16_container 56 |}).
Proof.
  apply (read_then_WavData int16_t WavFile.default
           (Some file_with_list_chunk));
    [vm_compute; reflexivity|reflexivity|reflexivity|simpl; lia].
Defined.


(** ** Sub-chunks [read] does not know, and what follows the last one it
    needs *)

Lemma walk_done (cs : list chunk) (w : WavFile.t) :
  walk cs w true true = (w, true, true).
Proof. destruct cs; reflexivity. Qed.

Lemma walk_others (pre : list chunk) : forall (cs : list chunk)
    (w : WavFile.t) (ff fd : bool),
  forallb is_other pre = true ->
  walk (pre ++ cs) w ff fd = walk cs w ff fd.
Proof.
  induction pre as [|c pre IH]; intros cs w ff fd Hpre; [reflexivity|].
  cbn [forallb] in Hpre. apply andb_prop in Hpre as [Hc Hpre].
  destruct c; try discriminate Hc.
  cbn [app walk absorb is_fmt is_data]. rewrite !orb_false_r.
  destruct (ff && fd) eqn:E.
  - apply andb_prop in E as [-> ->]. now rewrite walk_done.
  - now apply IH.
Qed.

(** X13.  [read] finds ["fmt "] and ["data"] wherever they are: with any
    number of other sub-chunks before and between them, in either order,
    with an extension after the 16 bytes of ["fmt "] and with anything at
    all after the second of the two, it returns [true] and the object holds
    the four fields of ["fmt "], the payload of ["data"], its length, and
    their quotient. *)
Theorem read_finds_fmt_and_data (w : WavFile.t) (size : Z)
    (pre mid : list chunk) (af nc sr br ba bps : Z) (ext body tail : list byte)
    (data_first : bool) :
  forallb is_other pre = true -> forallb is_other mid = true ->
  forallb chunk_ok pre = true -> forallb chunk_ok mid = true ->
  16 + Z.of_nat (length ext) < 2 ^ 32 ->
  Z.of_nat (length body) < 2 ^ 32 ->
  u16 ba <> 0 ->
  let fmt := FmtChunk af nc sr br ba bps ext in
  let data := DataChunk body in
  let cs := if data_first then pre ++ [data] ++ mid ++ [fmt]
            else pre ++ [fmt] ++ mid ++ [data] in
  WavFile.read w (Some (riff_header size ++ chunks_bytes cs ++ tail))
  = Some (Done
      {| WavFile.returned := true; WavFile.cerr := [];
         WavFile.this :=
           {| WavFile.chunk_size := size mod 2 ^ 32;
              WavFile.num_channels := u16 nc;
              WavFile.sample_rate := u32 sr;
              WavFile.block_align := u16 ba;
              WavFile.bits_per_sample := u16 bps;
              WavFile.data_size := Z.of_nat (length body);
              WavFile.num_samples := Z.of_nat (length body) / u16 ba;
              WavFile.raw_data := body |} |}).
Proof.
  intros Hpre Hmid Hokp Hokm Hext Hbody Hba fmt data cs.
  assert (Hfmt : chunk_ok fmt = true) by (apply Z.ltb_lt; exact Hext).
  assert (Hdata : chunk_ok data = true) by (apply Z.ltb_lt; exact Hbody).
  assert (Hok : forallb chunk_ok cs = true).
  { subst cs. destruct data_first;
      rewrite !forallb_app, Hokp, Hokm; cbn [forallb];
      rewrite Hfmt, Hdata; reflexivity. }
  assert (Hwalk : forall w0,
            walk cs w0 false false
            = (absorb data (absorb fmt w0), true, true)
              \/ walk cs w0 false false
                 = (absorb fmt (absorb data w0), true, true)).
  { intro w0. subst cs. destruct data_first; [right|left];
      rewrite walk_others by exact Hpre;
      cbn [app walk andb orb is_fmt is_data fmt data];
      rewrite walk_others by exact Hmid; reflexivity. }
  destruct (read_chunks w size cs tail Hok) as (f' & ->).
  - left. destruct (Hwalk (WavFile.with_chunk_size w (size mod 2 ^ 32)))
      as [-> | ->]; reflexivity.
  - destruct (Hwalk (WavFile.with_chunk_size w (size mod 2 ^ 32)))
      as [-> | ->];
      cbn [fst snd absorb fmt data]; unfold WavFile.after_subchunks;
      cbn [WavFile.self WavFile.foundFmt WavFile.foundData negb
           WavFile.block_align WavFile.data_size WavFile.with_num_samples
           WavFile.chunk_size WavFile.num_channels WavFile.sample_rate
           WavFile.bits_per_sample WavFile.raw_data WavFile.with_chunk_size];
      destruct (Z.eqb_spec (u16 ba) 0); (contradiction || reflexivity).
Qed.

Lemma read_finds_fmt_and_data_witness :
  WavFile.read WavFile.default
    (Some (riff_header 70
           ++ chunks_bytes
                (if true
                 then [list_chunk] ++ [DataChunk four_samples]
                      ++ [list_chunk]
                      ++ [FmtChunk 1 1 8000 16000 2 16
                            (list_byte_of_string "xy")]
                 else [list_chunk]
                      ++ [FmtChunk 1 1 8000 16000 2 16
                            (list_byte_of_string "xy")]
                      ++ [list_chunk] ++ [DataChunk four_samples])
           ++ list_byte_of_string "junk"))
  = Some (Done
      {| WavFile.returned := true; WavFile.cerr := [];
         WavFile.this :=
           {| WavFile.chunk_size := 70 mod 2 ^ 32;
              WavFile.num_channels := u16 1;
              WavFile.sample_rate := u32 8000;
              WavFile.block_align := u16 2;
              WavFile.bits_per_sample := u16 16;
              WavFile.data_size := Z.of_nat (length four_samples);
              WavFile.num_samples := Z.of_nat (length four_samples) / u16 2;
              WavFile.raw_data := four_samples |} |}).
Proof.
  apply (read_finds_fmt_and_data WavFile.default 70 [list_chunk] [list_chunk]
           1 1 8000 16000 2 16 (list_byte_of_string "xy") four_samples
           (list_byte_of_string "junk") true);
    try reflexivity; try (simpl; lia). discriminate.
Defined.


(** ** Operations on doubles of either sign *)

Lemma finite_in_weaken (lo hi lo' hi' : Z) (x : double.t) :
  lo' <= lo -> hi <= hi' -> finite_in lo hi x -> finite_in lo' hi' x.
Proof. destruct x; cbn; try tauto. intros ? ? [? ?]. split; [assumption|lia]. Qed.

Lemma ulp_rel_pos : (0 < double.ulp_rel)%R.
Proof. apply bpow_pos. Qed.

Lemma Rabs_error (W A s : R) (u : R) :
  (0 < W)%R -> (W * (1 - u) <= A <= W * (1 + u))%R ->
  (Rabs (A - W) <= u * Rabs W)%R.
Proof.
  intros HW HA. rewrite (Rabs_pos_eq W) by lra.
  apply Rabs_le. lra.
Qed.

Lemma of_Z_finite_in (z : Z) :
  Z.abs z < 2 ^ 53 -> finite_in (-52) 0 (double.of_Z z).
Proof.
  intro H. destruct (of_Z_cases z H) as [->|(s & m & e & -> & Hd & He)];
    cbn; auto.
Qed.

Lemma mul_any (lo1 hi1 lo2 hi2 : Z) (x y : double.t) :
  finite_in lo1 hi1 x -> finite_in lo2 hi2 y ->
  -1126 <= lo1 + lo2 -> hi1 + hi2 < 917 ->
  finite_in (lo1 + lo2 + 52) (hi1 + hi2 + 54) (double.mul x y)
  /\ (Rabs (double.value (double.mul x y)
            - double.value x * double.value y)
      <= double.ulp_rel * Rabs (double.value x * double.value y))%R.
Proof.
  intros Hx Hy Hlo Hhi. pose proof ulp_rel_pos as Hu.
  destruct x as [sx| | |sx mx ex]; try contradiction;
    destruct y as [sy| | |sy my ey]; try contradiction;
    try (cbn [double.mul SFmul finite_in double.value]; split; [exact I|];
         rewrite ?Rmult_0_l, ?Rmult_0_r, Rminus_0_r, Rabs_R0; lra).
  destruct Hx as [Hdx Hex], Hy as [Hdy Hey].
  pose proof (canonical_bounds mx Hdx) as Bx.
  pose proof (canonical_bounds my Hdy) as By.
  unfold double.mul, SFmul, double.prec, double.emax.
  assert (Hprod : 2 ^ 104 <= Z.pos (mx * my) < 2 ^ 106).
  { rewrite Pos2Z.inj_mul. change (2 ^ 104) with (2 ^ 52 * 2 ^ 52).
    change (2 ^ 106) with (2 ^ 53 * 2 ^ 53). nia. }
  assert (Hk : exists k, Z.pos (digits2_pos (mx * my)) = 53 + k /\ 52 <= k <= 53).
  { destruct (Z.lt_ge_cases (Z.pos (mx * my)) (2 ^ 105)).
    - exists 52. split; [|lia]. apply digits2_pos_unique.
      change (53 + 52 - 1) with 104. change (53 + 52) with 105. lia.
    - exists 53. split; [|lia]. apply digits2_pos_unique.
      change (53 + 53 - 1) with 105. change (53 + 53) with 106. lia. }
  destruct Hk as (k & Hd & Hk).
  destruct (binary_round_aux_bounds (xorb sx sy) (mx * my) (ex + ey)
              loc_Exact k Hd)
    as (m' & e' & -> & Hd' & He' & Hv); try lia.
  split; [split; [exact Hd'|lia]|].
  rewrite Pos2Z.inj_mul, mult_IZR, bpow_add in Hv.
  set (M := (IZR (Z.pos mx) * IZR (Z.pos my)
             * (double.bpow ex * double.bpow ey))%R) in *.
  set (A := (IZR (Z.pos m') * double.bpow e')%R) in *.
  assert (HM : (0 < M)%R).
  { unfold M. apply Rmult_lt_0_compat;
      [apply Rmult_lt_0_compat; apply IZR_lt; lia
      |apply Rmult_lt_0_compat; apply bpow_pos]. }
  pose proof (Rabs_error M A 0 double.ulp_rel HM Hv) as HE.
  cbn [double.value].
  replace ((if xorb sx sy then -1 else 1) * IZR (Z.pos m') * double.bpow e'
           - (if sx then -1 else 1) * IZR (Z.pos mx) * double.bpow ex
             * ((if sy then -1 else 1) * IZR (Z.pos my) * double.bpow ey))%R
    with ((if xorb sx sy then -1 else 1) * (A - M))%R
    by (unfold A, M; destruct sx, sy; cbn [xorb]; ring).
  replace ((if sx then -1 else 1) * IZR (Z.pos mx) * double.bpow ex
           * ((if sy then -1 else 1) * IZR (Z.pos my) * double.bpow ey))%R
    with ((if xorb sx sy then -1 else 1) * M)%R
    by (unfold M; destruct sx, sy; cbn [xorb]; ring).
  rewrite !Rabs_mult.
  replace (Rabs (if xorb sx sy then -1 else 1)) with 1%R
    by (destruct (xorb sx sy); [rewrite Rabs_left|rewrite Rabs_right]; lra).
  lra.
Qed.

Lemma add_any (lo hi : Z) (x y : double.t) :
  finite_in lo hi x -> finite_in lo hi y -> -900 <= lo -> hi <= 900 ->
  finite_in (lo - 52) (hi + 2) (double.add x y)
  /\ (Rabs (double.value (double.add x y)
            - (double.value x + double.value y))
      <= double.ulp_rel * Rabs (double.value x + double.value y))%R.
Proof.
  intros Hx Hy Hlo Hhi. pose proof ulp_rel_pos as Hu.
  assert (Hexact : forall v : R, (Rabs (v - v) <= double.ulp_rel * Rabs v)%R).
  { intro v. unfold Rminus. rewrite Rplus_opp_r, Rabs_R0.
    apply Rmult_le_pos; [lra|apply Rabs_pos]. }
  destruct x as [sx| | |sx mx ex]; try contradiction;
    destruct y as [sy| | |sy my ey]; try contradiction.
  - split; [destruct sx, sy; exact I|].
    replace (double.value (double.add (S754_zero sx) (S754_zero sy))) with 0%R
      by (destruct sx, sy; reflexivity).
    cbn [double.value]. rewrite Rplus_0_l. apply Hexact.
  - cbn [double.add SFadd double.value]. unfold double.add. cbn [SFadd].
    split; [apply (finite_in_weaken lo hi); (lia || exact Hy)|].
    rewrite Rplus_0_l. apply Hexact.
  - unfold double.add. cbn [SFadd].
    split; [apply (finite_in_weaken lo hi); (lia || exact Hx)|].
    cbn [double.value]. rewrite Rplus_0_r. apply Hexact.
  - destruct Hx as [Hdx Hex], Hy as [Hdy Hey].
    destruct (add_bounds sx sy mx my ex ey Hdx Hdy ltac:(lia) ltac:(lia))
      as [[HV ->]|(s & m' & e' & -> & Hd & He & Hp & Hb)].
    + split; [exact I|]. rewrite HV. cbn [double.value].
      rewrite Rminus_0_r, Rabs_R0. lra.
    + split; [split; [exact Hd|lia]|].
      set (V := (double.value (S754_finite sx mx ex)
                 + double.value (S754_finite sy my ey))%R) in *.
      set (A := (IZR (Z.pos m') * double.bpow e')%R) in *.
      cbn [double.value]. rewrite Rmult_assoc. fold A.
      destruct s.
      * pose proof (Rabs_error (- V) A 0 double.ulp_rel Hp Hb) as HE.
        rewrite Rabs_Ropp in HE.
        replace (-1 * A - V)%R with (- (A - - V))%R by ring.
        now rewrite Rabs_Ropp.
      * pose proof (Rabs_error V A 0 double.ulp_rel Hp Hb) as HE.
        now rewrite Rmult_1_l.
Qed.

Lemma value_opp (s : bool) (m : positive) (e : Z) :
  double.value (S754_finite (negb s) m e)
  = (- double.value (S754_finite s m e))%R.
Proof. cbn [double.value]. destruct s; cbn [negb]; ring. Qed.

Lemma sub_any (lo hi : Z) (x y : double.t) :
  finite_in lo hi x -> finite_in lo hi y -> -900 <= lo -> hi <= 900 ->
  finite_in (lo - 52) (hi + 2) (double.sub x y)
  /\ (Rabs (double.value (double.sub x y)
            - (double.value x - double.value y))
      <= double.ulp_rel * Rabs (double.value x - double.value y))%R.
Proof.
  intros Hx Hy Hlo Hhi. pose proof ulp_rel_pos as Hu.
  assert (Hexact : forall v : R, (Rabs (v - v) <= double.ulp_rel * Rabs v)%R).
  { intro v. unfold Rminus. rewrite Rplus_opp_r, Rabs_R0.
    apply Rmult_le_pos; [lra|apply Rabs_pos]. }
  destruct x as [sx| | |sx mx ex]; try contradiction;
    destruct y as [sy| | |sy my ey]; try contradiction.
  - split; [destruct sx, sy; exact I|].
    replace (double.value (double.sub (S754_zero sx) (S754_zero sy))) with 0%R
      by (destruct sx, sy; reflexivity).
    cbn [double.value]. rewrite Rminus_0_r. apply Hexact.
  - unfold double.sub. cbn [SFsub].
    split; [apply (finite_in_weaken lo hi); (lia || exact Hy)|].
    rewrite value_opp. replace (double.value (S754_zero sx)) with 0%R
      by reflexivity.
    rewrite Rminus_0_l. apply Hexact.
  - unfold double.sub. cbn [SFsub].
    split; [apply (finite_in_weaken lo hi); (lia || exact Hx)|].
    replace (double.value (S754_zero sy)) with 0%R by reflexivity.
    rewrite Rminus_0_r. apply Hexact.
  - rewrite sub_as_add.
    replace (double.value (S754_finite sx mx ex)
             - double.value (S754_finite sy my ey))%R
      with (double.value (S754_finite sx mx ex)
            + double.value (S754_finite (negb sy) my ey))%R
      by (rewrite value_opp; ring).
    apply add_any; assumption.
Qed.

Lemma cast_round_any (T : sample_type) (lo hi : Z) (x : double.t) :
  bit_width T <= 32 -> finite_in lo hi x ->
  (IZR (numeric_min T) - / 2 < double.value x < IZR (numeric_max T) + / 2)%R ->
  exists z, double.cast_to T (double.round x) = Done z /\ in_range T z.
Proof.
  intros Hw Hx Hv.
  assert (H : exists z, double.cast_to T (double.round x) = Done z).
  { destruct x as [s| | |s m e]; try contradiction.
    - exists 0. apply cast_to_zero.
    - now apply cast_round_finite. }
  destruct H as [z E]. exists z. split; [exact E|].
  exact (cast_to_in_range T _ z E).
Qed.

(** [std::floor] of a positive double, cast to [uint32_t]. *)
Lemma cast_floor_value (m : positive) (e q : Z) :
  Z.pos (digits2_pos m) = 53 ->
  double.cast_to uint32_t (double.floor (S754_finite false m e)) = Done q ->
  (IZR q <= double.value (S754_finite false m e) < IZR q + 1)%R.
Proof.
  intros Hd. pose proof (canonical_bounds m Hd) as Bm.
  unfold double.floor. destruct (Z.leb_spec 0 e) as [He|He].
  - intro H. now apply cast_to_bounds in H.
  - set (D := 2 ^ (- e)). set (q' := Z.pos m / D).
    assert (HD : 0 < D) by (apply Z.pow_pos_nonneg; lia).
    assert (Hq : 0 <= q' /\ q' * D <= Z.pos m < (q' + 1) * D).
    { pose proof (Z.div_mod (Z.pos m) D ltac:(lia)) as Hd1.
      pose proof (Z.mod_pos_bound (Z.pos m) D HD) as Hd2.
      fold q' in Hd1. split; [apply Z.div_pos; lia|nia]. }
    destruct Hq as [Hq0 [Hlo Hhi]].
    assert (Hq53 : q' < 2 ^ 53) by nia.
    assert (Hfl : double.of_sign_mag false q' = double.of_Z q').
    { rewrite <- (Z.abs_eq q') at 1 by exact Hq0.
      replace false with (q' <? 0) by (apply Z.ltb_ge; exact Hq0).
      apply of_sign_mag_of_Z. }
    rewrite Hfl. unfold double.cast_to.
    rewrite trunc_of_Z by lia.
    destruct ((numeric_min uint32_t <=? q') && (q' <=? numeric_max uint32_t));
      [|discriminate].
    intro H. injection H as <-.
    cbn [double.value]. rewrite Rmult_1_l.
    apply IZR_le in Hlo. apply IZR_lt in Hhi.
    rewrite mult_IZR in Hlo, Hhi. rewrite plus_IZR in Hhi.
    unfold D in Hlo, Hhi. rewrite <- bpow_IZR in Hlo, Hhi by lia.
    pose proof (bpow_pos e). pose proof (bpow_pos (- e)).
    assert (Hinv : (double.bpow (- e) * double.bpow e = 1)%R)
      by (rewrite <- bpow_add; replace (- e + e) with 0 by lia; reflexivity).
    assert (Hlo' : (IZR q' * double.bpow (- e) * double.bpow e
                    <= IZR (Z.pos m) * double.bpow e)%R)
      by (apply Rmult_le_compat_r; lra).
    assert (Hhi' : (IZR (Z.pos m) * double.bpow e
                    < (IZR q' + 1) * double.bpow (- e) * double.bpow e)%R)
      by (apply Rmult_lt_compat_r; lra).
    rewrite Rmult_assoc, Hinv in Hlo', Hhi'. lra.
Qed.

(** ** The interpolation stays in the range of [T] *)

Lemma Rabs_bound (a b : R) : (Rabs a <= b)%R -> (- b <= a <= b)%R.
Proof. unfold Rabs. destruct (Rcase_abs a); lra. Qed.

Lemma error_bound (x y c : R) :
  (Rabs (x - y) <= double.ulp_rel * Rabs y)%R -> (Rabs y <= c)%R ->
  (- (double.ulp_rel * c) <= x - y <= double.ulp_rel * c)%R.
Proof.
  intros H Hy. pose proof ulp_rel_pos as Hu. apply Rabs_bound.
  apply (Rle_trans _ _ _ H). apply Rmult_le_compat_l; lra.
Qed.

(** The roundings of [(1.0 - frac) * s0 + frac * s1] cannot carry it half a
    unit outside the range of the samples. *)
Lemma interp_arith (T : sample_type) (f a s0 s1 p0 p1 r : R) :
  bit_width T <= 32 ->
  (IZR (numeric_min T) <= s0 <= IZR (numeric_max T))%R ->
  (IZR (numeric_min T) <= s1 <= IZR (numeric_max T))%R ->
  (0 <= f <= 1 + double.ulp_rel)%R ->
  (Rabs (a - (1 - f)) <= double.ulp_rel * Rabs (1 - f))%R ->
  (Rabs (p0 - a * s0) <= double.ulp_rel * Rabs (a * s0))%R ->
  (Rabs (p1 - f * s1) <= double.ulp_rel * Rabs (f * s1))%R ->
  (Rabs (r - (p0 + p1)) <= double.ulp_rel * Rabs (p0 + p1))%R ->
  (IZR (numeric_min T) - / 2 < r < IZR (numeric_max T) + / 2)%R.
Proof.
  intros Hw Hs0 Hs1 Hf Ha Hp0 Hp1 Hr.
  pose proof ulp_rel_pos as Hu.
  assert (HL : (- 2147483648 <= IZR (numeric_min T) <= 0)%R).
  { destruct (numeric_small T Hw) as ((H1 & H2) & _).
    change (2 ^ 31) with 2147483648 in H1.
    split; [replace (- 2147483648)%R with (IZR (- 2147483648)) by reflexivity|];
      apply IZR_le; lia. }
  assert (HH : (0 <= IZR (numeric_max T) <= 4294967296)%R).
  { destruct (numeric_small T Hw) as (_ & (H1 & H2) & _).
    change (2 ^ 32) with 4294967296 in H2. split; apply IZR_le; lia. }
  set (L := IZR (numeric_min T)) in *. set (H := IZR (numeric_max T)) in *.
  assert (Ha' : (- double.ulp_rel <= a - (1 - f) <= double.ulp_rel)%R).
  { pose proof (error_bound a (1 - f) 1 Ha) as E. rewrite Rmult_1_r in E.
    apply E. apply Rabs_le. rewrite ulp_rel_eq in *. lra. }
  assert (HQ : (f * L <= f * s1 <= f * H)%R)
    by (split; apply Rmult_le_compat_l; lra).
  assert (HP : (0 <= a /\ a * L <= a * s0 <= a * H)%R
               \/ (a < 0 /\ a * H <= a * s0 <= a * L)%R).
  { destruct (Rle_lt_dec 0 a) as [Hpos|Hneg]; [left|right]; split;
      try assumption; split.
    - apply Rmult_le_compat_l; lra.
    - apply Rmult_le_compat_l; lra.
    - apply Rmult_le_compat_neg_l; lra.
    - apply Rmult_le_compat_neg_l; lra. }
  set (P := (a * s0)%R) in *. set (Q := (f * s1)%R) in *.
  (* products of a variable with a bound of the range, bounded in turn *)
  assert (HaL : (- 3 * 2147483648 <= a * L <= 3 * 2147483648)%R
                /\ (- 3 * 4294967296 <= a * H <= 3 * 4294967296)%R
                /\ (- 3 * 2147483648 <= f * L <= 0)%R
                /\ (0 <= f * H <= 3 * 4294967296)%R).
  { assert (Ha3 : (-3 <= a <= 3)%R) by (rewrite ulp_rel_eq in *; lra).
    assert (Hf3 : (0 <= f <= 3)%R) by (rewrite ulp_rel_eq in *; lra).
    assert (E1 : (a * L = - a * - L)%R) by ring.
    assert (E2 : (f * L = - (f * - L))%R) by ring.
    assert (0 <= - L <= 2147483648)%R by lra.
    assert (B1 : (0 <= f * - L <= 3 * 2147483648)%R)
      by (split; [apply Rmult_le_pos; lra|apply Rmult_le_compat; lra]).
    assert (B2 : (0 <= f * H <= 3 * 4294967296)%R)
      by (split; [apply Rmult_le_pos; lra|apply Rmult_le_compat; lra]).
    assert (B3 : (Rabs (a * L) <= 3 * 2147483648)%R).
    { rewrite Rabs_mult. apply Rmult_le_compat; try apply Rabs_pos;
        apply Rabs_le; lra. }
    assert (B4 : (Rabs (a * H) <= 3 * 4294967296)%R).
    { rewrite Rabs_mult. apply Rmult_le_compat; try apply Rabs_pos;
        apply Rabs_le; lra. }
    apply Rabs_bound in B3, B4. repeat split; lra. }
  destruct HaL as (HaL & HaH & HfL & HfH).
  assert (HPabs : (Rabs P <= 3 * 4294967296)%R)
    by (apply Rabs_le; destruct HP as [[_ HP]|[_ HP]]; lra).
  assert (HQabs : (Rabs Q <= 3 * 4294967296)%R) by (apply Rabs_le; lra).
  pose proof (error_bound p0 P _ Hp0 HPabs) as E0.
  pose proof (error_bound p1 Q _ Hp1 HQabs) as E1.
  assert (Hsum : (Rabs (p0 + p1) <= 8 * 4294967296)%R).
  { apply Rabs_bound in HPabs, HQabs. apply Rabs_le.
    rewrite ulp_rel_eq in *. lra. }
  pose proof (error_bound r (p0 + p1) _ Hr Hsum) as E2.
  (* the linear products, as variables *)
  set (aL := (a * L)%R) in *. set (aH := (a * H)%R) in *.
  set (fL := (f * L)%R) in *. set (fH := (f * H)%R) in *.
  assert (Hlin : (aL + fL = L + (a - (1 - f)) * L)%R
                 /\ (aH + fH = H + (a - (1 - f)) * H)%R)
    by (unfold aL, aH, fL, fH; split; ring).
  destruct Hlin as [EL EH].
  assert (BL : (- (double.ulp_rel * 2147483648) <= (a - (1 - f)) * L
                <= double.ulp_rel * 2147483648)%R).
  { apply Rabs_bound. rewrite Rabs_mult, Rmult_comm.
    rewrite (Rmult_comm double.ulp_rel).
    apply Rmult_le_compat; try apply Rabs_pos; apply Rabs_le; lra. }
  assert (BH : (- (double.ulp_rel * 4294967296) <= (a - (1 - f)) * H
                <= double.ulp_rel * 4294967296)%R).
  { apply Rabs_bound. rewrite Rabs_mult, Rmult_comm.
    rewrite (Rmult_comm double.ulp_rel).
    apply Rmult_le_compat; try apply Rabs_pos; apply Rabs_le; lra. }
  set (dL := ((a - (1 - f)) * L)%R) in *.
  set (dH := ((a - (1 - f)) * H)%R) in *.
  assert (BfH : (fH <= H + double.ulp_rel * 4294967296)%R).
  { assert (f * H <= (1 + double.ulp_rel) * H)%R
      by (apply Rmult_le_compat_r; lra).
    assert (double.ulp_rel * H <= double.ulp_rel * 4294967296)%R
      by (apply Rmult_le_compat_l; lra).
    unfold fH. lra. }
  assert (BfL : (L - double.ulp_rel * 2147483648 <= fL)%R).
  { assert ((1 + double.ulp_rel) * - L >= f * - L)%R
      by (apply Rle_ge, Rmult_le_compat_r; lra).
    assert (double.ulp_rel * - L <= double.ulp_rel * 2147483648)%R
      by (apply Rmult_le_compat_l; lra).
    unfold fL. lra. }
  assert (Bneg : (a < 0 ->
                  aL <= 2 * double.ulp_rel * 2147483648
                  /\ - (2 * double.ulp_rel * 4294967296) <= aH)%R).
  { intro Hneg.
    assert (Ha2 : (0 <= - a <= 2 * double.ulp_rel)%R) by lra.
    assert (- a * - L <= 2 * double.ulp_rel * 2147483648)%R
      by (apply Rmult_le_compat; lra).
    assert (- a * H <= 2 * double.ulp_rel * 4294967296)%R
      by (apply Rmult_le_compat; lra).
    unfold aL, aH. lra. }
  rewrite ulp_rel_eq in *.
  destruct HP as [[Hpos HP]|[Hneg HP]]; [|specialize (Bneg Hneg)];
    split; lra.
Qed.

Lemma value_one : double.value double.one = 1%R.
Proof.
  rewrite one_eq. cbn [double.value].
  change (double.bpow (-52)) with double.ulp_rel. rewrite ulp_rel_eq. lra.
Qed.

(** One interpolated sample is a value of [T], whatever the two samples,
    for a [frac] between 0 and 1 (one rounding included). *)
Lemma interpolate_total (T : sample_type) (channel : list Z) (i0 i1 : Z)
    (frac : double.t) :
  bit_width T <= 32 -> Forall (in_range T) channel ->
  0 <= i0 < Z.of_nat (length channel) ->
  0 <= i1 < Z.of_nat (length channel) ->
  finite_in (-300) 300 frac ->
  (0 <= double.value frac <= 1 + double.ulp_rel)%R ->
  exists v, interpolate T channel i0 i1 frac = Done v /\ in_range T v.
Proof.
  intros Hw Hch H0 H1 Hfin Hfrac. unfold interpolate.
  rewrite <- (Z2Nat.id i0), <- (Z2Nat.id i1) by lia.
  rewrite !(vec_get_in_range channel _ 0) by lia. cbn [bind].
  rewrite Forall_forall in Hch.
  assert (Hs0 : in_range T (nth (Z.to_nat i0) channel 0))
    by (apply Hch, nth_In; lia).
  assert (Hs1 : in_range T (nth (Z.to_nat i1) channel 0))
    by (apply Hch, nth_In; lia).
  set (s0 := nth (Z.to_nat i0) channel 0) in *.
  set (s1 := nth (Z.to_nat i1) channel 0) in *.
  pose proof (in_range_small T s0 Hw Hs0) as Hb0.
  pose proof (in_range_small T s1 Hw Hs1) as Hb1.
  assert (Hone : finite_in (-300) 300 double.one)
    by (rewrite one_eq; split; [reflexivity|lia]).
  destruct (sub_any (-300) 300 double.one frac Hone Hfin ltac:(lia) ltac:(lia))
    as [Fa Ea]. rewrite value_one in Ea.
  destruct (mul_any (-352) 302 (-52) 0 _ (double.of_Z s0) Fa
              (of_Z_finite_in s0 Hb0) ltac:(lia) ltac:(lia)) as [Fp0 Ep0].
  destruct (mul_any (-300) 300 (-52) 0 frac (double.of_Z s1) Hfin
              (of_Z_finite_in s1 Hb1) ltac:(lia) ltac:(lia)) as [Fp1 Ep1].
  rewrite (value_of_Z s0 Hb0) in Ep0. rewrite (value_of_Z s1 Hb1) in Ep1.
  apply (finite_in_weaken _ _ (-352) 356) in Fp0; [|lia|lia].
  apply (finite_in_weaken _ _ (-352) 356) in Fp1; [|lia|lia].
  destruct (add_any (-352) 356 _ _ Fp0 Fp1 ltac:(lia) ltac:(lia))
    as [Fr Er].
  apply (cast_round_any T _ _ _ Hw Fr).
  apply (interp_arith T (double.value frac)
           (double.value (double.sub double.one frac)) (IZR s0) (IZR s1)
           (double.value (double.mul (double.sub double.one frac)
                            (double.of_Z s0)))
           (double.value (double.mul frac (double.of_Z s1)))
           _ Hw); try assumption.
  - destruct Hs0. split; apply IZR_le; assumption.
  - destruct Hs1. split; apply IZR_le; assumption.
Qed.

(** ** Every turn of the loop of [resample] *)

(** The fractional part [src_index - index0] at turn [i]. *)
Lemma resample_frac (x : WavData.t) (new_sample_rate newNumSamples i : Z) :
  1 <= WavData.sample_rate x < 2 ^ 32 ->
  1 <= WavData.num_samples x < 2 ^ 32 ->
  0 <= new_sample_rate < 2 ^ 32 ->
  resample_newNumSamples x new_sample_rate = Done newNumSamples ->
  0 <= i < newNumSamples ->
  let ratio := resample_ratio x new_sample_rate in
  exists index0,
    resample_index0 ratio i = Done index0
    /\ 0 <= index0 <= WavData.num_samples x - 1
    /\ finite_in (-300) 300
         (double.sub (source_index ratio i) (double.of_Z index0))
    /\ (0 <= double.value
               (double.sub (source_index ratio i) (double.of_Z index0))
        <= 1 + double.ulp_rel)%R.
Proof.
  intros Hr Hn Hnew Hnum Hi ratio. pose proof ulp_rel_pos as Hu.
  destruct (resample_index0_in_bounds x new_sample_rate newNumSamples i
              Hr Hn Hnew Hnum Hi) as (q & Eq & Hq).
  exists q. split; [exact Eq|]. split; [exact Hq|].
  assert (Hnz : new_sample_rate <> 0).
  { intros ->. unfold resample_newNumSamples, resample_ratio in Hnum.
    destruct (of_Z_positive _ Hr) as (mr & er & Er & _).
    destruct (of_Z_positive _ Hn) as (mn & en & En & _).
    rewrite Er, En in Hnum. change (double.of_Z 0) with (S754_zero false) in Hnum.
    unfold double.div, double.mul in Hnum. cbn [SFdiv SFmul xorb] in Hnum.
    change (double.cast_to uint32_t (S754_zero false)) with (@Done Z 0) in Hnum.
    injection Hnum as <-. lia. }
  unfold resample_index0 in Eq. unfold source_index in *.
  subst ratio. unfold resample_ratio in *.
  destruct (of_Z_positive _ Hr) as (mr & er & Er & Hdr & Her & _).
  destruct (of_Z_positive new_sample_rate ltac:(lia))
    as (mw & ew & Ew & Hdw & Hew & _).
  rewrite Er, Ew in *.
  destruct (div_bounds mw mr ew er Hdw Hdr ltac:(lia) ltac:(lia))
    as (mq & eq & Eratio & Hdq & Heq & _).
  rewrite Eratio in *.
  destruct (Z.eq_dec i 0) as [->|Hi0].
  - change (double.of_Z 0) with (S754_zero false) in *.
    unfold double.div in *. cbn [SFdiv xorb] in *.
    change (double.cast_to uint32_t (double.floor (S754_zero false)))
      with (@Done Z 0) in Eq. injection Eq as <-.
    change (double.of_Z 0) with (S754_zero false).
    unfold double.sub. cbn [SFsub double.value finite_in].
    split; [exact I|split; lra].
  - assert (Hn32 : newNumSamples < 2 ^ 32).
    { apply cast_to_in_range in Hnum. destruct Hnum as [_ H].
      change (numeric_max uint32_t) with 4294967295 in H. simpl (2 ^ 32). lia. }
    destruct (of_Z_positive i ltac:(lia)) as (mi & ei & Ei & Hdi & Hei & _).
    rewrite Ei in *.
    destruct (div_bounds mi mq ei eq Hdi Hdq ltac:(lia) ltac:(lia))
      as (ms & es & Esrc & Hds & Hes & _).
    rewrite Esrc in *.
    pose proof (cast_floor_value ms es q Hds Eq) as Hfl.
    assert (Hq53 : Z.abs q < 2 ^ 53) by (simpl (2 ^ 53); lia).
    destruct (sub_any (-106) 54 (S754_finite false ms es) (double.of_Z q))
      as [Ff Ef]; try lia.
    + split; [exact Hds|lia].
    + apply (finite_in_weaken (-52) 0); [lia|lia|].
      now apply of_Z_finite_in.
    + rewrite (value_of_Z q Hq53) in Ef.
      split; [apply (finite_in_weaken _ _ (-300) 300) in Ff; [exact Ff|lia|lia]|].
      set (V := double.value (S754_finite false ms es)) in *.
      set (F := double.value (double.sub (S754_finite false ms es)
                                (double.of_Z q))) in *.
      rewrite (Rabs_pos_eq (V - IZR q)) in Ef by lra.
      apply Rabs_bound in Ef.
      rewrite ulp_rel_eq in *. split; nra.
Qed.

Lemma for_loop_total {St : Type} (Inv : St -> Prop)
    (body : Z -> St -> outcome St) (count : nat) : forall (i : nat) (s : St),
  Inv s ->
  (forall (j : nat) (s : St), (i <= j < i + count)%nat -> Inv s ->
     exists s', body (Z.of_nat j) s = Done s' /\ Inv s') ->
  exists s', for_loop (Z.of_nat i) count body s = Done s' /\ Inv s'.
Proof.
  induction count as [|k IH]; intros i s Hs Hbody;
    [exists s; split; [reflexivity|exact Hs]|].
  rewrite for_loop_S.
  destruct (Hbody i s ltac:(lia) Hs) as (s1 & -> & H1). cbn [bind].
  replace (Z.of_nat i + 1) with (Z.of_nat (S i)) by lia.
  apply IH; [exact H1|]. intros j s0 Hj. apply Hbody. lia.
Qed.

Lemma Forall_prefix (P : Z -> Prop) (v : list Z) (j : nat) :
  Forall P v -> Forall P (firstn j v) /\ Forall P (skipn j v).
Proof.
  intro Hv. rewrite <- (firstn_skipn j v) in Hv.
  now apply Forall_app in Hv.
Qed.

Lemma Forall_set (P : Z -> Prop) (v : list Z) (j : nat) (a : Z) :
  Forall P v -> P a -> Forall P (firstn j v ++ a :: skipn (S j) v).
Proof.
  intros Hv Ha. apply Forall_app. split.
  - now apply Forall_prefix.
  - constructor; [exact Ha|now apply Forall_prefix].
Qed.

Lemma Forall_resize (T : sample_type) (v : list Z) (n : nat) :
  Forall (in_range T) v -> Forall (in_range T) (resize 0 v n).
Proof.
  intro Hv. unfold resize. apply Forall_app. split.
  - now apply Forall_prefix.
  - apply Forall_forall. intros a Ha. apply repeat_spec in Ha. subst a.
    unfold in_range, numeric_min, numeric_max.
    pose proof (bit_width_pos T).
    assert (0 < 2 ^ (bit_width T - 1)) by (apply Z.pow_pos_nonneg; lia).
    assert (0 < 2 ^ bit_width T) by (apply Z.pow_pos_nonneg; lia).
    destruct (is_signed T); lia.
Qed.

Lemma resample_body_total (T : sample_type) (x : WavData.t)
    (new_sample_rate newNumSamples : Z) (j : nat) (ch : list Z * list Z) :
  bit_width T <= 32 -> typed T x ->
  1 <= WavData.sample_rate x -> 1 <= WavData.num_samples x ->
  0 <= new_sample_rate < 2 ^ 32 ->
  resample_newNumSamples x new_sample_rate = Done newNumSamples ->
  (j < Z.to_nat newNumSamples)%nat ->
  resampling T x (Z.to_nat newNumSamples) ch ->
  exists ch',
    resample_body T x (resample_ratio x new_sample_rate) (Z.of_nat j) ch
    = Done ch'
    /\ resampling T x (Z.to_nat newNumSamples) ch'.
Proof.
  intros Hw (Hsr & Hn & Hl1 & Hl2 & Hr1 & Hr2) Hsr1 Hn1 Hnew Hnum Hj
         (Hc1 & Hf1 & Hst & Hmono).
  destruct ch as [c1 c2]. cbn [fst snd] in *.
  destruct (resample_frac x new_sample_rate newNumSamples (Z.of_nat j)
              ltac:(lia) ltac:(lia) Hnew Hnum ltac:(lia))
    as (q & Eq & Hq & Ffrac & Vfrac).
  unfold resample_body. rewrite Eq. cbn [bind fst snd].
  assert (Hq1 : 0 <= resample_index1 x q <= WavData.num_samples x - 1).
  { unfold resample_index1. rewrite u32_small by lia.
    destruct (Z.ltb_spec (q + 1) (WavData.num_samples x)); lia. }
  destruct (interpolate_total T (WavData.channel1 x) q (resample_index1 x q)
              _ Hw Hr1 ltac:(lia) ltac:(lia) Ffrac Vfrac)
    as (v1 & -> & Hv1).
  cbn [bind]. rewrite vec_set_in_range by lia. cbn [bind].
  destruct (Z.eqb_spec (WavData.num_channels x) 2) as [E2|E2].
  - specialize (Hl2 E2). destruct (Hst E2) as [Hc2 Hf2].
    destruct (interpolate_total T (WavData.channel2 x) q (resample_index1 x q)
                _ Hw Hr2 ltac:(lia) ltac:(lia) Ffrac Vfrac)
      as (v2 & -> & Hv2).
    cbn [bind]. rewrite vec_set_in_range by lia. cbn [bind].
    eexists. split; [reflexivity|].
    unfold resampling. cbn [fst snd].
    split; [rewrite length_set; lia|]. split; [now apply Forall_set|].
    split; [intros _; split; [rewrite length_set; lia|now apply Forall_set]|].
    intro H. contradiction.
  - eexists. split; [reflexivity|].
    unfold resampling. cbn [fst snd].
    split; [rewrite length_set; lia|]. split; [now apply Forall_set|].
    split; [intro H; contradiction|]. intros _. now apply Hmono.
Qed.

Lemma resample_length_of_empty (x : WavData.t) (new_sample_rate : Z) :
  1 <= WavData.sample_rate x < 2 ^ 32 ->
  WavData.num_samples x = 0 -> 0 <= new_sample_rate < 2 ^ 32 ->
  resample_newNumSamples x new_sample_rate = Done 0.
Proof.
  intros Hsr Hn Hnew. unfold resample_newNumSamples, resample_ratio.
  rewrite Hn.
  destruct (of_Z_positive _ Hsr) as (mr & er & -> & Hdr & Her & _).
  destruct (Z.eq_dec new_sample_rate 0) as [->|Hnz]; [reflexivity|].
  destruct (of_Z_positive new_sample_rate ltac:(lia))
    as (mw & ew & -> & Hdw & Hew & _).
  destruct (div_bounds mw mr ew er Hdw Hdr ltac:(lia) ltac:(lia))
    as (mq & eq & -> & _).
  reflexivity.
Qed.

Lemma cast_floor_same (m : positive) (e : Z) :
  Z.pos (digits2_pos m) = 53 ->
  double.cast_to uint32_t (double.floor (S754_finite false m e))
  = double.cast_to uint32_t (S754_finite false m e).
Proof.
  intro Hd. pose proof (canonical_bounds m Hd) as Bm.
  unfold double.floor. destruct (Z.leb_spec 0 e) as [He|He]; [reflexivity|].
  set (q := Z.pos m / 2 ^ (- e)).
  assert (HD : 0 < 2 ^ (- e)) by (apply Z.pow_pos_nonneg; lia).
  assert (Hq : 0 <= q <= Z.pos m).
  { split; [apply Z.div_pos; lia|].
    apply Z.div_le_upper_bound; [lia|]. nia. }
  assert (Hfl : double.of_sign_mag false q = double.of_Z q).
  { rewrite <- (Z.abs_eq q) at 1 by lia.
    replace false with (q <? 0) by (apply Z.ltb_ge; lia).
    apply of_sign_mag_of_Z. }
  rewrite Hfl. unfold double.cast_to. rewrite trunc_of_Z by lia.
  unfold double.trunc. destruct (Z.leb_spec 0 e); [lia|]. reflexivity.
Qed.

(** The length of the output when the rate does not go up. *)
Lemma resample_length_down (x : WavData.t) (new_sample_rate : Z) :
  1 <= WavData.sample_rate x < 2 ^ 32 ->
  0 <= WavData.num_samples x < 2 ^ 32 ->
  0 <= new_sample_rate <= WavData.sample_rate x ->
  exists n', resample_newNumSamples x new_sample_rate = Done n'
             /\ 0 <= n' <= WavData.num_samples x.
Proof.
  intros Hsr Hn Hnew.
  destruct (Z.eq_dec (WavData.num_samples x) 0) as [Hn0|Hn0].
  { exists 0. split; [apply resample_length_of_empty; lia|lia]. }
  unfold resample_newNumSamples, resample_ratio.
  destruct (of_Z_positive _ Hsr) as (mr & er & -> & Hdr & Her & Vr).
  destruct (of_Z_positive (WavData.num_samples x) ltac:(lia))
    as (mn & en & -> & Hdn & Hen & Vn).
  destruct (Z.eq_dec new_sample_rate 0) as [->|Hnz].
  { exists 0. split; [reflexivity|lia]. }
  destruct (of_Z_positive new_sample_rate ltac:(lia))
    as (mw & ew & -> & Hdw & Hew & Vw).
  destruct (div_bounds mw mr ew er Hdw Hdr ltac:(lia) ltac:(lia))
    as (mq & eq & -> & Hdq & Heq & Hvq).
  destruct (mul_bounds mn mq en eq Hdn Hdq ltac:(lia) ltac:(lia))
    as (mp & ep & -> & Hdp & Hep & Hvp).
  rewrite Vr, Vw in Hvq. rewrite Vn in Hvp.
  pose proof (value_pos mq eq) as Pq. pose proof (value_pos mp ep) as Pp.
  set (rho := double.value (S754_finite false mq eq)) in *.
  set (VP := double.value (S754_finite false mp ep)) in *.
  pose proof ulp_rel_pos as Hu.
  assert (Hrho : (rho <= 1 + double.ulp_rel)%R).
  { assert (HS : (0 < IZR (WavData.sample_rate x))%R) by (apply IZR_lt; lia).
    assert (IZR new_sample_rate <= IZR (WavData.sample_rate x))%R
      by (apply IZR_le; lia).
    apply (Rmult_le_reg_r (IZR (WavData.sample_rate x))); [exact HS|].
    apply (Rle_trans _ _ _ Hvq).
    rewrite (Rmult_comm (1 + double.ulp_rel)).
    apply Rmult_le_compat_r; lra. }
  assert (HN : (1 <= IZR (WavData.num_samples x) <= 4294967295)%R)
    by (split; apply IZR_le; simpl (2 ^ 32) in Hn; lia).
  assert (Hlt : (VP < IZR (WavData.num_samples x + 1))%R).
  { rewrite plus_IZR.
    assert (IZR (WavData.num_samples x) * rho
            <= IZR (WavData.num_samples x) * (1 + double.ulp_rel))%R
      by (apply Rmult_le_compat_l; lra).
    rewrite ulp_rel_eq in *. lra. }
  rewrite <- (cast_floor_same mp ep Hdp).
  destruct (cast_floor_below mp ep (WavData.num_samples x + 1) Hdp
              ltac:(lia) Hlt) as (q & -> & Hq).
  exists q. split; [reflexivity|lia].
Qed.

Lemma resample_result (T : sample_type) (x : WavData.t)
    (new_sample_rate : Z) :
  bit_width T <= 32 -> typed T x -> WavData.sample_rate x <> 0 ->
  0 <= new_sample_rate < 2 ^ 32 ->
  match resample_newNumSamples x new_sample_rate with
  | Done n' =>
      exists y,
        resample T x new_sample_rate = Done y
        /\ typed T y
        /\ WavData.sample_rate y = new_sample_rate
        /\ WavData.num_channels y = WavData.num_channels x
        /\ WavData.bits_per_sample y = WavData.bits_per_sample x
        /\ WavData.num_samples y = n'
        /\ (WavData.num_channels x <> 2 ->
            WavData.channel2 y = WavData.channel2 x)
  | Undefined u => resample T x new_sample_rate = Undefined u
  end
  /\ (new_sample_rate <= WavData.sample_rate x ->
      exists n', resample_newNumSamples x new_sample_rate = Done n'
                 /\ 0 <= n' <= WavData.num_samples x).
Proof.
  intros Hw Hx Hsr0 Hnew. pose proof Hx as (Hsr & Hn & Hl1 & Hl2 & Hr1 & Hr2).
  split; [|intro Hdown; apply resample_length_down; lia].
  destruct (resample_newNumSamples x new_sample_rate) as [n'|u] eqn:Hnum;
    [|unfold resample; rewrite Hnum; reflexivity].
  assert (Hn' : 0 <= n' < 2 ^ 32).
  { pose proof Hnum as H. apply cast_to_in_range in H. destruct H as [H1 H2].
    change (numeric_min uint32_t) with 0 in H1.
    change (numeric_max uint32_t) with 4294967295 in H2. simpl (2 ^ 32). lia. }
  assert (Hpos : (0 < Z.to_nat n')%nat -> 1 <= WavData.num_samples x).
  { intro H. destruct (Z.eq_dec (WavData.num_samples x) 0) as [E|E]; [|lia].
    rewrite (resample_length_of_empty x new_sample_rate) in Hnum by lia.
    injection Hnum as <-. cbn in H. lia. }
  unfold resample. rewrite Hnum. cbn [bind].
  destruct (for_loop_total (resampling T x (Z.to_nat n'))
              (resample_body T x (resample_ratio x new_sample_rate))
              (Z.to_nat n') 0
              (resize 0 (WavData.channel1 x) (Z.to_nat n'),
               if WavData.num_channels x =? 2
               then resize 0 (WavData.channel2 x) (Z.to_nat n')
               else WavData.channel2 x))
    as (ch & Ech & Hc1 & Hf1 & Hst & Hmono).
  - unfold resampling. cbn [fst snd].
    split; [apply length_resize|]. split; [now apply Forall_resize|].
    split.
    + intros ->. cbn [Z.eqb Pos.eqb].
      split; [apply length_resize|now apply Forall_resize].
    + intro E. destruct (Z.eqb_spec (WavData.num_channels x) 2);
        [contradiction|reflexivity].
  - intros j s Hj Hs.
    apply (resample_body_total T x new_sample_rate n' j s Hw Hx);
      assumption || lia.
  - cbn [Z.of_nat] in Ech. rewrite Ech. cbn [bind].
    eexists. split; [reflexivity|].
    cbn [WavData.sample_rate WavData.num_channels WavData.bits_per_sample
         WavData.num_samples WavData.channel1 WavData.channel2].
    split.
    + unfold typed. cbn [WavData.sample_rate WavData.num_channels
        WavData.num_samples WavData.channel1 WavData.channel2].
      split; [exact Hnew|]. split; [exact Hn'|]. split; [exact Hc1|].
      split; [intro E; now apply Hst|]. split; [exact Hf1|].
      destruct (Z.eq_dec (WavData.num_channels x) 2) as [E|E].
      * now apply Hst.
      * now rewrite (Hmono E).
    + repeat (split; [reflexivity|]). exact Hmono.
Qed.

(** X14.  For a sample type of at most 32 bits and a well-formed input
    with a nonzero rate, [resample] is defined exactly when the cast that
    computes the output length is: then it returns a well-formed channel set
    of that many samples (every interpolated sample is a value of [T]) with
    the target rate and the other metadata of the input; a mono input keeps
    its [channel2].  When the target rate is not above the input rate the
    length is defined and at most the input's. *)
Theorem resample_well_formed (T : sample_type) (x : WavData.t)
    (new_sample_rate : Z) :
  bit_width T <= 32 -> typed T x -> WavData.sample_rate x <> 0 ->
  0 <= new_sample_rate < 2 ^ 32 ->
  match resample_newNumSamples x new_sample_rate with
  | Done n' =>
      exists y,
        resample T x new_sample_rate = Done y
        /\ typed T y
        /\ WavData.sample_rate y = new_sample_rate
        /\ WavData.num_channels y = WavData.num_channels x
        /\ WavData.bits_per_sample y = WavData.bits_per_sample x
        /\ WavData.num_samples y = n'
        /\ (WavData.num_channels x <> 2 ->
            WavData.channel2 y = WavData.channel2 x)
  | Undefined u => resample T x new_sample_rate = Undefined u
  end
  /\ (new_sample_rate <= WavData.sample_rate x ->
      exists n', resample_newNumSamples x new_sample_rate = Done n'
                 /\ 0 <= n' <= WavData.num_samples x).
Proof. exact (resample_result T x new_sample_rate). Qed.

Lemma resample_well_formed_witness :
  match resample_newNumSamples mono16_channels 16000 with
  | Done n' =>
      exists y,
        resample int16_t mono16_channels 16000 = Done y
        /\ typed int16_t y
        /\ WavData.sample_rate y = 16000
        /\ WavData.num_channels y = WavData.num_channels mono16_channels
        /\ WavData.bits_per_sample y = WavData.bits_per_sample mono16_channels
        /\ WavData.num_samples y = n'
        /\ (WavData.num_channels mono16_channels <> 2 ->
            WavData.channel2 y = WavData.channel2 mono16_channels)
  | Undefined u => resample int16_t mono16_channels 16000 = Undefined u
  end
  /\ (16000 <= WavData.sample_rate mono16_channels ->
      exists n', resample_newNumSamples mono16_channels 16000 = Done n'
                 /\ 0 <= n' <= WavData.num_samples mono16_channels).
Proof.
  apply (resample_well_formed int16_t mono16_channels 16000);
    [cbv; discriminate|exact typed_mono16_channels|discriminate|simpl; lia].
Defined.


(** ** The test program *)

Lemma save_returned_can_open (w : WavFile.t) (can_open : bool)
    (s : WavFile.save_result) :
  WavFile.save w can_open = Done s ->
  WavFile.save_returned s = can_open
  /\ (can_open = false -> WavFile.save_cerr s = [ErrorOpeningOutputFile]).
Proof.
  unfold WavFile.save. destruct can_open; cbn [negb].
  - destruct (mem_read _ _ _) as [payload|u]; [|discriminate].
    cbn [bind]. intro E. injection E as <-. split; [reflexivity|discriminate].
  - intro E. injection E as <-. split; reflexivity.
Qed.

(** X15.  The exit code of the test program follows [WavFile::read] alone:
    when [read] returns false the program prints the library's message and
    "Error reading WAV file.", writes nothing and returns 1; when [read]
    returns true and the program runs to its end it returns 0, also when the
    output file cannot be opened, in which case "Failed to save WAV file."
    is printed and nothing is written. *)
Theorem main_exit_code (input : option (list byte)) (can_open : bool) :
  exists o,
    WavFile.read WavFile.default input = Some o
    /\ match o with
       | Undefined u => main input can_open = Some (Undefined u)
       | Done r =>
           if WavFile.returned r
           then forall res, main input can_open = Some (Done res) ->
                  exit_code res = 0
                  /\ (output_file res <> None <-> can_open = true)
                  /\ (can_open = false -> In FailedToSave (printed res))
           else main input can_open
                = Some (Done {| exit_code := 1;
                                printed := map Cerr (WavFile.cerr r)
                                           ++ [ErrorReadingWav];
                                output_file := None |})
       end.
Proof.
  destruct (read_total WavFile.default input) as [o Eo].
  exists o. split; [exact Eo|].
  unfold main. rewrite Eo. destruct o as [r|u]; [|reflexivity].
  unfold main_after_read.
  destruct (WavFile.returned r); cbn [negb]; [|reflexivity].
  intros res E. injection E as E.
  destruct (WavData.WavData int32_t (WavFile.this r)) as [c|]; [|discriminate].
  cbn [bind] in E.
  destruct (WavData.toWavFile int32_t (WavData.object c)) as [g|];
    [|discriminate].
  cbn [bind] in E.
  destruct (WavFile.save g can_open) as [s|] eqn:Es; [|discriminate].
  cbn [bind] in E.
  destruct (resample int32_t (WavData.object c) 22050) as [y|]; [|discriminate].
  cbn [bind] in E.
  destruct (reencode int32_t int16_t (WavData.object c)) as [z|];
    [|discriminate].
  cbn [bind] in E. injection E as <-.
  cbn [exit_code output_file printed].
  destruct (save_returned_can_open g can_open s Es) as [-> Hc].
  split; [reflexivity|]. split.
  - destruct can_open; split; intro H; try discriminate; try reflexivity.
    now contradiction H.
  - intros ->. apply in_or_app. right. right.
    apply in_or_app. right. apply in_or_app. left.
    apply in_or_app. right. left. reflexivity.
Qed.

(** X16.  The test program instantiates [WavData<int32_t>] whatever the
    file holds: on a file that [read] accepts with a bit depth other than 32
    and at least one sample per channel, the constructor leaves empty
    channels and [toWavFile] then reads [channel1[0]] out of bounds, so the
    program has undefined behaviour. *)
Theorem main_other_bit_depth (input : option (list byte)) (can_open : bool)
    (r : WavFile.read_result) :
  WavFile.read WavFile.default input = Some (Done r) ->
  WavFile.returned r = true ->
  WavFile.bits_per_sample (WavFile.this r) <> 32 ->
  1 <= WavFile.num_samples (WavFile.this r) ->
  main input can_open = Some (Undefined OutOfBounds).
Proof.
  intros Er Hret Hbits Hn. unfold main. rewrite Er. f_equal.
  unfold main_after_read. rewrite Hret. cbn [negb].
  unfold WavData.WavData. cbn [WavData.bits_per_sample].
  destruct (Z.eqb_spec (WavFile.bits_per_sample (WavFile.this r))
              (bit_width int32_t)) as [E|_]; [contradiction|].
  cbn [negb bind WavData.object].
  unfold WavData.toWavFile. cbn [WavData.num_samples].
  rewrite (for_loop_first_fails _ _ _ OutOfBounds); [reflexivity|lia|].
  reflexivity.
Qed.

Lemma main_other_bit_depth_witness :
  main (Some (riff_header 44 ++ fmt_mono16 ++ data_four_samples)) true
  = Some (Undefined OutOfBounds).
Proof.
  apply (main_other_bit_depth _ true
           {| WavFile.returned := true; WavFile.cerr := [];
              WavFile.this := mono16_container |});
    [vm_compute; reflexivity|reflexivity|discriminate|simpl; lia].
Defined.

(** X17.  On a file that [read] accepts with 32 bits per sample, one or two
    channels, frames of at least [4 * num_channels] bytes and a sample rate
    of at least 22050, the test program runs to its end: it prints the
    file's parameters, the outcome of saving, "Resampled sample rate: 22050"
    and "Re-encoded bit depth: 16 bits.", and returns 0.  When the output
    can be opened, the file written has 44 bytes and the samples, and
    reading it back gives the channel set of the input. *)
Theorem main_32_bit_file (input : option (list byte)) (can_open : bool)
    (r : WavFile.read_result) (w0 : WavFile.t) :
  WavFile.read WavFile.default input = Some (Done r) ->
  WavFile.returned r = true ->
  let wf := WavFile.this r in
  WavFile.bits_per_sample wf = 32 ->
  WavFile.num_channels wf = 1 \/ WavFile.num_channels wf = 2 ->
  4 * WavFile.num_channels wf <= WavFile.block_align wf ->
  22050 <= WavFile.sample_rate wf ->
  exists d out,
    WavData.WavData int32_t wf
    = Done {| WavData.cerr := []; WavData.object := d |}
    /\ main input can_open
       = Some (Done
           {| exit_code := 0;
              printed :=
                [FileInfo (WavFile.num_channels wf) (WavFile.sample_rate wf)
                   32 (WavFile.num_samples wf)]
                ++ (if can_open then [SavedSuccessfully]
                    else [Cerr ErrorOpeningOutputFile; FailedToSave])
                ++ [ResampledRate 22050; ReencodedDepth 16];
              output_file := if can_open then Some out else None |})
    /\ Z.of_nat (length out)
       = 44 + WavFile.num_samples wf * (4 * WavFile.num_channels wf)
    /\ exists r',
         WavFile.read w0 (Some out) = Some (Done r')
         /\ WavFile.returned r' = true
         /\ WavData.WavData int32_t (WavFile.this r')
            = Done {| WavData.cerr := []; WavData.object := d |}.
Proof.
  intros Er Hret wf Hbits Hnc Hba Hsr.
  destruct (read_true_object _ _ _ Er Hret)
    as (Hcerr & Rcs & Rnc & Rsr & Rba & Rbp & Rds & Hlen & Hns & Hfit).
  fold wf in Rcs, Rnc, Rsr, Rba, Rbp, Rds, Hlen, Hns, Hfit.
  assert (Hn : 0 <= WavFile.num_samples wf < 2 ^ 32).
  { rewrite Hns. split; [apply Z.div_pos; lia|].
    apply Z.div_lt_upper_bound; [lia|]. nia. }
  assert (Hcu : Z.of_nat (channels_used (WavFile.num_channels wf)
                          * sizeof int32_t)
                = 4 * WavFile.num_channels wf).
  { rewrite Nat2Z.inj_mul, channels_used_cases by exact Hnc.
    change (Z.of_nat (sizeof int32_t)) with 4. lia. }
  destruct (WavData_built int32_t wf Hbits Rsr Hn ltac:(lia) ltac:(lia)
              ltac:(lia))
    as (d & Ed & Hd & Dsr & Dnc & Dbp & Dn & _ & _ & Dc2).
  assert (H32 : WavData.num_samples d
                * (WavData.num_channels d * Z.of_nat (sizeof int32_t))
                < 2 ^ 32).
  { rewrite Dn, Dnc. change (Z.of_nat (sizeof int32_t)) with 4. nia. }
  destruct (save_then_read int32_t d w0 Hd ltac:(rewrite Dnc; exact Hnc)
              ltac:(rewrite Dbp; exact Hbits)
              ltac:(intro E; apply Dc2; rewrite <- Dnc, E; discriminate) H32)
    as (s & r' & Es & Hsret & Hslen & Er' & Hret' & _ & Ed').
  unfold WavData.save in Es.
  destruct (WavData.toWavFile int32_t d) as [g|] eqn:Eg; [|discriminate].
  cbn [bind] in Es.
  destruct (resample_result int32_t d 22050 ltac:(cbv; discriminate) Hd
              ltac:(rewrite Dsr; lia) ltac:(lia)) as [Hres Hdown].
  destruct (Hdown ltac:(rewrite Dsr; lia)) as (n' & En' & _).
  rewrite En' in Hres. destruct Hres as (y & Ey & _ & Ysr & _).
  pose proof (reencode_maps_any int32_t int16_t d ltac:(cbv; discriminate)
                ltac:(cbv; discriminate) Hd) as Ez.
  exists d, (WavFile.written s). split; [exact Ed|]. split.
  - unfold main. rewrite Er. f_equal. unfold main_after_read.
    rewrite Hret. cbn [negb]. fold wf. rewrite Ed.
    cbn [bind WavData.object WavData.cerr]. rewrite Eg. cbn [bind].
    rewrite Ey, Ez, Hcerr, Hbits.
    destruct can_open.
    + rewrite Es. cbn [bind]. rewrite Hsret, Ysr. reflexivity.
    + unfold WavFile.save. cbn [negb bind WavFile.save_returned
                                 WavFile.save_cerr].
      rewrite Ysr. reflexivity.
  - split.
    + rewrite Hslen, Dn, Dnc. change (Z.of_nat (sizeof int32_t)) with 4. lia.
    + exists r'. split; [exact Er'|]. split; [exact Hret'|exact Ed'].
Qed.

Lemma main_32_bit_file_witness :
  exists d out,
    WavData.WavData int32_t mono32_container
    = Done {| WavData.cerr := []; WavData.object := d |}
    /\ main (Some mono32_file) true
       = Some (Done
           {| exit_code := 0;
              printed :=
                [FileInfo 1 44100 32 2]
                ++ [SavedSuccessfully]
                ++ [ResampledRate 22050; ReencodedDepth 16];
              output_file := Some out |})
    /\ Z.of_nat (length out) = 44 + 2 * (4 * 1)
    /\ exists r',
         WavFile.read WavFile.default (Some out) = Some (Done r')
         /\ WavFile.returned r' = true
         /\ WavData.WavData int32_t (WavFile.this r')
            = Done {| WavData.cerr := []; WavData.object := d |}.
Proof.
  apply (main_32_bit_file (Some mono32_file) true
           {| WavFile.returned := true; WavFile.cerr := [];
              WavFile.this := mono32_container |} WavFile.default);
    [vm_compute; reflexivity|reflexivity|reflexivity|left; reflexivity
    |simpl; lia|simpl; lia].
Defined.


(** ** How close [convertSample] is to the affine map *)

(** The quotient of two positive doubles, bounded on both sides. *)
Lemma div_two_sided (mx my : positive) (ex ey : Z) :
  Z.pos (digits2_pos mx) = 53 -> Z.pos (digits2_pos my) = 53 ->
  -1021 <= ex - ey -> ex - ey < 1020 ->
  exists m' e',
    double.div (S754_finite false mx ex) (S754_finite false my ey)
    = S754_finite false m' e'
    /\ Z.pos (digits2_pos m') = 53
    /\ ex - ey - 53 <= e' <= ex - ey - 51
    /\ (double.value (S754_finite false mx ex)
          * (1 - double.ulp_rel) * (1 - double.ulp_rel)
        <= double.value (S754_finite false m' e')
           * double.value (S754_finite false my ey)
        <= double.value (S754_finite false mx ex) * (1 + double.ulp_rel))%R.
Proof.
  intros Hx Hy He1 He2.
  pose proof (canonical_bounds mx Hx) as Bx.
  pose proof (canonical_bounds my Hy) as By.
  unfold double.div, SFdiv, double.prec, double.emax. cbn [xorb].
  rewrite SFdiv_core_canonical by assumption.
  set (q := Z.pos mx * 2 ^ 53 / Z.pos my).
  assert (Hdm : q * Z.pos my <= Z.pos mx * 2 ^ 53 < (q + 1) * Z.pos my).
  { pose proof (Z.div_mod (Z.pos mx * 2 ^ 53) (Z.pos my) ltac:(lia)) as H1.
    pose proof (Z.mod_pos_bound (Z.pos mx * 2 ^ 53) (Z.pos my) ltac:(lia)) as H2.
    fold q in H1. nia. }
  assert (Hq : 2 ^ 52 <= q < 2 ^ 54).
  { change (2 ^ 53) with (2 * 2 ^ 52) in *. change (2 ^ 54) with (4 * 2 ^ 52).
    split; nia. }
  destruct q as [|pq|pq] eqn:Eq; try lia.
  assert (Hk : exists k, Z.pos (digits2_pos pq) = 53 + k /\ 0 <= k <= 1).
  { destruct (Z.lt_ge_cases (Z.pos pq) (2 ^ 53)).
    - exists 0. split; [|lia]. apply digits2_pos_unique.
      change (53 + 0 - 1) with 52. change (53 + 0) with 53. lia.
    - exists 1. split; [|lia]. apply digits2_pos_unique.
      change (53 + 1 - 1) with 53. change (53 + 1) with 54. lia. }
  destruct Hk as (k & Hd & Hk).
  destruct (binary_round_aux_bounds false pq (ex - ey - 53)
              (new_location (Z.pos my) ((Z.pos mx * 2 ^ 53) mod Z.pos my)) k Hd)
    as (m' & e' & -> & Hd' & He' & Hv); try lia.
  exists m', e'. split; [reflexivity|]. split; [exact Hd'|]. split; [lia|].
  cbn [double.value].
  pose proof (bpow_pos (ex - ey - 53)) as Pb. pose proof (bpow_pos ey) as Py.
  assert (Pprod : (0 < double.bpow (ex - ey - 53) * double.bpow ey)%R) by nra.
  assert (Ex : double.bpow ex
               = (double.bpow (ex - ey - 53) * double.bpow ey * IZR (2 ^ 53))%R).
  { rewrite <- bpow_IZR, <- !bpow_add by lia. f_equal. lia. }
  destruct Hdm as [H1 H2]. apply IZR_le in H1. apply IZR_lt in H2.
  rewrite !mult_IZR in H1. rewrite !mult_IZR, plus_IZR in H2.
  assert (Hq1 : (IZR (2 ^ 52) <= IZR (Z.pos pq))%R) by (apply IZR_le; lia).
  assert (Hy0 : (0 < IZR (Z.pos my))%R) by (apply IZR_lt; lia).
  assert (Hx0 : (0 < IZR (Z.pos mx))%R) by (apply IZR_lt; lia).
  rewrite Ex.
  set (P := (double.bpow (ex - ey - 53) * double.bpow ey)%R) in *.
  set (Q := IZR (Z.pos pq)) in *. set (Y := IZR (Z.pos my)) in *.
  set (X := IZR (Z.pos mx)) in *.
  set (B := double.bpow (ex - ey - 53)) in *. set (BY := double.bpow ey) in *.
  set (M := (IZR (Z.pos m') * double.bpow e')%R) in *.
  rewrite ulp_rel_eq in *. change (IZR (2 ^ 53)) with 9007199254740992%R in *.
  change (IZR (2 ^ 52)) with 4503599627370496%R in *.
  (* [Q * Y <= X * 2 ^ 53 < (Q + 1) * Y], and [M] is [Q * B] rounded *)
  assert (HQY : (0 < Q * Y)%R) by nra.
  assert (Hlow : (X * 9007199254740992 * (1 - / 4503599627370496) <= Q * Y)%R).
  { assert ((Q + 1) * (1 - / 4503599627370496) <= Q)%R by lra.
    assert ((Q + 1) * Y * (1 - / 4503599627370496) <= Q * Y)%R by nra.
    nra. }
  destruct Hv as [Hv1 Hv2].
  assert (HMY1 : (Q * Y * P * (1 - / 4503599627370496) <= M * (1 * Y * BY))%R).
  { replace (Q * Y * P * (1 - / 4503599627370496))%R
      with (Q * B * (1 - / 4503599627370496) * (Y * BY))%R by (subst P; ring).
    replace (M * (1 * Y * BY))%R with (M * (Y * BY))%R by ring.
    apply Rmult_le_compat_r; [nra|exact Hv1]. }
  assert (HMY2 : (M * (1 * Y * BY) <= Q * Y * P * (1 + / 4503599627370496))%R).
  { replace (Q * Y * P * (1 + / 4503599627370496))%R
      with (Q * B * (1 + / 4503599627370496) * (Y * BY))%R by (subst P; ring).
    replace (M * (1 * Y * BY))%R with (M * (Y * BY))%R by ring.
    apply Rmult_le_compat_r; [nra|exact Hv2]. }
  replace (1 * IZR (Z.pos m') * double.bpow e')%R with M by (subst M; ring).
  replace (1 * X * (P * 9007199254740992))%R
    with ((X * 9007199254740992) * P)%R by ring.
  set (XP := ((X * 9007199254740992) * P)%R).
  set (QYP := (Q * Y * P)%R) in *.
  assert (HA : (XP * (1 - / 4503599627370496) <= QYP)%R).
  { subst XP QYP.
    replace (X * 9007199254740992 * P * (1 - / 4503599627370496))%R
      with (X * 9007199254740992 * (1 - / 4503599627370496) * P)%R by ring.
    apply Rmult_le_compat_r; lra. }
  assert (HB : (QYP <= XP)%R).
  { subst XP QYP. apply Rmult_le_compat_r; lra. }
  assert (HXP : (0 < XP)%R) by (subst XP; nra).
  split.
  - apply Rle_trans with (QYP * (1 - / 4503599627370496))%R; [|exact HMY1].
    apply Rmult_le_compat_r; lra.
  - apply Rle_trans with (QYP * (1 + / 4503599627370496))%R; [exact HMY2|].
    apply Rmult_le_compat_r; lra.
Qed.

(** [std::round] and the cast give an integer within one half of the
    double. *)
Lemma cast_round_nearest (T : sample_type) (lo hi : Z) (x : double.t) :
  bit_width T <= 32 -> finite_in lo hi x ->
  (IZR (numeric_min T) - / 2 < double.value x < IZR (numeric_max T) + / 2)%R ->
  exists z, double.cast_to T (double.round x) = Done z /\ in_range T z
            /\ (Rabs (IZR z - double.value x) <= / 2)%R.
Proof.
  intros Hw Hx Hv.
  assert (H : exists z, double.cast_to T (double.round x) = Done z
                        /\ (Rabs (IZR z - double.value x) <= / 2)%R).
  { destruct x as [s| | |s m e]; try contradiction.
    { exists 0. split; [apply cast_to_zero|]. cbn [double.value].
      rewrite Rminus_diag, Rabs_R0. lra. }
    clear Hx. rewrite value_finite in *.
    assert (Hsmall : forall z, numeric_min T <= z <= numeric_max T ->
                       Z.abs z < 2 ^ 53)
      by (intros z Hz; apply (in_range_small T z Hw Hz)).
    unfold double.round. destruct (Z.leb_spec 0 e) as [He|He].
    - rewrite bpow_IZR, <- mult_IZR in * by exact He.
      apply between_halves in Hv.
      exists (cond_Zopp s (Z.pos m) * 2 ^ e). split.
      + unfold double.cast_to, double.trunc.
        destruct (Z.leb_spec 0 e) as [_|]; [|lia].
        replace (if s then - (Z.pos m * 2 ^ e) else Z.pos m * 2 ^ e)
          with (cond_Zopp s (Z.pos m) * 2 ^ e)
          by (destruct s; cbn [cond_Zopp]; lia).
        destruct (Z.leb_spec (numeric_min T) (cond_Zopp s (Z.pos m) * 2 ^ e));
          [|lia].
        destruct (Z.leb_spec (cond_Zopp s (Z.pos m) * 2 ^ e) (numeric_max T));
          [reflexivity|lia].
      + rewrite Rminus_diag, Rabs_R0. lra.
    - set (D := 2 ^ (- e)). set (q := Z.pos m / D). set (r := Z.pos m mod D).
      set (k := if D <=? 2 * r then q + 1 else q).
      assert (HD : 0 < D) by (apply Z.pow_pos_nonneg; lia).
      assert (Hk : 0 <= k /\ 2 * Z.pos m - D <= 2 * k * D <= 2 * Z.pos m + D).
      { pose proof (Z.div_mod (Z.pos m) D ltac:(lia)) as Hd1.
        pose proof (Z.mod_pos_bound (Z.pos m) D HD) as Hd2.
        fold q r in Hd1, Hd2.
        assert (0 <= q) by (apply Z.div_pos; lia).
        subst k. destruct (Z.leb_spec D (2 * r)); split; nia. }
      destruct Hk as [Hk0 [Hk1 Hk2]].
      apply IZR_le in Hk1, Hk2.
      rewrite minus_IZR in Hk1. rewrite plus_IZR in Hk2.
      rewrite !mult_IZR in Hk1, Hk2.
      pose proof (bpow_pos e) as Hpe.
      assert (Hinv : (IZR D * double.bpow e = 1)%R).
      { subst D. rewrite <- bpow_IZR, <- bpow_add by lia.
        replace (- e + e) with 0 by lia. reflexivity. }
      set (V := (IZR (Z.pos m) * double.bpow e)%R).
      assert (Hn : (V - / 2 <= IZR k <= V + / 2)%R).
      { assert (H1 : ((2 * IZR (Z.pos m) - IZR D) * double.bpow e
                      <= 2 * IZR k * IZR D * double.bpow e)%R)
          by (apply Rmult_le_compat_r; lra).
        assert (H2 : (2 * IZR k * IZR D * double.bpow e
                      <= (2 * IZR (Z.pos m) + IZR D) * double.bpow e)%R)
          by (apply Rmult_le_compat_r; lra).
        assert (E1 : ((2 * IZR (Z.pos m) - IZR D) * double.bpow e
                      = 2 * V - IZR D * double.bpow e)%R) by (subst V; ring).
        assert (E2 : ((2 * IZR (Z.pos m) + IZR D) * double.bpow e
                      = 2 * V + IZR D * double.bpow e)%R) by (subst V; ring).
        assert (E3 : (2 * IZR k * IZR D * double.bpow e
                      = 2 * IZR k * (IZR D * double.bpow e))%R) by ring.
        rewrite E1, E3, Hinv in H1. rewrite E2, E3, Hinv in H2. lra. }
      assert (EV : (IZR (cond_Zopp s (Z.pos m)) * double.bpow e
                    = if s then - V else V)%R).
      { destruct s; cbn [cond_Zopp]; [|reflexivity].
        rewrite opp_IZR. subst V. ring. }
      rewrite EV in *.
      assert (Ek : IZR (cond_Zopp s k) = (if s then - IZR k else IZR k)%R)
        by (destruct s; cbn [cond_Zopp]; [apply opp_IZR|reflexivity]).
      assert (Hc : (IZR (numeric_min T) - 1 < IZR (cond_Zopp s k)
                    < IZR (numeric_max T) + 1)%R)
        by (rewrite Ek; destruct s; lra).
      assert (Hz : numeric_min T <= cond_Zopp s k <= numeric_max T).
      { rewrite <- minus_IZR, <- plus_IZR in Hc.
        destruct Hc as [Hc1 Hc2]. apply lt_IZR in Hc1, Hc2. lia. }
      assert (Hclose : (Rabs (IZR (cond_Zopp s k) - (if s then - V else V))
                        <= / 2)%R)
        by (rewrite Ek; apply Rabs_le; destruct s; lra).
      unfold double.of_sign_mag. destruct (Z.eqb_spec k 0) as [Hk|Hk].
      + exists 0. split; [apply cast_to_zero|].
        rewrite Hk in Hclose. destruct s; exact Hclose.
      + exists (cond_Zopp s k). split; [|exact Hclose].
        change (binary_normalize double.prec double.emax
                  (if s then - k else k) 0 false)
          with (double.of_Z (cond_Zopp s k)).
        apply cast_to_of_Z; [exact Hz|apply Hsmall, Hz]. }
  destruct H as (z & E & Hc). exists z. split; [exact E|].
  split; [exact (cast_to_in_range T _ z E)|exact Hc].
Qed.

Lemma finite_in_positive (lo hi : Z) (x : double.t) :
  finite_in lo hi x -> (0 < double.value x)%R ->
  exists m e, x = S754_finite false m e
              /\ Z.pos (digits2_pos m) = 53 /\ lo <= e <= hi.
Proof.
  destruct x as [s| | |s m e]; cbn [finite_in double.value]; try tauto;
    try (intros _ H; lra).
  intros [Hd He] Hv. destruct s.
  - exfalso. pose proof (value_pos m e) as P. cbn [double.value] in P. lra.
  - exists m, e. repeat split; assumption || lia.
Qed.

Lemma range_min_value (T : sample_type) :
  bit_width T <= 32 ->
  finite_in (-52) 0 (range_min T)
  /\ double.value (range_min T) = IZR (numeric_min T).
Proof.
  intro Hw. destruct (numeric_small T Hw) as (Hlo & _).
  unfold range_min, numeric_min in *. destruct (is_signed T).
  - split; [apply of_Z_finite_in|apply value_of_Z]; simpl (2 ^ 53);
      simpl (2 ^ 31) in Hlo; lia.
  - split; [exact I|reflexivity].
Qed.

(** The arithmetic of [convertSample]: five roundings on values below
    [2 ^ 33] move the result by less than [2 ^ -16]. *)
Lemma convert_arith_close (From To : sample_type) (a X N A S : R) :
  bit_width From <= 32 -> bit_width To <= 32 ->
  (1 <= a <= IZR (numeric_max From - numeric_min From))%R ->
  (a * (1 - double.ulp_rel) <= X <= a * (1 + double.ulp_rel))%R ->
  (X * (1 - double.ulp_rel) * (1 - double.ulp_rel)
   <= N * IZR (numeric_max From - numeric_min From)
   <= X * (1 + double.ulp_rel))%R ->
  (N * IZR (numeric_max To - numeric_min To) * (1 - double.ulp_rel)
   <= A <= N * IZR (numeric_max To - numeric_min To) * (1 + double.ulp_rel))%R ->
  (- (double.ulp_rel * 8589934592) <= S - (A + IZR (numeric_min To))
   <= double.ulp_rel * 8589934592)%R ->
  (- 8589934592 <= A + IZR (numeric_min To) <= 8589934592)%R
  /\ (- / 65536
      <= S - (IZR (numeric_min To)
              + a * IZR (numeric_max To - numeric_min To)
                / IZR (numeric_max From - numeric_min From))
      <= / 65536)%R
  /\ (IZR (numeric_min To) - / 2 < S < IZR (numeric_max To) + / 2)%R.
Proof.
  intros HF HT. apply Z.leb_le in HF, HT.
  rewrite ulp_rel_eq.
  remember (numeric_max From - numeric_min From) as C eqn:EC.
  remember (numeric_max To - numeric_min To) as W eqn:EW.
  remember (numeric_min To) as LO eqn:ELO.
  remember (numeric_max To) as HI eqn:EHI.
  destruct From; try discriminate HF;
    destruct To; try discriminate HT;
    vm_compute in EC, EW, ELO, EHI; subst C W LO HI;
    intros Ha HX HN HA HS; (split; [|split]); lra.
Qed.

Lemma convertSample_close (From To : sample_type) (v : Z) :
  bit_width From <= 32 -> bit_width To <= 32 -> in_range From v ->
  exists z, convertSample From To v = Done z /\ in_range To z
            /\ (Rabs (IZR z - rescaled From To v) <= / 2 + / 65536)%R.
Proof.
  intros HF HT Hv.
  destruct (numeric_small From HF) as (HLF & HHF & HCF & _).
  destruct (numeric_small To HT) as (HLT & HHT & HCT & _).
  change (2 ^ 32) with 4294967296 in *.
  change (2 ^ 31) with 2147483648 in *.
  destruct (Z.eq_dec v (numeric_min From)) as [->|Hlo].
  { destruct (convertSample_known_points From To HF HT) as (Hmin & _).
    exists (numeric_min To). split; [exact Hmin|]. split.
    - unfold in_range. lia.
    - unfold rescaled. rewrite Z.sub_diag.
      replace (IZR (numeric_min To) - _)%R with 0%R
        by (unfold Rdiv; ring).
      rewrite Rabs_R0. lra. }
  unfold in_range in Hv.
  pose proof ulp_rel_pos as Hu.
  assert (Hu1 : (double.ulp_rel < 1)%R) by (rewrite ulp_rel_eq; lra).
  unfold convertSample. rewrite !range_width by assumption.
  (* [fSample - fromMin] *)
  destruct (range_min_value From HF) as [FminF VminF].
  destruct (sub_any (-52) 0 (double.of_Z v) (range_min From)
              (of_Z_finite_in v ltac:(simpl (2 ^ 53); lia)) FminF
              ltac:(lia) ltac:(lia)) as [FX VX].
  rewrite value_of_Z, VminF, <- minus_IZR in VX by (simpl (2 ^ 53); lia).
  assert (Ha : (1 <= IZR (v - numeric_min From)
                <= IZR (numeric_max From - numeric_min From))%R)
    by (split; apply IZR_le; lia).
  rewrite (Rabs_pos_eq (IZR (v - numeric_min From))) in VX by lra.
  apply Rabs_bound in VX.
  destruct (finite_in_positive _ _ _ FX ltac:(nra))
    as (m1 & e1 & E1 & Hd1 & He1).
  rewrite E1 in *. clear E1.
  (* the quotient *)
  destruct (of_Z_positive (numeric_max From - numeric_min From) ltac:(lia))
    as (mc & ec & -> & Hdc & Hec & Vc).
  destruct (div_two_sided m1 mc e1 ec Hd1 Hdc ltac:(lia) ltac:(lia))
    as (mt & et & -> & Hdt & Het & Vt).
  rewrite Vc in Vt.
  (* the product *)
  destruct (of_Z_positive (numeric_max To - numeric_min To) ltac:(lia))
    as (mr & er & -> & Hdr & Her & Vr).
  destruct (mul_bounds mt mr et er Hdt Hdr ltac:(lia) ltac:(lia))
    as (ma & ea & -> & Hda & Hea & Va).
  rewrite Vr in Va.
  (* the sum *)
  destruct (range_min_value To HT) as [FminT VminT].
  destruct (add_any (-157) 57 (S754_finite false ma ea) (range_min To)
              ltac:(split; [exact Hda|lia])
              ltac:(apply (finite_in_weaken (-52) 0); [lia|lia|exact FminT])
              ltac:(lia) ltac:(lia)) as [FS VS].
  rewrite VminT in VS.
  set (a := IZR (v - numeric_min From)) in *.
  set (X := double.value (S754_finite false m1 e1)) in *.
  set (N := double.value (S754_finite false mt et)) in *.
  set (A := double.value (S754_finite false ma ea)) in *.
  set (S := double.value (double.add (S754_finite false ma ea) (range_min To)))
    in *.
  assert (HX : (a * (1 - double.ulp_rel) <= X <= a * (1 + double.ulp_rel))%R)
    by lra.
  assert (HA0 : (- 8589934592 <= A + IZR (numeric_min To) <= 8589934592)%R).
  { assert (HS0 : (- (double.ulp_rel * 8589934592)
                   <= (A + IZR (numeric_min To)) - (A + IZR (numeric_min To))
                   <= double.ulp_rel * 8589934592)%R) by lra.
    exact (proj1 (convert_arith_close From To a X N A
                    (A + IZR (numeric_min To)) HF HT Ha HX Vt Va HS0)). }
  assert (HS : (- (double.ulp_rel * 8589934592)
                <= S - (A + IZR (numeric_min To))
                <= double.ulp_rel * 8589934592)%R).
  { apply (error_bound _ _ _ VS). apply Rabs_le. exact HA0. }
  destruct (convert_arith_close From To a X N A S HF HT Ha HX Vt Va HS)
    as (_ & Hclose & Hrange).
  destruct (cast_round_nearest To _ _ _ HT FS Hrange) as (z & Ez & Hz & Hzc).
  exists z. split; [exact Ez|]. split; [exact Hz|].
  fold S in Hzc. apply Rabs_bound in Hzc. unfold rescaled. fold a.
  apply Rabs_le. lra.
Qed.

(** X18.  [convertSample] is defined on every value of [From], for types of
    at most 32 bits, and returns a value of [To] within [1/2 + 2 ^ -16] of
    the image of the sample under the affine map that takes the range of
    [From] onto the range of [To]. *)
Theorem convertSample_accuracy (From To : sample_type) (v : Z) :
  bit_width From <= 32 -> bit_width To <= 32 -> in_range From v ->
  exists z, convertSample From To v = Done z /\ in_range To z
            /\ (Rabs (IZR z - rescaled From To v) <= / 2 + / 65536)%R.
Proof. exact (convertSample_close From To v). Qed.

Lemma convertSample_accuracy_witness :
  exists z, convertSample int16_t uint8_t 1000 = Done z /\ in_range uint8_t z
            /\ (Rabs (IZR z - rescaled int16_t uint8_t 1000)
                <= / 2 + / 65536)%R.
Proof.
  apply (convertSample_accuracy int16_t uint8_t 1000);
    [cbv; discriminate|cbv; discriminate|split; cbv; discriminate].
Defined.

(** Where the affine image is an integer, [convertSample] returns it. *)
Lemma convertSample_exact_image (From To : sample_type) (v q : Z) :
  bit_width From <= 32 -> bit_width To <= 32 -> in_range From v ->
  (v - numeric_min From) * (numeric_max To - numeric_min To)
  = q * (numeric_max From - numeric_min From) ->
  convertSample From To v = Done (numeric_min To + q).
Proof.
  intros HF HT Hv Hq.
  destruct (convertSample_close From To v HF HT Hv) as (z & -> & _ & Hz).
  f_equal.
  destruct (numeric_small From HF) as (_ & _ & HCF & _).
  assert (E : rescaled From To v = IZR (numeric_min To + q)).
  { unfold rescaled. rewrite <- mult_IZR, Hq, mult_IZR, plus_IZR.
    field. apply not_0_IZR. lia. }
  rewrite E, <- minus_IZR in Hz. apply Rabs_bound in Hz.
  assert (H1 : (IZR (-1) < IZR (z - (numeric_min To + q)))%R) by lra.
  assert (H2 : (IZR (z - (numeric_min To + q)) < IZR 1)%R) by lra.
  apply lt_IZR in H1, H2. lia.
Qed.

(** X19.  Between types of at most 32 bits, where the affine image of a
    sample is an integer, [convertSample] returns exactly that integer: the
    rounding of the five operations on doubles is absorbed by
    [std::round]. *)
Theorem convertSample_exact (From To : sample_type) (v q : Z) :
  bit_width From <= 32 -> bit_width To <= 32 -> in_range From v ->
  (v - numeric_min From) * (numeric_max To - numeric_min To)
  = q * (numeric_max From - numeric_min From) ->
  convertSample From To v = Done (numeric_min To + q).
Proof. exact (convertSample_exact_image From To v q). Qed.

Lemma convertSample_exact_witness :
  convertSample uint8_t int16_t 100 = Done (numeric_min int16_t + 25700).
Proof.
  apply (convertSample_exact uint8_t int16_t 100 25700);
    [cbv; discriminate|cbv; discriminate|split; cbv; discriminate|reflexivity].
Defined.

(** The step of a widening conversion: [(2 ^ b - 1) / (2 ^ a - 1)]. *)
Lemma range_ratio (From To : sample_type) :
  bit_width To <= 32 -> (bit_width From | bit_width To) ->
  bit_width From <= 32
  /\ numeric_max To - numeric_min To
     = (numeric_max To - numeric_min To) / (numeric_max From - numeric_min From)
       * (numeric_max From - numeric_min From).
Proof.
  intros HT [k Hk].
  destruct From, To; cbv in HT; try (exfalso; apply HT; reflexivity);
    cbv [bit_width sizeof] in Hk; simpl in Hk; try lia;
    (split; [cbv; discriminate|reflexivity]).
Qed.

Lemma converted_widening (From To : sample_type) (v : Z) :
  bit_width To <= 32 -> (bit_width From | bit_width To) -> in_range From v ->
  converted From To v
  = numeric_min To
    + (v - numeric_min From)
      * ((numeric_max To - numeric_min To)
         / (numeric_max From - numeric_min From))
  /\ in_range To (converted From To v)
  /\ converted To From (converted From To v) = v.
Proof.
  intros HT Hdiv Hv. destruct (range_ratio From To HT Hdiv) as [HF Hr].
  set (k := (numeric_max To - numeric_min To)
            / (numeric_max From - numeric_min From)) in *.
  assert (E : converted From To v
              = numeric_min To + (v - numeric_min From) * k).
  { unfold converted.
    rewrite (convertSample_exact_image From To v ((v - numeric_min From) * k))
      by (assumption || (rewrite Hr at 1; ring)).
    reflexivity. }
  destruct (convertSample_total_any From To v HF HT Hv) as [_ Hin].
  split; [exact E|]. split; [exact Hin|].
  unfold converted at 1.
  rewrite (convertSample_exact_image To From _ (v - numeric_min From))
    by (assumption || (rewrite E, Hr at 1; ring)).
  lia.
Qed.

Lemma map_converted_back (From To : sample_type) (l : list Z) :
  bit_width To <= 32 -> (bit_width From | bit_width To) ->
  Forall (in_range From) l ->
  map (converted To From) (map (converted From To) l) = l
  /\ Forall (in_range To) (map (converted From To) l).
Proof.
  intros HT Hdiv. induction 1 as [|v l Hv _ [IH1 IH2]]; [split; constructor|].
  destruct (converted_widening From To v HT Hdiv Hv) as (_ & Hin & Hback).
  cbn [map]. rewrite Hback, IH1. split; [reflexivity|].
  constructor; assumption.
Qed.

(** X20.  Widening and narrowing back loses nothing: when [To] has at most
    32 bits and the width of [From] divides the width of [To] (the same
    width, 8 to 16 or 32 bits, 16 to 32 bits, of either signedness),
    [reencode<From, To>] of a well-formed input places each sample of
    [channel1], and of [channel2] when stereo, on the grid of step
    [(2 ^ b - 1) / (2 ^ a - 1)] of [To], and [reencode<To, From>] of the
    result has the samples of the input. *)
Theorem reencode_widen_then_narrow (From To : sample_type) (x : WavData.t) :
  bit_width To <= 32 -> (bit_width From | bit_width To) -> typed From x ->
  exists y,
    reencode From To x = Done y
    /\ typed To y
    /\ WavData.channel1 y
       = map (fun v => numeric_min To
                       + (v - numeric_min From)
                         * ((numeric_max To - numeric_min To)
                            / (numeric_max From - numeric_min From)))
             (WavData.channel1 x)
    /\ WavData.channel2 y
       = (if WavData.num_channels x =? 2
          then map (fun v => numeric_min To
                             + (v - numeric_min From)
                               * ((numeric_max To - numeric_min To)
                                  / (numeric_max From - numeric_min From)))
                   (WavData.channel2 x)
          else [])
    /\ reencode To From y
       = Done {| WavData.sample_rate := WavData.sample_rate x;
                 WavData.num_channels := WavData.num_channels x;
                 WavData.bits_per_sample := bit_width From;
                 WavData.num_samples := WavData.num_samples x;
                 WavData.channel1 := WavData.channel1 x;
                 WavData.channel2 :=
                   if WavData.num_channels x =? 2
                   then WavData.channel2 x else [] |}.
Proof.
  intros HT Hdiv Hx. destruct (range_ratio From To HT Hdiv) as [HF _].
  pose proof Hx as (Hrate & Hn & Hl1 & Hl2 & Hr1 & Hr2).
  destruct (map_converted_back From To _ HT Hdiv Hr1) as [B1 F1].
  destruct (map_converted_back From To _ HT Hdiv Hr2) as [B2 F2].
  rewrite (reencode_maps_any From To x HF HT Hx).
  eexists. split; [reflexivity|].
  assert (Hy : typed To
           {| WavData.sample_rate := WavData.sample_rate x;
              WavData.num_channels := WavData.num_channels x;
              WavData.bits_per_sample := bit_width To;
              WavData.num_samples := WavData.num_samples x;
              WavData.channel1 := map (converted From To) (WavData.channel1 x);
              WavData.channel2 :=
                if WavData.num_channels x =? 2
                then map (converted From To) (WavData.channel2 x) else [] |}).
  { unfold typed.
    cbn [WavData.sample_rate WavData.num_channels WavData.num_samples
         WavData.channel1 WavData.channel2].
    split; [exact Hrate|]. split; [exact Hn|].
    split; [rewrite length_map; exact Hl1|].
    split; [intro E; rewrite E; cbn [Z.eqb Pos.eqb]; rewrite length_map;
            exact (Hl2 E)|].
    split; [exact F1|].
    destruct (WavData.num_channels x =? 2); [exact F2|constructor]. }
  split; [exact Hy|]. split; [|split].
  - cbn [WavData.channel1]. apply map_ext_in. intros v Hv.
    rewrite Forall_forall in Hr1.
    exact (proj1 (converted_widening From To v HT Hdiv (Hr1 v Hv))).
  - cbn [WavData.channel2].
    destruct (WavData.num_channels x =? 2); [|reflexivity].
    apply map_ext_in. intros v Hv. rewrite Forall_forall in Hr2.
    exact (proj1 (converted_widening From To v HT Hdiv (Hr2 v Hv))).
  - rewrite (reencode_maps_any To From _ HT HF Hy).
    cbn [WavData.sample_rate WavData.num_channels WavData.num_samples
         WavData.channel1 WavData.channel2].
    rewrite B1. destruct (WavData.num_channels x =? 2);
      [rewrite B2|]; reflexivity.
Qed.

Lemma reencode_widen_then_narrow_witness :
  exists y,
    reencode int16_t int32_t stereo16_channels = Done y
    /\ typed int32_t y
    /\ WavData.channel1 y
       = map (fun v => numeric_min int32_t
                       + (v - numeric_min int16_t)
                         * ((numeric_max int32_t - numeric_min int32_t)
                            / (numeric_max int16_t - numeric_min int16_t)))
             (WavData.channel1 stereo16_channels)
    /\ WavData.channel2 y
       = (if WavData.num_channels stereo16_channels =? 2
          then map (fun v => numeric_min int32_t
                             + (v - numeric_min int16_t)
                               * ((numeric_max int32_t - numeric_min int32_t)
                                  / (numeric_max int16_t
                                     - numeric_min int16_t)))
                   (WavData.channel2 stereo16_channels)
          else [])
    /\ reencode int32_t int16_t y
       = Done {| WavData.sample_rate := WavData.sample_rate stereo16_channels;
                 WavData.num_channels :=
                   WavData.num_channels stereo16_channels;
                 WavData.bits_per_sample := bit_width int16_t;
                 WavData.num_samples := WavData.num_samples stereo16_channels;
                 WavData.channel1 := WavData.channel1 stereo16_channels;
                 WavData.channel2 :=
                   if WavData.num_channels stereo16_channels =? 2
                   then WavData.channel2 stereo16_channels else [] |}.
Proof.
  apply (reencode_widen_then_narrow int16_t int32_t stereo16_channels);
    [cbv; discriminate|exists 2; reflexivity|exact typed_stereo16_channels].
Defined.

Lemma map_converted_same (T : sample_type) (l : list Z) :
  bit_width T <= 32 -> Forall (in_range T) l -> map (converted T T) l = l.
Proof.
  intro HT. induction 1 as [|v l Hv _ IH]; [reflexivity|].
  cbn [map]. rewrite IH. f_equal. unfold converted.
  rewrite (convertSample_exact_image T T v (v - numeric_min T))
    by (assumption || reflexivity).
  lia.
Qed.

(** X21.  For a type [T] of at most 32 bits and a well-formed input,
    [reencode<T, T>] returns the samples unchanged.  The object it returns
    has [bits_per_sample = 8 * sizeof (T)] whatever the input
    declared, and an empty [channel2] unless the input is stereo. *)
Theorem reencode_same_type (T : sample_type) (x : WavData.t) :
  bit_width T <= 32 -> typed T x ->
  reencode T T x
  = Done {| WavData.sample_rate := WavData.sample_rate x;
            WavData.num_channels := WavData.num_channels x;
            WavData.bits_per_sample := bit_width T;
            WavData.num_samples := WavData.num_samples x;
            WavData.channel1 := WavData.channel1 x;
            WavData.channel2 :=
              if WavData.num_channels x =? 2 then WavData.channel2 x else [] |}.
Proof.
  intros HT Hx. rewrite (reencode_maps_any T T x HT HT Hx).
  destruct Hx as (_ & _ & _ & _ & Hr1 & Hr2).
  rewrite !map_converted_same by assumption. reflexivity.
Qed.

Lemma reencode_same_type_witness :
  reencode int16_t int16_t stereo16_channels
  = Done {| WavData.sample_rate := WavData.sample_rate stereo16_channels;
            WavData.num_channels := WavData.num_channels stereo16_channels;
            WavData.bits_per_sample := bit_width int16_t;
            WavData.num_samples := WavData.num_samples stereo16_channels;
            WavData.channel1 := WavData.channel1 stereo16_channels;
            WavData.channel2 :=
              if WavData.num_channels stereo16_channels =? 2
              then WavData.channel2 stereo16_channels else [] |}.
Proof.
  apply (reencode_same_type int16_t stereo16_channels);
    [cbv; discriminate|exact typed_stereo16_channels].
Defined.


(** ** [resample] stays between the samples it interpolates *)

(** The interpolated double is within [2 ^ -16] of the convex combination,
    which lies between the two samples. *)
Lemma interp_arith_between (f a s0 s1 p0 p1 r L H : R) :
  (- 4294967296 <= s0 <= 4294967296)%R ->
  (- 4294967296 <= s1 <= 4294967296)%R ->
  (L <= s0 <= H)%R -> (L <= s1 <= H)%R ->
  (0 <= f <= 1 + double.ulp_rel)%R ->
  (Rabs (a - (1 - f)) <= double.ulp_rel * Rabs (1 - f))%R ->
  (Rabs (p0 - a * s0) <= double.ulp_rel * Rabs (a * s0))%R ->
  (Rabs (p1 - f * s1) <= double.ulp_rel * Rabs (f * s1))%R ->
  (Rabs (r - (p0 + p1)) <= double.ulp_rel * Rabs (p0 + p1))%R ->
  (L - / 2 < r < H + / 2)%R.
Proof.
  intros Hs0 Hs1 HL0 HL1 Hf Ha Hp0 Hp1 Hr.
  pose proof ulp_rel_pos as Hu.
  assert (Hu1 : (double.ulp_rel <= / 4503599627370496)%R)
    by (rewrite ulp_rel_eq; lra).
  assert (Ha' : (- double.ulp_rel <= a - (1 - f) <= double.ulp_rel)%R).
  { pose proof (error_bound a (1 - f) 1 Ha) as E. rewrite Rmult_1_r in E.
    apply E. apply Rabs_le. lra. }
  assert (As0 : (Rabs s0 <= 4294967296)%R) by (apply Rabs_le; lra).
  assert (As1 : (Rabs s1 <= 4294967296)%R) by (apply Rabs_le; lra).
  (* the convex combination *)
  set (F0 := ((1 - f) * s0)%R). set (Q := (f * s1)%R) in *.
  set (P := (a * s0)%R) in *. set (D := ((a - (1 - f)) * s0)%R).
  assert (EP : (P = F0 + D)%R) by (unfold P, F0, D; ring).
  assert (BD : (- (double.ulp_rel * 4294967296) <= D
                <= double.ulp_rel * 4294967296)%R).
  { apply Rabs_bound. unfold D. rewrite Rabs_mult.
    apply Rmult_le_compat; try apply Rabs_pos; [apply Rabs_le; lra|exact As0]. }
  assert (BF0 : (Rabs F0 <= 4294967296)%R).
  { unfold F0. rewrite Rabs_mult.
    replace 4294967296%R with (1 * 4294967296)%R by ring.
    apply Rmult_le_compat; try apply Rabs_pos; [apply Rabs_le; lra|exact As0]. }
  assert (BQ : (Rabs Q <= 2 * 4294967296)%R).
  { unfold Q. rewrite Rabs_mult.
    apply Rmult_le_compat; try apply Rabs_pos; [apply Rabs_le; lra|exact As1]. }
  assert (BP : (Rabs P <= 2 * 4294967296)%R).
  { apply Rabs_bound in BF0. apply Rabs_le. lra. }
  pose proof (error_bound p0 P _ Hp0 BP) as E0.
  pose proof (error_bound p1 Q _ Hp1 BQ) as E1.
  assert (Hsum : (Rabs (p0 + p1) <= 8 * 4294967296)%R).
  { apply Rabs_bound in BP, BQ. apply Rabs_le. lra. }
  pose proof (error_bound r (p0 + p1) _ Hr Hsum) as E2.
  assert (Hconv : (L - double.ulp_rel * 8589934592 <= F0 + Q
                   <= H + double.ulp_rel * 8589934592)%R).
  { destruct (Rle_lt_dec f 1) as [Hle|Hgt].
    - assert (0 <= (1 - f) * (s0 - L))%R by (apply Rmult_le_pos; lra).
      assert (0 <= f * (s1 - L))%R by (apply Rmult_le_pos; lra).
      assert (0 <= (1 - f) * (H - s0))%R by (apply Rmult_le_pos; lra).
      assert (0 <= f * (H - s1))%R by (apply Rmult_le_pos; lra).
      assert (F0 + Q - L = (1 - f) * (s0 - L) + f * (s1 - L))%R
        by (unfold F0, Q; ring).
      assert (H - (F0 + Q) = (1 - f) * (H - s0) + f * (H - s1))%R
        by (unfold F0, Q; ring).
      lra.
    - assert (EQ : (F0 + Q = s1 + (f - 1) * (s1 - s0))%R)
        by (unfold F0, Q; ring).
      assert (Rabs ((f - 1) * (s1 - s0))
              <= double.ulp_rel * 8589934592)%R.
      { rewrite Rabs_mult.
        apply Rmult_le_compat; try apply Rabs_pos; apply Rabs_le; lra. }
      apply Rabs_bound in H0. lra. }
  rewrite ulp_rel_eq in *. apply Rabs_bound in BP, BQ. split; lra.
Qed.

Lemma interpolate_between (T : sample_type) (channel : list Z) (i0 i1 : Z)
    (frac : double.t) :
  bit_width T <= 32 -> Forall (in_range T) channel ->
  0 <= i0 < Z.of_nat (length channel) ->
  0 <= i1 < Z.of_nat (length channel) ->
  finite_in (-300) 300 frac ->
  (0 <= double.value frac <= 1 + double.ulp_rel)%R ->
  exists v, interpolate T channel i0 i1 frac = Done v /\ in_range T v
            /\ Z.min (nth (Z.to_nat i0) channel 0) (nth (Z.to_nat i1) channel 0)
               <= v
               <= Z.max (nth (Z.to_nat i0) channel 0)
                        (nth (Z.to_nat i1) channel 0).
Proof.
  intros Hw Hch H0 H1 Hfin Hfrac. unfold interpolate.
  assert (G0 : vec_get channel i0 = Done (nth (Z.to_nat i0) channel 0))
    by (rewrite <- (Z2Nat.id i0) at 1 by lia; apply vec_get_in_range; lia).
  assert (G1 : vec_get channel i1 = Done (nth (Z.to_nat i1) channel 0))
    by (rewrite <- (Z2Nat.id i1) at 1 by lia; apply vec_get_in_range; lia).
  rewrite G0, G1. cbn [bind].
  rewrite Forall_forall in Hch.
  assert (Hs0 : in_range T (nth (Z.to_nat i0) channel 0))
    by (apply Hch, nth_In; lia).
  assert (Hs1 : in_range T (nth (Z.to_nat i1) channel 0))
    by (apply Hch, nth_In; lia).
  set (s0 := nth (Z.to_nat i0) channel 0) in *.
  set (s1 := nth (Z.to_nat i1) channel 0) in *.
  pose proof (in_range_small T s0 Hw Hs0) as Hb0.
  pose proof (in_range_small T s1 Hw Hs1) as Hb1.
  assert (Hone : finite_in (-300) 300 double.one)
    by (rewrite one_eq; split; [reflexivity|lia]).
  destruct (sub_any (-300) 300 double.one frac Hone Hfin ltac:(lia) ltac:(lia))
    as [Fa Ea]. rewrite value_one in Ea.
  destruct (mul_any (-352) 302 (-52) 0 _ (double.of_Z s0) Fa
              (of_Z_finite_in s0 Hb0) ltac:(lia) ltac:(lia)) as [Fp0 Ep0].
  destruct (mul_any (-300) 300 (-52) 0 frac (double.of_Z s1) Hfin
              (of_Z_finite_in s1 Hb1) ltac:(lia) ltac:(lia)) as [Fp1 Ep1].
  rewrite (value_of_Z s0 Hb0) in Ep0. rewrite (value_of_Z s1 Hb1) in Ep1.
  apply (finite_in_weaken _ _ (-352) 356) in Fp0; [|lia|lia].
  apply (finite_in_weaken _ _ (-352) 356) in Fp1; [|lia|lia].
  destruct (add_any (-352) 356 _ _ Fp0 Fp1 ltac:(lia) ltac:(lia))
    as [Fr Er].
  destruct (numeric_small T Hw) as (HLT & HHT & _).
  change (2 ^ 32) with 4294967296 in HHT.
  change (2 ^ 31) with 2147483648 in HLT.
  assert (R0 : (- 4294967296 <= IZR s0 <= 4294967296)%R).
  { destruct Hs0. split; [replace (- 4294967296)%R with (IZR (- 4294967296))
                            by reflexivity|]; apply IZR_le; lia. }
  assert (R1 : (- 4294967296 <= IZR s1 <= 4294967296)%R).
  { destruct Hs1. split; [replace (- 4294967296)%R with (IZR (- 4294967296))
                            by reflexivity|]; apply IZR_le; lia. }
  assert (Hbetween : forall lo hi, lo <= s0 <= hi -> lo <= s1 <= hi ->
            (IZR lo - / 2
             < double.value
                 (double.add (double.mul (double.sub double.one frac)
                                         (double.of_Z s0))
                             (double.mul frac (double.of_Z s1)))
             < IZR hi + / 2)%R).
  { intros lo hi B0 B1.
    apply (interp_arith_between (double.value frac)
             (double.value (double.sub double.one frac)) (IZR s0) (IZR s1)
             (double.value (double.mul (double.sub double.one frac)
                              (double.of_Z s0)))
             (double.value (double.mul frac (double.of_Z s1))));
      try assumption; split; apply IZR_le; lia. }
  destruct (cast_round_nearest T _ _ _ Hw Fr
              (Hbetween _ _ Hs0 Hs1)) as (z & Ez & Hz & Hzc).
  exists z. split; [exact Ez|]. split; [exact Hz|].
  specialize (Hbetween (Z.min s0 s1) (Z.max s0 s1) ltac:(lia) ltac:(lia)).
  apply Rabs_bound in Hzc.
  assert (H2 : (IZR (Z.min s0 s1 - 1) < IZR z)%R) by (rewrite minus_IZR; lra).
  assert (H3 : (IZR z < IZR (Z.max s0 s1 + 1))%R) by (rewrite plus_IZR; lra).
  apply lt_IZR in H2, H3. lia.
Qed.

Lemma for_loop_indexed {St : Type} (Inv : nat -> St -> Prop)
    (body : Z -> St -> outcome St) (count : nat) : forall (i : nat) (s : St),
  Inv i s ->
  (forall (j : nat) (s : St), (i <= j < i + count)%nat -> Inv j s ->
     exists s', body (Z.of_nat j) s = Done s' /\ Inv (S j) s') ->
  exists s', for_loop (Z.of_nat i) count body s = Done s'
             /\ Inv (i + count)%nat s'.
Proof.
  induction count as [|k IH]; intros i s Hs Hbody.
  - exists s. split; [reflexivity|]. now rewrite Nat.add_0_r.
  - rewrite for_loop_S.
    destruct (Hbody i s ltac:(lia) Hs) as (s1 & -> & H1). cbn [bind].
    replace (Z.of_nat i + 1) with (Z.of_nat (S i)) by lia.
    replace (i + S k)%nat with (S i + k)%nat by lia.
    apply IH; [exact H1|]. intros j s0 Hj. apply Hbody. lia.
Qed.

(** One turn of the loop of [resample] keeps the samples written so far
    within any bounds that hold for the input. *)
Lemma resample_body_bounded (T : sample_type) (x : WavData.t)
    (new_sample_rate newNumSamples : Z) (j : nat) (ch : list Z * list Z)
    (P1 P2 : Z -> Prop) :
  bit_width T <= 32 -> typed T x ->
  1 <= WavData.sample_rate x -> 1 <= WavData.num_samples x ->
  0 <= new_sample_rate < 2 ^ 32 ->
  resample_newNumSamples x new_sample_rate = Done newNumSamples ->
  (j < Z.to_nat newNumSamples)%nat ->
  (forall a b v, In a (WavData.channel1 x) -> In b (WavData.channel1 x) ->
     Z.min a b <= v <= Z.max a b -> P1 v) ->
  (forall a b v, In a (WavData.channel2 x) -> In b (WavData.channel2 x) ->
     Z.min a b <= v <= Z.max a b -> P2 v) ->
  resampling T x (Z.to_nat newNumSamples) ch
  /\ Forall P1 (firstn j (fst ch))
  /\ (WavData.num_channels x = 2 -> Forall P2 (firstn j (snd ch))) ->
  exists ch',
    resample_body T x (resample_ratio x new_sample_rate) (Z.of_nat j) ch
    = Done ch'
    /\ resampling T x (Z.to_nat newNumSamples) ch'
    /\ Forall P1 (firstn (S j) (fst ch'))
    /\ (WavData.num_channels x = 2 -> Forall P2 (firstn (S j) (snd ch'))).
Proof.
  intros Hw (Hsr & Hn & Hl1 & Hl2 & Hr1 & Hr2) Hsr1 Hn1 Hnew Hnum Hj
         HP1 HP2 ((Hc1 & Hf1 & Hst & Hmono) & Hb1 & Hb2).
  destruct ch as [c1 c2]. cbn [fst snd] in *.
  destruct (resample_frac x new_sample_rate newNumSamples (Z.of_nat j)
              ltac:(lia) ltac:(lia) Hnew Hnum ltac:(lia))
    as (q & Eq & Hq & Ffrac & Vfrac).
  unfold resample_body. rewrite Eq. cbn [bind fst snd].
  assert (Hq1 : 0 <= resample_index1 x q <= WavData.num_samples x - 1).
  { unfold resample_index1. rewrite u32_small by lia.
    destruct (Z.ltb_spec (q + 1) (WavData.num_samples x)); lia. }
  assert (L0 : (Z.to_nat q < length (WavData.channel1 x))%nat) by lia.
  assert (L1 : (Z.to_nat (resample_index1 x q)
                < length (WavData.channel1 x))%nat) by lia.
  destruct (interpolate_between T (WavData.channel1 x) q (resample_index1 x q)
              _ Hw Hr1 ltac:(lia) ltac:(lia) Ffrac Vfrac)
    as (v1 & -> & Hv1 & Hm1).
  assert (Pv1 : P1 v1)
    by (apply (HP1 _ _ v1 (nth_In _ 0 L0) (nth_In _ 0 L1) Hm1)).
  cbn [bind]. rewrite vec_set_in_range by lia. cbn [bind].
  assert (Hfirst1 : Forall P1 (firstn (S j)
                                (firstn j c1 ++ v1 :: skipn (S j) c1))).
  { rewrite firstn_set by lia. apply Forall_app. split; [exact Hb1|].
    constructor; [exact Pv1|constructor]. }
  destruct (Z.eqb_spec (WavData.num_channels x) 2) as [E2|E2].
  - specialize (Hl2 E2). destruct (Hst E2) as [Hc2 Hf2].
    destruct (interpolate_between T (WavData.channel2 x) q (resample_index1 x q)
                _ Hw Hr2 ltac:(lia) ltac:(lia) Ffrac Vfrac)
      as (v2 & -> & Hv2 & Hm2).
    assert (Pv2 : P2 v2).
    { assert (L2 : (Z.to_nat q < length (WavData.channel2 x))%nat) by lia.
      assert (L3 : (Z.to_nat (resample_index1 x q)
                    < length (WavData.channel2 x))%nat) by lia.
      apply (HP2 _ _ v2 (nth_In _ 0 L2) (nth_In _ 0 L3) Hm2). }
    cbn [bind]. rewrite vec_set_in_range by lia. cbn [bind].
    eexists. split; [reflexivity|].
    unfold resampling. cbn [fst snd]. split; [|split; [exact Hfirst1|]].
    + split; [rewrite length_set; lia|]. split; [now apply Forall_set|].
      split; [intros _; split; [rewrite length_set; lia|now apply Forall_set]|].
      intro H. contradiction.
    + intros _. rewrite firstn_set by lia. apply Forall_app.
      split; [exact (Hb2 E2)|]. constructor; [exact Pv2|constructor].
  - eexists. split; [reflexivity|].
    unfold resampling. cbn [fst snd]. split; [|split; [exact Hfirst1|]].
    + split; [rewrite length_set; lia|]. split; [now apply Forall_set|].
      split; [intro H; contradiction|]. intros _. now apply Hmono.
    + intro H. contradiction.
Qed.

(** X22.  For a sample type of at most 32 bits and a well-formed input
    with a nonzero rate, [resample] never overshoots: whenever the output
    length is defined, every sample of an output channel lies between two samples of
    the same input channel (the two it was interpolated from), so the
    output stays within the extremes of the input and a constant channel
    stays constant. *)
Theorem resample_no_overshoot (T : sample_type) (x : WavData.t)
    (new_sample_rate n' : Z) :
  bit_width T <= 32 -> typed T x -> WavData.sample_rate x <> 0 ->
  0 <= new_sample_rate < 2 ^ 32 ->
  resample_newNumSamples x new_sample_rate = Done n' ->
  exists y,
    resample T x new_sample_rate = Done y
    /\ Z.of_nat (length (WavData.channel1 y)) = n'
    /\ (forall v, In v (WavData.channel1 y) ->
          exists a b, In a (WavData.channel1 x) /\ In b (WavData.channel1 x)
                      /\ Z.min a b <= v <= Z.max a b)
    /\ (WavData.num_channels x = 2 ->
        forall v, In v (WavData.channel2 y) ->
          exists a b, In a (WavData.channel2 x) /\ In b (WavData.channel2 x)
                      /\ Z.min a b <= v <= Z.max a b).
Proof.
  intros Hw Hx Hsr0 Hnew Hnum.
  pose proof Hx as (Hsr & Hn & Hl1 & Hl2 & Hr1 & Hr2).
  assert (Hn' : 0 <= n' < 2 ^ 32).
  { pose proof Hnum as H. apply cast_to_in_range in H. destruct H as [H1 H2].
    change (numeric_min uint32_t) with 0 in H1.
    change (numeric_max uint32_t) with 4294967295 in H2. simpl (2 ^ 32). lia. }
  assert (Hpos : (0 < Z.to_nat n')%nat -> 1 <= WavData.num_samples x).
  { intro H. destruct (Z.eq_dec (WavData.num_samples x) 0) as [E|E]; [|lia].
    rewrite (resample_length_of_empty x new_sample_rate) in Hnum by lia.
    injection Hnum as <-. cbn in H. lia. }
  set (P1 := fun v => exists a b, In a (WavData.channel1 x)
                                  /\ In b (WavData.channel1 x)
                                  /\ Z.min a b <= v <= Z.max a b).
  set (P2 := fun v => exists a b, In a (WavData.channel2 x)
                                  /\ In b (WavData.channel2 x)
                                  /\ Z.min a b <= v <= Z.max a b).
  unfold resample. rewrite Hnum. cbn [bind].
  destruct (for_loop_indexed
              (fun j ch => resampling T x (Z.to_nat n') ch
                           /\ Forall P1 (firstn j (fst ch))
                           /\ (WavData.num_channels x = 2 ->
                               Forall P2 (firstn j (snd ch))))
              (resample_body T x (resample_ratio x new_sample_rate))
              (Z.to_nat n') 0
              (resize 0 (WavData.channel1 x) (Z.to_nat n'),
               if WavData.num_channels x =? 2
               then resize 0 (WavData.channel2 x) (Z.to_nat n')
               else WavData.channel2 x))
    as (ch & Ech & (Hc1 & Hf1 & Hst & Hmono) & Hb1 & Hb2).
  - cbn [fst snd firstn]. split; [|split; [constructor|intros _; constructor]].
    unfold resampling. cbn [fst snd].
    split; [apply length_resize|]. split; [now apply Forall_resize|].
    split.
    + intros ->. cbn [Z.eqb Pos.eqb].
      split; [apply length_resize|now apply Forall_resize].
    + intro E. destruct (Z.eqb_spec (WavData.num_channels x) 2);
        [contradiction|reflexivity].
  - intros j s Hj Hs.
    apply (resample_body_bounded T x new_sample_rate n' j s P1 P2 Hw Hx);
      try (assumption || lia).
    + intros a b v Ha Hb Hv. exists a, b. repeat split; assumption || lia.
    + intros a b v Ha Hb Hv. exists a, b. repeat split; assumption || lia.
  - cbn [Z.of_nat] in Ech. rewrite Ech. cbn [bind].
    eexists. split; [reflexivity|].
    cbn [WavData.channel1 WavData.channel2 Nat.add] in *.
    split; [rewrite Hc1; lia|].
    rewrite <- Hc1, firstn_all in Hb1. rewrite Forall_forall in Hb1.
    split; [exact Hb1|]. intros E2 v Hv.
    specialize (Hb2 E2). destruct (Hst E2) as [Hc2 _].
    rewrite <- Hc2, firstn_all in Hb2. rewrite Forall_forall in Hb2.
    now apply Hb2.
Qed.

Lemma resample_no_overshoot_witness :
  exists y,
    resample int16_t mono16_channels 16000 = Done y
    /\ Z.of_nat (length (WavData.channel1 y)) = 8
    /\ (forall v, In v (WavData.channel1 y) ->
          exists a b, In a (WavData.channel1 mono16_channels)
                      /\ In b (WavData.channel1 mono16_channels)
                      /\ Z.min a b <= v <= Z.max a b)
    /\ (WavData.num_channels mono16_channels = 2 ->
        forall v, In v (WavData.channel2 y) ->
          exists a b, In a (WavData.channel2 mono16_channels)
                      /\ In b (WavData.channel2 mono16_channels)
                      /\ Z.min a b <= v <= Z.max a b).
Proof.
  apply (resample_no_overshoot int16_t mono16_channels 16000 8);
    [cbv; discriminate|exact typed_mono16_channels|discriminate|simpl; lia
    |vm_compute; reflexivity].
Defined.


(** ** From a file to a container and back *)

(** X23.  [save] inverts [read] on canonical files: for a file made of the
    twelve-byte header, a 16-byte PCM ["fmt "] chunk whose block alignment
    and byte rate are the ones its channel count, bit depth and rate imply,
    and a ["data"] chunk, [read] returns [true] and [save] of the object
    writes the file back byte for byte, whatever the size field of the
    header says. *)
Theorem save_read_inverse (w : WavFile.t) (size nc sr br ba bps : Z)
    (body : list byte) :
  0 <= nc < 2 ^ 16 -> 0 <= sr < 2 ^ 32 -> 0 <= bps < 2 ^ 16 ->
  Z.of_nat (length body) < 2 ^ 32 ->
  ba = u16 (nc * u16 (bps / 8)) -> ba <> 0 ->
  br = u32 (sr * ba) ->
  let file := riff_header size
              ++ chunks_bytes [FmtChunk 1 nc sr br ba bps []; DataChunk body] in
  exists r s,
    WavFile.read w (Some file) = Some (Done r)
    /\ WavFile.returned r = true
    /\ WavFile.save (WavFile.this r) true = Done s
    /\ WavFile.save_returned s = true
    /\ WavFile.written s = file.
Proof.
  intros Hnc Hsr Hbps Hbody Eba Hba Ebr file.
  assert (Hba16 : u16 ba = ba)
    by (rewrite Eba; unfold u16; apply Z.mod_mod; lia).
  destruct (read_chunks w size
              [FmtChunk 1 nc sr br ba bps []; DataChunk body] [])
    as (f' & Er).
  { cbn [forallb chunk_ok length Z.of_nat]. rewrite andb_true_r.
    apply andb_true_intro. split; [reflexivity|apply Z.ltb_lt; exact Hbody]. }
  { left. reflexivity. }
  rewrite app_nil_r in Er. fold file in Er.
  cbn [walk absorb fst snd andb orb is_fmt is_data] in Er.
  unfold WavFile.after_subchunks in Er.
  cbn [WavFile.self WavFile.foundFmt WavFile.foundData negb
       WavFile.block_align WavFile.data_size WavFile.with_num_samples
       WavFile.chunk_size WavFile.num_channels WavFile.sample_rate
       WavFile.bits_per_sample WavFile.raw_data WavFile.with_chunk_size] in Er.
  rewrite Hba16 in Er.
  destruct (Z.eqb_spec ba 0) as [|_]; [contradiction|].
  eexists. 
  destruct (save_written
              {| WavFile.chunk_size := size mod 2 ^ 32;
                 WavFile.num_channels := u16 nc;
                 WavFile.sample_rate := u32 sr;
                 WavFile.block_align := ba;
                 WavFile.bits_per_sample := u16 bps;
                 WavFile.data_size := Z.of_nat (length body);
                 WavFile.num_samples := Z.of_nat (length body) / ba;
                 WavFile.raw_data := body |})
    as (s & Es & Hs & Hw).
  { cbn [WavFile.data_size WavFile.raw_data]. lia. }
  exists s. split; [exact Er|]. split; [reflexivity|].
  cbn [WavFile.this]. split; [exact Es|]. split; [exact Hs|].
  rewrite Hw.
  cbn [WavFile.chunk_size WavFile.num_channels WavFile.sample_rate
       WavFile.bits_per_sample WavFile.data_size WavFile.raw_data].
  rewrite Nat2Z.id, firstn_all.
  rewrite (u16_small nc), (u32_small sr), (u16_small bps) by assumption.
  rewrite <- Eba, <- Ebr.
  change (2 ^ 32) with (2 ^ (8 * Z.of_nat 4)). rewrite le_encode_mod.
  unfold file, riff_header, chunks_bytes.
  cbn [flat_map chunk_bytes length Z.of_nat].
  change (16 + 0) with 16. rewrite !app_nil_r, <- !app_assoc. reflexivity.
Qed.

Lemma save_read_inverse_witness :
  exists r s,
    WavFile.read WavFile.default
      (Some (riff_header 44
             ++ chunks_bytes [FmtChunk 1 1 8000 16000 2 16 [];
                              DataChunk four_samples]))
    = Some (Done r)
    /\ WavFile.returned r = true
    /\ WavFile.save (WavFile.this r) true = Done s
    /\ WavFile.save_returned s = true
    /\ WavFile.written s
       = riff_header 44
         ++ chunks_bytes [FmtChunk 1 1 8000 16000 2 16 [];
                          DataChunk four_samples].
Proof.
  apply (save_read_inverse WavFile.default 44 1 8000 16000 2 16 four_samples);
    [simpl; lia|simpl; lia|simpl; lia|simpl; lia|reflexivity|discriminate
    |reflexivity].
Defined.


(** ** The length of the output of [resample] *)

(** The double [input.num_samples * ratio], against the exact quotient. *)
Lemma resample_length_value (x : WavData.t) (new_sample_rate : Z) :
  1 <= WavData.sample_rate x < 2 ^ 32 ->
  1 <= WavData.num_samples x < 2 ^ 32 ->
  1 <= new_sample_rate < 2 ^ 32 ->
  exists m e,
    double.mul (double.of_Z (WavData.num_samples x))
               (resample_ratio x new_sample_rate)
    = S754_finite false m e
    /\ Z.pos (digits2_pos m) = 53
    /\ (IZR (WavData.num_samples x * new_sample_rate)
          * (1 - double.ulp_rel) * (1 - double.ulp_rel) * (1 - double.ulp_rel)
        <= double.value (S754_finite false m e) * IZR (WavData.sample_rate x)
        <= IZR (WavData.num_samples x * new_sample_rate)
           * (1 + double.ulp_rel) * (1 + double.ulp_rel))%R.
Proof.
  intros Hsr Hn Hnew. unfold resample_ratio.
  destruct (of_Z_positive _ Hsr) as (mr & er & -> & Hdr & Her & Vr).
  destruct (of_Z_positive _ Hn) as (mn & en & -> & Hdn & Hen & Vn).
  destruct (of_Z_positive _ Hnew) as (mw & ew & -> & Hdw & Hew & Vw).
  destruct (div_two_sided mw mr ew er Hdw Hdr ltac:(lia) ltac:(lia))
    as (mq & eq & -> & Hdq & Heq & Hvq).
  destruct (mul_bounds mn mq en eq Hdn Hdq ltac:(lia) ltac:(lia))
    as (mp & ep & -> & Hdp & Hep & Hvp).
  exists mp, ep. split; [reflexivity|]. split; [exact Hdp|].
  rewrite Vr, Vw in Hvq. rewrite Vn in Hvp. rewrite mult_IZR.
  pose proof ulp_rel_pos as Hu.
  assert (Hu1 : (double.ulp_rel < 1)%R) by (rewrite ulp_rel_eq; lra).
  assert (HN : (0 < IZR (WavData.num_samples x))%R) by (apply IZR_lt; lia).
  assert (HS : (0 < IZR (WavData.sample_rate x))%R) by (apply IZR_lt; lia).
  assert (HW : (0 < IZR new_sample_rate)%R) by (apply IZR_lt; lia).
  set (N := IZR (WavData.num_samples x)) in *.
  set (S := IZR (WavData.sample_rate x)) in *.
  set (W := IZR new_sample_rate) in *.
  set (rho := double.value (S754_finite false mq eq)) in *.
  set (VP := double.value (S754_finite false mp ep)) in *.
  destruct Hvq as [Hq1 Hq2]. destruct Hvp as [Hp1 Hp2].
  (* [J = N * rho * S], between the two bounds on [rho * S] times [N] *)
  assert (HJ1 : (N * (W * (1 - double.ulp_rel) * (1 - double.ulp_rel))
                 <= N * (rho * S))%R)
    by (apply Rmult_le_compat_l; lra).
  assert (HJ2 : (N * (rho * S) <= N * (W * (1 + double.ulp_rel)))%R)
    by (apply Rmult_le_compat_l; lra).
  assert (HV1 : (N * rho * (1 - double.ulp_rel) * S <= VP * S)%R)
    by (apply Rmult_le_compat_r; lra).
  assert (HV2 : (VP * S <= N * rho * (1 + double.ulp_rel) * S)%R)
    by (apply Rmult_le_compat_r; lra).
  set (J := (N * (rho * S))%R) in *.
  replace (N * rho * (1 - double.ulp_rel) * S)%R
    with (J * (1 - double.ulp_rel))%R in HV1 by (unfold J; ring).
  replace (N * rho * (1 + double.ulp_rel) * S)%R
    with (J * (1 + double.ulp_rel))%R in HV2 by (unfold J; ring).
  set (K := (N * W)%R).
  replace (N * (W * (1 - double.ulp_rel) * (1 - double.ulp_rel)))%R
    with (K * (1 - double.ulp_rel) * (1 - double.ulp_rel))%R in HJ1
    by (unfold K; ring).
  replace (N * (W * (1 + double.ulp_rel)))%R
    with (K * (1 + double.ulp_rel))%R in HJ2 by (unfold K; ring).
  set (VS := (VP * S)%R) in *.
  split.
  - apply Rle_trans with (J * (1 - double.ulp_rel))%R; [|exact HV1].
    apply Rmult_le_compat_r; lra.
  - apply Rle_trans with (J * (1 + double.ulp_rel))%R; [exact HV2|].
    apply Rmult_le_compat_r; lra.
Qed.

Lemma resample_length_cases (x : WavData.t) (new_sample_rate : Z) :
  1 <= WavData.sample_rate x < 2 ^ 32 ->
  0 <= WavData.num_samples x < 2 ^ 32 ->
  0 <= new_sample_rate < 2 ^ 32 ->
  let q := WavData.num_samples x * new_sample_rate / WavData.sample_rate x in
  (q < 2 ^ 32 - 1 ->
   exists n', resample_newNumSamples x new_sample_rate = Done n'
              /\ 0 <= n' /\ q - 1 <= n' <= q + 1
              /\ (WavData.sample_rate x <= 2 ^ 17 -> n' <= q))
  /\ (2 ^ 32 < q ->
      resample_newNumSamples x new_sample_rate = Undefined CastOutOfRange).
Proof.
  intros Hsr Hn Hnew q.
  assert (Hq0 : 0 <= q) by (apply Z.div_pos; nia).
  destruct (Z.eq_dec (WavData.num_samples x) 0) as [Hn0|Hn0].
  { assert (q = 0) by (unfold q; rewrite Hn0; reflexivity).
    split; [|lia]. intros _. exists 0.
    split; [apply resample_length_of_empty; lia|lia]. }
  destruct (Z.eq_dec new_sample_rate 0) as [Hw0|Hw0].
  { assert (Eq0 : q = 0) by (unfold q; rewrite Hw0, Z.mul_0_r; reflexivity).
    split; [|lia]. intros _. exists 0. split; [|lia].
    unfold resample_newNumSamples, resample_ratio. rewrite Hw0.
    destruct (of_Z_positive _ Hsr) as (mr & er & -> & _).
    destruct (of_Z_positive (WavData.num_samples x) ltac:(lia))
      as (mn & en & -> & _).
    reflexivity. }
  destruct (resample_length_value x new_sample_rate Hsr ltac:(lia) ltac:(lia))
    as (m & e & Em & Hd & Hlo & Hhi).
  unfold resample_newNumSamples. rewrite Em.
  pose proof (Z.div_mod (WavData.num_samples x * new_sample_rate)
                (WavData.sample_rate x) ltac:(lia)) as Hdm.
  pose proof (Z.mod_pos_bound (WavData.num_samples x * new_sample_rate)
                (WavData.sample_rate x) ltac:(lia)) as Hrem.
  fold q in Hdm.
  set (K := WavData.num_samples x * new_sample_rate) in *.
  set (rem := K mod WavData.sample_rate x) in *.
  assert (HS : (1 <= IZR (WavData.sample_rate x) <= 4294967296)%R)
    by (split; apply IZR_le; simpl (2 ^ 32) in Hsr; lia).
  assert (HK : (IZR K = IZR q * IZR (WavData.sample_rate x) + IZR rem)%R)
    by (rewrite Hdm at 1; rewrite plus_IZR, mult_IZR; ring).
  assert (Hr : (0 <= IZR rem <= IZR (WavData.sample_rate x) - 1)%R).
  { split; [apply IZR_le; lia|]. rewrite <- minus_IZR. apply IZR_le. lia. }
  assert (HQ0 : (0 <= IZR q)%R) by (apply IZR_le; exact Hq0).
  set (VP := double.value (S754_finite false m e)) in *.
  set (S := IZR (WavData.sample_rate x)) in *.
  assert (Hcast : forall z,
            double.cast_to uint32_t (S754_finite false m e) = Done z ->
            0 <= z < 2 ^ 32
            /\ (IZR z * S <= VP * S)%R /\ (VP * S < (IZR z + 1) * S)%R).
  { intros z Ez. destruct (cast_to_bounds m e z Ez) as [Hz [Hz1 Hz2]].
    fold VP in Hz1, Hz2. split; [exact Hz|]. split.
    - apply Rmult_le_compat_r; lra.
    - apply Rmult_lt_compat_r; lra. }
  split.
  - intro Hq.
    assert (HqS : (IZR q * S <= 4294967294 * S)%R).
    { apply Rmult_le_compat_r; [lra|].
      replace 4294967294%R with (IZR 4294967294) by reflexivity.
      apply IZR_le. simpl (2 ^ 32) in Hq. lia. }
    set (qS := (IZR q * S)%R) in *. set (VS := (VP * S)%R) in *.
    assert (Hlt : (VP < IZR (2 ^ 32))%R).
    { change (IZR (2 ^ 32)) with 4294967296%R.
      apply (Rmult_lt_reg_r S); [lra|]. fold VS.
      rewrite ulp_rel_eq in *. lra. }
    rewrite <- (cast_floor_same m e Hd).
    destruct (cast_floor_below m e (2 ^ 32) Hd ltac:(lia) Hlt)
      as (z & Ez & Hz).
    rewrite Ez. exists z. split; [reflexivity|]. split; [lia|].
    rewrite (cast_floor_same m e Hd) in Ez.
    destruct (Hcast z Ez) as (_ & Hz1 & Hz2). fold VS in Hz1, Hz2.
    set (zS := (IZR z * S)%R) in *.
    assert (Hup : (IZR z * S < (IZR q + 2) * S)%R).
    { fold zS. replace ((IZR q + 2) * S)%R with (qS + 2 * S)%R
        by (unfold qS; ring).
      rewrite ulp_rel_eq in *. lra. }
    assert (Hdown : (IZR q * S < (IZR z + 2) * S)%R).
    { fold qS. replace ((IZR z + 2) * S)%R with (zS + 2 * S)%R
        by (unfold zS; ring).
      replace ((IZR z + 1) * S)%R with (zS + S)%R in Hz2
        by (unfold zS; ring).
      rewrite ulp_rel_eq in *. lra. }
    apply Rmult_lt_reg_r in Hup, Hdown; try lra.
    rewrite <- (plus_IZR q 2) in Hup. rewrite <- (plus_IZR z 2) in Hdown.
    apply lt_IZR in Hup, Hdown. split; [lia|].
    intro Hs17. apply Z.div_le_lower_bound; [lia|].
    assert (HS17 : (S <= 131072)%R).
    { replace 131072%R with (IZR (2 ^ 17)) by reflexivity.
      apply IZR_le. exact Hs17. }
    assert (Hint : (IZR (z * WavData.sample_rate x) < IZR (K + 1))%R).
    { rewrite mult_IZR, plus_IZR. fold S zS.
      rewrite ulp_rel_eq in *. lra. }
    apply lt_IZR in Hint. lia.
  - intro Hq.
    assert (HqS : ((4294967296 + 1) * S <= IZR q * S)%R).
    { apply Rmult_le_compat_r; [lra|].
      replace (4294967296 + 1)%R with (IZR 4294967297)
        by (rewrite <- (plus_IZR 4294967296 1); reflexivity).
      apply IZR_le. simpl (2 ^ 32) in Hq. lia. }
    destruct (double.cast_to uint32_t (S754_finite false m e))
      as [z|u] eqn:Ez.
    + exfalso. destruct (Hcast z eq_refl) as (Hz & Hz1 & Hz2).
      assert (Hz32 : ((IZR z + 1) * S <= 4294967296 * S)%R).
      { apply Rmult_le_compat_r; [lra|].
        rewrite <- (plus_IZR z 1).
        replace 4294967296%R with (IZR 4294967296) by reflexivity.
        apply IZR_le. simpl (2 ^ 32) in Hz. lia. }
      set (qS := (IZR q * S)%R) in *. set (VS := (VP * S)%R) in *.
      set (zS1 := ((IZR z + 1) * S)%R) in *.
      assert (HKpos : (0 <= IZR K)%R) by lra.
      assert (Hlow : (IZR K * (1 - / 1099511627776) <= VS)%R).
      { rewrite ulp_rel_eq in *.
        apply Rle_trans with
          (IZR K * (1 - / 4503599627370496) * (1 - / 4503599627370496)
           * (1 - / 4503599627370496))%R; [|exact Hlo].
        assert (1 - / 1099511627776
                <= (1 - / 4503599627370496) * (1 - / 4503599627370496)
                   * (1 - / 4503599627370496))%R by lra.
        replace (IZR K * (1 - / 4503599627370496) * (1 - / 4503599627370496)
                 * (1 - / 4503599627370496))%R
          with (IZR K * ((1 - / 4503599627370496) * (1 - / 4503599627370496)
                 * (1 - / 4503599627370496)))%R by ring.
        apply Rmult_le_compat_l; lra. }
      lra.
    + f_equal. unfold double.cast_to in Ez.
      destruct (double.trunc (S754_finite false m e)) as [v|];
        [|injection Ez as <-; reflexivity].
      destruct ((numeric_min uint32_t <=? v) && (v <=? numeric_max uint32_t));
        [discriminate|injection Ez as <-; reflexivity].
Qed.

(** X24.  The length of the output of [resample], against the quotient
    [q = num_samples * new_sample_rate / sample_rate] of the integers: when
    [q < 2 ^ 32 - 1] the call is defined and the output has [q - 1], [q] or
    [q + 1] samples, never more than [q] for input rates up to [2 ^ 17] Hz;
    when [q > 2 ^ 32] the cast of the length to [uint32_t] is out of range
    and the call is undefined. *)
Theorem resample_length (T : sample_type) (x : WavData.t)
    (new_sample_rate : Z) :
  bit_width T <= 32 -> typed T x -> WavData.sample_rate x <> 0 ->
  0 <= new_sample_rate < 2 ^ 32 ->
  let q := WavData.num_samples x * new_sample_rate / WavData.sample_rate x in
  (q < 2 ^ 32 - 1 ->
   exists y, resample T x new_sample_rate = Done y
             /\ Z.of_nat (length (WavData.channel1 y)) = WavData.num_samples y
             /\ 0 <= WavData.num_samples y
             /\ q - 1 <= WavData.num_samples y <= q + 1
             /\ (WavData.sample_rate x <= 2 ^ 17 -> WavData.num_samples y <= q))
  /\ (2 ^ 32 < q -> resample T x new_sample_rate = Undefined CastOutOfRange).
Proof.
  intros Hw Hx Hsr0 Hnew q.
  pose proof Hx as (Hsr & Hn & _).
  destruct (resample_length_cases x new_sample_rate ltac:(lia) Hn Hnew)
    as [Hin Hout].
  fold q in Hin, Hout.
  destruct (resample_result T x new_sample_rate Hw Hx Hsr0 Hnew) as [Hres _].
  split.
  - intro Hq. destruct (Hin Hq) as (n' & En & Hn0 & Hb & H17).
    rewrite En in Hres.
    destruct Hres as (y & Ey & (_ & Hny & Hl & _) & _ & _ & _ & Eny & _).
    exists y. split; [exact Ey|]. rewrite Eny.
    split; [rewrite Hl, <- Eny; lia|]. repeat split; assumption || lia.
  - intro Hq. rewrite (Hout Hq) in Hres. exact Hres.
Qed.

Lemma resample_length_witness :
  (WavData.num_samples mono16_channels * 16000
   / WavData.sample_rate mono16_channels < 2 ^ 32 - 1 ->
   exists y, resample int16_t mono16_channels 16000 = Done y
             /\ Z.of_nat (length (WavData.channel1 y)) = WavData.num_samples y
             /\ 0 <= WavData.num_samples y
             /\ WavData.num_samples mono16_channels * 16000
                / WavData.sample_rate mono16_channels - 1
                <= WavData.num_samples y
                <= WavData.num_samples mono16_channels * 16000
                   / WavData.sample_rate mono16_channels + 1
             /\ (WavData.sample_rate mono16_channels <= 2 ^ 17 ->
                 WavData.num_samples y
                 <= WavData.num_samples mono16_channels * 16000
                    / WavData.sample_rate mono16_channels))
  /\ (2 ^ 32 < WavData.num_samples mono16_channels * 16000
               / WavData.sample_rate mono16_channels ->
      resample int16_t mono16_channels 16000 = Undefined CastOutOfRange).
Proof.
  apply (resample_length int16_t mono16_channels 16000);
    [cbv; discriminate|exact typed_mono16_channels|discriminate|simpl; lia].
Defined.


(** ** When [toWavFile] stays inside its vectors *)

Lemma mem_write_cases (buf : list byte) (off : Z) (src : list byte) :
  ((Z.to_nat off + length src <= length buf)%nat
   /\ exists buf', mem_write buf off src = Done buf'
                   /\ length buf' = length buf)
  \/ ((length buf < Z.to_nat off + length src)%nat
      /\ mem_write buf off src = Undefined OutOfBounds).
Proof.
  unfold mem_write.
  destruct (Nat.leb_spec (Z.to_nat off + length src) (length buf)) as [H|H].
  - left. split; [exact H|]. eexists. split; [reflexivity|].
    rewrite !length_app, length_firstn, length_skipn. lia.
  - right. split; [exact H|reflexivity].
Qed.

Lemma vec_get_cases (v : list Z) (i : Z) :
  ((Z.to_nat i < length v)%nat /\ exists a, vec_get v i = Done a)
  \/ ((length v <= Z.to_nat i)%nat /\ vec_get v i = Undefined OutOfBounds).
Proof.
  unfold vec_get. destruct (nth_error v (Z.to_nat i)) as [a|] eqn:E.
  - left. split; [|exists a; reflexivity].
    apply nth_error_Some. rewrite E. discriminate.
  - right. split; [|reflexivity]. now apply nth_error_None.
Qed.

(** One turn of the loop of [toWavFile]: it keeps the size of the buffer,
    and goes wrong exactly when a channel has no sample [i] or the frame
    does not fit. *)
Lemma interleave_cases (T : sample_type) (d : WavData.t) (ba i : Z)
    (raw : list byte) :
  let dest := Z.to_nat (u32 (i * ba)) in
  let used := (channels_used (WavData.num_channels d) * sizeof T)%nat in
  ((Z.to_nat i < length (WavData.channel1 d))%nat
   /\ (WavData.num_channels d = 2 ->
       (Z.to_nat i < length (WavData.channel2 d))%nat)
   /\ (dest + used <= length raw)%nat
   /\ exists raw', WavData.interleave T d ba i raw = Done raw'
                   /\ length raw' = length raw)
  \/ (((length (WavData.channel1 d) <= Z.to_nat i)%nat
       \/ (WavData.num_channels d = 2
           /\ (length (WavData.channel2 d) <= Z.to_nat i)%nat)
       \/ (length raw < dest + used)%nat)
      /\ WavData.interleave T d ba i raw = Undefined OutOfBounds).
Proof.
  intros dest used. unfold WavData.interleave. fold dest.
  assert (Hdest : 0 <= u32 (i * ba))
    by (unfold u32; apply Z.mod_pos_bound; lia).
  unfold channels_used in used.
  destruct (vec_get_cases (WavData.channel1 d) i) as [[H1 [s1 ->]]|[H1 ->]];
    [|right; split; [left; exact H1|reflexivity]].
  cbn [bind].
  destruct (mem_write_cases raw (u32 (i * ba)) (to_object T s1))
    as [[Hw1 (raw1 & -> & Hl1)]|[Hw1 ->]];
    rewrite length_to_object in Hw1; fold dest in Hw1.
  2:{ right. split; [|reflexivity]. right. right.
      subst used. destruct (WavData.num_channels d =? 2); lia. }
  cbn [bind].
  destruct (Z.eqb_spec (WavData.num_channels d) 2) as [E2|E2].
  - destruct (vec_get_cases (WavData.channel2 d) i) as [[H2 [s2 ->]]|[H2 ->]];
      [|right; split; [right; left; split; assumption|reflexivity]].
    cbn [bind].
    destruct (mem_write_cases raw1 (u32 (i * ba) + Z.of_nat (sizeof T))
                (to_object T s2))
      as [[Hw2 (raw2 & -> & Hl2)]|[Hw2 ->]];
      rewrite length_to_object, Z2Nat.inj_add, Nat2Z.id in Hw2 by lia;
      fold dest in Hw2.
    + left. split; [exact H1|]. split; [intros _; exact H2|].
      split; [subst used; lia|]. exists raw2. split; [reflexivity|lia].
    + right. split; [|reflexivity]. right. right. subst used. lia.
  - left. split; [exact H1|]. split; [intro; contradiction|].
    split; [subst used; lia|]. exists raw1. split; [reflexivity|exact Hl1].
Qed.

Lemma for_loop_fails_last_inv {St : Type} (Inv : St -> Prop)
    (body : Z -> St -> outcome St) (k : nat) :
  forall (j : nat) (s : St),
  Inv s ->
  (forall i s, Inv s ->
     (exists s', body i s = Done s' /\ Inv s')
     \/ body i s = Undefined OutOfBounds) ->
  (forall s, Inv s -> body (Z.of_nat (j + k)) s = Undefined OutOfBounds) ->
  for_loop (Z.of_nat j) (Datatypes.S k) body s = Undefined OutOfBounds.
Proof.
  induction k as [|k IH]; intros j s Hs Hstep Hlast.
  - rewrite for_loop_S. rewrite Nat.add_0_r in Hlast. now rewrite Hlast.
  - rewrite for_loop_S.
    destruct (Hstep (Z.of_nat j) s Hs) as [(s' & -> & Hs')| ->];
      [|reflexivity].
    cbn [bind]. replace (Z.of_nat j + 1) with (Z.of_nat (Datatypes.S j)) by lia.
    apply IH; [exact Hs'|exact Hstep|].
    intros s'' H''.
    replace (Datatypes.S j + k)%nat with (j + Datatypes.S k)%nat by lia.
    now apply Hlast.
Qed.

(** X25.  [toWavFile] trusts the members of the object.  With
    [block_align = num_channels * (bits_per_sample / 8)] as the function
    computes it and [num_samples * block_align] below [2 ^ 32]: it is
    defined, and returns a container of [num_samples * block_align] bytes,
    when there is no sample, or when a frame has room for the samples
    written to it (two when [num_channels] is 2, else one) and the channels
    in use hold [num_samples] samples; otherwise (a bit depth or channel
    count too small for [T], as in a default-constructed object, or a short
    channel) it reads or writes out of bounds. *)
Theorem toWavFile_defined_iff (T : sample_type) (d : WavData.t) :
  0 <= WavData.num_samples d ->
  let ba := u16 (WavData.num_channels d * (WavData.bits_per_sample d / 8)) in
  let used := Z.of_nat (channels_used (WavData.num_channels d) * sizeof T) in
  WavData.num_samples d * ba < 2 ^ 32 ->
  (WavData.num_samples d = 0
   \/ (used <= ba
       /\ WavData.num_samples d <= Z.of_nat (length (WavData.channel1 d))
       /\ (WavData.num_channels d = 2 ->
           WavData.num_samples d <= Z.of_nat (length (WavData.channel2 d)))) ->
   exists c,
     WavData.toWavFile T d = Done c
     /\ WavFile.block_align c = ba
     /\ WavFile.data_size c = WavData.num_samples d * ba
     /\ Z.of_nat (length (WavFile.raw_data c)) = WavData.num_samples d * ba
     /\ WavFile.chunk_size c = u32 (36 + WavData.num_samples d * ba))
  /\ (1 <= WavData.num_samples d ->
      ba < used
      \/ Z.of_nat (length (WavData.channel1 d)) < WavData.num_samples d
      \/ (WavData.num_channels d = 2
          /\ Z.of_nat (length (WavData.channel2 d)) < WavData.num_samples d) ->
      WavData.toWavFile T d = Undefined OutOfBounds).
Proof.
  intros Hn ba used H32.
  assert (Hba : 0 <= ba) by (unfold ba, u16; apply Z.mod_pos_bound; lia).
  assert (Hds : u32 (WavData.num_samples d * ba) = WavData.num_samples d * ba)
    by (apply u32_small; split; [apply Z.mul_nonneg_nonneg; lia|exact H32]).
  set (n := Z.to_nat (WavData.num_samples d)).
  set (N := Z.to_nat (WavData.num_samples d * ba)).
  assert (Hdest : forall j, (j < n)%nat ->
            Z.to_nat (u32 (Z.of_nat j * ba)) = (j * Z.to_nat ba)%nat).
  { intros j Hj. rewrite u32_small by (subst n; nia).
    rewrite Z2Nat.inj_mul, Nat2Z.id by lia. reflexivity. }
  assert (HN : N = (n * Z.to_nat ba)%nat)
    by (subst N n; apply Z2Nat.inj_mul; lia).
  unfold WavData.toWavFile. fold ba. rewrite Hds. fold n N.
  assert (Hraw0 : length (resize x00 [] N) = N) by apply length_resize.
  split.
  - intro Hok.
    destruct (for_loop_total (fun raw => length raw = N)
                (WavData.interleave T d ba) n 0 (resize x00 [] N) Hraw0)
      as (raw & Eraw & Hlen).
    { intros j raw Hj Hraw.
      destruct Hok as [H0|(Hu & Hc1 & Hc2)]; [subst n; lia|].
      destruct (interleave_cases T d ba (Z.of_nat j) raw)
        as [(_ & _ & _ & raw' & -> & Hl)|
            ([Hbad|[[E2 Hbad]|Hbad]] & _)].
      - exists raw'. split; [reflexivity|lia].
      - exfalso. rewrite Nat2Z.id in Hbad. subst n. lia.
      - exfalso. rewrite Nat2Z.id in Hbad. specialize (Hc2 E2). subst n. lia.
      - exfalso. rewrite Hdest, Hraw, HN in Hbad by lia.
        assert ((j + 1) * Z.to_nat ba <= n * Z.to_nat ba)%nat
          by (apply Nat.mul_le_mono_r; lia).
        subst used. lia. }
    cbn [Z.of_nat] in Eraw. rewrite Eraw. cbn [bind].
    eexists. split; [reflexivity|].
    cbn [WavFile.block_align WavFile.data_size WavFile.raw_data
         WavFile.chunk_size].
    repeat split; try reflexivity. rewrite Hlen. subst N.
    apply Z2Nat.id. apply Z.mul_nonneg_nonneg; lia.
  - intros H1 Hbad.
    destruct n as [|k] eqn:En; [subst n; lia|].
    pose proof (for_loop_fails_last_inv (fun raw => length raw = N)
                  (WavData.interleave T d ba) k 0 _ Hraw0) as Hloop.
    cbn [Z.of_nat] in Hloop. rewrite Hloop; [reflexivity| |].
    + intros i raw Hraw.
      destruct (interleave_cases T d ba i raw)
        as [(_ & _ & _ & raw' & -> & Hl)|(_ & ->)].
      * left. exists raw'. split; [reflexivity|lia].
      * right. reflexivity.
    + intros raw Hraw. cbn [Nat.add].
      destruct (interleave_cases T d ba (Z.of_nat k) raw)
        as [(G1 & G2 & G3 & _)|(_ & ->)]; [exfalso|reflexivity].
      rewrite Nat2Z.id in G1, G2.
      rewrite Hdest, Hraw, HN in G3 by lia.
      destruct Hbad as [Hb|[Hb|[E2 Hb]]].
      * subst used.
        assert (k * Z.to_nat ba + Z.to_nat ba = S k * Z.to_nat ba)%nat
          by (cbn [Nat.mul]; lia).
        lia.
      * lia.
      * specialize (G2 E2). lia.
Qed.

Lemma toWavFile_defined_iff_witness :
  (WavData.num_samples silent_channels = 0
   \/ (4 <= 2
       /\ 2 <= Z.of_nat (length (WavData.channel1 silent_channels))
       /\ (WavData.num_channels silent_channels = 2 ->
           2 <= Z.of_nat (length (WavData.channel2 silent_channels)))) ->
   exists c,
     WavData.toWavFile int32_t silent_channels = Done c
     /\ WavFile.block_align c = 2
     /\ WavFile.data_size c = 4
     /\ Z.of_nat (length (WavFile.raw_data c)) = 4
     /\ WavFile.chunk_size c = 40)
  /\ (1 <= WavData.num_samples silent_channels ->
      2 < 4
      \/ Z.of_nat (length (WavData.channel1 silent_channels)) < 2
      \/ (WavData.num_channels silent_channels = 2
          /\ Z.of_nat (length (WavData.channel2 silent_channels)) < 2) ->
      WavData.toWavFile int32_t silent_channels = Undefined OutOfBounds).
Proof.
  apply (toWavFile_defined_iff int32_t silent_channels); [simpl; lia|simpl; lia].
Defined.


(** ** [resample] down by a power of two *)

(** Scaling an integer by a power of two moves the exponent only. *)
Lemma of_Z_scaled (z k : Z) (m : positive) (e : Z) :
  1 <= z -> 0 <= k -> z * 2 ^ k < 2 ^ 53 ->
  double.of_Z z = S754_finite false m e ->
  Z.pos (digits2_pos m) = 53 -> Z.pos m = z * 2 ^ (- e) -> -52 <= e <= 0 ->
  double.of_Z (z * 2 ^ k) = S754_finite false m (e + k).
Proof.
  intros Hz Hk Hlt E Hd Hm He.
  assert (Hpk : 0 < 2 ^ k) by (apply Z.pow_pos_nonneg; lia).
  destruct (of_Z_finite (z * 2 ^ k) ltac:(nia) ltac:(nia))
    as (m' & e' & E' & Hd' & He' & Hm').
  rewrite Z.abs_eq in Hm' by nia.
  replace (z * 2 ^ k <? 0) with false in E'
    by (symmetry; apply Z.ltb_ge; nia).
  rewrite E'.
  pose proof (canonical_bounds m Hd) as B. pose proof (canonical_bounds m' Hd') as B'.
  rewrite <- Z.mul_assoc, <- Z.pow_add_r in Hm' by lia.
  set (a := - e) in *. set (b := k + - e') in *.
  assert (Hab : a = b).
  { destruct (Z.lt_trichotomy a b) as [Hlt'|[Heq|Hgt]]; [|exact Heq|]; exfalso.
    - assert (Eb : 2 ^ b = 2 ^ a * 2 ^ (b - a))
        by (rewrite <- Z.pow_add_r by lia; f_equal; lia).
      assert (2 <= 2 ^ (b - a))
        by (change 2 with (2 ^ 1) at 1; apply Z.pow_le_mono_r; lia).
      rewrite Eb in Hm'. nia.
    - assert (Ea : 2 ^ a = 2 ^ b * 2 ^ (a - b))
        by (rewrite <- Z.pow_add_r by lia; f_equal; lia).
      assert (2 <= 2 ^ (a - b))
        by (change 2 with (2 ^ 1) at 1; apply Z.pow_le_mono_r; lia).
      rewrite Ea in Hm. nia. }
  assert (Z.pos m' = Z.pos m) by (rewrite Hm, Hm', Hab; reflexivity).
  f_equal; lia.
Qed.

Lemma div_same_mantissa (m : positive) (e1 e2 : Z) :
  Z.pos (digits2_pos m) = 53 -> -1021 <= e1 - e2 < 1022 ->
  double.div (S754_finite false m e1) (S754_finite false m e2)
  = S754_finite false 4503599627370496 (e1 - e2 - 52).
Proof.
  intros Hd He. unfold double.div, SFdiv, double.prec, double.emax.
  rewrite SFdiv_core_canonical by (assumption || lia).
  cbn [xorb].
  rewrite (Z.mul_comm (Z.pos m)), Z.div_mul, Z.mod_mul, new_location_zero by lia.
  change (2 ^ 53) with (Z.pos 9007199254740992).
  destruct (binary_round_aux_spec false 9007199254740992 (e1 - e2 - 53)
              loc_Exact 1 eq_refl)
    as (m' & e' & -> & _ & _ & _ & Hx); try lia.
  destruct (Hx eq_refl eq_refl) as [Hm He'].
  change (Z.pos 9007199254740992 / 2 ^ 1) with (Z.pos 4503599627370496) in Hm.
  injection Hm as ->. f_equal. lia.
Qed.

Lemma mul_pow2 (s : bool) (m : positive) (e j : Z) :
  Z.pos (digits2_pos m) = 53 -> -1074 <= e + j + 52 < 971 ->
  double.mul (S754_finite s m e) (S754_finite false 4503599627370496 j)
  = S754_finite s m (e + j + 52).
Proof.
  intros Hd He. unfold double.mul, SFmul, double.prec, double.emax.
  rewrite xorb_false_r.
  pose proof (canonical_bounds m Hd) as Hb.
  assert (Hd' : Z.pos (digits2_pos (m * 4503599627370496)) = 53 + 52).
  { apply digits2_pos_unique. rewrite Pos2Z.inj_mul.
    change (Z.pos 4503599627370496) with (2 ^ 52).
    change (2 ^ (53 + 52 - 1)) with (2 ^ 52 * 2 ^ 52).
    change (2 ^ (53 + 52)) with (2 ^ 53 * 2 ^ 52). lia. }
  destruct (binary_round_aux_spec s (m * 4503599627370496) (e + j) loc_Exact 52 Hd')
    as (m' & e' & -> & _ & _ & _ & Hx); try lia.
  rewrite Pos2Z.inj_mul in Hx. change (Z.pos 4503599627370496) with (2 ^ 52) in Hx.
  destruct (Hx eq_refl) as [Hm He']; [apply Z.mod_mul; lia|].
  rewrite Z.div_mul in Hm by lia. injection Hm as ->. f_equal. lia.
Qed.

Lemma div_pow2 (s : bool) (m : positive) (e j : Z) :
  Z.pos (digits2_pos m) = 53 -> -1021 <= e - j -> e - j - 52 < 971 ->
  double.div (S754_finite s m e) (S754_finite false 4503599627370496 j)
  = S754_finite s m (e - j - 52).
Proof.
  intros Hd He1 He2. unfold double.div, SFdiv, double.prec, double.emax.
  rewrite SFdiv_core_canonical by (reflexivity || assumption || lia).
  rewrite xorb_false_r.
  pose proof (canonical_bounds m Hd) as Hb.
  change (Z.pos 4503599627370496) with (2 ^ 52).
  replace (Z.pos m * 2 ^ 53) with (Z.pos m * 2 * 2 ^ 52)
    by (change (2 ^ 53) with (2 * 2 ^ 52); lia).
  rewrite Z.div_mul, Z.mod_mul, new_location_zero by lia.
  replace (Z.pos m * 2) with (Z.pos (m * 2)) by lia.
  assert (Hd' : Z.pos (digits2_pos (m * 2)) = 53 + 1)
    by (apply digits2_pos_unique; simpl (2 ^ _); lia).
  destruct (binary_round_aux_spec s (m * 2) (e - j - 53) loc_Exact 1 Hd')
    as (m' & e' & -> & _ & _ & _ & Hx); try lia.
  rewrite Pos2Z.inj_mul in Hx.
  destruct (Hx eq_refl) as [Hm He']; [apply Z.mod_mul; lia|].
  change (2 ^ 1) with 2 in Hm. rewrite Z.div_mul in Hm by lia.
  injection Hm as ->. f_equal. lia.
Qed.

(** The ratio of a rate to [2 ^ k] times that rate is the double
    [2 ^ - k]. *)
Lemma ratio_pow2 (x : WavData.t) (new_sample_rate k : Z) :
  1 <= new_sample_rate -> 0 <= k ->
  WavData.sample_rate x = new_sample_rate * 2 ^ k ->
  WavData.sample_rate x < 2 ^ 32 ->
  resample_ratio x new_sample_rate
  = S754_finite false 4503599627370496 (- k - 52).
Proof.
  intros Hnew Hk Esr Hsr. unfold resample_ratio. rewrite Esr.
  assert (Hpk : 0 < 2 ^ k) by (apply Z.pow_pos_nonneg; lia).
  assert (k < 32).
  { destruct (Z.lt_ge_cases k 32) as [|Hge]; [assumption|exfalso].
    assert (2 ^ 32 <= 2 ^ k) by (apply Z.pow_le_mono_r; lia). nia. }
  destruct (of_Z_finite new_sample_rate ltac:(lia)
              ltac:(simpl (2 ^ 53); simpl (2 ^ 32) in Hsr; nia))
    as (m & e & E & Hd & He & Hm).
  replace (new_sample_rate <? 0) with false in E
    by (symmetry; apply Z.ltb_ge; lia).
  rewrite Z.abs_eq in Hm by lia.
  rewrite (of_Z_scaled new_sample_rate k m e Hnew Hk
             ltac:(simpl (2 ^ 53); simpl (2 ^ 32) in Hsr; lia) E Hd Hm He).
  rewrite E, div_same_mantissa by (assumption || lia).
  f_equal. lia.
Qed.

Lemma length_pow2 (x : WavData.t) (new_sample_rate k : Z) :
  1 <= new_sample_rate -> 0 <= k ->
  WavData.sample_rate x = new_sample_rate * 2 ^ k ->
  WavData.sample_rate x < 2 ^ 32 ->
  0 <= WavData.num_samples x < 2 ^ 32 ->
  resample_newNumSamples x new_sample_rate
  = Done (WavData.num_samples x / 2 ^ k).
Proof.
  intros Hnew Hk Esr Hsr Hn. unfold resample_newNumSamples.
  rewrite (ratio_pow2 x new_sample_rate k) by assumption.
  assert (Hpk : 0 < 2 ^ k) by (apply Z.pow_pos_nonneg; lia).
  assert (k < 32).
  { destruct (Z.lt_ge_cases k 32) as [|Hge]; [assumption|exfalso].
    assert (2 ^ 32 <= 2 ^ k) by (apply Z.pow_le_mono_r; lia). nia. }
  destruct (Z.eq_dec (WavData.num_samples x) 0) as [->|Hn0].
  { rewrite Z.div_0_l by lia. reflexivity. }
  destruct (of_Z_finite (WavData.num_samples x) Hn0
              ltac:(simpl (2 ^ 53); simpl (2 ^ 32) in Hn; lia))
    as (m & e & E & Hd & He & Hm).
  replace (WavData.num_samples x <? 0) with false in E
    by (symmetry; apply Z.ltb_ge; lia).
  rewrite Z.abs_eq in Hm by lia.
  rewrite E, mul_pow2 by (assumption || lia).
  replace (e + (- k - 52) + 52) with (e - k) by lia.
  assert (Hq : 0 <= WavData.num_samples x / 2 ^ k <= WavData.num_samples x).
  { split; [apply Z.div_pos; lia|].
    apply Z.div_le_upper_bound; [lia|]. nia. }
  unfold double.cast_to, double.trunc.
  assert (Emag : (if 0 <=? e - k then Z.pos m * 2 ^ (e - k)
                  else Z.pos m / 2 ^ (- (e - k)))
                 = WavData.num_samples x / 2 ^ k).
  { destruct (Z.leb_spec 0 (e - k)) as [H0|H0].
    - assert (e = 0) by lia. assert (k = 0) by lia. subst e k.
      cbn [Z.opp Z.pow Z.sub] in *. rewrite Z.div_1_r. lia.
    - rewrite Hm. replace (- (e - k)) with (- e + k) by lia.
      rewrite Z.pow_add_r by lia.
      assert (2 ^ (- e) <> 0) by (apply Z.pow_nonzero; lia).
      rewrite (Z.mul_comm (2 ^ (- e))), Z.div_mul_cancel_r by lia.
      reflexivity. }
  rewrite Emag.
  change (numeric_min uint32_t) with 0.
  change (numeric_max uint32_t) with 4294967295.
  destruct (Z.leb_spec 0 (WavData.num_samples x / 2 ^ k)); [|lia].
  destruct (Z.leb_spec (WavData.num_samples x / 2 ^ k) 4294967295);
    [reflexivity|simpl (2 ^ 32) in Hn; lia].
Qed.

Lemma source_index_pow2 (i k : Z) :
  0 <= i -> 0 <= k < 32 -> i * 2 ^ k < 2 ^ 32 ->
  source_index (S754_finite false 4503599627370496 (- k - 52)) i
  = double.of_Z (i * 2 ^ k).
Proof.
  intros Hi Hk Hlt. unfold source_index.
  assert (Hpk : 0 < 2 ^ k) by (apply Z.pow_pos_nonneg; lia).
  destruct (Z.eq_dec i 0) as [->|Hi0]; [reflexivity|].
  destruct (of_Z_finite i Hi0 ltac:(simpl (2 ^ 53); simpl (2 ^ 32) in Hlt; nia))
    as (m & e & E & Hd & He & Hm).
  replace (i <? 0) with false in E by (symmetry; apply Z.ltb_ge; lia).
  rewrite Z.abs_eq in Hm by lia.
  rewrite (of_Z_scaled i k m e ltac:(lia) ltac:(lia)
             ltac:(simpl (2 ^ 53); simpl (2 ^ 32) in Hlt; lia) E Hd Hm He).
  rewrite E, div_pow2 by (assumption || lia).
  f_equal. lia.
Qed.

Lemma resample_body_pow2 (T : sample_type) (x : WavData.t) (k : Z) (j : nat)
    (c1 c2 : list Z) :
  bit_width T <= 32 -> typed T x -> 0 <= k < 32 ->
  (j < Z.to_nat (WavData.num_samples x / 2 ^ k))%nat ->
  resample_body T x (S754_finite false 4503599627370496 (- k - 52))
    (Z.of_nat j) (c1, c2)
  = (x1 <- vec_set c1 (Z.of_nat j)
             (nth (j * Z.to_nat (2 ^ k)) (WavData.channel1 x) 0) ;;
     if WavData.num_channels x =? 2
     then x2 <- vec_set c2 (Z.of_nat j)
                  (nth (j * Z.to_nat (2 ^ k)) (WavData.channel2 x) 0) ;;
          Done (x1, x2)
     else Done (x1, c2)).
Proof.
  intros Hw (Hrate & Hn & Hl1 & Hl2 & Hr1 & Hr2) Hk Hj.
  assert (Hpk : 0 < 2 ^ k) by (apply Z.pow_pos_nonneg; lia).
  assert (Hq : (WavData.num_samples x / 2 ^ k) * 2 ^ k
               <= WavData.num_samples x).
  { rewrite Z.mul_comm. apply Z.mul_div_le. lia. }
  assert (Hq0 : 0 <= WavData.num_samples x / 2 ^ k)
    by (apply Z.div_pos; lia).
  set (s := (j * Z.to_nat (2 ^ k))%nat).
  assert (Es : Z.of_nat s = Z.of_nat j * 2 ^ k)
    by (subst s; rewrite Nat2Z.inj_mul, Z2Nat.id; lia).
  assert (Hs : (s < Z.to_nat (WavData.num_samples x))%nat) by nia.
  assert (Hsmall : Z.abs (Z.of_nat s) < 2 ^ 53) by lia.
  unfold resample_body, resample_index0.
  rewrite source_index_pow2, <- Es by (simpl (2 ^ 32) in *; lia).
  rewrite floor_of_Z by exact Hsmall.
  rewrite cast_to_of_Z by (unfold numeric_min, numeric_max; simpl; lia).
  cbn [bind fst snd]. rewrite sub_of_Z_self by exact Hsmall.
  destruct (resample_index1_range x s Hn Hs) as (j1 & -> & Hj1 & _).
  rewrite interpolate_frac_zero by (assumption || lia). cbn [bind].
  destruct (vec_set c1 _ _); cbn [bind]; [|reflexivity].
  destruct (Z.eqb_spec (WavData.num_channels x) 2) as [E|_]; [|reflexivity].
  rewrite interpolate_frac_zero by (assumption || rewrite (Hl2 E); lia).
  reflexivity.
Qed.

(** X26.  Down by a power of two, [resample] decimates: when the rate of
    the input is [2 ^ k] times the target rate, the output has
    [num_samples / 2 ^ k] samples and sample [i] of each channel is sample
    [i * 2 ^ k] of the input, unchanged; nothing is averaged or filtered. *)
Theorem resample_decimates (T : sample_type) (x : WavData.t)
    (new_sample_rate k : Z) :
  bit_width T <= 32 -> typed T x ->
  1 <= new_sample_rate -> 0 <= k ->
  WavData.sample_rate x = new_sample_rate * 2 ^ k ->
  let n' := Z.to_nat (WavData.num_samples x / 2 ^ k) in
  resample T x new_sample_rate
  = Done {| WavData.sample_rate := new_sample_rate;
            WavData.num_channels := WavData.num_channels x;
            WavData.bits_per_sample := WavData.bits_per_sample x;
            WavData.num_samples := WavData.num_samples x / 2 ^ k;
            WavData.channel1 :=
              map (fun i => nth (i * Z.to_nat (2 ^ k)) (WavData.channel1 x) 0)
                  (seq 0 n');
            WavData.channel2 :=
              if WavData.num_channels x =? 2
              then map (fun i => nth (i * Z.to_nat (2 ^ k))
                                     (WavData.channel2 x) 0)
                       (seq 0 n')
              else WavData.channel2 x |}.
Proof.
  intros Hw Hx Hnew Hk Esr n'.
  pose proof Hx as (Hr & Hn & Hl1 & Hl2 & Hr1 & Hr2).
  assert (Hpk : 0 < 2 ^ k) by (apply Z.pow_pos_nonneg; lia).
  assert (Hk32 : k < 32).
  { destruct (Z.lt_ge_cases k 32) as [|Hge]; [assumption|exfalso].
    assert (2 ^ 32 <= 2 ^ k) by (apply Z.pow_le_mono_r; lia). nia. }
  unfold resample.
  rewrite (length_pow2 x new_sample_rate k) by (assumption || lia).
  rewrite (ratio_pow2 x new_sample_rate k) by (assumption || lia).
  cbn [bind]. fold n'.
  rewrite (for_loop_channels
             (resample_body T x
                (S754_finite false 4503599627370496 (- k - 52)))
             (WavData.num_channels x =? 2)
             (fun i => nth (i * Z.to_nat (2 ^ k)) (WavData.channel1 x) 0)
             (fun i => nth (i * Z.to_nat (2 ^ k)) (WavData.channel2 x) 0)).
  - cbn [bind fst snd].
    destruct (WavData.num_channels x =? 2); reflexivity.
  - intros j c1 c2 Hj. apply resample_body_pow2; assumption || lia.
  - apply length_resize.
  - intros E. rewrite E. apply length_resize.
Qed.

Lemma resample_decimates_witness :
  resample int16_t mono16_channels 4000
  = Done {| WavData.sample_rate := 4000;
            WavData.num_channels := WavData.num_channels mono16_channels;
            WavData.bits_per_sample := WavData.bits_per_sample mono16_channels;
            WavData.num_samples := WavData.num_samples mono16_channels / 2 ^ 1;
            WavData.channel1 :=
              map (fun i => nth (i * Z.to_nat (2 ^ 1))
                                (WavData.channel1 mono16_channels) 0)
                  (seq 0 (Z.to_nat (WavData.num_samples mono16_channels
                                    / 2 ^ 1)));
            WavData.channel2 :=
              if WavData.num_channels mono16_channels =? 2
              then map (fun i => nth (i * Z.to_nat (2 ^ 1))
                                     (WavData.channel2 mono16_channels) 0)
                       (seq 0 (Z.to_nat (WavData.num_samples mono16_channels
                                         / 2 ^ 1)))
              else WavData.channel2 mono16_channels |}.
Proof.
  apply (resample_decimates int16_t mono16_channels 4000 1);
    [cbv; discriminate|exact typed_mono16_channels|lia|lia|reflexivity].
Defined.


(** ** A file that ends inside a ["fmt "] chunk *)

Lemma read_object_failed (width : nat) (old : Z) (f : ifstream) :
  failbit f = true ->
  read_object width old f = (old mod 2 ^ (8 * Z.of_nat width), f).
Proof.
  intro H. unfold read_object. rewrite stream_read_failed by exact H.
  unfold overlay. cbn [app length skipn]. now rewrite le_decode_encode.
Qed.

(** The turn of the loop on a ["fmt "] tag after which fewer than four
    bytes follow: the stream fails in the read of the size, the reads of
    the fields do nothing, and the loop is left with [foundFmt] set. *)
Lemma read_subchunks_truncated_fmt (fuel : nat) (w : WavFile.t) (fd : bool)
    (t : list byte) :
  (length t < 4)%nat ->
  WavFile.read_subchunks (S fuel)
    {| WavFile.file :=
         {| rest := list_byte_of_string "fmt " ++ t; failbit := false |};
       WavFile.self := w; WavFile.foundFmt := false; WavFile.foundData := fd |}
  = Some
      {| WavFile.file := {| rest := []; failbit := true |};
         WavFile.self :=
           {| WavFile.chunk_size := WavFile.chunk_size w;
              WavFile.num_channels := u16 (WavFile.num_channels w);
              WavFile.sample_rate := u32 (WavFile.sample_rate w);
              WavFile.block_align := u16 (WavFile.block_align w);
              WavFile.bits_per_sample := u16 (WavFile.bits_per_sample w);
              WavFile.data_size := WavFile.data_size w;
              WavFile.num_samples := WavFile.num_samples w;
              WavFile.raw_data := WavFile.raw_data w |};
         WavFile.foundFmt := true; WavFile.foundData := fd |}.
Proof.
  intro Ht.
  cbn [WavFile.read_subchunks WavFile.file WavFile.self WavFile.foundFmt
       WavFile.foundData failbit negb andb orb].
  erewrite (stream_read_exact 4 _ (list_byte_of_string "fmt ")) by reflexivity.
  change (length (list_byte_of_string "fmt ") <? 4)%nat with false. cbv iota.
  unfold read_object at 1.
  rewrite stream_read_short by (cbn [failbit rest]; (reflexivity || lia)).
  rewrite tag_is_fmt by reflexivity.
  change (bytes_eqb (list_byte_of_string "fmt ") (list_byte_of_string "fmt "))
    with true. cbv iota.
  unfold WavFile.read_fmt.
  rewrite !read_object_failed by reflexivity.
  change (seekg 4 {| rest := []; failbit := true |})
    with {| rest := []; failbit := true |}.
  match goal with
  | |- context [if ?c then seekg ?n ?f else ?f] =>
      replace (if c then seekg n f else f) with f
        by (destruct c; reflexivity)
  end.
  destruct fuel;
    cbn [WavFile.read_subchunks WavFile.file failbit negb andb];
    reflexivity.
Qed.

(** X27.  [read] does not notice a file that ends inside a ["fmt "] chunk
    which comes after the ["data"] chunk.  When fewer than four bytes
    follow the ["fmt "] tag, none of the format fields is read: with an
    object whose [block_align] is not zero, [read] returns [true] and
    the channel count, rate, block alignment and bit depth are those the
    object held before the call; with a fresh object it divides by zero. *)
Theorem read_truncated_fmt_chunk (w : WavFile.t) (size : Z)
    (pre mid : list chunk) (body t : list byte) :
  forallb is_other pre = true -> forallb is_other mid = true ->
  forallb chunk_ok pre = true -> forallb chunk_ok mid = true ->
  Z.of_nat (length body) < 2 ^ 32 -> (length t < 4)%nat ->
  WavFile.read w
    (Some (riff_header size
           ++ chunks_bytes (pre ++ [DataChunk body] ++ mid)
           ++ list_byte_of_string "fmt " ++ t))
  = Some
      (if u16 (WavFile.block_align w) =? 0 then Undefined DivideByZero
       else Done
         {| WavFile.returned := true; WavFile.cerr := [];
            WavFile.this :=
              {| WavFile.chunk_size := size mod 2 ^ 32;
                 WavFile.num_channels := u16 (WavFile.num_channels w);
                 WavFile.sample_rate := u32 (WavFile.sample_rate w);
                 WavFile.block_align := u16 (WavFile.block_align w);
                 WavFile.bits_per_sample := u16 (WavFile.bits_per_sample w);
                 WavFile.data_size := Z.of_nat (length body);
                 WavFile.num_samples :=
                   Z.of_nat (length body) / u16 (WavFile.block_align w);
                 WavFile.raw_data := body |} |}).
Proof.
  intros Hpre Hmid Hokp Hokm Hbody Ht.
  set (cs := pre ++ [DataChunk body] ++ mid).
  set (tail := list_byte_of_string "fmt " ++ t).
  assert (Hok : forallb chunk_ok cs = true).
  { subst cs. rewrite !forallb_app, Hokp, Hokm. cbn [forallb chunk_ok].
    apply Z.ltb_lt in Hbody. now rewrite Hbody. }
  rewrite read_header.
  set (w0 := WavFile.with_chunk_size w (size mod 2 ^ 32)).
  assert (Hwalk : walk cs w0 false false
                  = (absorb (DataChunk body) w0, false, true)).
  { subst cs. rewrite walk_others by exact Hpre.
    cbn [app walk andb orb is_fmt is_data].
    rewrite <- (app_nil_r mid). rewrite walk_others by exact Hmid.
    reflexivity. }
  destruct (read_subchunks_walk cs tail (S (length (chunks_bytes cs ++ tail)))
              {| rest := chunks_bytes cs ++ tail; failbit := false |}
              w0 false false Hok eq_refl eq_refl (Nat.lt_succ_diag_r _))
    as (f' & fuel' & -> & Hf' & Htail).
  rewrite Hwalk in *. cbn [fst snd andb] in *.
  destruct (Htail eq_refl) as [Hrest Hfuel].
  destruct f' as [r' b']. cbn [rest failbit] in Hrest, Hf'. subst r' b'.
  destruct fuel' as [|fuel']; [lia|].
  subst tail. rewrite (read_subchunks_truncated_fmt _ _ _ t Ht).
  reflexivity.
Qed.

Lemma read_truncated_fmt_chunk_witness :
  WavFile.read mono16_container
    (Some (riff_header 16
           ++ chunks_bytes ([] ++ [DataChunk four_samples] ++ [])
           ++ list_byte_of_string "fmt " ++ []))
  = Some
      (if u16 (WavFile.block_align mono16_container) =? 0
       then Undefined DivideByZero
       else Done
         {| WavFile.returned := true; WavFile.cerr := [];
            WavFile.this :=
              {| WavFile.chunk_size := 16 mod 2 ^ 32;
                 WavFile.num_channels :=
                   u16 (WavFile.num_channels mono16_container);
                 WavFile.sample_rate :=
                   u32 (WavFile.sample_rate mono16_container);
                 WavFile.block_align :=
                   u16 (WavFile.block_align mono16_container);
                 WavFile.bits_per_sample :=
                   u16 (WavFile.bits_per_sample mono16_container);
                 WavFile.data_size := Z.of_nat (length four_samples);
                 WavFile.num_samples :=
                   Z.of_nat (length four_samples)
                   / u16 (WavFile.block_align mono16_container);
                 WavFile.raw_data := four_samples |} |}).
Proof.
  apply (read_truncated_fmt_chunk mono16_container 16 [] [] four_samples []);
    [reflexivity|reflexivity|reflexivity|reflexivity|simpl; lia|simpl; lia].
Defined.

(** ** The reads of [resample] and the samples it writes *)

Lemma nth_error_set (v : list Z) (j i : nat) (a : Z) :
  (j < length v)%nat ->
  nth_error (firstn j v ++ a :: skipn (S j) v) i
  = if (i =? j)%nat then Some a else nth_error v i.
Proof.
  intro Hj.
  assert (Hl : length (firstn j v) = j) by (rewrite length_firstn; lia).
  destruct (Nat.eqb_spec i j) as [->|Hne].
  - rewrite nth_error_app2 by lia. rewrite Hl, Nat.sub_diag. reflexivity.
  - destruct (Nat.lt_ge_cases i j) as [Hlt|Hge].
    + rewrite nth_error_app1 by lia. rewrite nth_error_firstn.
      destruct (Nat.ltb_spec i j); [reflexivity|lia].
    + rewrite nth_error_app2 by lia. rewrite Hl.
      replace (i - j)%nat with (S (i - S j)) by lia. cbn [nth_error].
      rewrite nth_error_skipn. f_equal. lia.
Qed.

(** What one turn of the loop reads and writes, for a sample type of at
    most 32 bits: the sample stored at [j] lies between the two samples
    read. *)
Lemma resample_body_traced (T : sample_type) (x : WavData.t)
    (new_sample_rate newNumSamples : Z) (j : nat) (c1 c2 : list Z) :
  bit_width T <= 32 -> typed T x ->
  1 <= WavData.sample_rate x -> 1 <= WavData.num_samples x ->
  0 <= new_sample_rate < 2 ^ 32 ->
  resample_newNumSamples x new_sample_rate = Done newNumSamples ->
  (j < Z.to_nat newNumSamples)%nat ->
  length c1 = Z.to_nat newNumSamples ->
  (WavData.num_channels x = 2 -> length c2 = Z.to_nat newNumSamples) ->
  exists index0 v1 v2,
    resample_index0 (resample_ratio x new_sample_rate) (Z.of_nat j)
    = Done index0
    /\ 0 <= index0 <= WavData.num_samples x - 1
    /\ Z.min (nth (Z.to_nat index0) (WavData.channel1 x) 0)
             (nth (Z.to_nat (resample_index1 x index0)) (WavData.channel1 x) 0)
       <= v1
       <= Z.max (nth (Z.to_nat index0) (WavData.channel1 x) 0)
                (nth (Z.to_nat (resample_index1 x index0))
                     (WavData.channel1 x) 0)
    /\ (WavData.num_channels x = 2 ->
        Z.min (nth (Z.to_nat index0) (WavData.channel2 x) 0)
              (nth (Z.to_nat (resample_index1 x index0))
                   (WavData.channel2 x) 0)
        <= v2
        <= Z.max (nth (Z.to_nat index0) (WavData.channel2 x) 0)
                 (nth (Z.to_nat (resample_index1 x index0))
                      (WavData.channel2 x) 0))
    /\ resample_body T x (resample_ratio x new_sample_rate) (Z.of_nat j)
         (c1, c2)
       = Done (firstn j c1 ++ v1 :: skipn (S j) c1,
               if WavData.num_channels x =? 2
               then firstn j c2 ++ v2 :: skipn (S j) c2 else c2).
Proof.
  intros Hw (Hsr & Hn & Hl1 & Hl2 & Hr1 & Hr2) Hsr1 Hn1 Hnew Hnum Hj Hc1 Hc2.
  destruct (resample_frac x new_sample_rate newNumSamples (Z.of_nat j)
              ltac:(lia) ltac:(lia) Hnew Hnum ltac:(lia))
    as (q & Eq & Hq & Ffrac & Vfrac).
  unfold resample_body. rewrite Eq. cbn [bind fst snd].
  assert (Hq1 : 0 <= resample_index1 x q <= WavData.num_samples x - 1).
  { unfold resample_index1. rewrite u32_small by lia.
    destruct (Z.ltb_spec (q + 1) (WavData.num_samples x)); lia. }
  destruct (interpolate_between T (WavData.channel1 x) q (resample_index1 x q)
              _ Hw Hr1 ltac:(lia) ltac:(lia) Ffrac Vfrac)
    as (v1 & -> & Hv1 & Hm1).
  cbn [bind]. rewrite vec_set_in_range by lia. cbn [bind].
  destruct (Z.eqb_spec (WavData.num_channels x) 2) as [E2|E2].
  - specialize (Hl2 E2). specialize (Hc2 E2).
    destruct (interpolate_between T (WavData.channel2 x) q (resample_index1 x q)
                _ Hw Hr2 ltac:(lia) ltac:(lia) Ffrac Vfrac)
      as (v2 & -> & Hv2 & Hm2).
    cbn [bind]. rewrite vec_set_in_range by lia. cbn [bind].
    exists q, v1, v2. split; [reflexivity|]. split; [exact Hq|].
    split; [exact Hm1|]. split; [intros _; exact Hm2|reflexivity].
  - exists q, v1, 0. split; [reflexivity|]. split; [exact Hq|].
    split; [exact Hm1|]. split; [intro; contradiction|reflexivity].
Qed.

(** C6, as amended.  In [resample], for an input with at least one sample
    and a nonzero rate, and any target rate: no access is outside a vector,
    and at every turn [i] of the loop [index0] and [index1] are at most
    [num_samples - 1], the reads of both indices in [channel1] (and in
    [channel2] when stereo) are inside the channel, and at the last input
    sample [index1] is [index0].  For a sample type of at most 32 bits the
    call returns whenever the cast of the output length is defined, output
    sample [i] of each channel lies between the two input samples read at
    turn [i], and a turn whose [index0] is the last input index writes the
    last input sample.  The last turn need not be such a turn. *)
Theorem resample_reads_in_bounds (T : sample_type) (x : WavData.t)
    (new_sample_rate : Z) :
  typed T x ->
  1 <= WavData.num_samples x ->
  WavData.sample_rate x <> 0 ->
  0 <= new_sample_rate < 2 ^ 32 ->
  resample T x new_sample_rate <> Undefined OutOfBounds
  /\ (forall newNumSamples i : Z,
       resample_newNumSamples x new_sample_rate = Done newNumSamples ->
       0 <= i < newNumSamples ->
       exists index0,
         resample_index0 (resample_ratio x new_sample_rate) i = Done index0
         /\ 0 <= index0 <= WavData.num_samples x - 1
         /\ 0 <= resample_index1 x index0 <= WavData.num_samples x - 1
         /\ (index0 = WavData.num_samples x - 1 ->
             resample_index1 x index0 = index0)
         /\ (exists s0 s1,
               vec_get (WavData.channel1 x) index0 = Done s0
               /\ vec_get (WavData.channel1 x) (resample_index1 x index0)
                  = Done s1)
         /\ (WavData.num_channels x = 2 ->
             exists s0 s1,
               vec_get (WavData.channel2 x) index0 = Done s0
               /\ vec_get (WavData.channel2 x) (resample_index1 x index0)
                  = Done s1))
  /\ (bit_width T <= 32 ->
      forall newNumSamples : Z,
        resample_newNumSamples x new_sample_rate = Done newNumSamples ->
        exists y,
          resample T x new_sample_rate = Done y
          /\ WavData.num_samples y = newNumSamples
          /\ forall i index0 : Z,
               0 <= i < newNumSamples ->
               resample_index0 (resample_ratio x new_sample_rate) i
               = Done index0 ->
               (exists s0 s1 v,
                  vec_get (WavData.channel1 x) index0 = Done s0
                  /\ vec_get (WavData.channel1 x) (resample_index1 x index0)
                     = Done s1
                  /\ vec_get (WavData.channel1 y) i = Done v
                  /\ Z.min s0 s1 <= v <= Z.max s0 s1
                  /\ (index0 = WavData.num_samples x - 1 -> v = s0))
               /\ (WavData.num_channels x = 2 ->
                   exists s0 s1 v,
                     vec_get (WavData.channel2 x) index0 = Done s0
                     /\ vec_get (WavData.channel2 x) (resample_index1 x index0)
                        = Done s1
                     /\ vec_get (WavData.channel2 y) i = Done v
                     /\ Z.min s0 s1 <= v <= Z.max s0 s1
                     /\ (index0 = WavData.num_samples x - 1 -> v = s0))).
Proof.
  intros Hx Hn1 Hr0 Hnew.
  split; [now apply resample_not_out_of_bounds|].
  pose proof Hx as (Hr & Hn & Hl1 & Hl2 & _ & _).
  assert (Hclamp : forall index0,
             0 <= index0 <= WavData.num_samples x - 1 ->
             0 <= resample_index1 x index0 <= WavData.num_samples x - 1
             /\ (index0 = WavData.num_samples x - 1 ->
                 resample_index1 x index0 = index0)).
  { intros index0 H0. unfold resample_index1. rewrite u32_small by lia.
    destruct (Z.ltb_spec (index0 + 1) (WavData.num_samples x)); split; lia. }
  assert (Hget : forall (c : list Z) (j : Z),
             length c = Z.to_nat (WavData.num_samples x) ->
             0 <= j <= WavData.num_samples x - 1 ->
             vec_get c j = Done (nth (Z.to_nat j) c 0)).
  { intros c j Hl Hj.
    rewrite <- (Z2Nat.id j) at 1 by lia. apply vec_get_in_range. lia. }
  split.
  - intros newNumSamples i Hnum Hi.
    destruct (resample_index0_in_bounds x new_sample_rate newNumSamples i
                ltac:(lia) ltac:(lia) Hnew Hnum Hi) as (index0 & E & H0).
    exists index0. split; [exact E|]. split; [exact H0|].
    destruct (Hclamp index0 H0) as [H1 Hc].
    split; [exact H1|]. split; [exact Hc|]. split.
    + eexists. eexists. split; apply Hget; assumption.
    + intro H2. specialize (Hl2 H2).
      eexists. eexists. split; apply Hget; assumption.
  - intros Hw newNumSamples Hnum.
    assert (Hn' : 0 <= newNumSamples < 2 ^ 32).
    { pose proof Hnum as H. apply cast_to_in_range in H. destruct H as [H1 H2].
      change (numeric_min uint32_t) with 0 in H1.
      change (numeric_max uint32_t) with 4294967295 in H2.
      simpl (2 ^ 32). lia. }
    set (ratio := resample_ratio x new_sample_rate).
    set (N := Z.to_nat newNumSamples).
    set (between := fun (c : list Z) (index0 v : Z) =>
           Z.min (nth (Z.to_nat index0) c 0)
                 (nth (Z.to_nat (resample_index1 x index0)) c 0)
           <= v
           <= Z.max (nth (Z.to_nat index0) c 0)
                    (nth (Z.to_nat (resample_index1 x index0)) c 0)).
    set (Inv := fun (j : nat) (ch : list Z * list Z) =>
           length (fst ch) = N
           /\ (WavData.num_channels x = 2 -> length (snd ch) = N)
           /\ (forall (i : nat) (index0 : Z), (i < j)%nat ->
                 resample_index0 ratio (Z.of_nat i) = Done index0 ->
                 exists v, nth_error (fst ch) i = Some v
                           /\ between (WavData.channel1 x) index0 v)
           /\ (WavData.num_channels x = 2 ->
               forall (i : nat) (index0 : Z), (i < j)%nat ->
                 resample_index0 ratio (Z.of_nat i) = Done index0 ->
                 exists v, nth_error (snd ch) i = Some v
                           /\ between (WavData.channel2 x) index0 v)).
    unfold resample. rewrite Hnum. cbn [bind]. fold N ratio.
    destruct (for_loop_indexed Inv (resample_body T x ratio) N 0
                (resize 0 (WavData.channel1 x) N,
                 if WavData.num_channels x =? 2
                 then resize 0 (WavData.channel2 x) N
                 else WavData.channel2 x))
      as (ch & Ech & Hc1 & Hc2 & Ho1 & Ho2).
    + unfold Inv. cbn [fst snd].
      split; [apply length_resize|]. split.
      * intros ->. cbn [Z.eqb Pos.eqb]. apply length_resize.
      * split; [intros i index0 Hi; lia|intros _ i index0 Hi; lia].
    + intros j [c1 c2] Hj (Hc1 & Hc2 & Ho1 & Ho2). cbn [fst snd] in *.
      destruct (resample_body_traced T x new_sample_rate newNumSamples j c1 c2
                  Hw Hx ltac:(lia) Hn1 Hnew Hnum ltac:(subst N; lia) Hc1 Hc2)
        as (q & v1 & v2 & Eq & Hq & Hb1 & Hb2 & Ebody).
      fold ratio in Eq, Ebody. rewrite Ebody.
      eexists. split; [reflexivity|]. unfold Inv. cbn [fst snd].
      split; [rewrite length_set; lia|]. split.
      * intros E2. rewrite E2. cbn [Z.eqb Pos.eqb].
        rewrite length_set; [exact (Hc2 E2)|rewrite (Hc2 E2); lia].
      * split.
        -- intros i index0 Hi Ei. rewrite nth_error_set by lia.
           destruct (Nat.eqb_spec i j) as [->|Hne].
           ++ rewrite Eq in Ei. injection Ei as <-.
              exists v1. split; [reflexivity|exact Hb1].
           ++ apply Ho1; [lia|exact Ei].
        -- intros E2 i index0 Hi Ei. rewrite E2. cbn [Z.eqb Pos.eqb].
           rewrite nth_error_set by (rewrite (Hc2 E2); lia).
           destruct (Nat.eqb_spec i j) as [->|Hne].
           ++ rewrite Eq in Ei. injection Ei as <-.
              exists v2. split; [reflexivity|exact (Hb2 E2)].
           ++ apply (Ho2 E2); [lia|exact Ei].
    + cbn [Z.of_nat] in Ech. rewrite Ech. cbn [bind].
      eexists. split; [reflexivity|].
      cbn [WavData.num_samples WavData.channel1 WavData.channel2].
      split; [reflexivity|].
      intros i index0 Hi Ei.
      destruct (resample_index0_in_bounds x new_sample_rate newNumSamples i
                  ltac:(lia) ltac:(lia) Hnew Hnum Hi) as (q & Eq & H0).
      fold ratio in Eq. rewrite Ei in Eq. injection Eq as <-.
      destruct (Hclamp index0 H0) as [H1 Hc].
      assert (Ei' : resample_index0 ratio (Z.of_nat (Z.to_nat i))
                    = Done index0) by (rewrite Z2Nat.id by lia; exact Ei).
      assert (Hlast : forall c v,
                between c index0 v ->
                index0 = WavData.num_samples x - 1 ->
                v = nth (Z.to_nat index0) c 0).
      { intros c v Hb E. unfold between in Hb. rewrite (Hc E) in Hb. lia. }
      split.
      * destruct (Ho1 (Z.to_nat i) index0 ltac:(subst N; lia) Ei')
          as (v & Ev & Hb).
        exists (nth (Z.to_nat index0) (WavData.channel1 x) 0),
               (nth (Z.to_nat (resample_index1 x index0))
                    (WavData.channel1 x) 0), v.
        split; [now apply Hget|]. split; [now apply Hget|].
        split; [unfold vec_get; now rewrite Ev|].
        split; [exact Hb|now apply Hlast].
      * intro E2.
        destruct (Ho2 E2 (Z.to_nat i) index0 ltac:(subst N; lia) Ei')
          as (v & Ev & Hb).
        exists (nth (Z.to_nat index0) (WavData.channel2 x) 0),
               (nth (Z.to_nat (resample_index1 x index0))
                    (WavData.channel2 x) 0), v.
        split; [apply Hget; [exact (Hl2 E2)|exact H0]|].
        split; [apply Hget; [exact (Hl2 E2)|exact H1]|].
        split; [unfold vec_get; now rewrite Ev|].
        split; [exact Hb|now apply Hlast].
Qed.

Lemma resample_reads_in_bounds_witness :
  resample int16_t mono16_channels 16000 <> Undefined OutOfBounds
  /\ (forall newNumSamples i : Z,
       resample_newNumSamples mono16_channels 16000 = Done newNumSamples ->
       0 <= i < newNumSamples ->
       exists index0,
         resample_index0 (resample_ratio mono16_channels 16000) i
         = Done index0
         /\ 0 <= index0 <= WavData.num_samples mono16_channels - 1
         /\ 0 <= resample_index1 mono16_channels index0
            <= WavData.num_samples mono16_channels - 1
         /\ (index0 = WavData.num_samples mono16_channels - 1 ->
             resample_index1 mono16_channels index0 = index0)
         /\ (exists s0 s1,
               vec_get (WavData.channel1 mono16_channels) index0 = Done s0
               /\ vec_get (WavData.channel1 mono16_channels)
                    (resample_index1 mono16_channels index0) = Done s1)
         /\ (WavData.num_channels mono16_channels = 2 ->
             exists s0 s1,
               vec_get (WavData.channel2 mono16_channels) index0 = Done s0
               /\ vec_get (WavData.channel2 mono16_channels)
                    (resample_index1 mono16_channels index0) = Done s1))
  /\ (bit_width int16_t <= 32 ->
      forall newNumSamples : Z,
        resample_newNumSamples mono16_channels 16000 = Done newNumSamples ->
        exists y,
          resample int16_t mono16_channels 16000 = Done y
          /\ WavData.num_samples y = newNumSamples
          /\ forall i index0 : Z,
               0 <= i < newNumSamples ->
               resample_index0 (resample_ratio mono16_channels 16000) i
               = Done index0 ->
               (exists s0 s1 v,
                  vec_get (WavData.channel1 mono16_channels) index0 = Done s0
                  /\ vec_get (WavData.channel1 mono16_channels)
                       (resample_index1 mono16_channels index0) = Done s1
                  /\ vec_get (WavData.channel1 y) i = Done v
                  /\ Z.min s0 s1 <= v <= Z.max s0 s1
                  /\ (index0 = WavData.num_samples mono16_channels - 1 ->
                      v = s0))
               /\ (WavData.num_channels mono16_channels = 2 ->
                   exists s0 s1 v,
                     vec_get (WavData.channel2 mono16_channels) index0
                     = Done s0
                     /\ vec_get (WavData.channel2 mono16_channels)
                          (resample_index1 mono16_channels index0) = Done s1
                     /\ vec_get (WavData.channel2 y) i = Done v
                     /\ Z.min s0 s1 <= v <= Z.max s0 s1
                     /\ (index0 = WavData.num_samples mono16_channels - 1 ->
                         v = s0))).
Proof.
  apply (resample_reads_in_bounds int16_t mono16_channels 16000);
    [exact typed_mono16_channels|simpl; lia|discriminate|simpl; lia].
Defined.

(** C6 as stated does not hold: the last output sample need not repeat the
    last input sample.  From 8000 Hz to 4000 Hz the four samples
    [0, 1000, -1000, 32767] give two; the last turn reads indices 2 and 3,
    [index1] is not clamped, and the last output sample is [-1000], the
    input sample at index 2, while the last input sample is [32767]. *)
Lemma resample_last_output_not_last_input :
  typed int16_t mono16_channels
  /\ 1 <= WavData.num_samples mono16_channels
  /\ WavData.sample_rate mono16_channels <> 0
  /\ resample_newNumSamples mono16_channels 4000 = Done 2
  /\ resample_index0 (resample_ratio mono16_channels 4000) 1 = Done 2
  /\ resample_index1 mono16_channels 2 = 3
  /\ vec_get (WavData.channel1 mono16_channels)
       (WavData.num_samples mono16_channels - 1) = Done 32767
  /\ exists y,
       resample int16_t mono16_channels 4000 = Done y
       /\ WavData.channel1 y = [0; -1000]
       /\ vec_get (WavData.channel1 y) 1 = Done (-1000).
Proof.
  split; [exact typed_mono16_channels|].
  split; [simpl; lia|]. split; [discriminate|].
  split; [vm_compute; reflexivity|]. split; [vm_compute; reflexivity|].
  split; [reflexivity|]. split; [reflexivity|].
  eexists. split; [vm_compute; reflexivity|]. split; reflexivity.
Qed.
